(* ===== verification/_CoqProject ===== *)
-Q . S2P
Prelude.v
Float32.v
Core.v
NetAddr.v
Externs.v
Buffers.v
Packet.v
Command.v
Codec.v
CodecFacts.v
Framing.v
SequenceBuffer.v
Congestion.v
Ack.v
Bandwidth.v
Channel.v
ChannelState.v
FragmentBuffer.v
Unsequenced.v
FlowControl.v
Pmtu.v
PeerParts.v
Peer.v
Fragmenter.v
PeerEncoder.v
CommandProcessor.v
Session.v
PeerSession.v
SessionManager.v
Sockets.v
Host.v
Throughput.v
ThroughputFacts.v
PeerFacts.v
FragmenterFacts.v
EncoderFacts.v
ProcessorFacts.v
Parcels.v
Delivery.v
ManagerFacts.v
HostFacts.v
SessionEvents.v
PollFacts.v
Isolation.v
HostSystem.v
BindFacts.v
Budget.v
Robustness.v
HostSurvival.v
HostDelivery.v
Crowds.v
UnsequencedDelivery.v
Conversation.v
Dialogue.v
Correspondence.v
EchoExample.v
Testing.v
ProtocolTests.v
CoreTests.v
PeerPartsTests.v
PeerTests.v
ProcessorTests.v
HostTests.v
IntegrationTests.v
