(* ===== verification/Prelude.v ===== *)
(** * Bitfold: a verified model of the reliable-UDP library

    This library models the Rust workspace under [src/crates] and proves what its parts
    promise.  Bitfold sends user packets over UDP with chosen guarantees: a [Host]
    ([bitfold-host]) polls a socket and keeps one session per remote address; a session is a
    [Peer] ([bitfold-peer]), which turns user packets into protocol commands, queues them,
    packs them into datagrams, and interprets the commands that arrive; the wire format, the
    acknowledgments and congestion control are in [bitfold-protocol]; configuration, buffers
    and the [Socket] and [Interceptor] traits in [bitfold-core].

    ** How the program is modelled

    - Integers are [Z] with their width written out.  The workspace compiles with
      [overflow-checks = true] and [panic = abort], so [+], [-] and [*] on machine integers are
      [add_u32], [sub_usize], ..., which return [None], a panic, out of range; [wrapping_*] and
      [saturating_*] are as in Rust.  An [option] result of a definition always means that.
    - [Result] is [result]; [std::io::Error] is a kind and a message.
    - [Instant] and [Duration] are nanoseconds; every clock reading is an argument.
    - [f32] is binary32 of [SpecFloat] (Float32); [HashMap] is [gmap]; where the iteration
      order of a map matters it is a parameter.
    - The random generator is an arbitrary stream of draws, threaded explicitly.
    - A method with [&mut self] of [Peer] is a computation of the monad [PeerM], which threads
      the peer and the generator and may panic.
    - [byteorder], [crc32fast], [flate2] and [lz4] are not part of the repository: they are
      the fields of the class [Externs], and what a theorem needs of them is one of the law
      classes [ByteOrderLaws], [CrcLaws], [ZlibLaws], [Lz4Laws], [ByteStreamLaws].
      [Externs.Sample] is a concrete instance, used by the witnesses only.
    - UDP sockets, name resolution and the clock are the classes [UdpSocket],
      [ToSocketAddrs] and [Clock]; every theorem holds for all their instances.  The two
      sockets of the witnesses are lists of waiting and of sent datagrams
      ([HostSystem.Loopback]).

    ** Files, and the code each models

    - Prelude: machine integers, results, panicking folds, the generator, tactics, hints.
    - Float32: binary32 arithmetic.  Externs: the third-party crates.
    - Core: [bitfold-core/src/config.rs], [lib.rs], [error.rs], [either.rs].
    - NetAddr: the textual addresses of the Standard Library, parsed and formatted, which
      [utilities.rs] and the examples use.
    - Buffers: [shared.rs], [packet_pool.rs].
    - Packet, Command: [bitfold-protocol/src/packet.rs], [command.rs].
    - Codec: [command_codec/encoder.rs], [decoder.rs]; both copies of the encoder.
      Framing: [checksum.rs], [compression.rs].
    - SequenceBuffer, Ack, Congestion, Channel, Bandwidth: the files of the same name in
      [bitfold-protocol/src]; Bandwidth also [bitfold-peer/src/bandwidth_throttle.rs].
    - ChannelState, FragmentBuffer, Unsequenced, FlowControl, Pmtu: [channel_state.rs],
      [fragment_buffer.rs], [unsequenced.rs], [flow_control.rs], [pmtu_discovery.rs] of
      [bitfold-peer/src]; PeerParts: [peer_state.rs], [command_queue.rs], [statistics.rs].
    - Peer, Fragmenter, PeerEncoder, CommandProcessor: [bitfold-peer/src/peer/mod.rs],
      [fragmenter.rs], [encoder.rs], [command_processor.rs].
    - Session: the trait of [bitfold-host/src/session.rs] as a class; PeerSession: its
      implementation by peers ([peer_session.rs]); SessionManager: [session_manager.rs],
      generic in the session, the socket and the interceptor.
    - Sockets: the socket options and the wrapped socket of [socket.rs], [time.rs], and
      [bitfold-core/src/utilities.rs]; Host: the rest of [socket.rs]; Throughput:
      [throughput.rs].
    - EchoExample: the programs [examples/server.rs] and [examples/client.rs], whose loops are
      cut after a number of rounds.
    - Testing, and ProtocolTests, CoreTests, PeerPartsTests, PeerTests, ProcessorTests,
      HostTests, IntegrationTests: the unit tests of the crates and [tests/integration.rs], each
      test a definition of its name.
    - CodecFacts, PeerFacts, FragmenterFacts, EncoderFacts, ProcessorFacts, Parcels, Delivery,
      UnsequencedDelivery, Conversation, ManagerFacts, HostFacts, SessionEvents, PollFacts,
      Isolation, HostSystem, BindFacts, Budget, Robustness, HostSurvival, HostDelivery, Crowds,
      Dialogue, Correspondence, ThroughputFacts: the theorems that relate several of these.

    ** What the theorems show

    - Correspondence: two hosts that know each other and poll in any order, over a network that
      loses nothing and keeps the order ([Dialogue.Network]): of packets without ordering that fit
      the fragment limits at the smallest path size ([Conversation.sayable]), every poll hands its
      application exactly those that the other one has sent since, as long as neither side is
      silent past the idle timeout ([hosts_correspond]), or for ever when both have heartbeats
      ([heartbeats_keep_alive]).  What the applications may say is bounded per window of a
      second, by the bandwidth limits, and not over the whole dialogue ([within_limits]).
      Dialogue is the induction behind both: a host and its side of the connection as a
      [Seat], a round as a step from seat to seat.
    - EchoExample: with the server of the examples on the other side, all packets of this kind that
      a client sends come back to it; the server's loop over the events ends; the address that it prints can be given
      to the client.
    - Conversation: two peers below the hosts, over a network that loses nothing but reorders the
      datagrams of a turn: messages, acknowledgments, heartbeats, answers to them, path probes and
      their replies, for as long as the counters last; each hears the packets of this kind that the
      other said.  It has
      also what one turn spends of the bandwidth windows, and that a window which has passed is
      opened anew.
    - HostDelivery: from application to application over any network.  The datagrams of a packet
      without ordering, within the fragment limits, that one host is told to send are the first its next poll hands to the socket; whatever of
      them arrives, reordered, lost and doubled, the next poll of the other host completes and its
      application is given what the reference assembler makes of the parts.  It composes the
      polls of two managers (PollFacts) with the delivery between two peers (Delivery).
    - Isolation: for any session engine, a poll is an interleaving of separate lives: what an
      address says and the session it has in the end come from its own datagrams, its own user
      events, an update and a question whether it is over.  Crowds applies this to peers:
      delivery from host to host goes on among any number of other sessions and strangers.
    - HostSurvival: no poll of a host ever panics, whatever arrives and whatever the
      application does, until the 64-bit counters run out.  Its parts: Budget and Robustness
      prove that every command, datagram, user packet, update and disconnect takes a peer that
      can pay its price to one that has paid it ([costs]); ManagerFacts states what that means
      for any session engine ([SessionTotal]) and lifts it to a poll.
    - HostSystem: what holds of every reachable host, and which sessions a poll drops and
      reports.  SessionEvents: what a session reports over its life.  BindFacts: what opening
      a host does to the socket, and what each failure gives.
    - Delivery: a reliable or unreliable packet without ordering, within the fragment limits, given
      to an established peer, whole or in fragments, leaves in datagrams of bounded size.  Whatever
      of them arrives, a receiver without unfinished fragments under its number emits what an abstract [assembler] of numbered parts does: the packet, with the same bytes, each
      time all parts have come in.  It composes the fragmenter, the queue, the encoder, checksum
      and compression, the decoder, the command processor and reassembly; Parcels has the
      simulation of an abstract receiver ([Receiver]) that it rests on.
      UnsequencedDelivery: an unsequenced packet leaves in pieces, and whatever the network
      reorders, drops or repeats, exactly the pieces that arrive are delivered, once each.
    - EncoderFacts: a datagram carries the longest prefix of the queue that fits; flushing
      terminates and sends the queue in order, each command once.
    - CodecFacts and Framing: the wire format round-trips, decoding untrusted bytes yields only
      well-formed commands, the two encoders agree, compression is lossless.
    - ProcessorFacts and HostFacts: the connection state machine ([transition]) as a
      specification that every run of a session refines; the outcome of the handshake; what
      can establish a connection; disconnecting.
    - ManagerFacts: the contract of session engines ([SessionLaws], which HostFacts proves of
      peers); a poll terminates and the manager's counters neither overflow nor run below
      zero; the number of sessions per IP address is counted exactly and limited.  PollFacts:
      what a poll keeps, drops and flushes, for any engine.
    - Ack: two handlers that exchange packets agree on exactly what arrived, and losses are
      declared exactly.  ChannelState: ordered delivery under any arrival order.
      FragmentBuffer: reassembly under any order and duplication.  Unsequenced: each group at
      most once within the window's reach.  Congestion, FlowControl, Bandwidth, Pmtu: their
      quantities stay within bounds and adapt, the path search converges.  ThroughputFacts:
      the ticks are counted exactly.
    - PeerFacts and FragmenterFacts: the accounting of waiting data, and what a message
      becomes in the queue, the cases in which it is cut or dropped included.
    - The tests: every unit test and integration test passes on the model, by computation.

    Several lemmas and examples record behaviour that falls short of the code's own
    documentation, among them [ProcessorFacts.handshake_outcome],
    [Delivery.second_ordered_message_is_held], [Delivery.fragment_streams_collide],
    [FragmenterFacts.oversized_data_cut], [Ack.ack_bit_lost_at_wrap],
    [Unsequenced.early_group_delivered_twice], [HostSystem.refused_session_is_heard] and
    [UnsequencedDelivery.empty_unsequenced_packet_lost].

    ** Fuel and bounds

    - [deliver_consecutive] removes a buffered packet per round and gets one round more than
      there are packets.
    - [flush_commands] takes at least one command off the queue per datagram and gets one
      round more than there are commands; [EncoderFacts.flush_sends_queue] shows that it stops
      for a reason of the code.
    - [enqueue_unsequenced] takes at least one byte per round and gets one more than the length.
    - [receive_loop] runs until the socket reports an error; its fuel is an argument, [None]
      when exhausted, and [ManagerFacts.poll_completes] shows that any fuel above the number of
      waiting datagrams is enough.
    - A budget stands for what the 64-bit counters of packets and bytes can still take: a
      peer with budget [k] is [Budget.solvent], a session engine says what it can [afford], and
      a new peer has 2^64 over the largest datagram ([HostSurvival.peer_credit]).  Receiving a
      datagram costs its length and a constant, sending a packet twice its length and a
      constant; no bound on the number of events is assumed otherwise.
    - Delivery and Conversation ask for room within the current window of the bandwidth limits
      ([Bandwidth.spare], [Parcels.recv_room], [EncoderFacts.outgoing]); under the default
      configuration that is about 1300 datagrams per window of a second.  A limit of zero, which
      means none, is always open.  Correspondence and EchoExample follow the windows: the boolean
      [Correspondence.within_limits] adds up, window by window, what the rounds of a script can
      cost at most, so that a dialogue may last until the 64-bit counters are used up.
    - [client_wait] takes the number of rounds of a wait; [EchoExample.client_wait_ends] shows how
      many are enough.
    - Datagrams of at most 1537 bytes hold at most 255 commands, the most the count byte can
      say; the theorems about whole datagrams assume a receive buffer of at most that size (the
      default is 1452).

    ** What is not modelled

    The operating system behind the socket and clock classes, the resolver and the reverse
    lookup; sleeping in the polling loop and the examples; logging; the [Debug] implementations
    that no code uses; the scope and flow fields of IPv6 socket addresses, which the code never
    reads; and the re-exporting facade crate.  Reference counting of payloads is modelled as
    sharing immutable bytes, so the one unit test that counts references is left out; the
    crossbeam channels are the queues behind them.

    ** Left for later

    End-to-end delivery of ordered and sequenced packets, where the code's constant sequence
    numbers leave only the first packet to be delivered
    ([Delivery.second_ordered_message_is_held]); long dialogues of more than two hosts, of which
    Crowds treats single packets. *)

From stdpp Require Export base tactics decidable option list numbers strings pretty gmap fin_maps fin_sets sets sorting.
From Stdlib Require Export ZArith Lia ZifyBool.

#[global] Open Scope Z_scope.
#[global] Set Default Goal Selector "!".

(* ------------------------------------------------------------------ *)
(** ** Results                                                          *)
(* ------------------------------------------------------------------ *)

(** Rust's [Result<A, E>]. *)
Inductive result (E A : Type) : Type :=
| Ok (a : A)
| Err (e : E).
Arguments Ok {E A} a.
Arguments Err {E A} e.

#[export] Instance result_ret {E} : MRet (result E) := fun A a => Ok a.
#[export] Instance result_bind {E} : MBind (result E) := fun A B f r =>
  match r with Ok a => f a | Err e => Err e end.
#[export] Instance result_fmap {E} : FMap (result E) := fun A B f r =>
  match r with Ok a => Ok (f a) | Err e => Err e end.

(** [Result::map_err]. *)
Definition map_err {E F A} (f : E -> F) (r : result E A) : result F A :=
  match r with Ok a => Ok a | Err e => Err (f e) end.

Definition is_ok {E A} (r : result E A) : bool :=
  match r with Ok _ => true | Err _ => false end.

(* ------------------------------------------------------------------ *)
(** ** Machine integers                                                 *)
(* ------------------------------------------------------------------ *)

(** A [w]-bit unsigned integer is a [Z] in [[0, 2^w)]. *)
Definition u8_ok (x : Z) : Prop := 0 <= x < 256.
Definition u16_ok (x : Z) : Prop := 0 <= x < 65536.
Definition u32_ok (x : Z) : Prop := 0 <= x < 4294967296.
Definition u64_ok (x : Z) : Prop := 0 <= x < 18446744073709551616.

Definition u8_max : Z := 255.
Definition u16_max : Z := 65535.
Definition u32_max : Z := 4294967295.
Definition u64_max : Z := 18446744073709551615.

(** [x as u8], [x as u16], [x as u32], [x as u64] on an unsigned [x]. *)
Definition as_u8 (x : Z) : Z := x mod 256.
Definition as_u16 (x : Z) : Z := x mod 65536.
Definition as_u32 (x : Z) : Z := x mod 4294967296.
Definition as_u64 (x : Z) : Z := x mod 18446744073709551616.

(** [u16::wrapping_add] and [u16::wrapping_sub]. *)
Definition wrapping_add16 (a b : Z) : Z := (a + b) mod 65536.
Definition wrapping_sub16 (a b : Z) : Z := (a - b) mod 65536.

(** [saturating_sub] (any width) and [u32::saturating_add]. *)
Definition saturating_sub (a b : Z) : Z := Z.max 0 (a - b).
Definition saturating_add32 (a b : Z) : Z := Z.min u32_max (a + b).

(** The plain operators [+], [-], [*] panic on overflow: the workspace builds with
    [overflow-checks = true] in release (and by default in dev). [None] is the panic. *)
Definition checked (max x : Z) : option Z :=
  if (0 <=? x) && (x <=? max) then Some x else None.
Definition add_u32 (a b : Z) : option Z := checked u32_max (a + b).
Definition sub_u32 (a b : Z) : option Z := checked u32_max (a - b).
Definition mul_u32 (a b : Z) : option Z := checked u32_max (a * b).
Definition add_u64 (a b : Z) : option Z := checked u64_max (a + b).
Definition sub_u64 (a b : Z) : option Z := checked u64_max (a - b).
Definition mul_u64 (a b : Z) : option Z := checked u64_max (a * b).
(** [usize] is 64 bits wide. *)
Definition add_usize := add_u64.
Definition sub_usize := sub_u64.

(** The length of a byte vector as a [usize]. *)
Definition zlen {A} (l : list A) : Z := Z.of_nat (length l).

Definition bytes_ok (l : list Z) : Prop := Forall u8_ok l.

(* ------------------------------------------------------------------ *)
(** ** Time                                                             *)
(* ------------------------------------------------------------------ *)

(** [std::time::Instant] and [Duration] as nanosecond counts. *)
Notation Instant := Z (only parsing).
Notation Duration := Z (only parsing).

Definition from_millis (ms : Z) : Duration := ms * 1000000.
Definition from_secs (s : Z) : Duration := s * 1000000000.
(** [Duration::as_millis] truncates. *)
Definition as_millis (d : Duration) : Z := d / 1000000.
(** [Instant::duration_since] saturates at zero. *)
Definition duration_since (now earlier : Instant) : Duration := saturating_sub now earlier.
(** [Duration + Duration] panics when the seconds leave [u64]. *)
Definition duration_max : Duration := 18446744073709551616 * 1000000000 - 1.
Definition add_duration (a b : Duration) : option Duration := checked duration_max (a + b).

(* ------------------------------------------------------------------ *)
(** ** Randomness                                                       *)
(* ------------------------------------------------------------------ *)

(** The thread-local generator of the [rand] crate, seen by its consumer: an arbitrary
    stream of draws.  Every theorem quantifies over the stream. *)
Definition Rng := nat -> Z.
Definition draw (width : Z) (r : Rng) : Z * Rng := (r 0%nat mod 2 ^ width, fun n => r (S n)).
Definition random_u16 : Rng -> Z * Rng := draw 16.
Definition random_u32 : Rng -> Z * Rng := draw 32.
(** [fill_bytes] on a buffer of [n] bytes. *)
Definition fill_bytes (n : nat) (r : Rng) : list Z * Rng :=
  ((fun i => r i mod 256) <$> seq 0 n, fun i => r (n + i)%nat).

(* ------------------------------------------------------------------ *)
(** ** Automation                                                       *)
(* ------------------------------------------------------------------ *)

(** Linear arithmetic with division and modulo by constants. *)
Ltac zmod := Z.to_euclidean_division_equations; lia.

(** Unfolds the machine-integer vocabulary. *)
Ltac unfold_ints :=
  unfold u8_ok, u16_ok, u32_ok, u64_ok, u8_max, u16_max, u32_max, u64_max,
    as_u8, as_u16, as_u32, as_u64, wrapping_add16, wrapping_sub16, saturating_sub,
    saturating_add32, zlen in *.
Ltac int_solve := unfold_ints; zmod.

(** Splits every conjunction in sight and keeps the goal's shape otherwise. *)
Ltac split_all := repeat match goal with
  | H : _ /\ _ |- _ => destruct H
  | |- _ /\ _ => split
  end.

Create HintDb bitfold discriminated.
Create Rewrite HintDb bitfold_rw.

(* ------------------------------------------------------------------ *)
(** ** Lemmas on results and checked arithmetic                         *)
(* ------------------------------------------------------------------ *)

Lemma bind_Ok {E A B} (r : result E A) (f : A -> result E B) b :
  r ≫= f = Ok b <-> exists a, r = Ok a /\ f a = Ok b.
Proof. destruct r as [a|e]; simpl; naive_solver. Qed.

Lemma map_err_Ok {E F A} (g : E -> F) (r : result E A) a :
  map_err g r = Ok a <-> r = Ok a.
Proof. destruct r; simpl; naive_solver. Qed.

Lemma checked_Some max x y : checked max x = Some y <-> x = y /\ 0 <= x <= max.
Proof.
  unfold checked. destruct (_ && _) eqn:H; split.
  - intros [= <-]. split; [done|]. lia.
  - intros [-> _]. done.
  - done.
  - intros [_ ?]. lia.
Qed.

Lemma checked_in max x : 0 <= x <= max -> checked max x = Some x.
Proof. intros. by apply checked_Some. Qed.

Lemma checked_None max x : checked max x = None <-> x < 0 \/ max < x.
Proof.
  unfold checked. destruct (_ && _) eqn:H; split; try done; intros; lia.
Qed.

(* ------------------------------------------------------------------ *)
(** ** Lemmas on machine integers                                       *)
(* ------------------------------------------------------------------ *)

Lemma wrapping_add16_ok a b : u16_ok (wrapping_add16 a b).
Proof. int_solve. Qed.
Lemma wrapping_sub16_ok a b : u16_ok (wrapping_sub16 a b).
Proof. int_solve. Qed.
Lemma as_u8_ok x : u8_ok (as_u8 x).
Proof. int_solve. Qed.
Lemma as_u16_ok x : u16_ok (as_u16 x).
Proof. int_solve. Qed.
Lemma as_u32_ok x : u32_ok (as_u32 x).
Proof. int_solve. Qed.
Lemma as_u8_id x : u8_ok x -> as_u8 x = x.
Proof. int_solve. Qed.
Lemma as_u16_id x : u16_ok x -> as_u16 x = x.
Proof. int_solve. Qed.
Lemma as_u32_id x : u32_ok x -> as_u32 x = x.
Proof. int_solve. Qed.
Lemma wrapping_sub16_self a : wrapping_sub16 a a = 0.
Proof. unfold wrapping_sub16. by rewrite Z.sub_diag. Qed.
Lemma wrapping_sub16_add a b : u16_ok a -> wrapping_add16 (wrapping_sub16 a b) b = a.
Proof. int_solve. Qed.
Lemma duration_since_nonneg a b : 0 <= duration_since a b.
Proof. unfold duration_since. int_solve. Qed.

#[export] Hint Resolve wrapping_add16_ok wrapping_sub16_ok as_u8_ok as_u16_ok as_u32_ok
  duration_since_nonneg : bitfold.

(* ------------------------------------------------------------------ *)
(** ** Lemmas on byte vectors                                           *)
(* ------------------------------------------------------------------ *)

Lemma zlen_nil {A} : zlen (@nil A) = 0.
Proof. done. Qed.
Lemma zlen_cons {A} (x : A) l : zlen (x :: l) = 1 + zlen l.
Proof. unfold zlen. simpl. lia. Qed.
Lemma zlen_app {A} (l k : list A) : zlen (l ++ k) = zlen l + zlen k.
Proof. unfold zlen. rewrite length_app. lia. Qed.
Lemma zlen_nonneg {A} (l : list A) : 0 <= zlen l.
Proof. unfold zlen. lia. Qed.
Lemma zlen_to_nat {A} (l : list A) : Z.to_nat (zlen l) = length l.
Proof. unfold zlen. lia. Qed.

Create Rewrite HintDb zlen.
#[export] Hint Rewrite @zlen_nil @zlen_cons @zlen_app : zlen.
#[export] Hint Resolve zlen_nonneg : bitfold.

(** Computes the length of an explicitly built vector. *)
Ltac zlen_solve := autorewrite with zlen in *; lia.

Lemma bytes_ok_app l k : bytes_ok (l ++ k) <-> bytes_ok l /\ bytes_ok k.
Proof. apply Forall_app. Qed.
Lemma bytes_ok_nil : bytes_ok [].
Proof. constructor. Qed.
Lemma bytes_ok_cons x l : bytes_ok (x :: l) <-> u8_ok x /\ bytes_ok l.
Proof. apply Forall_cons. Qed.
Lemma bytes_ok_take n l : bytes_ok l -> bytes_ok (take n l).
Proof. apply Forall_take. Qed.
Lemma bytes_ok_drop n l : bytes_ok l -> bytes_ok (drop n l).
Proof. apply Forall_drop. Qed.
#[export] Hint Resolve bytes_ok_nil bytes_ok_take bytes_ok_drop : bitfold.

(** Splits a goal about an explicitly built byte vector into its pieces. *)
Ltac bytes_solve :=
  repeat (simpl; first [apply bytes_ok_app; split | apply bytes_ok_cons; split]);
  simpl; eauto with bitfold.

(** The sum of a measure over a list, used by the accounting invariants. *)
Definition zsum {A} (f : A -> Z) (l : list A) : Z := foldr (fun x acc => f x + acc) 0 l.

Lemma zsum_cons {A} (f : A -> Z) x l : zsum f (x :: l) = f x + zsum f l.
Proof. done. Qed.
Lemma zsum_app {A} (f : A -> Z) l k : zsum f (l ++ k) = zsum f l + zsum f k.
Proof. induction l as [|x l IH]; simpl; [done|]. rewrite IH. lia. Qed.
Lemma zsum_nonneg {A} (f : A -> Z) l : (forall x, 0 <= f x) -> 0 <= zsum f l.
Proof. intros Hf. induction l as [|x l IH]; simpl; [done|]. specialize (Hf x). lia. Qed.

(** A fold that may panic, threading a state through a list of steps. *)
Fixpoint foldM {A S} (f : S -> A -> option S) (s : S) (l : list A) : option S :=
  match l with
  | [] => Some s
  | x :: l => s' ← f s x; foldM f s' l
  end.

Lemma foldM_app {A S} (f : S -> A -> option S) s l k :
  foldM f s (l ++ k) = (s' ← foldM f s l; foldM f s' k).
Proof.
  revert s. induction l as [|x l IH]; intros s; simpl; [done|].
  destruct (f s x); simpl; [apply IH | done].
Qed.

Lemma foldM_invariant {A S} (P : S -> Prop) (f : S -> A -> option S) s l s' :
  (forall s x s', P s -> x ∈ l -> f s x = Some s' -> P s') ->
  P s -> foldM f s l = Some s' -> P s'.
Proof.
  revert s. induction l as [|x l IH]; intros s Hstep HP; simpl; [by intros [= <-]|].
  destruct (f s x) as [s1|] eqn:E; simpl; [|done].
  apply IH; [|by eapply Hstep; [| apply list_elem_of_here |]].
  intros s2 y s3 Hs2 Hy. apply Hstep; [done|by apply list_elem_of_further].
Qed.

(** Filtering a map by a boolean test on the keys. *)
Lemma lookup_filter_key {A} (f : Z -> bool) (m : gmap Z A) k :
  filter (fun p => f p.1 = false) m !! k = if f k then None else m !! k.
Proof.
  destruct (f k) eqn:E.
  - apply map_lookup_filter_None. right. intros x _. simpl. congruence.
  - destruct (m !! k) eqn:Ek.
    + by apply map_lookup_filter_Some.
    + apply map_lookup_filter_None. by left.
Qed.
