(* ===== verification/Float32.v ===== *)
(** IEEE 754 binary32 arithmetic ([f32]) as the congestion control and the utilisation
    figures use it: the kernel-computable reference floats of the Standard Library at
    precision 24 and exponent bound 128, round to nearest even. *)

From S2P Require Import Prelude.
From Stdlib Require Export SpecFloat.

Definition f32 : Set := spec_float.

(** [x as f32] for an unsigned integer [x]. *)
Definition f32_of_Z (x : Z) : f32 := binary_normalize 24 128 x 0 false.

Definition f32_add : f32 -> f32 -> f32 := SFadd 24 128.
Definition f32_sub : f32 -> f32 -> f32 := SFsub 24 128.
Definition f32_mul : f32 -> f32 -> f32 := SFmul 24 128.
Definition f32_div : f32 -> f32 -> f32 := SFdiv 24 128.
Definition f32_abs : f32 -> f32 := SFabs.
Definition f32_ltb : f32 -> f32 -> bool := SFltb.
Definition f32_gtb (x y : f32) : bool := SFltb y x.
Definition f32_eqb : f32 -> f32 -> bool := SFeqb.

(** A decimal literal [p / q]: the division is correctly rounded, and so is the literal. *)
Definition f32_lit (p q : Z) : f32 := f32_div (f32_of_Z p) (f32_of_Z q).
Definition f32_zero : f32 := f32_of_Z 0.
Definition f32_one : f32 := f32_of_Z 1.

Definition is_nan (x : f32) : bool := match x with S754_nan => true | _ => false end.

(** [f32::min], [f32::max]: a NaN operand yields the other one. *)
Definition f32_min (x y : f32) : f32 :=
  if is_nan x then y else if is_nan y then x else if f32_ltb y x then y else x.
Definition f32_max (x y : f32) : f32 :=
  if is_nan x then y else if is_nan y then x else if f32_ltb x y then y else x.
(** [f32::clamp(0.0, 1.0)]: a NaN is kept. *)
Definition f32_clamp01 (x : f32) : f32 :=
  if f32_ltb x f32_zero then f32_zero else if f32_ltb f32_one x then f32_one else x.

(** [x as u64]: truncation towards zero, saturating; NaN and negatives go to 0. *)
Definition f32_to_u64 (x : f32) : Z :=
  match x with
  | S754_finite false m e => Z.min u64_max (Z.shiftl (Zpos m) e)
  | S754_infinity false => u64_max
  | _ => 0
  end.

Lemma f32_to_u64_ok x : u64_ok (f32_to_u64 x).
Proof.
  unfold u64_ok, u64_max. destruct x as [[]|[]| |[] m e]; simpl; unfold u64_max; try lia.
  pose proof (proj2 (Z.shiftl_nonneg (Z.pos m) e)). lia.
Qed.

Lemma f32_clamp01_range x : f32_ltb (f32_clamp01 x) f32_zero = false
  /\ f32_ltb f32_one (f32_clamp01 x) = false.
Proof.
  unfold f32_clamp01. destruct (f32_ltb x f32_zero) eqn:E0; [done|].
  destruct (f32_ltb f32_one x) eqn:E1; done.
Qed.

(** Literals the sources use. *)
Example f32_lit_01 : f32_lit 1 10 = S754_finite false 13421773 (-27).
Proof. reflexivity. Qed.
