(* ===== verification/Core.v ===== *)
(** [bitfold-core]: the constants ([lib.rs]), the configuration ([config.rs]), the error
    types ([error.rs]), [Either] ([either.rs]), and the addresses of [std::net]. *)

From S2P Require Import Prelude Float32.

(* ------------------------------------------------------------------ *)
(** ** [constants]                                                      *)
(* ------------------------------------------------------------------ *)

Definition FRAGMENT_HEADER_SIZE : Z := 4.
Definition ACKED_PACKET_HEADER : Z := 8.
Definition ARRANGING_PACKET_HEADER : Z := 3.
Definition STANDARD_HEADER_SIZE : Z := 5.
Definition DEFAULT_ORDERING_STREAM : Z := 255.
Definition DEFAULT_SEQUENCING_STREAM : Z := 255.
Definition MAX_FRAGMENTS_DEFAULT : Z := 16.
Definition FRAGMENT_SIZE_DEFAULT : Z := 1024.
Definition DEFAULT_MTU : Z := 1452.
Definition PROTOCOL_VERSION : Z := 3.

(* ------------------------------------------------------------------ *)
(** ** [config.rs]                                                      *)
(* ------------------------------------------------------------------ *)

Inductive CompressionAlgorithm : Set := CompNone | CompZlib | CompLz4.

#[export] Instance CompressionAlgorithm_eq_dec : EqDecision CompressionAlgorithm.
Proof. solve_decision. Defined.

Record Config : Set := mkConfig {
  blocking_mode : bool;
  idle_connection_timeout : Duration;
  heartbeat_interval : option Duration;
  max_packet_size : Z;
  max_fragments : Z;
  fragment_size : Z;
  fragment_reassembly_buffer_size : Z;
  receive_buffer_max_size : Z;
  rtt_smoothing_factor : f32;
  rtt_max_value : Z;
  socket_event_buffer_size : Z;
  socket_polling_timeout : option Duration;
  max_packets_in_flight : Z;
  max_unestablished_connections : Z;
  channel_count : Z;
  incoming_bandwidth_limit : Z;
  outgoing_bandwidth_limit : Z;
  use_checksums : bool;
  compression : CompressionAlgorithm;
  compression_threshold : Z;
  use_connection_handshake : bool;
  max_waiting_data : Z;
  use_advanced_throttling : bool;
  throttle_scale : Z;
  throttle_acceleration : Z;
  throttle_deceleration : Z;
  throttle_interval : Z;
  use_window_flow_control : bool;
  initial_window_size : Z;
  min_window_size : Z;
  max_window_size : Z;
  max_duplicate_peers : Z;
  socket_recv_buffer_size : option Z;
  socket_send_buffer_size : option Z;
  socket_ttl : option Z;
  socket_broadcast : bool;
  use_pmtu_discovery : bool;
  pmtu_min : Z;
  pmtu_max : Z;
  pmtu_interval_ms : Z;
  pmtu_converge_threshold : Z
}.

(** [Config::default()]. *)
Definition Config_default : Config := {|
  blocking_mode := false;
  idle_connection_timeout := from_secs 5;
  heartbeat_interval := None;
  max_packet_size := MAX_FRAGMENTS_DEFAULT * FRAGMENT_SIZE_DEFAULT;
  max_fragments := as_u8 MAX_FRAGMENTS_DEFAULT;
  fragment_size := FRAGMENT_SIZE_DEFAULT;
  fragment_reassembly_buffer_size := 64;
  receive_buffer_max_size := DEFAULT_MTU;
  rtt_smoothing_factor := f32_lit 1 10;
  rtt_max_value := 250;
  socket_event_buffer_size := 1024;
  socket_polling_timeout := Some (from_millis 1);
  max_packets_in_flight := 512;
  max_unestablished_connections := 50;
  channel_count := 1;
  incoming_bandwidth_limit := 2097152;
  outgoing_bandwidth_limit := 2097152;
  use_checksums := true;
  compression := CompNone;
  compression_threshold := 128;
  use_connection_handshake := true;
  max_waiting_data := 32 * 1024 * 1024;
  use_advanced_throttling := false;
  throttle_scale := 32;
  throttle_acceleration := 2;
  throttle_deceleration := 2;
  throttle_interval := 5000;
  use_window_flow_control := false;
  initial_window_size := 512;
  min_window_size := 64;
  max_window_size := 4096;
  max_duplicate_peers := 0;
  socket_recv_buffer_size := None;
  socket_send_buffer_size := None;
  socket_ttl := None;
  socket_broadcast := false;
  use_pmtu_discovery := true;
  pmtu_min := 576;
  pmtu_max := 1400;
  pmtu_interval_ms := 5000;
  pmtu_converge_threshold := 64
|}.

(** The assignment [config.field = v]. *)
Definition Config_eta (c : Config) : Config :=
  mkConfig
    (blocking_mode c) (idle_connection_timeout c) (heartbeat_interval c) (max_packet_size c)
    (max_fragments c) (fragment_size c) (fragment_reassembly_buffer_size c)
    (receive_buffer_max_size c) (rtt_smoothing_factor c) (rtt_max_value c)
    (socket_event_buffer_size c) (socket_polling_timeout c) (max_packets_in_flight c)
    (max_unestablished_connections c) (channel_count c) (incoming_bandwidth_limit c)
    (outgoing_bandwidth_limit c) (use_checksums c) (compression c) (compression_threshold c)
    (use_connection_handshake c) (max_waiting_data c) (use_advanced_throttling c)
    (throttle_scale c) (throttle_acceleration c) (throttle_deceleration c) (throttle_interval c)
    (use_window_flow_control c) (initial_window_size c) (min_window_size c) (max_window_size c)
    (max_duplicate_peers c) (socket_recv_buffer_size c) (socket_send_buffer_size c)
    (socket_ttl c) (socket_broadcast c) (use_pmtu_discovery c) (pmtu_min c) (pmtu_max c)
    (pmtu_interval_ms c) (pmtu_converge_threshold c).
Ltac assign c field v :=
  let e := eval unfold Config_eta in (Config_eta c) in
  match eval pattern (field c) in e with
  | ?f _ => let r := eval cbv beta in (f v) in exact r
  end.
Notation "c <| field := v |>" := (ltac:(assign c field v))
  (at level 12, left associativity, v at level 200, only parsing).

(** The field types of [Config] that the model's arithmetic relies on. *)
Definition config_ok (c : Config) : Prop :=
  u8_ok (max_fragments c) /\ u16_ok (fragment_size c) /\
  u64_ok (receive_buffer_max_size c) /\ u64_ok (compression_threshold c) /\
  u16_ok (max_packets_in_flight c) /\ u8_ok (channel_count c) /\
  u32_ok (incoming_bandwidth_limit c) /\ u32_ok (outgoing_bandwidth_limit c) /\
  u64_ok (max_waiting_data c) /\
  u32_ok (initial_window_size c) /\ u32_ok (min_window_size c) /\ u32_ok (max_window_size c) /\
  u16_ok (pmtu_min c) /\ u16_ok (pmtu_max c) /\ u32_ok (pmtu_interval_ms c) /\
  u16_ok (pmtu_converge_threshold c).

Lemma Config_default_ok : config_ok Config_default.
Proof. unfold config_ok, u8_ok, u16_ok, u32_ok, u64_ok. simpl. vm_compute. intuition discriminate. Qed.

(** [self.config.incoming_bandwidth_limit = i; self.config.outgoing_bandwidth_limit = o]. *)
Definition Config_set_bandwidth (i o : Z) (c : Config) : Config := {|
  blocking_mode := blocking_mode c;
  idle_connection_timeout := idle_connection_timeout c;
  heartbeat_interval := heartbeat_interval c;
  max_packet_size := max_packet_size c;
  max_fragments := max_fragments c;
  fragment_size := fragment_size c;
  fragment_reassembly_buffer_size := fragment_reassembly_buffer_size c;
  receive_buffer_max_size := receive_buffer_max_size c;
  rtt_smoothing_factor := rtt_smoothing_factor c;
  rtt_max_value := rtt_max_value c;
  socket_event_buffer_size := socket_event_buffer_size c;
  socket_polling_timeout := socket_polling_timeout c;
  max_packets_in_flight := max_packets_in_flight c;
  max_unestablished_connections := max_unestablished_connections c;
  channel_count := channel_count c;
  incoming_bandwidth_limit := i;
  outgoing_bandwidth_limit := o;
  use_checksums := use_checksums c;
  compression := compression c;
  compression_threshold := compression_threshold c;
  use_connection_handshake := use_connection_handshake c;
  max_waiting_data := max_waiting_data c;
  use_advanced_throttling := use_advanced_throttling c;
  throttle_scale := throttle_scale c;
  throttle_acceleration := throttle_acceleration c;
  throttle_deceleration := throttle_deceleration c;
  throttle_interval := throttle_interval c;
  use_window_flow_control := use_window_flow_control c;
  initial_window_size := initial_window_size c;
  min_window_size := min_window_size c;
  max_window_size := max_window_size c;
  max_duplicate_peers := max_duplicate_peers c;
  socket_recv_buffer_size := socket_recv_buffer_size c;
  socket_send_buffer_size := socket_send_buffer_size c;
  socket_ttl := socket_ttl c;
  socket_broadcast := socket_broadcast c;
  use_pmtu_discovery := use_pmtu_discovery c;
  pmtu_min := pmtu_min c;
  pmtu_max := pmtu_max c;
  pmtu_interval_ms := pmtu_interval_ms c;
  pmtu_converge_threshold := pmtu_converge_threshold c
|}.

(* ------------------------------------------------------------------ *)
(** ** [error.rs]                                                       *)
(* ------------------------------------------------------------------ *)

(** [std::io::Error], by kind and message. *)
Inductive IoErrorKind : Set := UnexpectedEof | InvalidData | WouldBlock | NotFound | InvalidInput
  | OtherIo.
Record IoError : Set := mkIoError { io_kind : IoErrorKind; io_message : string }.
Definition io_result := result IoError.

Inductive DecodingErrorKind : Set := DecPacketType | DecOrderingGuarantee | DecDeliveryGuarantee.

Inductive FragmentErrorKind : Set :=
| PacketHeaderNotFound
| ExceededMaxFragments
| AlreadyProcessedFragment
| FragmentWithUnevenNumberOfFragments
| CouldNotFindFragmentById
| MultipleAckHeaders
| MissingAckHeader.

Inductive PacketErrorKind : Set :=
| ExceededMaxPacketSize
| PacketCannotBeFragmented
| MtuTooSmall
| PayloadTooLargeToFragment.

Inductive ErrorKind : Set :=
| DecodingError (k : DecodingErrorKind)
| FragmentError (k : FragmentErrorKind)
| PacketError (k : PacketErrorKind)
| IOError (e : IoError)
| ReceivedDataToShort
| ProtocolVersionMismatch
| CouldNotReadHeader (header : string).

(** [impl Display], with the derived [Debug] names and, as a parameter, the [Debug] form that
    the standard library gives to [io::Error]. *)
Definition DecodingErrorKind_debug (k : DecodingErrorKind) : string :=
  match k with
  | DecPacketType => "PacketType"
  | DecOrderingGuarantee => "OrderingGuarantee"
  | DecDeliveryGuarantee => "DeliveryGuarantee"
  end.
Definition FragmentErrorKind_debug (k : FragmentErrorKind) : string :=
  match k with
  | PacketHeaderNotFound => "PacketHeaderNotFound"
  | ExceededMaxFragments => "ExceededMaxFragments"
  | AlreadyProcessedFragment => "AlreadyProcessedFragment"
  | FragmentWithUnevenNumberOfFragments => "FragmentWithUnevenNumberOfFragments"
  | CouldNotFindFragmentById => "CouldNotFindFragmentById"
  | MultipleAckHeaders => "MultipleAckHeaders"
  | MissingAckHeader => "MissingAckHeader"
  end.
Definition PacketErrorKind_debug (k : PacketErrorKind) : string :=
  match k with
  | ExceededMaxPacketSize => "ExceededMaxPacketSize"
  | PacketCannotBeFragmented => "PacketCannotBeFragmented"
  | MtuTooSmall => "MtuTooSmall"
  | PayloadTooLargeToFragment => "PayloadTooLargeToFragment"
  end.

Definition ErrorKind_fmt (io_error_debug : IoError -> string) (e : ErrorKind) : string :=
  match e with
  | DecodingError e =>
      "Something went wrong with parsing the header. Reason: "
        +:+ DecodingErrorKind_debug e +:+ "."
  | FragmentError e =>
      "Something went wrong with receiving/parsing fragments. Reason: "
        +:+ FragmentErrorKind_debug e +:+ "."
  | PacketError e =>
      "Something went wrong with receiving/parsing packets. Reason: "
        +:+ PacketErrorKind_debug e +:+ "."
  | IOError e => "An IO Error occurred. Reason: " +:+ io_error_debug e +:+ "."
  | ReceivedDataToShort => "The received data did not have any length."
  | ProtocolVersionMismatch => "The protocol versions do not match."
  | CouldNotReadHeader header =>
      "Expected " +:+ header +:+ " header but could not be read from buffer."
  end.
Definition DecodingErrorKind_fmt (k : DecodingErrorKind) : string :=
  match k with
  | DecPacketType => "The packet type could not be read."
  | DecOrderingGuarantee => "The ordering guarantee could not be read."
  | DecDeliveryGuarantee => "The delivery guarantee could not be read."
  end.
Definition PacketErrorKind_fmt (k : PacketErrorKind) : string :=
  match k with
  | ExceededMaxPacketSize => "The packet size was bigger than the max allowed size."
  | PacketCannotBeFragmented => "The packet type cannot be fragmented."
  | MtuTooSmall => "MTU is too small to accommodate packet headers and minimum payload."
  | PayloadTooLargeToFragment => "Payload too large to fragment with current MTU settings."
  end.
Definition FragmentErrorKind_fmt (k : FragmentErrorKind) : string :=
  match k with
  | PacketHeaderNotFound => "Packet header was attached to fragment."
  | ExceededMaxFragments =>
      "The total numbers of fragments are bigger than the allowed fragments."
  | AlreadyProcessedFragment => "The fragment received was already processed."
  | FragmentWithUnevenNumberOfFragments =>
      "The fragment header does not contain the right fragment count."
  | CouldNotFindFragmentById =>
      "The fragment supposed to be in a the cache but it was not found."
  | MultipleAckHeaders =>
      "The fragment contains an ack header but a previous ack header has already been registered."
  | MissingAckHeader => "No ack headers were registered with any of the fragments."
  end.

(** [impl From<_> for ErrorKind], which [?] applies. *)
Definition ErrorKind_from_io (inner : IoError) : ErrorKind := IOError inner.
Definition ErrorKind_from_packet (inner : PacketErrorKind) : ErrorKind := PacketError inner.
Definition ErrorKind_from_fragment (inner : FragmentErrorKind) : ErrorKind := FragmentError inner.

(** [.map_err(|e| ErrorKind::CouldNotReadHeader(e.to_string()))]. *)
Definition to_header_error {A} (r : io_result A) : result ErrorKind A :=
  map_err (fun e => CouldNotReadHeader (io_message e)) r.

(* ------------------------------------------------------------------ *)
(** ** [either.rs]                                                      *)
(* ------------------------------------------------------------------ *)

Inductive Either (L R : Type) : Type :=
| Left (l : L)
| Right (r : R).
Arguments Left {L R} l.
Arguments Right {L R} r.

(* ------------------------------------------------------------------ *)
(** ** [std::net] addresses                                             *)
(* ------------------------------------------------------------------ *)

(** An [IpAddr] is a family with its numeric address, a [SocketAddr] an address with a port. *)
Inductive IpAddr : Set := IpV4 (a : Z) | IpV6 (a : Z).
Record SocketAddr : Set := mkSocketAddr { sa_ip : IpAddr; sa_port : Z }.

#[export] Instance IpAddr_eq_dec : EqDecision IpAddr.
Proof. solve_decision. Defined.
#[export] Instance SocketAddr_eq_dec : EqDecision SocketAddr.
Proof. solve_decision. Defined.
#[export] Program Instance IpAddr_countable : Countable IpAddr :=
  inj_countable' (fun a => match a with IpV4 x => inl x | IpV6 x => inr x end)
    (fun s => match s with inl x => IpV4 x | inr x => IpV6 x end) _.
Next Obligation. by intros []. Qed.
#[export] Program Instance SocketAddr_countable : Countable SocketAddr :=
  inj_countable' (fun a => (sa_ip a, sa_port a)) (fun p => mkSocketAddr p.1 p.2) _.
Next Obligation. by intros []. Qed.
