(* ===== verification/NetAddr.v ===== *)
(** Textual addresses of [std::net], which [bitfold-core/src/utilities.rs] and the examples parse
    and format: the parser behind [IpAddr::from_str] and [SocketAddr::from_str]
    ([core/src/net/parser.rs]) and the [Display] instances ([core/src/net/ip_addr.rs],
    [core/src/net/socket_addr.rs]) of the Standard Library, and the proof that parsing what was
    formatted gives the address back. *)

From Stdlib Require Import Ascii String.
From S2P Require Import Prelude Core.
Local Open Scope string_scope.
Local Open Scope Z_scope.

(* ------------------------------------------------------------------ *)
(** ** Addresses                                                        *)
(* ------------------------------------------------------------------ *)

(** An address as one number, from and to its fields of [w] values, the most significant one
    first. *)
Definition of_fields (w : Z) (fields : list Z) : Z := foldl (fun acc x => acc * w + x) 0 fields.
Fixpoint to_fields (w : Z) (n : nat) (a : Z) : list Z :=
  match n with O => [] | S n => to_fields w n (a / w) ++ [a mod w] end.

Definition Ipv4Addr_new (a b c d : Z) : Z := of_fields 256 [a; b; c; d].
Definition Ipv6Addr_new (a b c d e f g h : Z) : Z := of_fields 65536 [a; b; c; d; e; f; g; h].
Definition octets (a : Z) : list Z := to_fields 256 4 a.
Definition segments (a : Z) : list Z := to_fields 65536 8 a.

Definition IpAddr_ok (ip : IpAddr) : Prop :=
  match ip with
  | IpV4 a => 0 <= a < 2 ^ 32
  | IpV6 a => 0 <= a < 2 ^ 128
  end.

(* ------------------------------------------------------------------ *)
(** ** The parser                                                       *)
(* ------------------------------------------------------------------ *)

(** A parser that fails leaves the input where it was ([read_atomically]), so failing is
    [None] and the caller goes on with its own input. *)
Definition Parser (A : Type) : Type := string -> option (A * string).

Definition char_between (lo hi c : ascii) : bool :=
  (N_of_ascii lo <=? N_of_ascii c)%N && (N_of_ascii c <=? N_of_ascii hi)%N.
(** [char::to_digit]. *)
Definition digit_value (c : ascii) : Z :=
  let code := Z.of_N (N_of_ascii c) in
  if char_between "0" "9" c then code - 48
  else if char_between "a" "f" c then code - 87
  else if char_between "A" "F" c then code - 55
  else 99.
Definition to_digit (radix : Z) (c : ascii) : option Z :=
  let d := digit_value c in
  if d <? radix then Some d else None.

Definition read_given_char (target : ascii) : Parser unit := fun s =>
  match s with
  | String c s => if Ascii.eqb c target then Some (tt, s) else None
  | EmptyString => None
  end.

Definition read_separator {A} (sep : ascii) (index : nat) (inner : Parser A) : Parser A := fun s =>
  match index with
  | O => inner s
  | S _ => '(_, s) ← read_given_char sep s; inner s
  end.

(** The loop of [read_number] with a maximal number of digits. *)
Fixpoint read_digits (radix max_digits digit_count result : Z) (s : string)
  : option (Z * Z * string) :=
  match s with
  | String c s' =>
      match to_digit radix c with
      | Some digit =>
          if max_digits <? digit_count + 1 then None
          else read_digits radix max_digits (digit_count + 1) (result * radix + digit) s'
      | None => Some (result, digit_count, s)
      end
  | EmptyString => Some (result, digit_count, s)
  end.

(** [limit] bounds the type of the number; [result.try_into().ok()] fails beyond it. *)
Definition read_number (radix max_digits limit : Z) (allow_zero_prefix : bool) : Parser Z := fun s =>
  let has_leading_zero := match s with String c _ => Ascii.eqb c "0" | EmptyString => false end in
  '(result, digit_count, s) ← read_digits radix max_digits 0 0 s;
  if digit_count =? 0 then None
  else if negb allow_zero_prefix && has_leading_zero && (1 <? digit_count) then None
  else if result <? limit then Some (result, s) else None.

Definition read_octet : Parser Z := read_number 10 3 256 false.
Definition read_segment : Parser Z := read_number 16 4 65536 true.

Definition read_ipv4_addr : Parser Z := fun s =>
  '(a, s) ← read_separator "." 0 read_octet s;
  '(b, s) ← read_separator "." 1 read_octet s;
  '(c, s) ← read_separator "." 2 read_octet s;
  '(d, s) ← read_separator "." 3 read_octet s;
  Some (Ipv4Addr_new a b c d, s).

(** [read_groups] from index [i]: the groups read, and whether the last two are an embedded
    IPv4 address.  It never fails. *)
Fixpoint read_groups (left : nat) (i : nat) (s : string) : list Z * bool * string :=
  match left with
  | O => ([], false, s)
  | S left' =>
      match (if (0 <? left')%nat then read_separator ":" i read_ipv4_addr s else None) with
      | Some (v4, s) =>
          (match octets v4 with
           | [one; two; three; four] => [one * 256 + two; three * 256 + four]
           | _ => []
           end, true, s)
      | None =>
          match read_separator ":" i read_segment s with
          | Some (g, s) =>
              let '(gs, v4, s) := read_groups left' (S i) s in (g :: gs, v4, s)
          | None => ([], false, s)
          end
      end
  end.

Definition read_ipv6_addr : Parser Z := fun s =>
  let '(head, head_ipv4, s) := read_groups 8 0 s in
  if (length head =? 8)%nat then Some (of_fields 65536 head, s)
  else if head_ipv4 : bool then None
  else
    '(_, s) ← read_given_char ":" s;
    '(_, s) ← read_given_char ":" s;
    let limit := (8 - (length head + 1))%nat in
    let '(tail, _, s) := read_groups limit 0 s in
    Some (of_fields 65536 (head ++ replicate (8 - length head - length tail) 0 ++ tail), s).

Definition read_ip_addr : Parser IpAddr := fun s =>
  match read_ipv4_addr s with
  | Some (a, s) => Some (IpV4 a, s)
  | None => '(a, s) ← read_ipv6_addr s; Some (IpV6 a, s)
  end.

(** [IpAddr::from_str]: the whole input is an address. *)
Definition IpAddr_from_str (s : string) : result string IpAddr :=
  match read_ip_addr s with
  | Some (ip, EmptyString) => Ok ip
  | _ => Err "invalid IP address syntax"
  end.

(** The loop of [read_number] without a maximal number of digits: [checked_mul] and [checked_add]
    in a type of numbers below [limit]. *)
Fixpoint read_digits_checked (radix limit digit_count result : Z) (s : string)
  : option (Z * Z * string) :=
  match s with
  | String c s' =>
      match to_digit radix c with
      | Some digit =>
          if limit <=? result * radix then None
          else if limit <=? result * radix + digit then None
          else read_digits_checked radix limit (digit_count + 1) (result * radix + digit) s'
      | None => Some (result, digit_count, s)
      end
  | EmptyString => Some (result, digit_count, s)
  end.
(** [read_number] with [None] digits and with [allow_zero_prefix]. *)
Definition read_number_checked (radix limit : Z) : Parser Z := fun s =>
  '(result, digit_count, s) ← read_digits_checked radix limit 0 0 s;
  if digit_count =? 0 then None else Some (result, s).

Definition read_port : Parser Z := fun s =>
  '(_, s) ← read_given_char ":" s;
  read_number_checked 10 65536 s.
Definition read_scope_id : Parser Z := fun s =>
  '(_, s) ← read_given_char "%" s;
  read_number_checked 10 4294967296 s.
Definition read_socket_addr_v4 : Parser SocketAddr := fun s =>
  '(ip, s) ← read_ipv4_addr s;
  '(port, s) ← read_port s;
  Some (mkSocketAddr (IpV4 ip) port, s).
(** The model's addresses have no scope: it is read and dropped. *)
Definition read_socket_addr_v6 : Parser SocketAddr := fun s =>
  '(_, s) ← read_given_char "[" s;
  '(ip, s) ← read_ipv6_addr s;
  let s := match read_scope_id s with Some (_, s') => s' | None => s end in
  '(_, s) ← read_given_char "]" s;
  '(port, s) ← read_port s;
  Some (mkSocketAddr (IpV6 ip) port, s).
Definition read_socket_addr : Parser SocketAddr := fun s =>
  match read_socket_addr_v4 s with Some x => Some x | None => read_socket_addr_v6 s end.
(** [SocketAddr::from_str]. *)
Definition SocketAddr_from_str (s : string) : result string SocketAddr :=
  match read_socket_addr s with
  | Some (a, EmptyString) => Ok a
  | _ => Err "invalid socket address syntax"
  end.

(* ------------------------------------------------------------------ *)
(** ** [Display]                                                        *)
(* ------------------------------------------------------------------ *)

Definition digit_char (d : Z) : ascii :=
  ascii_of_N (Z.to_N (if d <? 10 then 48 + d else 87 + d)).
(** [{}] and [{:x}] of a number below [radix ^ (fuel + 1)], before [acc]. *)
Fixpoint fmt_number (fuel : nat) (radix n : Z) (acc : string) : string :=
  let acc := String (digit_char (n mod radix)) acc in
  match fuel with
  | O => acc
  | S fuel => if n <? radix then acc else fmt_number fuel radix (n / radix) acc
  end.
Definition fmt_octet (n : Z) : string -> string := fmt_number 2 10 n.
Definition fmt_hex (n : Z) : string -> string := fmt_number 3 16 n.

Definition fmt_ipv4 (a : Z) (acc : string) : string :=
  match octets a with
  | [a; b; c; d] => fmt_octet a (String "." (fmt_octet b (String "." (fmt_octet c
                      (String "." (fmt_octet d acc))))))
  | _ => acc
  end.

(** The longest run of zeros: one step of the loop over the segments, on the index, the current
    and the longest span, each a start and a length. *)
Record Span : Set := mkSpan { sp_start : nat; sp_len : nat }.
Definition span_step (st : nat * Span * Span) (segment : Z) : nat * Span * Span :=
  let '(i, current, longest) := st in
  if segment =? 0 then
    let current := mkSpan (if (sp_len current =? 0)%nat then i else sp_start current)
                          (S (sp_len current)) in
    (S i, current, if (sp_len longest <? sp_len current)%nat then current else longest)
  else (S i, mkSpan 0 0, longest).
Definition zeroes (segs : list Z) : Span := (foldl span_step (0%nat, mkSpan 0 0, mkSpan 0 0) segs).2.

Definition fmt_tail (tail : list Z) (acc : string) : string :=
  foldr (fun g acc => String ":" (fmt_hex g acc)) acc tail.
Definition fmt_subslice (chunk : list Z) (acc : string) : string :=
  match chunk with [] => acc | first :: tail => fmt_hex first (fmt_tail tail acc) end.

(** [to_ipv4_mapped]. *)
Definition to_ipv4_mapped (segs : list Z) : option Z :=
  match segs with
  | [0; 0; 0; 0; 0; 65535; x; y] => Some (x * 65536 + y)
  | _ => None
  end.

Definition fmt_ipv6 (a : Z) (acc : string) : string :=
  let segs := segments a in
  match to_ipv4_mapped segs with
  | Some v4 => "::ffff:" +:+ fmt_ipv4 v4 acc
  | None =>
      let z := zeroes segs in
      if (1 <? sp_len z)%nat then
        fmt_subslice (take (sp_start z) segs)
          ("::" +:+ fmt_subslice (drop (sp_start z + sp_len z) segs) acc)
      else fmt_subslice segs acc
  end.

(** [ip.to_string()]. *)
Definition IpAddr_to_string (ip : IpAddr) : string :=
  match ip with IpV4 a => fmt_ipv4 a "" | IpV6 a => fmt_ipv6 a "" end.
(** [addr.to_string()], for an IPv6 address without a scope. *)
Definition fmt_port (port : Z) : string := String ":" (fmt_number 4 10 port "").
Definition SocketAddr_to_string (addr : SocketAddr) : string :=
  match sa_ip addr with
  | IpV4 a => fmt_ipv4 a (fmt_port (sa_port addr))
  | IpV6 a => String "[" (fmt_ipv6 a (String "]" (fmt_port (sa_port addr))))
  end.

Example format_examples :
  IpAddr_to_string <$> [IpV4 (Ipv4Addr_new 192 168 0 10); IpV6 1; IpV6 0;
    IpV6 (Ipv6Addr_new 8193 3512 0 0 1 0 0 1); IpV6 (Ipv6Addr_new 0 0 0 0 0 65535 258 772);
    IpV6 (Ipv6Addr_new 1 0 2 0 3 0 4 0)]
  = ["192.168.0.10"; "::1"; "::"; "2001:db8::1:0:0:1"; "::ffff:1.2.3.4"; "1:0:2:0:3:0:4:0"].
Proof. vm_compute. reflexivity. Qed.

Example parse_examples :
  IpAddr_from_str <$> ["1.2.3.4"; "01.2.3.4"; "1.2.3.256"; "1.2.3"; "1.2.3.4."; "::"; "1::"; "::1.2.3.4";
    "1:2:3:4:5:6:7:8"; "1:2:3:4:5:6:7::"; "1:2:3:4:5:6:7:8:9"; "1::2::3"; "DEAD::bEEF"; "not-an-ip"; ""]
  = [Ok (IpV4 16909060); Err "invalid IP address syntax"; Err "invalid IP address syntax";
     Err "invalid IP address syntax"; Err "invalid IP address syntax"; Ok (IpV6 0);
     Ok (IpV6 (Ipv6Addr_new 1 0 0 0 0 0 0 0)); Ok (IpV6 16909060);
     Ok (IpV6 (Ipv6Addr_new 1 2 3 4 5 6 7 8)); Ok (IpV6 (Ipv6Addr_new 1 2 3 4 5 6 7 0));
     Err "invalid IP address syntax"; Err "invalid IP address syntax";
     Ok (IpV6 (Ipv6Addr_new 57005 0 0 0 0 0 0 48879)); Err "invalid IP address syntax";
     Err "invalid IP address syntax"].
Proof. vm_compute. reflexivity. Qed.

(* ------------------------------------------------------------------ *)
(** ** Numbers                                                          *)
(* ------------------------------------------------------------------ *)

(** What follows a number that was formatted: not another digit of the radix. *)
Definition no_digit (radix : Z) (s : string) : Prop :=
  match s with String c _ => to_digit radix c = None | EmptyString => True end.

Lemma to_digit_char radix d : 0 <= d < 16 -> d < radix -> to_digit radix (digit_char d) = Some d.
Proof.
  intros Hd Hr.
  assert (digit_value (digit_char d) = d) as E.
  { assert (d = 0 \/ d = 1 \/ d = 2 \/ d = 3 \/ d = 4 \/ d = 5 \/ d = 6 \/ d = 7 \/ d = 8 \/ d = 9 \/
      d = 10 \/ d = 11 \/ d = 12 \/ d = 13 \/ d = 14 \/ d = 15) as Hcases by lia.
    by repeat (destruct Hcases as [->|Hcases]; [done|]); subst. }
  unfold to_digit. rewrite E. by replace (d <? radix) with true by lia.
Qed.
Lemma digit_char_zero d : 0 <= d < 16 -> digit_char d = "0"%char -> d = 0.
Proof.
  intros Hd H. pose proof (to_digit_char 16 d Hd ltac:(lia)) as E. rewrite H in E.
  by injection E as <-.
Qed.

Lemma read_digits_char radix max k r d s : 0 <= d < 16 -> d < radix -> k < max ->
  read_digits radix max k r (String (digit_char d) s) =
  read_digits radix max (k + 1) (r * radix + d) s.
Proof.
  intros. cbn [read_digits]. rewrite to_digit_char by done.
  by replace (max <? k + 1) with false by lia.
Qed.
Lemma read_digits_stop radix max k r s : no_digit radix s ->
  read_digits radix max k r s = Some (r, k, s).
Proof. destruct s as [|c s]; simpl; [done|]. by intros ->. Qed.

Lemma div_radix fuel radix n : 1 < radix -> 0 <= n < radix ^ (Z.of_nat (S fuel) + 1) ->
  0 <= n / radix < radix ^ (Z.of_nat fuel + 1).
Proof.
  intros Hr Hn. split; [apply Z.div_pos; lia|]. apply Z.div_lt_upper_bound; [lia|].
  rewrite <- Z.pow_succ_r by lia.
  replace (Z.succ (Z.of_nat fuel + 1)) with (Z.of_nat (S fuel) + 1) by lia. lia.
Qed.

(** Reading what [fmt_number] wrote. *)
Lemma read_fmt_number fuel radix max n s : 1 < radix <= 16 -> forall k r,
  0 <= n < radix ^ (Z.of_nat fuel + 1) -> 0 <= k -> k + Z.of_nat fuel + 1 <= max ->
  exists j, 0 < j /\ (n < radix -> j = 1) /\ j <= Z.of_nat fuel + 1 /\
    read_digits radix max k r (fmt_number fuel radix n s) =
    read_digits radix max (k + j) (r * radix ^ j + n) s.
Proof.
  intros Hradix. revert n s. induction fuel as [|fuel IH]; intros n s k r Hn Hk Hmax.
  - exists 1. split_and!; [lia..|]. change (radix ^ (Z.of_nat 0 + 1)) with (radix ^ 1) in Hn.
    rewrite Z.pow_1_r in Hn |- *. cbn [fmt_number]. rewrite Z.mod_small by lia.
    by rewrite read_digits_char by lia.
  - cbn [fmt_number]. pose proof (Z.mod_pos_bound n radix ltac:(lia)) as Hmod.
    destruct (n <? radix) eqn:E.
    + exists 1. split_and!; [lia..|]. rewrite Z.pow_1_r, Z.mod_small by lia.
      by rewrite read_digits_char by lia.
    + pose proof (div_radix fuel radix n ltac:(lia) Hn) as Hq.
      destruct (IH (n / radix) (String (digit_char (n mod radix)) s) k r Hq Hk ltac:(lia))
        as (j & Hj & _ & Hj' & ->).
      exists (j + 1). split_and!; [lia..|]. rewrite read_digits_char by lia. f_equal; [lia|].
      rewrite Z.pow_add_r, Z.pow_1_r by lia.
      pose proof (Z.div_mod n radix ltac:(lia)). nia.
Qed.

(** A formatted number starts with a digit, and with [0] only if it is zero. *)
Lemma fmt_number_head fuel radix n : 1 < radix <= 16 -> 0 <= n < radix ^ (Z.of_nat fuel + 1) ->
  forall s, exists d s', fmt_number fuel radix n s = String (digit_char d) s' /\
    0 <= d < radix /\ (d = 0 -> n = 0).
Proof.
  intros Hradix. revert n. induction fuel as [|fuel IH]; intros n Hn s; cbn [fmt_number].
  all: pose proof (Z.mod_pos_bound n radix ltac:(lia)) as Hmod.
  - change (radix ^ (Z.of_nat 0 + 1)) with (radix ^ 1) in Hn. rewrite Z.pow_1_r in Hn.
    exists (n mod radix), s. split_and!; [done|lia..|]. rewrite Z.mod_small by lia. done.
  - destruct (n <? radix) eqn:E.
    { exists (n mod radix), s. split_and!; [done|lia..|]. rewrite Z.mod_small by lia. done. }
    pose proof (div_radix fuel radix n ltac:(lia) Hn) as Hq.
    assert (0 < n / radix) by (apply Z.div_str_pos; lia).
    destruct (IH (n / radix) Hq (String (digit_char (n mod radix)) s))
      as (d & s' & -> & Hd & H0).
    exists d, s'. split_and!; [done|lia..|]. intros Hz. apply H0 in Hz. lia.
Qed.

Lemma read_number_fmt fuel radix limit zero n s : 1 < radix <= 16 ->
  0 <= n < radix ^ (Z.of_nat fuel + 1) -> n < limit -> no_digit radix s ->
  read_number radix (Z.of_nat fuel + 1) limit zero (fmt_number fuel radix n s) = Some (n, s).
Proof.
  intros Hradix Hn Hl Hs. unfold read_number.
  destruct (read_fmt_number fuel radix (Z.of_nat fuel + 1) n s Hradix 0 0 Hn ltac:(lia) ltac:(lia))
    as (j & Hj & Hone & _ & E). rewrite E, read_digits_stop by done.
  destruct (fmt_number_head fuel radix n Hradix Hn s) as (d & s' & -> & Hd & H0).
  replace (0 * radix ^ j + n) with n by lia. replace (0 + j) with j by lia.
  cbn [mbind option_bind]. replace (j =? 0) with false by lia.
  replace (n <? limit) with true by lia.
  destruct (Ascii.eqb (digit_char d) "0") eqn:Ez; [|by rewrite andb_false_r].
  apply Ascii.eqb_eq, digit_char_zero in Ez; [|lia]. rewrite (Hone ltac:(rewrite (H0 Ez); lia)).
  by rewrite andb_false_r.
Qed.

Lemma read_octet_fmt n s : 0 <= n < 256 -> no_digit 10 s -> read_octet (fmt_octet n s) = Some (n, s).
Proof. intros. apply (read_number_fmt 2); [lia..|done]. Qed.
Lemma read_segment_fmt n s : 0 <= n < 65536 -> no_digit 16 s ->
  read_segment (fmt_hex n s) = Some (n, s).
Proof. intros. apply (read_number_fmt 3); [lia..|done]. Qed.

(* ------------------------------------------------------------------ *)
(** ** Fields                                                           *)
(* ------------------------------------------------------------------ *)

Lemma of_fields_app w l x : of_fields w (l ++ [x]) = of_fields w l * w + x.
Proof. unfold of_fields. by rewrite foldl_app. Qed.
Lemma of_to_fields w n a : 1 < w -> 0 <= a < w ^ Z.of_nat n -> of_fields w (to_fields w n a) = a.
Proof.
  intros Hw. revert a. induction n as [|n IH]; intros a Ha; cbn [to_fields].
  { change (w ^ Z.of_nat 0) with 1 in Ha. unfold of_fields. simpl. lia. }
  rewrite of_fields_app, IH.
  { pose proof (Z.div_mod a w ltac:(lia)). lia. }
  split; [apply Z.div_pos; lia|]. apply Z.div_lt_upper_bound; [lia|].
  rewrite <- Z.pow_succ_r by lia.
  replace (Z.succ (Z.of_nat n)) with (Z.of_nat (S n)) by lia. lia.
Qed.
Lemma to_fields_length w n : forall a, length (to_fields w n a) = n.
Proof. induction n as [|n IH]; intros a; simpl; [done|]. rewrite length_app, IH. simpl. lia. Qed.
Lemma to_fields_bound w n : 1 < w -> forall a, Forall (fun x => 0 <= x < w) (to_fields w n a).
Proof.
  intros Hw. induction n as [|n IH]; intros a; cbn [to_fields]; [constructor|].
  apply Forall_app; split; [done|]. repeat constructor; apply Z.mod_pos_bound; lia.
Qed.
Lemma octets_cases a : exists x y z t, octets a = [x; y; z; t] /\
  Forall (fun v => 0 <= v < 256) [x; y; z; t].
Proof.
  pose proof (to_fields_length 256 4 a) as Hl. pose proof (to_fields_bound 256 4 ltac:(lia) a) as Hb.
  unfold octets. destruct (to_fields 256 4 a) as [|x [|y [|z [|t [|]]]]]; try done. by exists x, y, z, t.
Qed.
Lemma octets_new a b c d : Forall (fun v => 0 <= v < 256) [a; b; c; d] ->
  octets (Ipv4Addr_new a b c d) = [a; b; c; d].
Proof.
  intros H. rewrite !Forall_cons in H. unfold octets, Ipv4Addr_new, of_fields. cbn.
  destruct H as (Ha & Hb & Hc & Hd & _).
  repeat f_equal; Z.to_euclidean_division_equations; lia.
Qed.

(* ------------------------------------------------------------------ *)
(** ** IPv4                                                             *)
(* ------------------------------------------------------------------ *)

Lemma read_ipv4_fmt a s : 0 <= a < 2 ^ 32 -> no_digit 10 s ->
  read_ipv4_addr (fmt_ipv4 a s) = Some (a, s).
Proof.
  intros Ha Hs. destruct (octets_cases a) as (x & y & z & t & E & H).
  rewrite !Forall_cons in H. destruct H as (Hx & Hy & Hz & Ht & _).
  unfold fmt_ipv4, read_ipv4_addr. rewrite E. cbn [read_separator].
  repeat (rewrite read_octet_fmt by done; cbn -[fmt_octet read_octet Ipv4Addr_new]).
  f_equal. f_equal. unfold Ipv4Addr_new. rewrite <- E. apply of_to_fields; [lia|]. by cbn in *.
Qed.

(* ------------------------------------------------------------------ *)
(** ** No IPv4 address starts here                                      *)
(* ------------------------------------------------------------------ *)

Fixpoint after_hex (s : string) : string :=
  match s with
  | String c s' => match to_digit 16 c with Some _ => after_hex s' | None => s end
  | EmptyString => s
  end.
Definition no_dot (s : string) : Prop :=
  match after_hex s with String c _ => c <> "."%char | EmptyString => True end.

Lemma to_digit_16 radix c d : radix <= 16 -> to_digit radix c = Some d -> to_digit 16 c = Some d.
Proof.
  unfold to_digit. intros Hr. destruct (digit_value c <? radix) eqn:E; [|done].
  by replace (digit_value c <? 16) with true by lia.
Qed.
Lemma read_digits_after_hex radix max s : radix <= 16 -> forall k r r' k' s',
  read_digits radix max k r s = Some (r', k', s') -> after_hex s' = after_hex s.
Proof.
  intros Hr. induction s as [|c s IH]; intros k r r' k' s'; cbn [read_digits after_hex].
  { by intros [= _ _ <-]. }
  destruct (to_digit radix c) as [d|] eqn:E.
  - rewrite (to_digit_16 _ _ _ Hr E). destruct (max <? k + 1); [done|]. apply IH.
  - by intros [= _ _ <-].
Qed.
Lemma read_ipv4_no_dot s : no_dot s -> read_ipv4_addr s = None.
Proof.
  intros Hs. unfold read_ipv4_addr. cbn [read_separator].
  destruct (read_octet s) as [[a s1]|] eqn:E; [|done]. cbn [mbind option_bind].
  assert (after_hex s1 = after_hex s) as Ha.
  { revert E. unfold read_octet, read_number.
    destruct (read_digits _ _ _ _ _) as [[[r k] s2]|] eqn:Ed; [|done]. cbn [mbind option_bind].
    apply read_digits_after_hex in Ed; [|lia]. 
    destruct (_ =? _); [done|]. destruct (_ && _); [done|]. destruct (_ <? _); [|done].
    by intros [= _ <-]. }
  unfold no_dot in Hs. rewrite <- Ha in Hs. destruct s1 as [|c s1]; [done|]. cbn [read_given_char].
  destruct (Ascii.eqb c ".") eqn:Ec; [|done]. apply Ascii.eqb_eq in Ec. by subst.
Qed.

Lemma after_hex_fmt fuel n s : 0 <= n -> after_hex (fmt_number fuel 16 n s) = after_hex s.
Proof.
  revert n s. induction fuel as [|fuel IH]; intros n s Hn; cbn [fmt_number].
  all: pose proof (Z.mod_pos_bound n 16 ltac:(lia)) as Hm.
  all: assert (forall t, after_hex (String (digit_char (n mod 16)) t) = after_hex t) as Hc
    by (intros t; cbn [after_hex]; by rewrite to_digit_char by lia).
  - apply Hc.
  - destruct (n <? 16); [apply Hc|]. rewrite IH; [apply Hc|]. by apply Z.div_pos.
Qed.

(* ------------------------------------------------------------------ *)
(** ** Groups                                                           *)
(* ------------------------------------------------------------------ *)

Definition segment_ok (g : Z) : Prop := 0 <= g < 65536.
(** What ends an address: the end of the input, or the bracket of a socket address. *)
Definition ends_address (s : string) : Prop := s = "" \/ exists t, s = String "]" t.
(** What ends a list of groups: the end of the address, or [::]. *)
Definition ends_groups (s : string) : Prop :=
  ends_address s \/ exists t, s = String ":" (String ":" t).

(** The groups as they stand from index [i] on. *)
Definition fmt_groups (i : nat) (gs : list Z) (s : string) : string :=
  match i with O => fmt_subslice gs s | S _ => fmt_tail gs s end.

Lemma fmt_tail_head gs s : ends_groups s ->
  ends_address (fmt_tail gs s) \/ exists t, fmt_tail gs s = String ":" t.
Proof. intros [H|[t ->]]; destruct gs; simpl; eauto. Qed.
Lemma fmt_tail_stops gs s : ends_groups s ->
  no_digit 16 (fmt_tail gs s) /\ no_dot (fmt_tail gs s).
Proof. by intros [[-> | [t ->]]|[t ->]]%(fmt_tail_head gs). Qed.

Lemma read_groups_end left i s : ends_groups s -> read_groups left i s = ([], false, s).
Proof.
  intros Hs. destruct left as [|left]; [done|]. cbn [read_groups].
  assert (read_separator ":" i read_ipv4_addr s = None) as ->.
  { destruct i as [|i], Hs as [[-> | [t ->]]|[t ->]]; try done; cbn.
    all: by apply read_ipv4_no_dot. }
  assert (read_separator ":" i read_segment s = None) as ->.
  { by destruct i as [|i], Hs as [[-> | [t ->]]|[t ->]]. }
  by destruct (0 <? left)%nat.
Qed.

Lemma read_groups_fmt gs : forall left i s, Forall segment_ok gs -> (length gs <= left)%nat ->
  ends_groups s -> read_groups left i (fmt_groups i gs s) = (gs, false, s).
Proof.
  induction gs as [|g gs IH]; intros left i s Hg Hl Hs.
  { replace (fmt_groups i [] s) with s by (by destruct i). by apply read_groups_end. }
  destruct left as [|left]; [simpl in Hl; lia|].
  apply Forall_cons in Hg as [Hg Hgs]. pose proof (fmt_tail_stops gs s Hs) as [Hd Hdot].
  assert (forall {A} (p : Parser A), read_separator ":" i p (fmt_groups i (g :: gs) s) =
    p (fmt_hex g (fmt_tail gs s))) as Hsep by (intros; by destruct i).
  cbn [read_groups]. rewrite !Hsep, read_segment_fmt, read_ipv4_no_dot by
    (done || unfold no_dot, fmt_hex; rewrite after_hex_fmt by (by apply Hg); done).
  change (fmt_tail gs s) with (fmt_groups (S i) gs s).
  rewrite IH by (done || simpl in Hl; lia). by destruct (0 <? left)%nat.
Qed.

Section Spans.
Local Open Scope list_scope.

(* ------------------------------------------------------------------ *)
(** ** The longest run of zeros                                         *)
(* ------------------------------------------------------------------ *)

(** The span lies in the first [i] segments and they are zero there. *)
Definition zero_span (segs : list Z) (i : nat) (z : Span) : Prop :=
  (sp_start z + sp_len z <= i)%nat /\
  forall k, (sp_start z <= k < sp_start z + sp_len z)%nat -> segs !! k = Some 0.

Lemma span_step_inv (segs : list Z) x rest pre current longest :
  segs = pre ++ x :: rest -> zero_span segs (length pre) current ->
  (sp_len current = 0 \/ sp_start current + sp_len current = length pre)%nat ->
  zero_span segs (length pre) longest ->
  let '(i, current, longest) := span_step (length pre, current, longest) x in
  i = length (pre ++ [x]) /\ zero_span segs i current /\
  (sp_len current = 0 \/ sp_start current + sp_len current = i)%nat /\ zero_span segs i longest.
Proof.
  intros -> [Hc Hc0] Hend [Hl Hl0]. unfold span_step. rewrite length_app. simpl.
  destruct (x =? 0) eqn:E; cbn -[Nat.ltb].
  2: { split_and!; [lia| |by left|]; split; simpl; try lia; auto with lia. }
  assert (x = 0) as -> by lia.
  set (c := mkSpan _ _).
  assert (zero_span (pre ++ 0 :: rest) (S (length pre)) c) as Hz.
  { subst c. split; simpl.
    - destruct (sp_len current =? 0)%nat eqn:E0; lia.
    - intros k Hk. destruct (decide (k = length pre)) as [->|Hne]; [by apply list_lookup_middle|].
      apply Hc0. destruct (sp_len current =? 0)%nat eqn:E0; lia. }
  split_and!; [lia|done| |].
  - right. subst c. simpl. destruct (sp_len current =? 0)%nat eqn:E0; lia.
  - destruct (_ <? _)%nat; [done|]. split; [simpl; lia|done].
Qed.
Lemma zeroes_spec segs : zero_span segs (length segs) (zeroes segs).
Proof.
  unfold zeroes.
  assert (forall (rest pre : list Z) current longest, segs = pre ++ rest ->
    zero_span segs (length pre) current ->
    (sp_len current = 0 \/ sp_start current + sp_len current = length pre)%nat ->
    zero_span segs (length pre) longest ->
    zero_span segs (length segs) (foldl span_step (length pre, current, longest) rest).2) as H.
  - induction rest as [|x rest IH]; intros pre current longest Hs Hc He Hl; cbn [foldl].
    + rewrite app_nil_r in Hs. by subst.
    + pose proof (span_step_inv segs x rest pre current longest Hs Hc He Hl) as Hstep.
      destruct (span_step _ x) as [[i c'] l']. destruct Hstep as (-> & ? & ? & ?).
      apply IH; [by rewrite <- app_assoc|done..].
  - apply (H segs []); [done|..|by left|]; split; simpl; lia.
Qed.
Lemma zero_span_split segs z : zero_span segs (length segs) z ->
  segs = take (sp_start z) segs ++ replicate (sp_len z) 0 ++ drop (sp_start z + sp_len z) segs.
Proof.
  intros [Hl Hz]. rewrite <- (take_drop (sp_start z) segs) at 1. f_equal.
  rewrite <- (take_drop (sp_len z) (drop (sp_start z) segs)) at 1. rewrite drop_drop. f_equal.
  apply list_eq. intros k. destruct (decide (k < sp_len z)%nat) as [Hk|Hk].
  - rewrite lookup_take, decide_True, lookup_drop, lookup_replicate_2, Hz by lia. done.
  - rewrite !lookup_ge_None_2; [done|rewrite length_replicate; lia|rewrite length_take; lia].
Qed.
End Spans.

(* ------------------------------------------------------------------ *)
(** ** Parsing what was formatted                                       *)
(* ------------------------------------------------------------------ *)

Lemma segments_ok a : length (segments a) = 8%nat /\ Forall segment_ok (segments a).
Proof. split; [apply to_fields_length|by apply to_fields_bound]. Qed.
Lemma of_segments a : 0 <= a < 2 ^ 128 -> of_fields 65536 (segments a) = a.
Proof. intros Ha. apply of_to_fields; [lia|]. by change (65536 ^ Z.of_nat 8) with (2 ^ 128). Qed.
Lemma to_ipv4_mapped_Some segs v4 : to_ipv4_mapped segs = Some v4 ->
  exists x y, segs = [0; 0; 0; 0; 0; 65535; x; y] /\ v4 = x * 65536 + y.
Proof.
  unfold to_ipv4_mapped. intros H. repeat (case_match; try done). injection H as <-. eauto.
Qed.

Lemma read_given_char_hit c s : read_given_char c (String c s) = Some (tt, s).
Proof. unfold read_given_char. by rewrite Ascii.eqb_refl. Qed.

(** The [::] form: the groups before and after the span. *)
Lemma read_ipv6_compressed pre post s : Forall segment_ok pre -> Forall segment_ok post ->
  (length pre + length post < 8)%nat -> ends_address s ->
  read_ipv6_addr (fmt_subslice pre ("::" +:+ fmt_subslice post s)) =
  Some (of_fields 65536 (pre ++ replicate (8 - length pre - length post) 0 ++ post), s).
Proof.
  intros Hpre Hpost Hl Hs. unfold read_ipv6_addr.
  rewrite (read_groups_fmt pre 8 0) by (done || lia || (right; by eexists)).
  replace (length pre =? 8)%nat with false by lia.
  change ("::" +:+ fmt_subslice post s) with (String ":" (String ":" (fmt_subslice post s))).
  rewrite read_given_char_hit. cbn [mbind option_bind].
  rewrite read_given_char_hit. cbn [mbind option_bind].
  by rewrite (read_groups_fmt post _ 0) by (done || lia || by left).
Qed.
Lemma read_ipv6_full gs s : Forall segment_ok gs -> length gs = 8%nat -> ends_address s ->
  read_ipv6_addr (fmt_subslice gs s) = Some (of_fields 65536 gs, s).
Proof.
  intros Hg Hl Hs. unfold read_ipv6_addr.
  rewrite (read_groups_fmt gs 8 0) by (done || lia || by left). by rewrite Hl.
Qed.
Lemma octets_pair v4 x y : segment_ok x -> segment_ok y -> v4 = x * 65536 + y ->
  exists a b c d, octets v4 = [a; b; c; d] /\ a * 256 + b = x /\ c * 256 + d = y.
Proof.
  unfold segment_ok. intros Hx Hy ->. eexists _, _, _, _. split; [reflexivity|].
  cbn. Z.to_euclidean_division_equations; lia.
Qed.
Lemma read_ipv6_mapped x y s : segment_ok x -> segment_ok y -> no_digit 10 s ->
  read_ipv6_addr ("::ffff:" +:+ fmt_ipv4 (x * 65536 + y) s) =
  Some (of_fields 65536 [0; 0; 0; 0; 0; 65535; x; y], s).
Proof.
  intros Hx Hy Hs. set (v4 := x * 65536 + y).
  assert (0 <= v4 < 2 ^ 32) as Hv by (unfold segment_ok in *; lia).
  destruct (octets_pair v4 x y Hx Hy eq_refl) as (a & b & c & d & E & Hab & Hcd).
  unfold read_ipv6_addr. rewrite (read_groups_end 8 0) by (right; by eexists).
  change ("::ffff:" +:+ fmt_ipv4 v4 s) with
    (String ":" (String ":" (fmt_hex 65535 (String ":" (fmt_ipv4 v4 s))))).
  cbn [length Nat.eqb]. rewrite read_given_char_hit. cbn [mbind option_bind].
  rewrite read_given_char_hit. cbn [mbind option_bind Nat.sub Nat.add].
  cbn [read_groups read_separator Nat.ltb Nat.leb].
  rewrite read_ipv4_no_dot by done. rewrite read_segment_fmt by done.
  rewrite read_given_char_hit. cbn [mbind option_bind].
  rewrite read_ipv4_fmt by done. rewrite E, Hab, Hcd. done.
Qed.

Lemma fmt_ipv6_no_dot a acc : ends_address acc -> no_dot (fmt_ipv6 a acc).
Proof.
  intros Hacc. destruct (segments_ok a) as [Hl Hs]. unfold fmt_ipv6.
  assert (forall gs s, Forall segment_ok gs -> ends_groups s -> no_dot (fmt_subslice gs s)) as H.
  { intros [|g gs] s Hg Hs'; [by destruct Hs' as [[-> | [t ->]]|[t ->]]|]. apply Forall_cons in Hg as [Hg _].
    unfold fmt_subslice, no_dot, fmt_hex. rewrite after_hex_fmt by apply Hg.
    by apply fmt_tail_stops. }
  case_match; [done|]. destruct (_ <? _)%nat.
  - apply H; [by apply Forall_take|]. right. by eexists.
  - apply H; [done|]. by left.
Qed.

Lemma read_fmt_ipv6 a s : 0 <= a < 2 ^ 128 -> ends_address s ->
  read_ipv6_addr (fmt_ipv6 a s) = Some (a, s).
Proof.
  intros Ha He. assert (no_digit 10 s) as Hd by by destruct He as [-> | [t ->]].
  destruct (segments_ok a) as [Hl Hs]. rewrite <- (of_segments a Ha) at 2.
  unfold fmt_ipv6. destruct (to_ipv4_mapped _) as [v4|] eqn:Em.
  { apply to_ipv4_mapped_Some in Em as (x & y & E & ->). rewrite E in Hs |- *.
    rewrite !Forall_cons in Hs. by apply read_ipv6_mapped; try tauto. }
  pose proof (zeroes_spec (segments a)) as Hz. set (z := zeroes (segments a)) in *.
  destruct (1 <? sp_len z)%nat eqn:E; [|by apply read_ipv6_full].
  rewrite (zero_span_split _ _ Hz) at 3. destruct Hz as [Hlen _].
  rewrite read_ipv6_compressed.
  - rewrite length_take, length_drop.
    by replace (8 - _ - _)%nat with (sp_len z) by lia.
  - by apply Forall_take.
  - by apply Forall_drop.
  - rewrite length_take, length_drop. lia.
  - done.
Qed.

Lemma from_to_string ip : IpAddr_ok ip -> IpAddr_from_str (IpAddr_to_string ip) = Ok ip.
Proof.
  unfold IpAddr_from_str, read_ip_addr. destruct ip as [a|a]; intros Ha; simpl in Ha.
  - unfold IpAddr_to_string. by rewrite read_ipv4_fmt.
  - unfold IpAddr_to_string. rewrite read_ipv4_no_dot by (apply fmt_ipv6_no_dot; by left).
    by rewrite read_fmt_ipv6 by (done || by left).
Qed.

(* ------------------------------------------------------------------ *)
(** ** Socket addresses                                                 *)
(* ------------------------------------------------------------------ *)

Example format_socket_examples :
  SocketAddr_to_string <$> [mkSocketAddr (IpV4 (Ipv4Addr_new 127 0 0 1)) 9000; mkSocketAddr (IpV6 1) 0;
    mkSocketAddr (IpV6 (Ipv6Addr_new 0 0 0 0 0 65535 258 772)) 65535]
  = ["127.0.0.1:9000"; "[::1]:0"; "[::ffff:1.2.3.4]:65535"].
Proof. vm_compute. reflexivity. Qed.
Example parse_socket_examples :
  SocketAddr_from_str <$> ["127.0.0.1:9000"; "127.0.0.1:09000"; "127.0.0.1:65536"; "127.0.0.1"; "127.0.0.1:";
    "[::1]:80"; "[::1%3]:80"; "::1:80"; "[::1]80"; "127.0.0.1:80 "]
  = [Ok (mkSocketAddr (IpV4 2130706433) 9000); Ok (mkSocketAddr (IpV4 2130706433) 9000);
     Err "invalid socket address syntax"; Err "invalid socket address syntax";
     Err "invalid socket address syntax"; Ok (mkSocketAddr (IpV6 1) 80); Ok (mkSocketAddr (IpV6 1) 80);
     Err "invalid socket address syntax"; Err "invalid socket address syntax";
     Err "invalid socket address syntax"].
Proof. vm_compute. reflexivity. Qed.

Definition SocketAddr_ok (a : SocketAddr) : Prop := IpAddr_ok (sa_ip a) /\ u16_ok (sa_port a).

Lemma digit_value_nonneg c : 0 <= digit_value c.
Proof.
  unfold digit_value, char_between. repeat case_match; try lia.
  all: match goal with H : _ && _ = true |- _ => apply andb_true_iff in H as [H _]; apply N.leb_le in H end.
  all: match goal with H : (N_of_ascii ?x <= _)%N |- _ => let v := eval vm_compute in (N_of_ascii x) in
    change (N_of_ascii x) with v in H end; lia.
Qed.
Lemma read_digits_grow radix max s : 1 <= radix -> forall k r r' k' s', 0 <= r ->
  read_digits radix max k r s = Some (r', k', s') -> r <= r'.
Proof.
  intros Hr. induction s as [|c s IH]; intros k r r' k' s' H0; cbn [read_digits].
  { intros [= <- _ _]. lia. }
  unfold to_digit. destruct (digit_value c <? radix).
  - destruct (max <? k + 1); [done|]. pose proof (digit_value_nonneg c). intros Hd. apply IH in Hd; nia.
  - intros [= <- _ _]. lia.
Qed.
(** Where the result is within the type, no step of the checked loop overflows. *)
Lemma read_digits_unchecked radix max limit s : 1 <= radix -> forall k r r' k' s', 0 <= r -> r' < limit ->
  read_digits radix max k r s = Some (r', k', s') ->
  read_digits_checked radix limit k r s = Some (r', k', s').
Proof.
  intros Hr. induction s as [|c s IH]; intros k r r' k' s' H0 Hl; cbn [read_digits read_digits_checked]; [done|].
  destruct (to_digit radix c) as [d|] eqn:E; [|done]. destruct (max <? k + 1); [done|]. intros H.
  assert (0 <= d) as Hd.
  { unfold to_digit in E. destruct (digit_value c <? radix); [|done]. injection E as <-. apply digit_value_nonneg. }
  assert (0 <= r * radix + d) as H1 by nia. pose proof (read_digits_grow _ _ _ Hr _ _ _ _ _ H1 H).
  replace (limit <=? r * radix) with false by lia. replace (limit <=? r * radix + d) with false by lia.
  apply IH; [nia|done|done].
Qed.

Lemma read_port_fmt port : u16_ok port -> read_port (fmt_port port) = Some (port, "").
Proof.
  intros Hp. unfold read_port, fmt_port. rewrite read_given_char_hit. cbn [mbind option_bind].
  destruct (read_fmt_number 4 10 5 port "" ltac:(lia) 0 0) as (j & Hj & _ & _ & E); [unfold u16_ok in Hp; lia|lia|lia|].
  rewrite (read_digits_stop _ _ _ _ "") in E by done. unfold read_number_checked.
  assert (0 * 10 ^ j + port < 65536) as Hl by (unfold u16_ok in Hp; lia).
  rewrite (read_digits_unchecked 10 5 65536 _ ltac:(lia) 0 0 _ _ _ (Z.le_refl 0) Hl E).
  cbn [mbind option_bind]. replace (0 + j =? 0) with false by lia. by rewrite Z.mul_0_l.
Qed.

Lemma no_dot_bracket s : read_ipv4_addr (String "[" s) = None.
Proof. by apply read_ipv4_no_dot. Qed.

Lemma socket_from_to_string a : SocketAddr_ok a -> SocketAddr_from_str (SocketAddr_to_string a) = Ok a.
Proof.
  destruct a as [[a|a] port]; intros [Ha Hp]; simpl in Ha, Hp; unfold SocketAddr_from_str, read_socket_addr,
    read_socket_addr_v4, SocketAddr_to_string; cbn [sa_ip sa_port].
  - rewrite read_ipv4_fmt by done. cbn [mbind option_bind]. by rewrite read_port_fmt.
  - rewrite no_dot_bracket. unfold read_socket_addr_v6. rewrite read_given_char_hit.
    cbn [mbind option_bind]. rewrite read_fmt_ipv6 by (done || (right; by eexists)). cbn [mbind option_bind].
    change (read_scope_id (String "]" (fmt_port port))) with (@None (Z * string)). cbv beta iota zeta.
    rewrite read_given_char_hit. cbn [mbind option_bind]. by rewrite read_port_fmt.
Qed.
