(* ===== verification/Externs.v ===== *)
(** The third-party crates the codec calls, as an interface: byte order ([byteorder]),
    CRC32 ([crc32fast]), Zlib ([flate2]) and LZ4 ([lz4]).  Their code is not part of the
    repository, so every definition that calls them takes an [Externs] argument, and the
    documented behaviour a theorem relies on is one of the law classes below. *)

From S2P Require Import Prelude Core.

Class Externs := {
  (** [WriteBytesExt::write_u16/write_u32::<BigEndian>]: the bytes appended. *)
  be_put_u16 : Z -> list Z;
  be_put_u32 : Z -> list Z;
  (** [BigEndian::read_u16/read_u32] on exactly 2 and 4 bytes. *)
  be_get_u16 : list Z -> Z;
  be_get_u32 : list Z -> Z;
  (** [crc32fast::Hasher]: new, update, finalize. *)
  crc32 : list Z -> Z;
  (** [flate2]: [ZlibEncoder] with the default level, [ZlibDecoder::read_to_end]. *)
  zlib_compress : list Z -> io_result (list Z);
  zlib_decompress : list Z -> io_result (list Z);
  (** [lz4::block::compress(data, None, false)], [decompress(data, Some(size as i32))]. *)
  lz4_compress : list Z -> io_result (list Z);
  lz4_decompress : list Z -> Z -> io_result (list Z)
}.

(** [byteorder]: big-endian, most significant byte first. *)
Class ByteOrderLaws (X : Externs) : Prop := {
  be_put_u16_spec x : u16_ok x -> be_put_u16 x = [x / 256; x mod 256];
  be_put_u32_spec x : u32_ok x ->
    be_put_u32 x = [x / 16777216; x / 65536 mod 256; x / 256 mod 256; x mod 256];
  be_get_u16_spec a b : u8_ok a -> u8_ok b -> be_get_u16 [a; b] = a * 256 + b;
  be_get_u32_spec a b c d : u8_ok a -> u8_ok b -> u8_ok c -> u8_ok d ->
    be_get_u32 [a; b; c; d] = a * 16777216 + b * 65536 + c * 256 + d
}.

(** [crc32fast]: [finalize] returns a [u32]. *)
Class CrcLaws (X : Externs) : Prop := {
  crc32_u32 l : u32_ok (crc32 l)
}.

(** [flate2]: decoding what the encoder produced gives the input back. *)
Class ZlibLaws (X : Externs) : Prop := {
  zlib_roundtrip l c : zlib_compress l = Ok c -> zlib_decompress c = Ok l
}.

(** [lz4]: block decompression with the original size gives the input back; the size is an
    [i32], so this is stated for inputs below 2 GiB. *)
Class Lz4Laws (X : Externs) : Prop := {
  lz4_roundtrip l c : zlen l < 2147483648 -> lz4_compress l = Ok c ->
    lz4_decompress c (zlen l) = Ok l
}.

(** The decompressors yield bytes. *)
Class ByteStreamLaws (X : Externs) : Prop := {
  zlib_bytes c l : bytes_ok c -> zlib_decompress c = Ok l -> bytes_ok l;
  lz4_bytes c n l : bytes_ok c -> lz4_decompress c n = Ok l -> bytes_ok l
}.

Section ByteOrder.
Context {X : Externs} {L : ByteOrderLaws X}.

Lemma be_put_u16_length x : u16_ok x -> length (be_put_u16 x) = 2%nat.
Proof. intros. by rewrite be_put_u16_spec. Qed.
Lemma be_put_u32_length x : u32_ok x -> length (be_put_u32 x) = 4%nat.
Proof. intros. by rewrite be_put_u32_spec. Qed.
Lemma be_put_u16_bytes x : u16_ok x -> bytes_ok (be_put_u16 x).
Proof. intros. rewrite be_put_u16_spec by done. repeat constructor; int_solve. Qed.
Lemma be_put_u32_bytes x : u32_ok x -> bytes_ok (be_put_u32 x).
Proof. intros. rewrite be_put_u32_spec by done. repeat constructor; int_solve. Qed.

Lemma be_u16_roundtrip x : u16_ok x -> be_get_u16 (be_put_u16 x) = x.
Proof. intros. rewrite be_put_u16_spec, be_get_u16_spec by (done || int_solve). int_solve. Qed.
Lemma be_u32_roundtrip x : u32_ok x -> be_get_u32 (be_put_u32 x) = x.
Proof. intros. rewrite be_put_u32_spec, be_get_u32_spec by (done || int_solve). int_solve. Qed.

Lemma be_get_u16_ok l : bytes_ok l -> length l = 2%nat -> u16_ok (be_get_u16 l).
Proof.
  intros Hl Hn. destruct l as [|a [|b [|]]]; try done.
  inversion_clear Hl as [|? ? Ha Hl']. inversion_clear Hl' as [|? ? Hb _].
  rewrite be_get_u16_spec by done. unfold_ints. lia.
Qed.
Lemma be_get_u32_ok l : bytes_ok l -> length l = 4%nat -> u32_ok (be_get_u32 l).
Proof.
  intros Hl Hn. destruct l as [|a [|b [|c [|d [|]]]]]; try done.
  inversion_clear Hl as [|? ? Ha Hl']. inversion_clear Hl' as [|? ? Hb Hl''].
  inversion_clear Hl'' as [|? ? Hc Hl']. inversion_clear Hl' as [|? ? Hd _].
  rewrite be_get_u32_spec by done. unfold_ints. lia.
Qed.
End ByteOrder.

#[export] Hint Resolve be_put_u16_length be_put_u32_length be_put_u16_bytes be_put_u32_bytes
  be_get_u16_ok be_get_u32_ok : bitfold.

(* ------------------------------------------------------------------ *)
(** ** A concrete instance                                              *)
(* ------------------------------------------------------------------ *)

(** The witnesses run the model with this instance: real big-endian byte order, a checksum
    that sums the bytes with position weights, and "compressors" that cut a periodic tail and
    satisfy the round-trip laws.  No theorem depends on it. *)
Module Sample.
Definition sum_crc (l : list Z) : Z :=
  foldl (fun acc b => (acc * 31 + b + 1) mod 4294967296) 7 l.

(** The stream [1, p, k, rest] stands for [rest] followed by [k] more copies of its last [p]
    bytes, and [0, rest] for [rest]. *)
Definition unsqueeze (l : list Z) : io_result (list Z) :=
  match l with
  | 0 :: r => Ok r
  | 1 :: p :: k :: r =>
      Ok (r ++ List.concat (replicate (Z.to_nat k) (drop (length r - Z.to_nat p) r)))
  | _ => Err (mkIoError InvalidData "corrupt stream")
  end.

(** The compressor tries the periods up to 12 and keeps the stream that saves most. *)
Fixpoint common_prefix (l k : list Z) : nat :=
  match l, k with
  | a :: l, b :: k => if a =? b then S (common_prefix l k) else 0
  | _, _ => 0
  end.
Definition candidate (l : list Z) (p : nat) : list Z :=
  let rev_l := rev l in
  let k := Nat.min 255 (common_prefix rev_l (drop p rev_l) / p) in
  1 :: Z.of_nat p :: Z.of_nat k :: take (length l - k * p) l.
Definition shorter (l k : list Z) : list Z := if (length k <? length l)%nat then k else l.
Definition squeeze (l : list Z) : list Z :=
  let c := foldl (fun best p => shorter best (candidate l p)) (0 :: l) (seq 1 12) in
  match unsqueeze c with
  | Ok l' => if bool_decide (l' = l) then c else 0 :: l
  | Err _ => 0 :: l
  end.

Lemma unsqueeze_squeeze l : unsqueeze (squeeze l) = Ok l.
Proof.
  unfold squeeze. set (c := foldl _ _ _). destruct (unsqueeze c) as [l'|e] eqn:E; [|done].
  by case_bool_decide; subst.
Qed.

#[export] Instance externs : Externs := {|
  be_put_u16 x := [x / 256; x mod 256];
  be_put_u32 x := [x / 16777216; x / 65536 mod 256; x / 256 mod 256; x mod 256];
  be_get_u16 l := match l with [a; b] => a * 256 + b | _ => 0 end;
  be_get_u32 l := match l with
    | [a; b; c; d] => a * 16777216 + b * 65536 + c * 256 + d | _ => 0 end;
  crc32 := sum_crc;
  zlib_compress l := Ok (squeeze l);
  zlib_decompress := unsqueeze;
  lz4_compress l := Ok (squeeze l);
  lz4_decompress l _ := unsqueeze l
|}.

#[export] Instance byteorder_laws : ByteOrderLaws externs.
Proof. by constructor. Qed.

Lemma sum_crc_u32 l : u32_ok (sum_crc l).
Proof.
  unfold sum_crc. assert (u32_ok 7) as H by (unfold_ints; lia). revert H.
  generalize 7 as acc. induction l as [|b l IH]; intros acc H; simpl; [done|].
  apply IH. int_solve.
Qed.
#[export] Instance crc_laws : CrcLaws externs.
Proof. constructor. apply sum_crc_u32. Qed.
#[export] Instance zlib_laws : ZlibLaws externs.
Proof. constructor. intros l c [= <-]. apply unsqueeze_squeeze. Qed.
Lemma unsqueeze_bytes c l : bytes_ok c -> unsqueeze c = Ok l -> bytes_ok l.
Proof.
  destruct c as [|[|[]|] c]; try done; simpl; intros [_ Hc]%bytes_ok_cons.
  - by intros [= <-].
  - destruct c as [|p [|k c]]; [done..|]. intros [= <-].
    apply bytes_ok_cons in Hc as [_ [_ Hc]%bytes_ok_cons].
    apply Forall_app; split; [done|]. apply Forall_concat, Forall_replicate.
    by apply Forall_drop.
Qed.
#[export] Instance byte_stream_laws : ByteStreamLaws externs.
Proof. split; intros; by eapply unsqueeze_bytes. Qed.
#[export] Instance lz4_laws : Lz4Laws externs.
Proof. constructor. intros l c _ [= <-]. apply unsqueeze_squeeze. Qed.
End Sample.
