(* ===== verification/Buffers.v ===== *)
(** Byte buffers of [bitfold-core]: the shared slices ([shared.rs]) every data command
    carries, and the pools ([packet_pool.rs]) the encoders recycle buffers through. *)

From S2P Require Import Prelude Core.

(* ------------------------------------------------------------------ *)
(** ** [SharedBytes]                                                    *)
(* ------------------------------------------------------------------ *)

(** A view of [sb_len] bytes from [sb_start] in a shared buffer.  The buffer is immutable
    ([Arc<[u8]>]), so sharing it is copying its contents. *)
Record SharedBytes : Set := mkSharedBytes {
  sb_data : list Z;
  sb_start : nat;
  sb_len : nat
}.

#[export] Instance SharedBytes_eq_dec : EqDecision SharedBytes.
Proof. solve_decision. Defined.

Definition SharedBytes_from_vec (vec : list Z) : SharedBytes := mkSharedBytes vec 0 (length vec).
Definition SharedBytes_from_arc (data : list Z) : SharedBytes := mkSharedBytes data 0 (length data).

(** [slice] panics ([None]) when the range is out of bounds. *)
Definition SharedBytes_slice (s : SharedBytes) (start len : nat) : option SharedBytes :=
  if (start <=? sb_len s)%nat && (start + len <=? sb_len s)%nat
  then Some (mkSharedBytes (sb_data s) (sb_start s + start) len)
  else None.

(** [&self.data[self.start..self.start + self.len]]; see [SharedBytes_ok] for the range. *)
Definition SharedBytes_as_slice (s : SharedBytes) : list Z :=
  take (sb_len s) (drop (sb_start s) (sb_data s)).

Definition SharedBytes_len (s : SharedBytes) : Z := Z.of_nat (sb_len s).
Definition SharedBytes_is_empty (s : SharedBytes) : bool := (sb_len s =? 0)%nat.

Definition SharedBytes_into_full_arc (s : SharedBytes) : option (list Z) :=
  if (sb_start s =? 0)%nat && (sb_len s =? length (sb_data s))%nat then Some (sb_data s) else None.

(** [From<Vec<u8>>], [From<Arc<[u8]>>] and [AsRef<[u8]>]. *)
Definition SharedBytes_from_Vec (v : list Z) : SharedBytes := SharedBytes_from_vec v.
Definition SharedBytes_from_Arc (a : list Z) : SharedBytes := SharedBytes_from_arc a.
Definition SharedBytes_as_ref (s : SharedBytes) : list Z := SharedBytes_as_slice s.

(** [x.clone().into_full_arc().unwrap_or_else(|| Arc::from(x.as_slice().to_vec()))], the
    idiom by which the command processor turns a view into an owned payload. *)
Definition SharedBytes_to_arc (s : SharedBytes) : list Z :=
  match SharedBytes_into_full_arc s with
  | Some full => full
  | None => SharedBytes_as_slice s
  end.

(** The view lies in the buffer.  The fields are private and every constructor establishes
    this, so [as_slice] never panics. *)
Definition SharedBytes_ok (s : SharedBytes) : Prop :=
  (sb_start s + sb_len s <= length (sb_data s))%nat /\ bytes_ok (sb_data s).

Lemma SharedBytes_from_vec_ok v : bytes_ok v -> SharedBytes_ok (SharedBytes_from_vec v).
Proof. intros. split; simpl; [lia|done]. Qed.

Lemma SharedBytes_slice_ok s start len s' :
  SharedBytes_ok s -> SharedBytes_slice s start len = Some s' -> SharedBytes_ok s'.
Proof.
  intros [Hr Hb]. unfold SharedBytes_slice. case_match eqn:E; [|done].
  intros [= <-]. split; simpl; [lia|done].
Qed.

Lemma as_slice_from_vec v : SharedBytes_as_slice (SharedBytes_from_vec v) = v.
Proof. unfold SharedBytes_as_slice. simpl. by rewrite drop_0, take_ge. Qed.

Lemma as_slice_length s : SharedBytes_ok s -> length (SharedBytes_as_slice s) = sb_len s.
Proof. intros [? _]. unfold SharedBytes_as_slice. rewrite length_take, length_drop. lia. Qed.

Lemma as_slice_bytes s : SharedBytes_ok s -> bytes_ok (SharedBytes_as_slice s).
Proof. intros [_ ?]. unfold SharedBytes_as_slice. auto with bitfold. Qed.

Lemma as_slice_slice s start len s' :
  SharedBytes_slice s start len = Some s' ->
  SharedBytes_as_slice s' = take len (drop start (SharedBytes_as_slice s)).
Proof.
  unfold SharedBytes_slice, SharedBytes_as_slice. case_match eqn:E; [|done].
  intros [= <-]. simpl. rewrite !skipn_firstn_comm, take_take, drop_drop. f_equal. lia.
Qed.

(** The owned payload is the viewed bytes, whichever branch is taken. *)
Lemma to_arc_as_slice s : SharedBytes_to_arc s = SharedBytes_as_slice s.
Proof.
  unfold SharedBytes_to_arc, SharedBytes_into_full_arc. case_match eqn:E; [|done].
  revert E. case_match eqn:E; [|done]. intros [= <-].
  unfold SharedBytes_as_slice. assert (sb_start s = 0%nat) as -> by lia.
  rewrite drop_0, take_ge; [done|lia].
Qed.

#[export] Hint Resolve SharedBytes_from_vec_ok SharedBytes_slice_ok as_slice_bytes : bitfold.
#[export] Hint Rewrite as_slice_from_vec to_arc_as_slice : bitfold_rw.

(* ------------------------------------------------------------------ *)
(** ** [PooledPacket]                                                   *)
(* ------------------------------------------------------------------ *)

Record PooledPacket : Set := mkPooledPacket { pp_data : list Z; pp_start : nat; pp_len : nat }.

Definition PooledPacket_new (data : list Z) : PooledPacket := mkPooledPacket data 0 (length data).
Definition PooledPacket_from_arc (data : list Z) (start len : nat) : PooledPacket :=
  mkPooledPacket data start len.
(** The slice panics when the view leaves the buffer ([from_arc] does not check it). *)
Definition PooledPacket_as_slice (p : PooledPacket) : option (list Z) :=
  if (pp_start p + pp_len p <=? length (pp_data p))%nat
  then Some (take (pp_len p) (drop (pp_start p) (pp_data p))) else None.
Definition PooledPacket_len (p : PooledPacket) : Z := Z.of_nat (pp_len p).
Definition PooledPacket_is_empty (p : PooledPacket) : bool := (pp_len p =? 0)%nat.
(** [unique] is the outcome of [Arc::try_unwrap]. *)
Definition PooledPacket_into_owned (unique : bool) (p : PooledPacket) : option (list Z) :=
  if unique then
    if (pp_start p =? 0)%nat && (pp_len p =? length (pp_data p))%nat then Some (pp_data p)
    else PooledPacket_as_slice p
  else PooledPacket_as_slice p.

Definition PooledPacket_as_ref (p : PooledPacket) : option (list Z) := PooledPacket_as_slice p.

(** Taking ownership of the unique reference or copying gives the same bytes. *)
Lemma PooledPacket_into_owned_spec u p :
  PooledPacket_into_owned u p = PooledPacket_as_slice p.
Proof.
  unfold PooledPacket_into_owned, PooledPacket_as_slice.
  destruct u; [|done]. destruct (_ && _) eqn:E; [|done].
  assert (pp_start p = 0%nat /\ pp_len p = length (pp_data p)) as [-> ->] by lia.
  rewrite drop_0, take_ge by lia. destruct (_ <=? _)%nat eqn:E'; [done|lia].
Qed.

(* ------------------------------------------------------------------ *)
(** ** [PacketAllocator]                                                *)
(* ------------------------------------------------------------------ *)

(** The last element of [pa_pool] is the top of the [Vec]; a buffer is its contents (its
    spare capacity is not observable). *)
Record PacketAllocator : Set := mkPacketAllocator {
  pa_pool : list (list Z);
  pa_buffer_size : Z;
  pa_max_pool_size : Z
}.

(** [Vec::pop]. *)
Definition vec_pop {A} (v : list A) : option (A * list A) :=
  match reverse v with
  | [] => None
  | x :: r => Some (x, reverse r)
  end.

Definition PacketAllocator_new (buffer_size max_pool_size : Z) : PacketAllocator :=
  mkPacketAllocator [] buffer_size max_pool_size.
Definition PacketAllocator_default : PacketAllocator := PacketAllocator_new 1500 256.
Definition PacketAllocator_allocate (a : PacketAllocator) : list Z * PacketAllocator :=
  match vec_pop (pa_pool a) with
  | Some (b, pool) => (b, mkPacketAllocator pool (pa_buffer_size a) (pa_max_pool_size a))
  | None => ([], a)
  end.
Definition PacketAllocator_deallocate (a : PacketAllocator) (buffer : list Z) : PacketAllocator :=
  if zlen (pa_pool a) <? pa_max_pool_size a
  then mkPacketAllocator (pa_pool a ++ [[]]) (pa_buffer_size a) (pa_max_pool_size a)
  else a.
Definition PacketAllocator_available (a : PacketAllocator) : Z := zlen (pa_pool a).
Definition PacketAllocator_clear (a : PacketAllocator) : PacketAllocator :=
  mkPacketAllocator [] (pa_buffer_size a) (pa_max_pool_size a).

(* ------------------------------------------------------------------ *)
(** ** [CompressionBufferPool]                                          *)
(* ------------------------------------------------------------------ *)

Record CompressionBufferPool : Set := mkCompressionBufferPool {
  cp_pool : list (list Z);
  cp_max_buffer_size : Z;
  cp_max_pool_size : Z
}.

Definition CompressionBufferPool_new (max_buffer_size max_pool_size : Z) : CompressionBufferPool :=
  mkCompressionBufferPool [] max_buffer_size max_pool_size.
Definition CompressionBufferPool_default : CompressionBufferPool := CompressionBufferPool_new 8192 32.
Definition CompressionBufferPool_acquire (c : CompressionBufferPool)
  : list Z * CompressionBufferPool :=
  match vec_pop (cp_pool c) with
  | Some (b, pool) => (b, mkCompressionBufferPool pool (cp_max_buffer_size c) (cp_max_pool_size c))
  | None => ([], c)
  end.
(** [capacity] is [buffer.capacity()], chosen by the allocator. *)
Definition CompressionBufferPool_release (c : CompressionBufferPool) (buffer : list Z)
  (capacity : Z) : CompressionBufferPool :=
  if (capacity <=? cp_max_buffer_size c) && (zlen (cp_pool c) <? cp_max_pool_size c)
  then mkCompressionBufferPool (cp_pool c ++ [[]]) (cp_max_buffer_size c) (cp_max_pool_size c)
  else c.
Definition CompressionBufferPool_available (c : CompressionBufferPool) : Z := zlen (cp_pool c).
Definition CompressionBufferPool_clear (c : CompressionBufferPool) : CompressionBufferPool :=
  mkCompressionBufferPool [] (cp_max_buffer_size c) (cp_max_pool_size c).

(** Pools hold only cleared buffers, at most [max_pool_size] of them. *)
Definition pool_ok (pool : list (list Z)) (max : Z) : Prop :=
  Forall (fun b => b = []) pool /\ zlen pool <= Z.max 0 max.
Definition PacketAllocator_ok (a : PacketAllocator) : Prop :=
  pool_ok (pa_pool a) (pa_max_pool_size a).
Definition CompressionBufferPool_ok (c : CompressionBufferPool) : Prop :=
  pool_ok (cp_pool c) (cp_max_pool_size c).

Lemma vec_pop_Some {A} (v : list A) x r : vec_pop v = Some (x, r) -> v = r ++ [x].
Proof.
  unfold vec_pop. destruct (reverse v) as [|y w] eqn:E; [done|]. intros [= -> <-].
  rewrite <-(reverse_involutive v), E, reverse_cons. done.
Qed.
Lemma vec_pop_None {A} (v : list A) : vec_pop v = None -> v = [].
Proof.
  unfold vec_pop. destruct (reverse v) as [|y w] eqn:E; [|done]. intros _.
  by rewrite <-(reverse_involutive v), E.
Qed.

Lemma pool_ok_pop pool max b pool' :
  pool_ok pool max -> vec_pop pool = Some (b, pool') -> b = [] /\ pool_ok pool' max.
Proof.
  intros [Hf Hl] ->%vec_pop_Some. apply Forall_app in Hf as [Hf Hb].
  inversion_clear Hb. unfold pool_ok. split_all; [done..|]. rewrite zlen_app in Hl.
  pose proof (zlen_nonneg [b]). lia.
Qed.
Lemma pool_ok_push pool max :
  pool_ok pool max -> zlen pool < max -> pool_ok (pool ++ [[]]) max.
Proof.
  intros [Hf Hl] Hlt. split; [apply Forall_app; split; [done|by repeat constructor]|].
  rewrite zlen_app, zlen_cons, zlen_nil. lia.
Qed.

Lemma PacketAllocator_allocate_ok a b a' :
  PacketAllocator_ok a -> PacketAllocator_allocate a = (b, a') -> b = [] /\ PacketAllocator_ok a'.
Proof.
  intros Ha. unfold PacketAllocator_allocate. destruct (vec_pop _) as [[b0 p0]|] eqn:E.
  - intros [= <- <-]. by eapply pool_ok_pop in E; [|done].
  - intros [= <- <-]. done.
Qed.
Lemma PacketAllocator_deallocate_ok a b :
  PacketAllocator_ok a -> PacketAllocator_ok (PacketAllocator_deallocate a b).
Proof.
  intros Ha. unfold PacketAllocator_deallocate. case_match; [|done].
  apply pool_ok_push; simpl; [done|lia].
Qed.
Lemma CompressionBufferPool_acquire_ok c b c' :
  CompressionBufferPool_ok c -> CompressionBufferPool_acquire c = (b, c') ->
  b = [] /\ CompressionBufferPool_ok c'.
Proof.
  intros Hc. unfold CompressionBufferPool_acquire. destruct (vec_pop _) as [[b0 p0]|] eqn:E.
  - intros [= <- <-]. by eapply pool_ok_pop in E; [|done].
  - intros [= <- <-]. done.
Qed.
Lemma CompressionBufferPool_release_ok c b cap :
  CompressionBufferPool_ok c -> CompressionBufferPool_ok (CompressionBufferPool_release c b cap).
Proof.
  intros Hc. unfold CompressionBufferPool_release. case_match; [|done].
  apply pool_ok_push; simpl; [done|lia].
Qed.
#[export] Hint Resolve PacketAllocator_deallocate_ok CompressionBufferPool_release_ok : bitfold.
