(* ===== verification/Packet.v ===== *)
(** Packets and guarantees of [bitfold-protocol/src/packet.rs]: the enums with their wire
    values, the user-facing [Packet] and the collections packet processing returns. *)

From S2P Require Import Prelude Core.

Definition SequenceNumber := Z.

(* ------------------------------------------------------------------ *)
(** ** Guarantees                                                       *)
(* ------------------------------------------------------------------ *)

Inductive DeliveryGuarantee : Set := Unreliable | Reliable.

Definition DeliveryGuarantee_to_u8 (d : DeliveryGuarantee) : Z :=
  match d with Unreliable => 0 | Reliable => 1 end.
Definition DeliveryGuarantee_try_from (value : Z) : result ErrorKind DeliveryGuarantee :=
  match value with
  | 0 => Ok Unreliable
  | 1 => Ok Reliable
  | _ => Err (DecodingError DecDeliveryGuarantee)
  end.

Inductive OrderingGuarantee : Set :=
| OrderNone
| Sequenced (stream : option Z)
| Ordered (stream : option Z)
| Unsequenced.

Definition OrderingGuarantee_to_u8 (o : OrderingGuarantee) : Z :=
  match o with OrderNone => 0 | Sequenced _ => 1 | Ordered _ => 2 | Unsequenced => 3 end.
Definition OrderingGuarantee_try_from (value : Z) : result ErrorKind OrderingGuarantee :=
  match value with
  | 0 => Ok OrderNone
  | 1 => Ok (Sequenced None)
  | 2 => Ok (Ordered None)
  | 3 => Ok Unsequenced
  | _ => Err (DecodingError DecOrderingGuarantee)
  end.

Inductive PacketType : Set := TypePacket | TypeFragment | TypeHeartbeat.

Definition PacketType_to_u8 (t : PacketType) : Z :=
  match t with TypePacket => 0 | TypeFragment => 1 | TypeHeartbeat => 2 end.
Definition PacketType_try_from (value : Z) : result ErrorKind PacketType :=
  match value with
  | 0 => Ok TypePacket
  | 1 => Ok TypeFragment
  | 2 => Ok TypeHeartbeat
  | _ => Err (DecodingError DecPacketType)
  end.

#[export] Instance DeliveryGuarantee_eq_dec : EqDecision DeliveryGuarantee.
Proof. solve_decision. Defined.
#[export] Instance OrderingGuarantee_eq_dec : EqDecision OrderingGuarantee.
Proof. solve_decision. Defined.
#[export] Instance PacketType_eq_dec : EqDecision PacketType.
Proof. solve_decision. Defined.

(** The trait [EnumConverter]. *)
Class EnumConverter (E : Type) := { to_u8 : E -> Z }.
#[export] Instance DeliveryGuarantee_EnumConverter : EnumConverter DeliveryGuarantee := {|
  to_u8 := DeliveryGuarantee_to_u8
|}.
#[export] Instance OrderingGuarantee_EnumConverter : EnumConverter OrderingGuarantee := {|
  to_u8 := OrderingGuarantee_to_u8
|}.
#[export] Instance PacketType_EnumConverter : EnumConverter PacketType := {|
  to_u8 := PacketType_to_u8
|}.

(** The wire keeps the kind of ordering and forgets the stream. *)
Definition forget_stream (o : OrderingGuarantee) : OrderingGuarantee :=
  match o with Sequenced _ => Sequenced None | Ordered _ => Ordered None | _ => o end.

Lemma DeliveryGuarantee_roundtrip d : DeliveryGuarantee_try_from (DeliveryGuarantee_to_u8 d) = Ok d.
Proof. by destruct d. Qed.
Lemma OrderingGuarantee_roundtrip o :
  OrderingGuarantee_try_from (OrderingGuarantee_to_u8 o) = Ok (forget_stream o).
Proof. by destruct o. Qed.
Lemma PacketType_roundtrip t : PacketType_try_from (PacketType_to_u8 t) = Ok t.
Proof. by destruct t. Qed.

Ltac wire_cases z := destruct z as [|[[?|?|]|[?|?|]|]|?]; simpl; intros; simplify_eq; try done; try lia.

Lemma DeliveryGuarantee_try_from_Ok z d :
  DeliveryGuarantee_try_from z = Ok d <-> z = DeliveryGuarantee_to_u8 d.
Proof. split; [|intros ->; apply DeliveryGuarantee_roundtrip]. wire_cases z. Qed.
Lemma PacketType_try_from_Ok z t : PacketType_try_from z = Ok t <-> z = PacketType_to_u8 t.
Proof. split; [|intros ->; apply PacketType_roundtrip]. wire_cases z. Qed.
Lemma OrderingGuarantee_try_from_Ok z o :
  OrderingGuarantee_try_from z = Ok o <-> z = OrderingGuarantee_to_u8 o /\ forget_stream o = o.
Proof.
  split; [|intros [-> E]; rewrite <-E at 2; apply OrderingGuarantee_roundtrip].
  wire_cases z.
Qed.

(* ------------------------------------------------------------------ *)
(** ** [Packet]                                                         *)
(* ------------------------------------------------------------------ *)

Record Packet : Set := mkPacket {
  pk_addr : SocketAddr;
  pk_payload : list Z;
  pk_delivery : DeliveryGuarantee;
  pk_ordering : OrderingGuarantee;
  pk_channel_id : Z
}.

Definition Packet_new := mkPacket.
Definition Packet_unreliable (addr : SocketAddr) (payload : list Z) : Packet :=
  mkPacket addr payload Unreliable OrderNone 0.
Definition Packet_unreliable_sequenced (addr : SocketAddr) (payload : list Z)
  (stream_id : option Z) : Packet := mkPacket addr payload Unreliable (Sequenced stream_id) 0.
Definition Packet_unsequenced (addr : SocketAddr) (payload : list Z) : Packet :=
  mkPacket addr payload Unreliable Unsequenced 0.
Definition Packet_reliable_unordered (addr : SocketAddr) (payload : list Z) : Packet :=
  mkPacket addr payload Reliable OrderNone 0.
Definition Packet_reliable_ordered (addr : SocketAddr) (payload : list Z)
  (stream_id : option Z) : Packet := mkPacket addr payload Reliable (Ordered stream_id) 0.
Definition Packet_reliable_sequenced (addr : SocketAddr) (payload : list Z)
  (stream_id : option Z) : Packet := mkPacket addr payload Reliable (Sequenced stream_id) 0.
Definition Packet_unreliable_on_channel (addr : SocketAddr) (payload : list Z)
  (channel_id : Z) : Packet := mkPacket addr payload Unreliable OrderNone channel_id.
Definition Packet_reliable_on_channel (addr : SocketAddr) (payload : list Z)
  (channel_id : Z) : Packet := mkPacket addr payload Reliable OrderNone channel_id.

(** The accessors; an [Arc] clone shares the immutable bytes. *)
Definition Packet_payload (p : Packet) : list Z := pk_payload p.
Definition Packet_into_payload (p : Packet) : list Z := pk_payload p.
Definition Packet_payload_arc (p : Packet) : list Z := pk_payload p.
Definition Packet_addr (p : Packet) : SocketAddr := pk_addr p.
Definition Packet_delivery_guarantee (p : Packet) : DeliveryGuarantee := pk_delivery p.
Definition Packet_order_guarantee (p : Packet) : OrderingGuarantee := pk_ordering p.
Definition Packet_channel_id (p : Packet) : Z := pk_channel_id p.

Record PacketInfo : Set := mkPacketInfo {
  pi_packet_type : PacketType;
  pi_payload : list Z;
  pi_delivery : DeliveryGuarantee;
  pi_ordering : OrderingGuarantee
}.
Definition PacketInfo_user_packet (payload : list Z) (d : DeliveryGuarantee)
  (o : OrderingGuarantee) : PacketInfo := mkPacketInfo TypePacket payload d o.
Definition PacketInfo_heartbeat_packet (payload : list Z) : PacketInfo :=
  mkPacketInfo TypeHeartbeat payload Unreliable OrderNone.

(* ------------------------------------------------------------------ *)
(** ** Collections                                                      *)
(* ------------------------------------------------------------------ *)

(** [ZeroOrMore<T>]: an option or a queue, consumed from the front. *)
Definition ZeroOrMore (T : Type) := Either (option T) (list T).
Definition ZeroOrMore_zero {T} : ZeroOrMore T := Left None.
Definition ZeroOrMore_one {T} (data : T) : ZeroOrMore T := Left (Some data).
Definition ZeroOrMore_many {T} (vec : list T) : ZeroOrMore T := Right vec.
Definition ZeroOrMore_next {T} (z : ZeroOrMore T) : option T * ZeroOrMore T :=
  match z with
  | Left o => (o, Left None)
  | Right [] => (None, Right [])
  | Right (x :: v) => (Some x, Right v)
  end.

Definition IncomingPackets := ZeroOrMore (Packet * PacketType).
Definition IncomingPackets_zero : IncomingPackets := ZeroOrMore_zero.
Definition IncomingPackets_one (p : Packet) (t : PacketType) : IncomingPackets :=
  ZeroOrMore_one (p, t).
Definition IncomingPackets_many (v : list (Packet * PacketType)) : IncomingPackets :=
  ZeroOrMore_many v.

Definition IncomingPackets_into_iter (p : IncomingPackets) : ZeroOrMore (Packet * PacketType) := p.

(** [into_iter().collect()]: what repeated [next] yields. *)
Definition ZeroOrMore_collect {T} (z : ZeroOrMore T) : list T :=
  match z with Left None => [] | Left (Some x) => [x] | Right v => v end.

Lemma ZeroOrMore_next_collect {T} (z : ZeroOrMore T) :
  ZeroOrMore_collect z =
    match ZeroOrMore_next z with
    | (Some x, z') => x :: ZeroOrMore_collect z'
    | (None, _) => []
    end.
Proof. by destruct z as [[x|]|[|x v]]. Qed.
