(* ===== verification/Command.v ===== *)
(** Protocol commands of [bitfold-protocol/src/command.rs] and the packets that batch them. *)

From S2P Require Import Prelude Core Buffers.

Inductive ProtocolCommand : Set :=
| SendReliable (channel_id sequence : Z) (ordered : bool) (data : SharedBytes)
| SendUnreliable (channel_id : Z) (data : SharedBytes)
| SendUnreliableSequenced (channel_id sequence : Z) (data : SharedBytes)
| SendUnsequenced (channel_id unsequenced_group : Z) (data : SharedBytes)
| SendFragment (channel_id sequence : Z) (ordered : bool) (fragment_id fragment_count : Z)
    (data : SharedBytes)
| SendUnreliableFragment (channel_id sequence fragment_id fragment_count : Z)
    (data : SharedBytes)
| Acknowledge (sequence received_mask : Z) (sent_time : option Z)
| Ping (timestamp : Z)
| Pong (timestamp : Z)
| Connect (channels mtu protocol_version outgoing_session_id connect_id : Z)
| VerifyConnect (peer_id channels mtu incoming_session_id outgoing_session_id window_size : Z)
| Disconnect (reason : Z)
| BandwidthLimit (incoming outgoing : Z)
| ThrottleConfigure (interval acceleration deceleration : Z)
| PMTUProbe (size token : Z) (payload : SharedBytes)
| PMTUReply (size token : Z).

(** [#[derive(PartialEq)]]. *)
#[export] Instance ProtocolCommand_eq_dec : EqDecision ProtocolCommand.
Proof. solve_decision. Defined.

Definition command_type (c : ProtocolCommand) : Z :=
  match c with
  | SendReliable _ _ _ _ => 1
  | SendUnreliable _ _ => 2
  | SendUnreliableSequenced _ _ _ => 3
  | SendUnsequenced _ _ _ => 4
  | SendFragment _ _ _ _ _ _ => 5
  | SendUnreliableFragment _ _ _ _ _ => 6
  | Acknowledge _ _ _ => 7
  | Ping _ => 8
  | Pong _ => 9
  | Connect _ _ _ _ _ => 10
  | VerifyConnect _ _ _ _ _ _ => 11
  | Disconnect _ => 12
  | BandwidthLimit _ _ => 13
  | ThrottleConfigure _ _ _ => 14
  | PMTUProbe _ _ _ => 15
  | PMTUReply _ _ => 16
  end.

Definition is_reliable (c : ProtocolCommand) : bool :=
  match c with
  | SendReliable _ _ _ _ | SendFragment _ _ _ _ _ _ | Connect _ _ _ _ _
  | VerifyConnect _ _ _ _ _ _ | Disconnect _ => true
  | _ => false
  end.

Definition command_channel_id (c : ProtocolCommand) : option Z :=
  match c with
  | SendReliable channel_id _ _ _ | SendUnreliable channel_id _
  | SendUnreliableSequenced channel_id _ _ | SendUnsequenced channel_id _ _
  | SendFragment channel_id _ _ _ _ _ | SendUnreliableFragment channel_id _ _ _ _ =>
      Some channel_id
  | _ => None
  end.

(** [timestamp] is the [Instant::now()] of the constructor. *)
Record CommandPacket : Set := mkCommandPacket {
  commands : list ProtocolCommand;
  packet_timestamp : Instant
}.
Definition CommandPacket_new (now : Instant) : CommandPacket := mkCommandPacket [] now.
Definition CommandPacket_default (now : Instant) : CommandPacket := CommandPacket_new now.
Definition CommandPacket_single (c : ProtocolCommand) (now : Instant) : CommandPacket :=
  mkCommandPacket [c] now.
Definition CommandPacket_add_command (p : CommandPacket) (c : ProtocolCommand) : CommandPacket :=
  mkCommandPacket (commands p ++ [c]) (packet_timestamp p).
Definition CommandPacket_is_empty (p : CommandPacket) : bool :=
  match commands p with [] => true | _ => false end.
Definition CommandPacket_len (p : CommandPacket) : Z := zlen (commands p).

(* ------------------------------------------------------------------ *)
(** ** Well-formedness                                                  *)
(* ------------------------------------------------------------------ *)

(** Every field fits its Rust type, every view is in range, and payload lengths fit the
    16-bit length field of the wire format. *)
Definition payload_ok (s : SharedBytes) : Prop := SharedBytes_ok s /\ Z.of_nat (sb_len s) < 65536.

Definition command_ok (c : ProtocolCommand) : Prop :=
  match c with
  | SendReliable ch sq _ d => u8_ok ch /\ u16_ok sq /\ payload_ok d
  | SendUnreliable ch d => u8_ok ch /\ payload_ok d
  | SendUnreliableSequenced ch sq d => u8_ok ch /\ u16_ok sq /\ payload_ok d
  | SendUnsequenced ch g d => u8_ok ch /\ u16_ok g /\ payload_ok d
  | SendFragment ch sq _ i n d => u8_ok ch /\ u16_ok sq /\ u8_ok i /\ u8_ok n /\ payload_ok d
  | SendUnreliableFragment ch sq i n d =>
      u8_ok ch /\ u16_ok sq /\ u8_ok i /\ u8_ok n /\ payload_ok d
  | Acknowledge sq m t => u16_ok sq /\ u32_ok m /\ (forall x, t = Some x -> u32_ok x)
  | Ping t | Pong t => u32_ok t
  | Connect ch mtu v s id => u8_ok ch /\ u16_ok mtu /\ u16_ok v /\ u16_ok s /\ u32_ok id
  | VerifyConnect p ch mtu i o w =>
      u16_ok p /\ u8_ok ch /\ u16_ok mtu /\ u16_ok i /\ u16_ok o /\ u32_ok w
  | Disconnect r => u32_ok r
  | BandwidthLimit i o => u32_ok i /\ u32_ok o
  | ThrottleConfigure i a d => u32_ok i /\ u32_ok a /\ u32_ok d
  | PMTUProbe s t p => u16_ok s /\ u32_ok t /\ payload_ok p
  | PMTUReply s t => u16_ok s /\ u32_ok t
  end.

(** What a receiver rebuilds: the same command with its payload in a buffer of its own. *)
Definition reown (s : SharedBytes) : SharedBytes := SharedBytes_from_vec (SharedBytes_as_slice s).
Definition command_reown (c : ProtocolCommand) : ProtocolCommand :=
  match c with
  | SendReliable ch sq o d => SendReliable ch sq o (reown d)
  | SendUnreliable ch d => SendUnreliable ch (reown d)
  | SendUnreliableSequenced ch sq d => SendUnreliableSequenced ch sq (reown d)
  | SendUnsequenced ch g d => SendUnsequenced ch g (reown d)
  | SendFragment ch sq o i n d => SendFragment ch sq o i n (reown d)
  | SendUnreliableFragment ch sq i n d => SendUnreliableFragment ch sq i n (reown d)
  | PMTUProbe s t p => PMTUProbe s t (reown p)
  | _ => c
  end.

Lemma reown_from_vec v : reown (SharedBytes_from_vec v) = SharedBytes_from_vec v.
Proof. unfold reown. by rewrite as_slice_from_vec. Qed.
