(* ===== verification/Codec.v ===== *)
(** Binary encoding and decoding of commands and command packets:
    [command_codec/encoder.rs] and [command_codec/decoder.rs].

    The encoders append to a byte vector, the decoders read from a cursor over a slice; both
    return [io::Result].  Byte order is [byteorder]'s, through the [Externs] interface. *)

From S2P Require Import Prelude Core Externs Buffers Command.

(* ------------------------------------------------------------------ *)
(** ** Writing to a [Vec<u8>]                                           *)
(* ------------------------------------------------------------------ *)

Section Codec.
Context {X : Externs}.

(** Writing to a vector always succeeds. *)
Definition write_all (buffer bytes : list Z) : io_result (list Z) := Ok (buffer ++ bytes).
Definition write_u8 (buffer : list Z) (x : Z) : io_result (list Z) := write_all buffer [x].
Definition write_u16 (buffer : list Z) (x : Z) : io_result (list Z) :=
  write_all buffer (be_put_u16 x).
Definition write_u32 (buffer : list Z) (x : Z) : io_result (list Z) :=
  write_all buffer (be_put_u32 x).

(** [data.len() as u16], then the bytes. *)
Definition write_data (buffer : list Z) (data : SharedBytes) : io_result (list Z) :=
  buffer ← write_u16 buffer (as_u16 (Z.of_nat (sb_len data)));
  write_all buffer (SharedBytes_as_slice data).

(* ------------------------------------------------------------------ *)
(** ** [CommandEncoder]                                                 *)
(* ------------------------------------------------------------------ *)

Definition flag (b : bool) : Z := if b then 1 else 0.

Definition encode_command_into (buffer : list Z) (command : ProtocolCommand)
  : io_result (list Z) :=
  buffer ← write_u8 buffer (command_type command);
  match command with
  | SendReliable channel_id sequence ordered data =>
      buffer ← write_u8 buffer channel_id;
      buffer ← write_u16 buffer sequence;
      buffer ← write_u8 buffer (flag ordered);
      write_data buffer data
  | SendUnreliable channel_id data =>
      buffer ← write_u8 buffer channel_id;
      write_data buffer data
  | SendUnreliableSequenced channel_id sequence data =>
      buffer ← write_u8 buffer channel_id;
      buffer ← write_u16 buffer sequence;
      write_data buffer data
  | SendUnsequenced channel_id unsequenced_group data =>
      buffer ← write_u8 buffer channel_id;
      buffer ← write_u16 buffer unsequenced_group;
      write_data buffer data
  | SendFragment channel_id sequence ordered fragment_id fragment_count data =>
      buffer ← write_u8 buffer channel_id;
      buffer ← write_u16 buffer sequence;
      buffer ← write_u8 buffer (flag ordered);
      buffer ← write_u8 buffer fragment_id;
      buffer ← write_u8 buffer fragment_count;
      write_data buffer data
  | SendUnreliableFragment channel_id sequence fragment_id fragment_count data =>
      buffer ← write_u8 buffer channel_id;
      buffer ← write_u16 buffer sequence;
      buffer ← write_u8 buffer fragment_id;
      buffer ← write_u8 buffer fragment_count;
      write_data buffer data
  | Acknowledge sequence received_mask sent_time =>
      buffer ← write_u16 buffer sequence;
      buffer ← write_u32 buffer received_mask;
      match sent_time with
      | Some time => write_u32 buffer time
      | None => Ok buffer
      end
  | Ping timestamp => write_u32 buffer timestamp
  | Pong timestamp => write_u32 buffer timestamp
  | Connect channels mtu protocol_version outgoing_session_id connect_id =>
      buffer ← write_u8 buffer channels;
      buffer ← write_u16 buffer mtu;
      buffer ← write_u16 buffer protocol_version;
      buffer ← write_u16 buffer outgoing_session_id;
      write_u32 buffer connect_id
  | VerifyConnect peer_id channels mtu incoming_session_id outgoing_session_id window_size =>
      buffer ← write_u16 buffer peer_id;
      buffer ← write_u8 buffer channels;
      buffer ← write_u16 buffer mtu;
      buffer ← write_u16 buffer incoming_session_id;
      buffer ← write_u16 buffer outgoing_session_id;
      write_u32 buffer window_size
  | Disconnect reason => write_u32 buffer reason
  | BandwidthLimit incoming outgoing =>
      buffer ← write_u32 buffer incoming;
      write_u32 buffer outgoing
  | ThrottleConfigure interval acceleration deceleration =>
      buffer ← write_u32 buffer interval;
      buffer ← write_u32 buffer acceleration;
      write_u32 buffer deceleration
  | PMTUProbe size token payload =>
      buffer ← write_u16 buffer size;
      buffer ← write_u32 buffer token;
      write_data buffer payload
  | PMTUReply size token =>
      buffer ← write_u16 buffer size;
      write_u32 buffer token
  end.

(** The loop of [encode_packet_into]: reserve the length, encode, patch the length. *)
Fixpoint encode_commands_into (buffer : list Z) (cs : list ProtocolCommand)
  : io_result (list Z) :=
  match cs with
  | [] => Ok buffer
  | command :: cs =>
      let len_pos := length buffer in
      buffer ← write_u16 buffer 0;
      let start := length buffer in
      buffer ← encode_command_into buffer command;
      let cmd_len := Z.of_nat (length buffer - start) in
      let buffer := <[len_pos := as_u8 (Z.land (Z.shiftr cmd_len 8) 255)]> buffer in
      let buffer := <[(len_pos + 1)%nat := as_u8 (Z.land cmd_len 255)]> buffer in
      encode_commands_into buffer cs
  end.

Definition encode_packet_into (buffer : list Z) (packet : CommandPacket) : io_result (list Z) :=
  buffer ← write_u8 buffer (as_u8 (zlen (commands packet)));
  encode_commands_into buffer (commands packet).

(** The second copy of the encoder in the source: the same writes on a fresh vector. *)
Definition encode_command (command : ProtocolCommand) : io_result (list Z) :=
  buffer ← write_u8 [] (command_type command);
  match command with
  | SendReliable channel_id sequence ordered data =>
      buffer ← write_u8 buffer channel_id;
      buffer ← write_u16 buffer sequence;
      buffer ← write_u8 buffer (flag ordered);
      write_data buffer data
  | SendUnreliable channel_id data =>
      buffer ← write_u8 buffer channel_id;
      write_data buffer data
  | SendUnreliableSequenced channel_id sequence data =>
      buffer ← write_u8 buffer channel_id;
      buffer ← write_u16 buffer sequence;
      write_data buffer data
  | SendUnsequenced channel_id unsequenced_group data =>
      buffer ← write_u8 buffer channel_id;
      buffer ← write_u16 buffer unsequenced_group;
      write_data buffer data
  | SendFragment channel_id sequence ordered fragment_id fragment_count data =>
      buffer ← write_u8 buffer channel_id;
      buffer ← write_u16 buffer sequence;
      buffer ← write_u8 buffer (flag ordered);
      buffer ← write_u8 buffer fragment_id;
      buffer ← write_u8 buffer fragment_count;
      write_data buffer data
  | SendUnreliableFragment channel_id sequence fragment_id fragment_count data =>
      buffer ← write_u8 buffer channel_id;
      buffer ← write_u16 buffer sequence;
      buffer ← write_u8 buffer fragment_id;
      buffer ← write_u8 buffer fragment_count;
      write_data buffer data
  | Acknowledge sequence received_mask sent_time =>
      buffer ← write_u16 buffer sequence;
      buffer ← write_u32 buffer received_mask;
      match sent_time with
      | Some time => write_u32 buffer time
      | None => Ok buffer
      end
  | Ping timestamp => write_u32 buffer timestamp
  | Pong timestamp => write_u32 buffer timestamp
  | Connect channels mtu protocol_version outgoing_session_id connect_id =>
      buffer ← write_u8 buffer channels;
      buffer ← write_u16 buffer mtu;
      buffer ← write_u16 buffer protocol_version;
      buffer ← write_u16 buffer outgoing_session_id;
      write_u32 buffer connect_id
  | VerifyConnect peer_id channels mtu incoming_session_id outgoing_session_id window_size =>
      buffer ← write_u16 buffer peer_id;
      buffer ← write_u8 buffer channels;
      buffer ← write_u16 buffer mtu;
      buffer ← write_u16 buffer incoming_session_id;
      buffer ← write_u16 buffer outgoing_session_id;
      write_u32 buffer window_size
  | Disconnect reason => write_u32 buffer reason
  | BandwidthLimit incoming outgoing =>
      buffer ← write_u32 buffer incoming;
      write_u32 buffer outgoing
  | ThrottleConfigure interval acceleration deceleration =>
      buffer ← write_u32 buffer interval;
      buffer ← write_u32 buffer acceleration;
      write_u32 buffer deceleration
  | PMTUProbe size token payload =>
      buffer ← write_u16 buffer size;
      buffer ← write_u32 buffer token;
      write_data buffer payload
  | PMTUReply size token =>
      buffer ← write_u16 buffer size;
      write_u32 buffer token
  end.

Fixpoint encode_packet_commands (buffer : list Z) (cs : list ProtocolCommand)
  : io_result (list Z) :=
  match cs with
  | [] => Ok buffer
  | command :: cs =>
      cmd_bytes ← encode_command command;
      buffer ← write_u16 buffer (as_u16 (zlen cmd_bytes));
      buffer ← write_all buffer cmd_bytes;
      encode_packet_commands buffer cs
  end.

Definition encode_packet (packet : CommandPacket) : io_result (list Z) :=
  buffer ← write_u8 [] (as_u8 (zlen (commands packet)));
  encode_packet_commands buffer (commands packet).

(* ------------------------------------------------------------------ *)
(** ** Reading from a [Cursor<&[u8]>]                                   *)
(* ------------------------------------------------------------------ *)

Record Cursor : Set := mkCursor { cur_buf : list Z; cur_pos : nat }.
Definition Cursor_new (data : list Z) : Cursor := mkCursor data 0.

Definition Reader (A : Type) := Cursor -> io_result (A * Cursor).
#[export] Instance Reader_ret : MRet Reader := fun A a c => Ok (a, c).
#[export] Instance Reader_bind : MBind Reader := fun A B f r c =>
  match r c with Ok (a, c') => f a c' | Err e => Err e end.

(** [read_exact] on a buffer of [n] bytes. *)
Definition read_exact (n : nat) : Reader (list Z) := fun c =>
  if (cur_pos c + n <=? length (cur_buf c))%nat
  then Ok (take n (drop (cur_pos c) (cur_buf c)), mkCursor (cur_buf c) (cur_pos c + n))
  else Err (mkIoError UnexpectedEof "failed to fill whole buffer").

Definition read_u8 : Reader Z := l ← read_exact 1; mret (default 0 (head l)).
Definition read_u16 : Reader Z := l ← read_exact 2; mret (be_get_u16 l).
Definition read_u32 : Reader Z := l ← read_exact 4; mret (be_get_u32 l).

(** A 16-bit length, then that many bytes in a fresh vector. *)
Definition read_data : Reader SharedBytes :=
  data_len ← read_u16;
  data_vec ← read_exact (Z.to_nat data_len);
  mret (SharedBytes_from_vec data_vec).

(** [cursor.position() < cursor.get_ref().len()]. *)
Definition has_more : Reader bool := fun c => Ok ((cur_pos c <? length (cur_buf c))%nat, c).

Definition reader_fail {A} (e : IoError) : Reader A := fun _ => Err e.

(* ------------------------------------------------------------------ *)
(** ** [CommandDecoder]                                                 *)
(* ------------------------------------------------------------------ *)

Definition decode_command : Reader ProtocolCommand :=
  cmd_type ← read_u8;
  match cmd_type with
  | 1 =>
      channel_id ← read_u8;
      sequence ← read_u16;
      ordered ← read_u8;
      data ← read_data;
      mret (SendReliable channel_id sequence (negb (ordered =? 0)) data)
  | 2 =>
      channel_id ← read_u8;
      data ← read_data;
      mret (SendUnreliable channel_id data)
  | 3 =>
      channel_id ← read_u8;
      sequence ← read_u16;
      data ← read_data;
      mret (SendUnreliableSequenced channel_id sequence data)
  | 4 =>
      channel_id ← read_u8;
      unsequenced_group ← read_u16;
      data ← read_data;
      mret (SendUnsequenced channel_id unsequenced_group data)
  | 5 =>
      channel_id ← read_u8;
      sequence ← read_u16;
      ordered ← read_u8;
      fragment_id ← read_u8;
      fragment_count ← read_u8;
      data ← read_data;
      mret (SendFragment channel_id sequence (negb (ordered =? 0)) fragment_id fragment_count data)
  | 6 =>
      channel_id ← read_u8;
      sequence ← read_u16;
      fragment_id ← read_u8;
      fragment_count ← read_u8;
      data ← read_data;
      mret (SendUnreliableFragment channel_id sequence fragment_id fragment_count data)
  | 7 =>
      sequence ← read_u16;
      received_mask ← read_u32;
      more ← has_more;
      sent_time ← (if more : bool then time ← read_u32; mret (Some time) else mret None);
      mret (Acknowledge sequence received_mask sent_time)
  | 8 => timestamp ← read_u32; mret (Ping timestamp)
  | 9 => timestamp ← read_u32; mret (Pong timestamp)
  | 10 =>
      channels ← read_u8;
      mtu ← read_u16;
      protocol_version ← read_u16;
      outgoing_session_id ← read_u16;
      connect_id ← read_u32;
      mret (Connect channels mtu protocol_version outgoing_session_id connect_id)
  | 11 =>
      peer_id ← read_u16;
      channels ← read_u8;
      mtu ← read_u16;
      incoming_session_id ← read_u16;
      outgoing_session_id ← read_u16;
      window_size ← read_u32;
      mret (VerifyConnect peer_id channels mtu incoming_session_id outgoing_session_id window_size)
  | 12 => reason ← read_u32; mret (Disconnect reason)
  | 13 =>
      incoming ← read_u32;
      outgoing ← read_u32;
      mret (BandwidthLimit incoming outgoing)
  | 14 =>
      interval ← read_u32;
      acceleration ← read_u32;
      deceleration ← read_u32;
      mret (ThrottleConfigure interval acceleration deceleration)
  | 15 =>
      size ← read_u16;
      token ← read_u32;
      payload ← read_data;
      mret (PMTUProbe size token payload)
  | 16 =>
      size ← read_u16;
      token ← read_u32;
      mret (PMTUReply size token)
  | _ => reader_fail (mkIoError InvalidData ("Unknown command type: " +:+ pretty cmd_type))
  end.

(** The [for _ in 0..cmd_count] loop of [decode_packet]. *)
Fixpoint decode_commands (cmd_count : nat) (packet : CommandPacket) : Reader CommandPacket :=
  match cmd_count with
  | O => mret packet
  | S cmd_count =>
      cmd_len ← read_u16;
      ((fun cursor =>
        let data := cur_buf cursor in
        let pos := cur_pos cursor in
        let cmd_len := Z.to_nat cmd_len in
        if (length data <? pos + cmd_len)%nat
        then Err (mkIoError UnexpectedEof "Command length exceeds buffer")
        else
          let cmd_data := take cmd_len (drop pos data) in
          '(command, _) ← decode_command (Cursor_new cmd_data);
          decode_commands cmd_count (CommandPacket_add_command packet command)
            (mkCursor data (pos + cmd_len))) : Reader CommandPacket)
  end.

(** [now] is the clock reading of [CommandPacket::new]. *)
Definition decode_packet (data : list Z) (now : Instant) : io_result CommandPacket :=
  '(cmd_count, cursor) ← read_u8 (Cursor_new data);
  '(packet, _) ← decode_commands (Z.to_nat cmd_count) (CommandPacket_new now) cursor;
  Ok packet.

End Codec.
