(* ===== verification/CodecFacts.v ===== *)
(** Correctness of the codec: closed forms of the encoders, the equivalence of their two
    copies, the round trips and the totality of the decoder on untrusted bytes. *)

From S2P Require Import Prelude Core Externs Buffers Command Codec.

Section CodecFacts.
Context {X : Externs}.

(* ------------------------------------------------------------------ *)
(** ** Closed forms of the encoders                                     *)
(* ------------------------------------------------------------------ *)

Definition data_bytes (s : SharedBytes) : list Z :=
  be_put_u16 (as_u16 (Z.of_nat (sb_len s))) ++ SharedBytes_as_slice s.

Definition command_body (c : ProtocolCommand) : list Z :=
  match c with
  | SendReliable ch sq o d => [ch] ++ be_put_u16 sq ++ [flag o] ++ data_bytes d
  | SendUnreliable ch d => [ch] ++ data_bytes d
  | SendUnreliableSequenced ch sq d => [ch] ++ be_put_u16 sq ++ data_bytes d
  | SendUnsequenced ch g d => [ch] ++ be_put_u16 g ++ data_bytes d
  | SendFragment ch sq o i n d =>
      [ch] ++ be_put_u16 sq ++ [flag o] ++ [i] ++ [n] ++ data_bytes d
  | SendUnreliableFragment ch sq i n d => [ch] ++ be_put_u16 sq ++ [i] ++ [n] ++ data_bytes d
  | Acknowledge sq m t =>
      be_put_u16 sq ++ be_put_u32 m ++ match t with Some t => be_put_u32 t | None => [] end
  | Ping t | Pong t => be_put_u32 t
  | Connect ch mtu v s id =>
      [ch] ++ be_put_u16 mtu ++ be_put_u16 v ++ be_put_u16 s ++ be_put_u32 id
  | VerifyConnect p ch mtu i o w =>
      be_put_u16 p ++ [ch] ++ be_put_u16 mtu ++ be_put_u16 i ++ be_put_u16 o ++ be_put_u32 w
  | Disconnect r => be_put_u32 r
  | BandwidthLimit i o => be_put_u32 i ++ be_put_u32 o
  | ThrottleConfigure i a d => be_put_u32 i ++ be_put_u32 a ++ be_put_u32 d
  | PMTUProbe s t p => be_put_u16 s ++ be_put_u32 t ++ data_bytes p
  | PMTUReply s t => be_put_u16 s ++ be_put_u32 t
  end.
Definition command_bytes (c : ProtocolCommand) : list Z := command_type c :: command_body c.

#[local] Arguments command_bytes : simpl never.

(** A command as it sits in a packet: 16-bit length, then its bytes. *)
Definition frame (c : ProtocolCommand) : list Z :=
  be_put_u16 (as_u16 (zlen (command_bytes c))) ++ command_bytes c.
Definition frames (cs : list ProtocolCommand) : list Z := cs ≫= frame.
Definition packet_bytes (cs : list ProtocolCommand) : list Z := as_u8 (zlen cs) :: frames cs.

Lemma encode_command_into_spec b c : encode_command_into b c = Ok (b ++ command_bytes c).
Proof.
  destruct c; unfold encode_command_into, write_data, write_u8, write_u16, write_u32, write_all,
    command_bytes, command_body, data_bytes; simpl; rewrite <-?app_assoc; try done.
  case_match; simpl; rewrite ?app_nil_r, <-?app_assoc; simpl; by rewrite <-?app_assoc.
Qed.

Lemma encode_command_spec c : encode_command c = Ok (command_bytes c).
Proof.
  change (encode_command_into [] c = Ok (command_bytes c)). apply encode_command_into_spec.
Qed.

Lemma encode_packet_commands_spec b cs : encode_packet_commands b cs = Ok (b ++ frames cs).
Proof.
  revert b. induction cs as [|c cs IH]; intros b; simpl.
  { by rewrite app_nil_r. }
  rewrite encode_command_spec. simpl. rewrite IH. unfold frame. by rewrite <-!app_assoc.
Qed.

Lemma encode_packet_spec p : encode_packet p = Ok (packet_bytes (commands p)).
Proof. unfold encode_packet. simpl. by rewrite encode_packet_commands_spec. Qed.

Context {L : ByteOrderLaws X}.

(** Patching the two length bytes in place gives the big-endian length. *)
Lemma patch_length (b body : list Z) (n : Z) :
  0 <= n ->
  <[(length b + 1)%nat := as_u8 (Z.land n 255)]>
    (<[length b := as_u8 (Z.land (Z.shiftr n 8) 255)]> ((b ++ be_put_u16 0) ++ body))
  = b ++ be_put_u16 (as_u16 n) ++ body.
Proof.
  intros Hn. rewrite !be_put_u16_spec by int_solve.
  rewrite <-app_assoc, insert_app_r_alt by lia. rewrite insert_app_r_alt by lia.
  replace (length b + 1 - length b)%nat with 1%nat by lia. rewrite Nat.sub_diag. simpl.
  change 255 with (Z.ones 8). rewrite !Z.land_ones, Z.shiftr_div_pow2 by lia.
  change (2 ^ 8) with 256. repeat f_equal; int_solve.
Qed.

Lemma encode_commands_into_spec b cs : encode_commands_into b cs = Ok (b ++ frames cs).
Proof.
  revert b. induction cs as [|c cs IH]; intros b; simpl.
  { by rewrite app_nil_r. }
  rewrite encode_command_into_spec. simpl. rewrite patch_length by lia.
  rewrite IH. unfold frame. rewrite <-!app_assoc. repeat f_equal.
  rewrite !length_app. unfold zlen. lia.
Qed.

Lemma encode_packet_into_closed b p :
  encode_packet_into b p = Ok (b ++ packet_bytes (commands p)).
Proof.
  unfold encode_packet_into. simpl. rewrite encode_commands_into_spec. by rewrite <-app_assoc.
Qed.

(* ------------------------------------------------------------------ *)
(** ** Sizes                                                            *)
(* ------------------------------------------------------------------ *)

(** Bytes of a command on the wire besides its payload, and its payload. *)
Definition header_size (c : ProtocolCommand) : Z :=
  match c with
  | SendReliable _ _ _ _ => 7
  | SendUnreliable _ _ => 4
  | SendUnreliableSequenced _ _ _ | SendUnsequenced _ _ _ => 6
  | SendFragment _ _ _ _ _ _ => 9
  | SendUnreliableFragment _ _ _ _ _ => 8
  | Acknowledge _ _ t => match t with Some _ => 11 | None => 7 end
  | Ping _ | Pong _ | Disconnect _ => 5
  | Connect _ _ _ _ _ => 12
  | VerifyConnect _ _ _ _ _ _ => 14
  | BandwidthLimit _ _ => 9
  | ThrottleConfigure _ _ _ => 13
  | PMTUProbe _ _ _ => 9
  | PMTUReply _ _ => 7
  end.
Definition payload_size (c : ProtocolCommand) : Z :=
  match c with
  | SendReliable _ _ _ d | SendUnreliable _ d | SendUnreliableSequenced _ _ d
  | SendUnsequenced _ _ d | SendFragment _ _ _ _ _ d | SendUnreliableFragment _ _ _ _ d
  | PMTUProbe _ _ d => Z.of_nat (sb_len d)
  | _ => 0
  end.

Lemma data_bytes_length s : SharedBytes_ok s -> length (data_bytes s) = (2 + sb_len s)%nat.
Proof.
  intros Hs. unfold data_bytes.
  rewrite length_app, as_slice_length, be_put_u16_length by auto with bitfold. lia.
Qed.

Lemma command_bytes_length c :
  command_ok c -> zlen (command_bytes c) = header_size c + payload_size c.
Proof.
  intros Hc. unfold zlen, command_bytes. destruct c; simpl in *; unfold payload_ok in *; split_all;
    rewrite ?length_app; simpl; rewrite ?length_app; simpl; rewrite ?length_app; simpl;
    rewrite ?data_bytes_length, ?be_put_u16_length, ?be_put_u32_length by done; try lia.
  case_match; simplify_eq; rewrite ?be_put_u32_length by eauto; simpl; lia.
Qed.

Lemma command_bytes_u16 c : command_ok c -> 0 < zlen (command_bytes c) <= 65549.
Proof.
  intros Hc. rewrite command_bytes_length by done.
  destruct c; simpl in *; unfold payload_ok in *; split_all; try lia; case_match; lia.
Qed.

Lemma data_bytes_ok s : payload_ok s -> bytes_ok (data_bytes s).
Proof. intros [? ?]. unfold data_bytes. apply bytes_ok_app. auto with bitfold. Qed.

Lemma flag_u8 b : u8_ok (flag b).
Proof. destruct b; unfold u8_ok; simpl; lia. Qed.

Hint Resolve data_bytes_ok flag_u8 : bitfold.

Lemma command_bytes_bytes c : command_ok c -> bytes_ok (command_bytes c).
Proof.
  intros Hc. unfold command_bytes. apply bytes_ok_cons. split.
  { unfold u8_ok. destruct c; simpl; lia. }
  destruct c; simpl in *; unfold payload_ok in *; split_all; bytes_solve.
  case_match; eauto with bitfold.
Qed.

Lemma frames_app cs ds : frames (cs ++ ds) = frames cs ++ frames ds.
Proof. unfold frames. apply bind_app. Qed.

Lemma frames_cons c cs : frames (c :: cs) = frame c ++ frames cs.
Proof. done. Qed.

Lemma frame_bytes c : command_ok c -> bytes_ok (frame c).
Proof.
  intros. unfold frame. apply bytes_ok_app. split; [auto with bitfold|by apply command_bytes_bytes].
Qed.

Lemma frame_length c : zlen (frame c) = 2 + zlen (command_bytes c).
Proof.
  unfold frame. rewrite zlen_app. unfold zlen at 1.
  rewrite be_put_u16_length by auto with bitfold. done.
Qed.

Lemma frames_bytes cs : Forall command_ok cs -> bytes_ok (frames cs).
Proof.
  induction 1 as [|c cs Hc _ IH]; simpl; [constructor|].
  apply bytes_ok_app. split; [by apply frame_bytes|done].
Qed.

Lemma packet_bytes_bytes cs : Forall command_ok cs -> bytes_ok (packet_bytes cs).
Proof. intros. constructor; [auto with bitfold|by apply frames_bytes]. Qed.

(* ------------------------------------------------------------------ *)
(** ** Reader steps                                                     *)
(* ------------------------------------------------------------------ *)

(** The cursor is in range and [l] is what is left to read. *)
Definition at_input (c : Cursor) (l : list Z) : Prop :=
  (cur_pos c <= length (cur_buf c))%nat /\ drop (cur_pos c) (cur_buf c) = l.

Lemma at_input_new l : at_input (Cursor_new l) l.
Proof. split; simpl; [lia|done]. Qed.

Lemma reader_bind_Ok {A B} (m : Reader A) (f : A -> Reader B) c a c' :
  m c = Ok (a, c') -> (m ≫= f) c = f a c'.
Proof. intros H. unfold mbind, Reader_bind. by rewrite H. Qed.

Lemma read_exact_at c l k : at_input c (l ++ k) ->
  exists c', read_exact (length l) c = Ok (l, c') /\ at_input c' k
    /\ c' = mkCursor (cur_buf c) (cur_pos c + length l).
Proof.
  intros [Hp Hd]. unfold read_exact.
  assert (length (cur_buf c) - cur_pos c = length l + length k)%nat as Hl.
  { by rewrite <-length_drop, Hd, length_app. }
  destruct (_ <=? _)%nat eqn:E; [|lia]. rewrite Hd, take_app_length.
  eexists. split; [done|]. split; [|done].
  split; simpl; [lia|]. by rewrite <-drop_drop, Hd, drop_app_length.
Qed.

Lemma read_u8_at c x k : at_input c (x :: k) ->
  exists c', read_u8 c = Ok (x, c') /\ at_input c' k
    /\ c' = mkCursor (cur_buf c) (cur_pos c + 1).
Proof.
  intros H. destruct (read_exact_at c [x] k H) as (c' & E & H' & Hc').
  exists c'. split; [|done]. unfold read_u8. by rewrite (reader_bind_Ok _ _ _ _ _ E).
Qed.

Lemma read_u16_at c x k : u16_ok x -> at_input c (be_put_u16 x ++ k) ->
  exists c', read_u16 c = Ok (x, c') /\ at_input c' k
    /\ c' = mkCursor (cur_buf c) (cur_pos c + 2).
Proof.
  intros Hx H. destruct (read_exact_at c _ k H) as (c' & E & H' & Hc').
  rewrite be_put_u16_length in E, Hc' by done.
  exists c'. split; [|done]. unfold read_u16. rewrite (reader_bind_Ok _ _ _ _ _ E).
  unfold mret, Reader_ret. by rewrite be_u16_roundtrip.
Qed.

Lemma read_u32_at c x k : u32_ok x -> at_input c (be_put_u32 x ++ k) ->
  exists c', read_u32 c = Ok (x, c') /\ at_input c' k
    /\ c' = mkCursor (cur_buf c) (cur_pos c + 4).
Proof.
  intros Hx H. destruct (read_exact_at c _ k H) as (c' & E & H' & Hc').
  rewrite be_put_u32_length in E, Hc' by done.
  exists c'. split; [|done]. unfold read_u32. rewrite (reader_bind_Ok _ _ _ _ _ E).
  unfold mret, Reader_ret. by rewrite be_u32_roundtrip.
Qed.

Lemma read_data_at c s k : payload_ok s -> at_input c (data_bytes s ++ k) ->
  exists c', read_data c = Ok (reown s, c') /\ at_input c' k
    /\ c' = mkCursor (cur_buf c) (cur_pos c + (2 + sb_len s)).
Proof.
  intros [Hs Hl] H. unfold data_bytes in H. rewrite <-app_assoc in H.
  apply read_u16_at in H as (c1 & E1 & H1 & Hc1); [|auto with bitfold].
  rewrite as_u16_id in E1 by (unfold_ints; lia).
  apply read_exact_at in H1 as (c2 & E2 & H2 & ->). rewrite as_slice_length in * by done.
  eexists. split; [|split; [exact H2|]]; [|subst c1; simpl; f_equal; lia]. unfold read_data. rewrite (reader_bind_Ok _ _ _ _ _ E1).
  by rewrite Nat2Z.id, (reader_bind_Ok _ _ _ _ _ E2).
Qed.

Lemma has_more_at c l : at_input c l ->
  has_more c = Ok (match l with [] => false | _ => true end, c).
Proof.
  intros [Hp Hd]. unfold has_more. do 2 f_equal. subst l.
  destruct (drop _ _) as [|x d] eqn:E.
  - apply drop_nil_inv in E. lia.
  - assert (length (drop (cur_pos c) (cur_buf c)) = S (length d)) as Hl by by rewrite E.
    rewrite length_drop in Hl. lia.
Qed.

Lemma negb_flag b : negb (flag b =? 0) = b.
Proof. by destruct b. Qed.

(** Advances the reader at the head of the goal over the matching input. *)
Ltac app_norm H := repeat progress (rewrite <-?app_assoc in H; simpl in H).
Ltac read_with lem H :=
  let c := fresh "c" in let E := fresh "E" in let H' := fresh "H" in
  first [ destruct (lem _ _ _ H) as (c & E & H' & _)
        | edestruct lem as (c & E & H' & _); [|exact H|]; [by eauto|] ];
  rewrite (reader_bind_Ok _ _ _ _ _ E); clear H E; rename H' into H; app_norm H.
Ltac read_step H :=
  lazymatch goal with
  | |- context [(read_u8 ≫= _) _] => read_with read_u8_at H
  | |- context [(read_u16 ≫= _) _] => read_with read_u16_at H
  | |- context [(read_u32 ≫= _) _] => read_with read_u32_at H
  | |- context [(read_data ≫= _) _] => read_with read_data_at H
  end.

(** An [Acknowledge] without a timestamp is only readable at the end of its input. *)
Definition open_ended (c : ProtocolCommand) : Prop :=
  match c with Acknowledge _ _ None => True | _ => False end.

Lemma decode_command_at cur c k :
  command_ok c -> (open_ended c -> k = []) -> at_input cur (command_bytes c ++ k) ->
  exists cur', decode_command cur = Ok (command_reown c, cur') /\ at_input cur' k.
Proof.
  intros Hc Hk H. unfold decode_command, command_bytes in *. simpl in H. read_step H.
  destruct c; simpl in Hc, Hk, H |- *; split_all; app_norm H; repeat (read_step H);
    rewrite ?negb_flag; try by eexists.
  rewrite (reader_bind_Ok _ _ _ _ _ (has_more_at _ _ H)).
  destruct sent_time as [t|]; simpl in H |- *.
  - assert (u32_ok t) as Ht by eauto.
    assert (be_put_u32 t ++ k <> []) as Hne.
    { intros [E _]%app_eq_nil. apply (f_equal length) in E.
      by rewrite be_put_u32_length in E. }
    destruct (read_u32_at _ _ _ Ht H) as (c' & E & H' & _).
    destruct (be_put_u32 t ++ k); [done|]. simpl. exists c'. split; [|done].
    unfold mbind, Reader_bind. by rewrite E.
  - rewrite Hk in * by done. by eexists.
Qed.

(* ------------------------------------------------------------------ *)
(** ** Packets                                                          *)
(* ------------------------------------------------------------------ *)

(** A command the packet framing can carry: its encoded length fits in 16 bits. *)
Definition frame_ok (c : ProtocolCommand) : Prop :=
  command_ok c /\ zlen (command_bytes c) < 65536.

Lemma decode_command_new c :
  command_ok c ->
  exists cur', decode_command (Cursor_new (command_bytes c)) = Ok (command_reown c, cur').
Proof.
  intros Hc. destruct (decode_command_at (Cursor_new (command_bytes c)) c []) as (cur' & E & _).
  - done.
  - done.
  - rewrite app_nil_r. apply at_input_new.
  - by exists cur'.
Qed.

Lemma decode_commands_at cs p cur k :
  Forall frame_ok cs -> at_input cur (frames cs ++ k) ->
  exists cur', decode_commands (length cs) p cur =
    Ok (mkCommandPacket (commands p ++ (command_reown <$> cs)) (packet_timestamp p), cur').
Proof.
  intros Hcs. revert p cur. induction Hcs as [|c cs [Hc Hl] _ IH]; intros p cur H; simpl.
  { exists cur. destruct p; simpl. by rewrite app_nil_r. }
  rewrite frames_cons in H. unfold frame in H. rewrite <-!app_assoc in H.
  pose proof (command_bytes_u16 c Hc).
  apply read_u16_at in H as (c1 & E1 & H1 & _); [|auto with bitfold].
  rewrite as_u16_id in E1 by (unfold_ints; lia). rewrite (reader_bind_Ok _ _ _ _ _ E1).
  destruct H1 as [Hp Hd]. rewrite zlen_to_nat, Hd, take_app_length.
  assert (length (cur_buf c1) - cur_pos c1 = length (command_bytes c ++ frames cs ++ k))%nat as Hlen.
  { by rewrite <-length_drop, Hd. }
  rewrite !length_app in Hlen.
  destruct (_ <? _)%nat eqn:E; [lia|].
  destruct (decode_command_new c Hc) as [c2 ->]. simpl.
  destruct (IH (CommandPacket_add_command p (command_reown c))
    (mkCursor (cur_buf c1) (cur_pos c1 + length (command_bytes c)))) as [c3 E3].
  { split; cbn [cur_pos cur_buf]; [lia|]. by rewrite <-drop_drop, Hd, drop_app_length. }
  exists c3. etransitivity; [exact E3|]. simpl. by rewrite <-app_assoc.
Qed.

(** What the decoder makes of a packet with at most 255 commands. *)
Lemma decode_packet_bytes cs now :
  (length cs <= 255)%nat -> Forall frame_ok cs ->
  decode_packet (packet_bytes cs) now = Ok (mkCommandPacket (command_reown <$> cs) now).
Proof.
  intros Hn Hcs. unfold decode_packet, packet_bytes.
  destruct (read_u8_at _ _ _ (at_input_new (as_u8 (zlen cs) :: frames cs))) as (c1 & E1 & H1 & _).
  rewrite E1. simpl. rewrite as_u8_id, zlen_to_nat by (unfold_ints; lia).
  rewrite <-(app_nil_r (frames cs)) in H1.
  destruct (decode_commands_at cs (CommandPacket_new now) c1 [] Hcs H1) as [c2 E2].
  by rewrite E2.
Qed.

(** With more commands than the count byte can say, the decoder stops early. *)
Lemma decode_packet_bytes_take cs now :
  Forall frame_ok cs ->
  decode_packet (packet_bytes cs) now =
    Ok (mkCommandPacket (command_reown <$> take (length cs mod 256) cs) now).
Proof.
  intros Hcs. set (n := (length cs mod 256)%nat).
  assert (Z.to_nat (as_u8 (zlen cs)) = n) as Hn.
  { unfold n. unfold_ints. rewrite <-(Nat2Z.inj_mod _ 256), Nat2Z.id. done. }
  assert (n <= length cs)%nat as Hle by apply Nat.Div0.mod_le.
  unfold decode_packet, packet_bytes.
  destruct (read_u8_at _ _ _ (at_input_new (as_u8 (zlen cs) :: frames cs))) as (c1 & E1 & H1 & _).
  rewrite E1. simpl. rewrite Hn. rewrite <-(take_drop n cs), frames_app in H1.
  rewrite <-(take_drop n cs) in Hcs. apply Forall_app in Hcs as [Hcs _].
  destruct (decode_commands_at _ (CommandPacket_new now) c1 _ Hcs H1) as [c2 E2].
  rewrite length_take, Nat.min_l in E2 by done. by rewrite E2.
Qed.

(* ------------------------------------------------------------------ *)
(** ** Decoding untrusted bytes                                         *)
(* ------------------------------------------------------------------ *)

(** Whatever [m] reads from a buffer of bytes satisfies [P], and the buffer stays. *)
Definition reads {A} (P : A -> Prop) (m : Reader A) : Prop := forall c a c',
  bytes_ok (cur_buf c) -> m c = Ok (a, c') -> P a /\ cur_buf c' = cur_buf c.

Lemma reads_bind {A B} (P : A -> Prop) (Q : B -> Prop) (m : Reader A) (f : A -> Reader B) :
  reads P m -> (forall a, P a -> reads Q (f a)) -> reads Q (m ≫= f).
Proof.
  intros Hm Hf c b c' Hc. unfold mbind, Reader_bind.
  destruct (m c) as [[a c1]|] eqn:E; [|done]. intros Hb.
  apply Hm in E as [Ha E]; [|done]. apply Hf in Hb as [Hb E']; [|done|by rewrite E].
  split; [done|congruence].
Qed.
Lemma reads_ret {A} (P : A -> Prop) (a : A) : P a -> reads P (mret a).
Proof. intros Ha c b c' _ [= <- <-]. done. Qed.
Lemma reads_fail {A} (P : A -> Prop) e : reads P (reader_fail (A := A) e).
Proof. by intros c a c' _. Qed.

Lemma reads_exact n : reads (fun l => bytes_ok l /\ length l = n) (read_exact n).
Proof.
  intros c l c' Hc. unfold read_exact. destruct (_ <=? _)%nat eqn:E; [|done].
  intros [= <- <-]. split; [|done]. split; [auto with bitfold|].
  rewrite length_take, length_drop. lia.
Qed.
Lemma reads_u8 : reads u8_ok read_u8.
Proof.
  eapply reads_bind; [apply reads_exact|]. intros l [Hl Hn]. apply reads_ret.
  destruct l as [|x [|]]; try done. by apply bytes_ok_cons in Hl as [? _].
Qed.
Lemma reads_u16 : reads u16_ok read_u16.
Proof.
  eapply reads_bind; [apply reads_exact|]. intros l [Hl Hn]. apply reads_ret.
  by apply be_get_u16_ok.
Qed.
Lemma reads_u32 : reads u32_ok read_u32.
Proof.
  eapply reads_bind; [apply reads_exact|]. intros l [Hl Hn]. apply reads_ret.
  by apply be_get_u32_ok.
Qed.
Lemma reads_data : reads payload_ok read_data.
Proof.
  eapply reads_bind; [apply reads_u16|]. intros n Hn.
  eapply reads_bind; [apply reads_exact|]. intros l [Hl Hln]. apply reads_ret.
  split; [auto with bitfold|]. simpl. unfold_ints. lia.
Qed.
Lemma reads_has_more : reads (fun _ => True) has_more.
Proof. by intros c b c' _ [= <- <-]. Qed.

Ltac reads_step :=
  lazymatch goal with
  | |- reads _ (read_u8 ≫= _) => eapply reads_bind; [apply reads_u8|intros ? ?]
  | |- reads _ (read_u16 ≫= _) => eapply reads_bind; [apply reads_u16|intros ? ?]
  | |- reads _ (read_u32 ≫= _) => eapply reads_bind; [apply reads_u32|intros ? ?]
  | |- reads _ (read_data ≫= _) => eapply reads_bind; [apply reads_data|intros ? ?]
  | |- reads _ (has_more ≫= _) => eapply reads_bind; [apply reads_has_more|intros ? _]
  | |- reads _ (mret _) => apply reads_ret; simpl; split_all; try done
  | |- reads _ (reader_fail _) => apply reads_fail
  end.

Lemma reads_command : reads command_ok decode_command.
Proof.
  unfold decode_command. reads_step. repeat case_match; repeat reads_step.
  eapply (reads_bind (fun t => forall x, t = Some x -> u32_ok x)).
  - case_match; repeat reads_step. by intros x [= <-].
  - intros t Ht. by reads_step.
Qed.

Lemma reads_commands n p :
  Forall command_ok (commands p) ->
  reads (fun q => Forall command_ok (commands q) /\ length (commands q) = n + length (commands p))%nat
    (decode_commands n p).
Proof.
  revert p. induction n as [|n IH]; intros p Hp; simpl; [by apply reads_ret|].
  eapply reads_bind; [apply reads_u16|]. intros len Hlen c q c' Hc.
  case_match; [done|]. destruct (decode_command _) as [[cmd c1]|] eqn:E; simpl; [|done].
  apply reads_command in E as [Hcmd _]; [|simpl; auto with bitfold].
  intros Hq. apply IH in Hq as [[Hq Hn] Hb]; [|by apply Forall_app_2; [|constructor]|done].
  simpl in *. rewrite length_app in Hn. simpl in Hn. split_all; [done|lia|done].
Qed.

End CodecFacts.

#[export] Hint Resolve command_bytes_bytes frames_bytes packet_bytes_bytes flag_u8 data_bytes_ok : bitfold.

(* ------------------------------------------------------------------ *)
(** ** Properties                                                       *)
(* ------------------------------------------------------------------ *)

Section Properties.
Context {X : Externs} {L : ByteOrderLaws X}.

(** C20: decoding an encoded command packet gives back the commands it was built from, each
    with its payload in a buffer of its own, for packets of at most 255 commands (the count
    is one byte) whose encoded commands fit the 16-bit length prefix. *)
Theorem decode_encode_packet (p : CommandPacket) (now : Instant) :
  (length (commands p) <= 255)%nat -> Forall frame_ok (commands p) ->
  exists bytes, encode_packet p = Ok bytes /\
    decode_packet bytes now = Ok (mkCommandPacket (command_reown <$> commands p) now).
Proof. intros. eexists. split; [apply encode_packet_spec|]. by apply decode_packet_bytes. Qed.

(** C37: the in-place encoder, which reserves each command's length and patches it afterwards,
    appends exactly the bytes of the allocating encoder, whatever the commands are. *)
Theorem encode_packet_into_matches_encode_packet (buffer : list Z) (p : CommandPacket) :
  encode_packet_into buffer p = (bytes ← encode_packet p; Ok (buffer ++ bytes)).
Proof. by rewrite encode_packet_into_closed, encode_packet_spec. Qed.

(** a single command decodes to itself from its own encoding followed by anything, and the
    cursor stops at the rest; an [Acknowledge] without timestamp only at the end of the input. *)
Theorem decode_encode_command (c : ProtocolCommand) (rest : list Z) :
  command_ok c -> (open_ended c -> rest = []) ->
  exists bytes cur, encode_command c = Ok bytes /\
    decode_command (Cursor_new (bytes ++ rest)) = Ok (command_reown c, cur) /\
    drop (cur_pos cur) (cur_buf cur) = rest.
Proof.
  intros Hc Hr.
  destruct (decode_command_at (Cursor_new (command_bytes c ++ rest)) c rest) as (cur & E & _ & H);
    [done|done|apply at_input_new|].
  exists (command_bytes c), cur. by rewrite encode_command_spec.
Qed.

(** What is decoded is well formed, and as many commands as the first byte says. *)
Lemma decode_packet_ok (data : list Z) (now : Instant) (p : CommandPacket) :
  bytes_ok data -> decode_packet data now = Ok p ->
  Forall command_ok (commands p) /\ head data = Some (zlen (commands p)).
Proof.
  intros Hd. unfold decode_packet. destruct (read_u8 _) as [[n c]|] eqn:E; simpl; [|done].
  destruct (decode_commands _ _ _) as [[q c']|] eqn:E'; simpl; [|done]. intros [= <-].
  pose proof (reads_u8 (Cursor_new data) _ _ Hd E) as [Hn Hb].
  pose proof E' as Hq. apply reads_commands in Hq as [[Hq Hl] _]; [|constructor|by rewrite Hb].
  split; [done|]. destruct data as [|x data]; [done|].
  assert (n = x) as ->.
  { destruct (read_u8_at _ _ _ (at_input_new (x :: data))) as (? & E2 & _). congruence. }
  simpl in *. f_equal. unfold zlen. rewrite Hl. unfold_ints. lia.
Qed.

(** C36: decoding arbitrary bytes never yields an ill-formed command: every field of every
    decoded command is in its type's range, every payload fits 16 bits, and there are exactly
    as many commands as the count byte says. *)
Theorem decode_packet_well_formed (data : list Z) (now : Instant) (p : CommandPacket) :
  bytes_ok data -> decode_packet data now = Ok p ->
  Forall command_ok (commands p) /\ head data = Some (zlen (commands p)).
Proof. apply decode_packet_ok. Qed.

(** the command count is truncated to one byte: of a packet with more than 255 commands
    the receiver sees only the first [n mod 256], without an error. *)
Theorem decode_packet_truncates_count (p : CommandPacket) (now : Instant) :
  Forall frame_ok (commands p) ->
  decode_packet (packet_bytes (commands p)) now =
    Ok (mkCommandPacket (command_reown <$> take (length (commands p) mod 256) (commands p)) now).
Proof. apply decode_packet_bytes_take. Qed.
End Properties.

(* ------------------------------------------------------------------ *)
(** ** Witnesses                                                        *)
(* ------------------------------------------------------------------ *)

Import Sample.

Definition sample_packet : CommandPacket := mkCommandPacket
  [Ping 100; SendReliable 1 300 true (SharedBytes_from_vec [9; 8; 7]);
   Acknowledge 10 255 None;
   SendFragment 2 65535 false 3 4 (mkSharedBytes [1; 2; 3; 4; 5] 1 3)] 0.

Lemma payload_ok_dec s :
  (sb_start s + sb_len s <=? length (sb_data s))%nat
    && forallb (fun b => (0 <=? b) && (b <? 256)) (sb_data s)
    && (Z.of_nat (sb_len s) <? 65536) = true -> payload_ok s.
Proof.
  intros H. apply andb_prop in H as [H H3]. apply andb_prop in H as [H1 H2].
  split; [split; [lia|]|lia]. apply Forall_forall. intros b Hb.
  rewrite forallb_forall in H2. specialize (H2 b ltac:(by apply list_elem_of_In)).
  unfold u8_ok. lia.
Qed.

Lemma sample_frames_ok : Forall (@frame_ok Sample.externs) (commands sample_packet).
Proof.
  repeat constructor; simpl; try done; try (by apply payload_ok_dec).
  all: unfold u8_ok, u16_ok; lia.
Qed.

Lemma decode_encode_packet_witness :
  exists bytes, @encode_packet Sample.externs sample_packet = Ok bytes /\
    @decode_packet Sample.externs bytes 7 =
      Ok (mkCommandPacket (command_reown <$> commands sample_packet) 7).
Proof. apply (decode_encode_packet sample_packet 7); [simpl; lia|apply sample_frames_ok]. Defined.

Lemma encode_packet_into_matches_encode_packet_witness :
  @encode_packet_into Sample.externs [1; 2] sample_packet =
    (bytes ← @encode_packet Sample.externs sample_packet; Ok ([1; 2] ++ bytes)).
Proof. apply (encode_packet_into_matches_encode_packet [1; 2] sample_packet). Defined.

Lemma decode_encode_command_witness :
  exists bytes cur, @encode_command Sample.externs (Pong 77) = Ok bytes /\
    @decode_command Sample.externs (Cursor_new (bytes ++ [1; 2])) = Ok (command_reown (Pong 77), cur) /\
    drop (cur_pos cur) (cur_buf cur) = [1; 2].
Proof. apply (decode_encode_command (Pong 77) [1; 2]); [simpl; unfold u32_ok; lia|done]. Defined.

Lemma decode_packet_well_formed_witness :
  Forall command_ok [Ping 5; Disconnect 6] /\ head [2; 0; 5; 8; 0; 0; 0; 5; 0; 5; 12; 0; 0; 0; 6] = Some 2.
Proof.
  apply (@decode_packet_well_formed Sample.externs _ _ 0 (mkCommandPacket [Ping 5; Disconnect 6] 0)).
  - repeat constructor; unfold u8_ok; lia.
  - vm_compute. reflexivity.
Defined.

Lemma decode_packet_truncates_count_witness :
  @decode_packet Sample.externs (packet_bytes (replicate 257 (Ping 1))) 0 =
    Ok (mkCommandPacket [Ping 1] 0).
Proof.
  apply (@decode_packet_truncates_count Sample.externs _
    (mkCommandPacket (replicate 257 (Ping 1)) 0) 0).
  apply Forall_replicate. split; [simpl; unfold u32_ok; lia|vm_compute; reflexivity].
Defined.
