(* ===== verification/Framing.v ===== *)
(** Datagram framing around an encoded packet: the CRC32 trailer
    ([command_codec/checksum.rs]) and the compression marker
    ([command_codec/compression.rs]). *)

From S2P Require Import Prelude Core Externs.

Section Framing.
Context {X : Externs}.

(** [u32::to_be_bytes] and [u32::from_be_bytes] of the Standard Library. *)
Definition to_be_bytes (x : Z) : list Z :=
  [x / 16777216 mod 256; x / 65536 mod 256; x / 256 mod 256; x mod 256].
Definition from_be_bytes (a b c d : Z) : Z := a * 16777216 + b * 65536 + c * 256 + d.

(* ------------------------------------------------------------------ *)
(** ** [checksum.rs]                                                    *)
(* ------------------------------------------------------------------ *)

Definition append_checksum (data : list Z) : list Z :=
  let checksum := crc32 data in
  data ++ to_be_bytes checksum.

Definition append_checksum_in_place (data : list Z) : list Z :=
  let checksum := crc32 data in
  data ++ to_be_bytes checksum.

Definition invalid_data (msg : string) : IoError := mkIoError InvalidData msg.

Definition validate_and_strip_checksum (data : list Z) : io_result (list Z) :=
  if (length data <? 4)%nat then Err (invalid_data "Data too short for checksum")
  else
    let payload := take (length data - 4) data in
    let checksum_bytes := drop (length data - 4) data in
    let received_checksum :=
      match checksum_bytes with
      | [a; b; c; d] => from_be_bytes a b c d
      | _ => 0 (* [split_at] leaves exactly four bytes *)
      end in
    let computed_checksum := crc32 payload in
    if negb (received_checksum =? computed_checksum)
    then Err (invalid_data ("CRC32 checksum mismatch: expected " +:+ pretty computed_checksum
                            +:+ ", got " +:+ pretty received_checksum))
    else Ok payload.

(* ------------------------------------------------------------------ *)
(** ** [compression.rs]                                                 *)
(* ------------------------------------------------------------------ *)

(** [output] is the caller's buffer; it is cleared first. *)
Definition compress_with_buffer (data : list Z) (algorithm : CompressionAlgorithm)
  (threshold : Z) (output : list Z) : io_result (list Z) :=
  let output := [] in
  if zlen data <? threshold then Ok (output ++ [0] ++ data)
  else
    match algorithm with
    | CompNone => Ok (output ++ [0] ++ data)
    | CompZlib =>
        compressed ← zlib_compress data;
        if zlen compressed <? zlen data then Ok (output ++ [1] ++ compressed)
        else Ok (output ++ [0] ++ data)
    | CompLz4 =>
        compressed ← lz4_compress data;
        if zlen compressed + 4 <? zlen data
        then Ok (output ++ [2] ++ to_be_bytes (as_u32 (zlen data)) ++ compressed)
        else Ok (output ++ [0] ++ data)
    end.

Definition compress (data : list Z) (algorithm : CompressionAlgorithm) (threshold : Z)
  : io_result (list Z) := compress_with_buffer data algorithm threshold [].

(** [usize as i32], two's complement. *)
Definition as_i32 (x : Z) : Z := (x + 2147483648) mod 4294967296 - 2147483648.

Definition decompress (data : list Z) : io_result (list Z) :=
  match data with
  | [] => Err (invalid_data "Empty data for decompression")
  | algorithm_id :: payload =>
      match algorithm_id with
      | 0 => Ok payload
      | 1 => zlib_decompress payload
      | 2 =>
          match payload with
          | a :: b :: c :: d :: compressed_data =>
              let original_size := from_be_bytes a b c d in
              lz4_decompress compressed_data (as_i32 original_size)
          | _ => Err (invalid_data "LZ4 payload too short")
          end
      | _ => Err (invalid_data ("Unknown compression algorithm: " +:+ pretty algorithm_id))
      end
  end.

(** The decoder's wrappers. *)
Definition CommandDecoder_validate_and_strip_checksum (data : list Z) : io_result (list Z) :=
  validate_and_strip_checksum data.
Definition CommandDecoder_decompress (data : list Z) : io_result (list Z) := decompress data.

(* ------------------------------------------------------------------ *)
(** ** Lemmas                                                           *)
(* ------------------------------------------------------------------ *)

Lemma to_be_bytes_length x : length (to_be_bytes x) = 4%nat.
Proof. done. Qed.

Lemma from_to_be_bytes x : u32_ok x ->
  match to_be_bytes x with [a; b; c; d] => from_be_bytes a b c d | _ => 0 end = x.
Proof. unfold from_be_bytes. simpl. int_solve. Qed.

Lemma compress_None data th : compress data CompNone th = Ok (0 :: data).
Proof. unfold compress, compress_with_buffer. by case_match. Qed.

Lemma strip_checksum_append data : u32_ok (crc32 data) ->
  validate_and_strip_checksum (append_checksum data) = Ok data.
Proof.
  intros Hc. unfold validate_and_strip_checksum, append_checksum.
  rewrite length_app, to_be_bytes_length.
  replace (length data + 4 - 4)%nat with (length data) by lia.
  rewrite take_app_length, drop_app_length, from_to_be_bytes by done.
  rewrite Z.eqb_refl. destruct (_ <? _)%nat eqn:E; [lia|done].
Qed.

(** What passes the check is the payload followed by four bytes that spell its checksum. *)
Lemma strip_checksum_Ok data payload :
  validate_and_strip_checksum data = Ok payload ->
  exists a b c d, data = payload ++ [a; b; c; d] /\ from_be_bytes a b c d = crc32 payload.
Proof.
  unfold validate_and_strip_checksum. destruct (_ <? _)%nat eqn:E; [done|].
  set (t := take _ data). set (k := drop _ data).
  assert (length k = 4%nat) as Hk by (unfold k; rewrite length_drop; lia).
  assert (data = t ++ k) as Hd by (unfold t, k; by rewrite take_drop).
  clearbody t k. destruct k as [|a [|b [|c [|d [|]]]]]; try done.
  destruct (_ =? _) eqn:E'; [|done]. intros [= <-]. exists a, b, c, d. split; [done|lia].
Qed.

(** Compression never costs more than the marker byte, and the marker tells the format. *)
Lemma compress_with_buffer_size data alg th out r :
  compress_with_buffer data alg th out = Ok r -> 0 < zlen r <= zlen data + 1.
Proof.
  unfold compress_with_buffer. pose proof (zlen_nonneg data) as Hd.
  destruct (zlen data <? th).
  { intros [= <-]. simpl. autorewrite with zlen. lia. }
  destruct alg; [intros [= <-]|..|]; simpl; autorewrite with zlen; [lia|..|].
  - destruct (zlib_compress data) as [c|]; simpl; [|done].
    destruct (_ <? _) eqn:E; intros [= <-]; autorewrite with zlen; pose proof (zlen_nonneg c); lia.
  - destruct (lz4_compress data) as [c|]; simpl; [|done].
    destruct (_ <? _) eqn:E; intros [= <-]; unfold to_be_bytes; simpl; autorewrite with zlen;
      pose proof (zlen_nonneg c); lia.
Qed.

Lemma compress_decompress `{!ZlibLaws X, !Lz4Laws X} data alg th out r :
  zlen data < 2147483648 ->
  compress_with_buffer data alg th out = Ok r -> decompress r = Ok data.
Proof.
  intros Hlen. pose proof (zlen_nonneg data). unfold compress_with_buffer.
  destruct (zlen data <? th); [by intros [= <-]|].
  destruct alg; [by intros [= <-]|..].
  - destruct (zlib_compress data) as [c|] eqn:E; simpl; [|done].
    destruct (_ <? _); intros [= <-]; simpl; [by apply zlib_roundtrip|done].
  - destruct (lz4_compress data) as [c|] eqn:E; simpl; [|done].
    destruct (_ <? _); intros [= <-]; simpl; [|done].
    unfold to_be_bytes, from_be_bytes, as_i32. simpl.
    replace (_ - 2147483648) with (zlen data) by (unfold as_u32; zmod).
    by apply lz4_roundtrip.
Qed.

Lemma compress_total_None data th out : exists r, compress_with_buffer data CompNone th out = Ok r.
Proof. unfold compress_with_buffer. case_match; by eexists. Qed.

End Framing.

(* ------------------------------------------------------------------ *)
(** ** Properties                                                       *)
(* ------------------------------------------------------------------ *)

Section Properties.
Context {X : Externs}.

(** C34: a datagram with an appended checksum validates and strips to the original bytes, with
    either of the two appending functions; and nothing else validates: an accepted datagram
    is some payload followed by the four big-endian bytes of that payload's CRC32. *)
Theorem checksum_roundtrip_and_soundness `{!CrcLaws X} (data : list Z) :
  validate_and_strip_checksum (append_checksum data) = Ok data /\
  append_checksum_in_place data = append_checksum data /\
  (forall datagram payload, bytes_ok datagram ->
     validate_and_strip_checksum datagram = Ok payload -> datagram = append_checksum payload).
Proof.
  split_all; [by apply strip_checksum_append, crc32_u32|done|].
  intros dg p Hb (a & b & c & d & -> & Hc)%strip_checksum_Ok. unfold append_checksum. f_equal.
  apply bytes_ok_app in Hb as [_ Hb]. rewrite !bytes_ok_cons in Hb. split_all.
  rewrite <-Hc. unfold to_be_bytes, from_be_bytes. repeat f_equal; int_solve.
Qed.

(** C35: compression is lossless and never expands by more than the one marker byte: whatever
    the algorithm, the threshold and the recycled output buffer, the compressed bytes
    decompress to the input, and are at most one byte longer. *)
Theorem compress_lossless_and_bounded `{!ZlibLaws X, !Lz4Laws X} (data : list Z)
  (alg : CompressionAlgorithm) (threshold : Z) (output r : list Z) :
  zlen data < 2147483648 -> compress_with_buffer data alg threshold output = Ok r ->
  decompress r = Ok data /\ zlen r <= zlen data + 1.
Proof.
  intros Hl Hr. split; [by eapply compress_decompress|].
  apply compress_with_buffer_size in Hr. lia.
Qed.

End Properties.

Import Sample.

Lemma checksum_roundtrip_and_soundness_witness :
  validate_and_strip_checksum (append_checksum [72; 105]) = Ok [72; 105] /\
  append_checksum_in_place [72; 105] = append_checksum [72; 105] /\
  (forall datagram payload, bytes_ok datagram ->
     validate_and_strip_checksum datagram = Ok payload -> datagram = append_checksum payload).
Proof. apply (checksum_roundtrip_and_soundness [72; 105]). Defined.

Lemma compress_lossless_and_bounded_witness :
  decompress [1; 1; 1; 4; 6; 7; 5] = Ok [6; 7; 5; 5; 5; 5; 5] /\
  zlen [1; 1; 1; 4; 6; 7; 5] <= zlen [6; 7; 5; 5; 5; 5; 5] + 1.
Proof.
  apply (compress_lossless_and_bounded [6; 7; 5; 5; 5; 5; 5] CompZlib 2 [9; 9]).
  - vm_compute. reflexivity.
  - vm_compute. reflexivity.
Defined.
