(* ===== verification/SequenceBuffer.v ===== *)
(** The circular buffer of sequence numbers of [bitfold-protocol/src/sequence_buffer.rs] and
    the wrapping comparison of 16-bit sequence numbers. *)

From S2P Require Import Prelude Packet.

(* ------------------------------------------------------------------ *)
(** ** Wrapping comparison                                              *)
(* ------------------------------------------------------------------ *)

Definition sequence_greater_than (s1 s2 : Z) : bool :=
  ((s2 <? s1) && (s1 - s2 <=? 32768)) || ((s1 <? s2) && (32768 <? s2 - s1)).

Definition sequence_less_than (s1 s2 : Z) : bool := sequence_greater_than s2 s1.

(* ------------------------------------------------------------------ *)
(** ** [SequenceBuffer<T>]                                              *)
(* ------------------------------------------------------------------ *)

Record SequenceBuffer (T : Type) : Type := mkSequenceBuffer {
  sq_sequence_num : Z;
  sq_entry_sequences : list (option Z);
  sq_entries : list T
}.
Arguments mkSequenceBuffer {T}.
Arguments sq_sequence_num {T}.
Arguments sq_entry_sequences {T}.
Arguments sq_entries {T}.

Section Buffer.
Context {T : Type} (T_default : T).

Definition SequenceBuffer_with_capacity (size : Z) : SequenceBuffer T :=
  mkSequenceBuffer 0 (replicate (Z.to_nat size) None) (replicate (Z.to_nat size) T_default).

(** [sequence as usize % self.entry_sequences.len()]: division by zero panics. *)
Definition SequenceBuffer_sequence_num (b : SequenceBuffer T) : Z := sq_sequence_num b.
Definition SequenceBuffer_index (b : SequenceBuffer T) (sequence : Z) : option nat :=
  match length (sq_entry_sequences b) with
  | O => None
  | n => Some (Z.to_nat sequence mod n)%nat
  end.

(** The entry slot at [index]; the index is in range by construction. *)
Definition entry_sequence (b : SequenceBuffer T) (index : nat) : option Z :=
  default None (sq_entry_sequences b !! index).

Definition SequenceBuffer_exists (b : SequenceBuffer T) (sequence_num : Z) : option bool :=
  index ← SequenceBuffer_index b sequence_num;
  Some (match entry_sequence b index with
        | Some s => s =? sequence_num
        | None => false
        end).

(** [get_mut]: the entry a mutable reference would point to. *)
Definition SequenceBuffer_get_mut (b : SequenceBuffer T) (sequence_num : Z) : option (option T) :=
  e ← SequenceBuffer_exists b sequence_num;
  if e : bool then
    index ← SequenceBuffer_index b sequence_num;
    Some (sq_entries b !! index)
  else Some None.

Definition SequenceBuffer_remove (b : SequenceBuffer T) (sequence_num : Z)
  : option (option T * SequenceBuffer T) :=
  e ← SequenceBuffer_exists b sequence_num;
  if e : bool then
    index ← SequenceBuffer_index b sequence_num;
    let value := sq_entries b !! index in
    Some (value, mkSequenceBuffer (sq_sequence_num b)
                   (<[index := None]> (sq_entry_sequences b))
                   (<[index := T_default]> (sq_entries b)))
  else Some (None, b).

Definition SequenceBuffer_remove_entries (b : SequenceBuffer T) (finish_sequence : Z)
  : option (SequenceBuffer T) :=
  let start_sequence := sq_sequence_num b in
  let finish_sequence :=
    if finish_sequence <? start_sequence then finish_sequence + 65536 else finish_sequence in
  if finish_sequence - start_sequence <? zlen (sq_entry_sequences b) then
    foldM (fun b sequence => snd <$> SequenceBuffer_remove b (as_u16 sequence)) b
      (seqZ start_sequence (finish_sequence - start_sequence + 1))
  else
    Some (mkSequenceBuffer (sq_sequence_num b)
            ((fun _ => None) <$> sq_entry_sequences b)
            ((fun _ => T_default) <$> sq_entries b)).

Definition SequenceBuffer_advance_sequence (b : SequenceBuffer T) (sequence_num : Z)
  : option (SequenceBuffer T) :=
  if sequence_greater_than (wrapping_add16 sequence_num 1) (sq_sequence_num b) then
    b ← SequenceBuffer_remove_entries b sequence_num;
    Some (mkSequenceBuffer (wrapping_add16 sequence_num 1) (sq_entry_sequences b) (sq_entries b))
  else Some b.

(** The boolean is whether a reference to the entry is returned. *)
Definition SequenceBuffer_insert (b : SequenceBuffer T) (sequence_num : Z) (entry : T)
  : option (bool * SequenceBuffer T) :=
  if sequence_less_than sequence_num
       (wrapping_sub16 (sq_sequence_num b) (as_u16 (zlen (sq_entry_sequences b))))
  then Some (false, b)
  else
    b ← SequenceBuffer_advance_sequence b sequence_num;
    index ← SequenceBuffer_index b sequence_num;
    Some (true, mkSequenceBuffer (sq_sequence_num b)
                  (<[index := Some sequence_num]> (sq_entry_sequences b))
                  (<[index := entry]> (sq_entries b))).

(* ------------------------------------------------------------------ *)
(** ** The comparison is a serial-number order                          *)
(* ------------------------------------------------------------------ *)

Lemma sequence_greater_than_irrefl s : sequence_greater_than s s = false.
Proof. unfold sequence_greater_than. lia. Qed.

Lemma sequence_greater_than_total s1 s2 : u16_ok s1 -> u16_ok s2 -> s1 <> s2 ->
  sequence_greater_than s1 s2 = negb (sequence_greater_than s2 s1).
Proof. unfold sequence_greater_than, u16_ok. lia. Qed.

Lemma sequence_greater_than_near s1 s2 :
  -32768 < s1 - s2 <= 32768 -> sequence_greater_than s1 s2 = (s2 <? s1).
Proof.
  unfold sequence_greater_than. intros H.
  destruct (Z.ltb_spec s2 s1), (Z.ltb_spec s1 s2), (Z.leb_spec (s1 - s2) 32768),
    (Z.ltb_spec 32768 (s2 - s1)); simpl; lia.
Qed.

(* ------------------------------------------------------------------ *)
(** ** What the buffer remembers                                        *)
(* ------------------------------------------------------------------ *)

(** Before the first wrap of the numbering, the buffer tracks the set [R] of the sequences
    inserted so far: a slot holds a received sequence of its own residue, and every received
    sequence among the last [capacity] ones is in its slot. *)
Record tracks (b : SequenceBuffer T) (R : gset Z) : Prop := {
  tr_capacity : (0 < length (sq_entry_sequences b))%nat;
  tr_head : 0 <= sq_sequence_num b <= 65535;
  tr_lengths : length (sq_entries b) = length (sq_entry_sequences b);
  tr_range s : s ∈ R -> 0 <= s < sq_sequence_num b;
  tr_sound i s : sq_entry_sequences b !! i = Some (Some s) ->
    s ∈ R /\ i = (Z.to_nat s mod length (sq_entry_sequences b))%nat;
  tr_complete s : s ∈ R -> sq_sequence_num b - zlen (sq_entry_sequences b) <= s ->
    sq_entry_sequences b !! (Z.to_nat s mod length (sq_entry_sequences b))%nat = Some (Some s)
}.

Lemma index_Some b s : (0 < length (sq_entry_sequences b))%nat ->
  SequenceBuffer_index b s = Some (Z.to_nat s mod length (sq_entry_sequences b))%nat.
Proof. unfold SequenceBuffer_index. destruct (length _); [lia|done]. Qed.

Lemma exists_Some b s : (0 < length (sq_entry_sequences b))%nat ->
  SequenceBuffer_exists b s = Some (bool_decide
    (sq_entry_sequences b !! (Z.to_nat s mod length (sq_entry_sequences b))%nat = Some (Some s))).
Proof.
  intros Hn. unfold SequenceBuffer_exists. rewrite index_Some by done. simpl. f_equal.
  unfold entry_sequence. destruct (_ !! _) as [[s'|]|]; simpl; [|done..].
  case_bool_decide; simplify_eq; [lia|]. apply Z.eqb_neq. congruence.
Qed.

(** Removing a sequence that is not there changes nothing. *)
Lemma remove_absent b s : SequenceBuffer_exists b s = Some false ->
  SequenceBuffer_remove b s = Some (None, b).
Proof. unfold SequenceBuffer_remove. by intros ->. Qed.

Lemma tracks_exists b R s : tracks b R ->
  sq_sequence_num b - zlen (sq_entry_sequences b) <= s ->
  SequenceBuffer_exists b s = Some (bool_decide (s ∈ R)).
Proof.
  intros Ht Hs. rewrite exists_Some by apply Ht. f_equal. apply bool_decide_ext. split.
  - intros H. by apply (tr_sound _ _ Ht) in H as [? _].
  - intros H. by apply (tr_complete _ _ Ht).
Qed.

Lemma tracks_absent b R s : tracks b R -> sq_sequence_num b <= s ->
  SequenceBuffer_exists b s = Some false.
Proof.
  intros Ht Hs. rewrite (tracks_exists b R) by (done || unfold zlen; lia). f_equal.
  apply bool_decide_eq_false. intros H. apply (tr_range _ _ Ht) in H. lia.
Qed.

Lemma remove_absent_range b R l : tracks b R ->
  Forall (fun s => sq_sequence_num b <= s < 65536) l ->
  foldM (fun b sequence => snd <$> SequenceBuffer_remove b (as_u16 sequence)) b l = Some b.
Proof.
  intros Ht Hl. induction Hl as [|s l Hs _ IH]; simpl; [done|].
  pose proof (tr_head _ _ Ht).
  rewrite as_u16_id by (unfold u16_ok; lia).
  rewrite remove_absent by (apply (tracks_absent b R); [done|lia]). done.
Qed.

(** Moving the head forward keeps what is still in the window. *)
Lemma tracks_advance b R s : tracks b R -> sq_sequence_num b <= s < 65535 ->
  s < sq_sequence_num b + 32768 ->
  exists b', SequenceBuffer_advance_sequence b s = Some b' /\ tracks b' R /\
    sq_sequence_num b' = s + 1 /\ length (sq_entry_sequences b') = length (sq_entry_sequences b).
Proof.
  intros Ht Hs Hd. pose proof (tr_head _ _ Ht).
  unfold SequenceBuffer_advance_sequence.
  replace (wrapping_add16 s 1) with (s + 1) by int_solve.
  rewrite sequence_greater_than_near by lia.
  destruct (_ <? s + 1) eqn:E; [|lia].
  unfold SequenceBuffer_remove_entries. destruct (s <? _) eqn:E'; [lia|].
  destruct (s - sq_sequence_num b <? zlen (sq_entry_sequences b)) eqn:E2.
  - rewrite (remove_absent_range b R); [|done|].
    2: { apply Forall_forall. intros x Hx. apply elem_of_seqZ in Hx. lia. }
    simpl. eexists. split; [done|]. split; [|done]. split; simpl; try apply Ht; [lia|..].
    + intros x Hx. apply (tr_range _ _ Ht) in Hx. lia.
    + intros x Hx Hw. apply (tr_complete _ _ Ht); [done|lia].
  - simpl. eexists. split; [done|]. split; [|split; [done|apply length_fmap]].
    split; simpl; rewrite ?length_fmap; try apply Ht; [lia|..].
    + intros x Hx. apply (tr_range _ _ Ht) in Hx. lia.
    + intros i x. rewrite list_lookup_fmap. by destruct (_ !! i).
    + intros x Hx Hw. unfold zlen in *. rewrite length_fmap in Hw.
      apply (tr_range _ _ Ht) in Hx. lia.
Qed.

(** Two different sequences in one window have different slots. *)
Lemma window_residue (n : nat) (s x : Z) : (0 < n)%nat -> 0 <= s -> 0 <= x ->
  s <> x -> -Z.of_nat n < s - x < Z.of_nat n ->
  (Z.to_nat s mod n <> Z.to_nat x mod n)%nat.
Proof.
  intros Hn Hs Hx Hne Hd He. apply (f_equal Z.of_nat) in He.
  rewrite !Nat2Z.inj_mod, !Z2Nat.id in He by done.
  pose proof (Z.div_mod s (Z.of_nat n) ltac:(lia)).
  pose proof (Z.div_mod x (Z.of_nat n) ltac:(lia)).
  assert (s - x = Z.of_nat n * (s / Z.of_nat n - x / Z.of_nat n)) as Heq by lia.
  assert (s / Z.of_nat n - x / Z.of_nat n = 0) by nia. nia.
Qed.

Lemma tracks_store b R s e : tracks b R -> 0 <= s < sq_sequence_num b ->
  sq_sequence_num b - zlen (sq_entry_sequences b) <= s ->
  let i := (Z.to_nat s mod length (sq_entry_sequences b))%nat in
  tracks (mkSequenceBuffer (sq_sequence_num b) (<[i := Some s]> (sq_entry_sequences b))
            (<[i := e]> (sq_entries b))) ({[s]} ∪ R).
Proof.
  intros Ht Hs Hw i. pose proof (tr_capacity _ _ Ht) as Hn.
  assert (i < length (sq_entry_sequences b))%nat as Hi by (apply Nat.mod_upper_bound; lia).
  split; simpl; rewrite ?length_insert; try apply Ht.
  - intros x Hx. apply elem_of_union in Hx as [->%elem_of_singleton|Hx]; [done|].
    by apply (tr_range _ _ Ht).
  - intros j x Hj. apply list_lookup_insert_Some in Hj as [(<- & [= <-] & _)|(_ & Hj)].
    + split; [set_solver|done].
    + apply (tr_sound _ _ Ht) in Hj as [? ?]. split; [set_solver|done].
  - unfold zlen. rewrite length_insert. intros x Hx Hwx.
    destruct (decide (x = s)) as [->|Hne]; [by apply list_lookup_insert_eq|].
    assert (x ∈ R) as HxR by set_solver.
    pose proof (tr_range _ _ Ht x HxR). unfold zlen in Hw.
    rewrite list_lookup_insert_ne; [by apply (tr_complete _ _ Ht)|].
    apply window_residue; lia.
Qed.

(** An insertion is tracked, late, duplicate or advancing, as long as it stays within half of
    the numbering around the head and before the wrap. *)
Lemma tracks_insert b R s e : tracks b R -> 0 <= s < 65535 ->
  zlen (sq_entry_sequences b) < 32768 ->
  sq_sequence_num b - 32768 < s ->
  s < sq_sequence_num b + 32768 - zlen (sq_entry_sequences b) ->
  exists acc b', SequenceBuffer_insert b s e = Some (acc, b') /\
    (sq_sequence_num b' = Z.max (sq_sequence_num b) (s + 1)) /\
    length (sq_entry_sequences b') = length (sq_entry_sequences b) /\
    tracks b' ({[s]} ∪ R).
Proof.
  intros Ht Hs Hn Hlo Hhi. pose proof (tr_head _ _ Ht). pose proof (tr_capacity _ _ Ht) as Hcap.
  assert (0 < zlen (sq_entry_sequences b)) by (unfold zlen; lia).
  unfold SequenceBuffer_insert, sequence_less_than.
  rewrite as_u16_id by (unfold u16_ok; lia).
  assert (sequence_greater_than
    (wrapping_sub16 (sq_sequence_num b) (zlen (sq_entry_sequences b))) s
    = (s <? sq_sequence_num b - zlen (sq_entry_sequences b))) as ->.
  { unfold sequence_greater_than, wrapping_sub16.
    destruct (decide (zlen (sq_entry_sequences b) <= sq_sequence_num b)).
    - rewrite Z.mod_small by lia. lia.
    - rewrite <-(Z.mod_add _ 1) by lia. rewrite Z.mod_small by lia. lia. }
  destruct (_ <? _) eqn:E.
  - eexists _, _. split; [done|]. split; [lia|]. split; [done|].
    split; try apply Ht.
    + intros x Hx. apply elem_of_union in Hx as [->%elem_of_singleton|Hx]; [lia|].
      by apply (tr_range _ _ Ht).
    + intros i x Hi. apply (tr_sound _ _ Ht) in Hi as [? ?]. split; [set_solver|done].
    + intros x Hx Hw. apply (tr_complete _ _ Ht); [|done].
      apply elem_of_union in Hx as [->%elem_of_singleton|Hx]; [lia|done].
  - assert (exists b1, SequenceBuffer_advance_sequence b s = Some b1 /\ tracks b1 R /\
      sq_sequence_num b1 = Z.max (sq_sequence_num b) (s + 1) /\
      length (sq_entry_sequences b1) = length (sq_entry_sequences b)) as (b1 & -> & Ht1 & Hh & Hl).
    { destruct (decide (sq_sequence_num b <= s)).
      - destruct (tracks_advance b R s) as (b1 & E1 & ? & ? & ?); [done|lia..|].
        exists b1. split_all; [done..|lia|done].
      - unfold SequenceBuffer_advance_sequence.
        replace (wrapping_add16 s 1) with (s + 1) by int_solve.
        rewrite sequence_greater_than_near by lia.
        destruct (_ <? s + 1) eqn:E1; [lia|]. exists b. split_all; [done..|lia|done]. }
    simpl. rewrite index_Some by lia. simpl. eexists _, _. split; [done|]. simpl.
    rewrite length_insert. split; [done|]. split; [done|].
    apply tracks_store; [done|lia|]. unfold zlen in *. lia.
Qed.

End Buffer.

(* ------------------------------------------------------------------ *)
(** ** The buffer never panics                                          *)
(* ------------------------------------------------------------------ *)

Section Total.
Context {T : Type} (T_default : T).

Lemma remove_total (b : SequenceBuffer T) s : (0 < length (sq_entry_sequences b))%nat ->
  exists v b', SequenceBuffer_remove T_default b s = Some (v, b') /\
    length (sq_entry_sequences b') = length (sq_entry_sequences b).
Proof.
  intros Hn. unfold SequenceBuffer_remove. rewrite exists_Some by done. simpl.
  case_match; [|by eexists _, _]. rewrite index_Some by done. simpl.
  eexists _, _. split; [done|]. simpl. by rewrite length_insert.
Qed.

Lemma remove_entries_total (b : SequenceBuffer T) f : (0 < length (sq_entry_sequences b))%nat ->
  exists b', SequenceBuffer_remove_entries T_default b f = Some b' /\
    length (sq_entry_sequences b') = length (sq_entry_sequences b).
Proof.
  intros Hn. unfold SequenceBuffer_remove_entries. destruct (_ - _ <? _).
  - generalize (seqZ (sq_sequence_num b)
      ((if f <? sq_sequence_num b then f + 65536 else f) - sq_sequence_num b + 1)) as l.
    intros l. revert b Hn. induction l as [|s l IH]; intros b Hn; cbn [foldM]; [by eexists|].
    destruct (remove_total b (as_u16 s) Hn) as (v & b1 & -> & Hl). simpl.
    destruct (IH b1) as (b' & -> & Hl'); [lia|]. exists b'. split; [done|lia].
  - eexists. split; [done|]. simpl. apply length_fmap.
Qed.

Lemma insert_total (b : SequenceBuffer T) s e : (0 < length (sq_entry_sequences b))%nat ->
  exists acc b', SequenceBuffer_insert T_default b s e = Some (acc, b') /\
    length (sq_entry_sequences b') = length (sq_entry_sequences b).
Proof.
  intros Hn. unfold SequenceBuffer_insert. destruct (sequence_less_than _ _); [by eexists _, _|].
  assert (exists b1, SequenceBuffer_advance_sequence T_default b s = Some b1 /\
    length (sq_entry_sequences b1) = length (sq_entry_sequences b)) as (b1 & -> & Hl).
  { unfold SequenceBuffer_advance_sequence. destruct (sequence_greater_than _ _); [|by eexists].
    destruct (remove_entries_total b s Hn) as (b1 & -> & Hl). simpl. by eexists. }
  simpl. rewrite index_Some by lia. simpl. eexists _, _. split; [done|].
  simpl. by rewrite length_insert.
Qed.
End Total.
