(* ===== verification/Congestion.v ===== *)
(** Congestion control of [bitfold-protocol/src/congestion.rs]: smoothed round-trip time,
    loss counters and the throttle that becomes the drop probability of unreliable packets. *)

From S2P Require Import Prelude Float32.

Record CongestionControl : Set := mkCongestionControl {
  cc_rtt : Duration;
  cc_rtt_variance : Duration;
  cc_rtt_alpha : f32;
  cc_rtt_beta : f32;
  cc_packets_lost : Z;
  cc_packets_sent : Z;
  cc_throttle : f32;
  cc_min_throttle : f32;
  cc_max_throttle : f32;
  cc_last_throttle_update : Instant;
  cc_throttle_interval : Duration;
  cc_use_advanced_throttling : bool;
  cc_throttle_scale : Z;
  cc_packet_throttle : Z;
  cc_throttle_acceleration : Z;
  cc_throttle_deceleration : Z
}.

(** Field updates. *)
Definition cc_set_rtt (rtt var : Duration) (c : CongestionControl) : CongestionControl :=
  mkCongestionControl rtt var (cc_rtt_alpha c) (cc_rtt_beta c) (cc_packets_lost c)
    (cc_packets_sent c) (cc_throttle c) (cc_min_throttle c) (cc_max_throttle c)
    (cc_last_throttle_update c) (cc_throttle_interval c) (cc_use_advanced_throttling c)
    (cc_throttle_scale c) (cc_packet_throttle c) (cc_throttle_acceleration c)
    (cc_throttle_deceleration c).
Definition cc_set_counts (lost sent : Z) (c : CongestionControl) : CongestionControl :=
  mkCongestionControl (cc_rtt c) (cc_rtt_variance c) (cc_rtt_alpha c) (cc_rtt_beta c) lost sent
    (cc_throttle c) (cc_min_throttle c) (cc_max_throttle c)
    (cc_last_throttle_update c) (cc_throttle_interval c) (cc_use_advanced_throttling c)
    (cc_throttle_scale c) (cc_packet_throttle c) (cc_throttle_acceleration c)
    (cc_throttle_deceleration c).
Definition cc_set_throttle (t : f32) (pt : Z) (c : CongestionControl) : CongestionControl :=
  mkCongestionControl (cc_rtt c) (cc_rtt_variance c) (cc_rtt_alpha c) (cc_rtt_beta c)
    (cc_packets_lost c) (cc_packets_sent c) t (cc_min_throttle c) (cc_max_throttle c)
    (cc_last_throttle_update c) (cc_throttle_interval c) (cc_use_advanced_throttling c)
    (cc_throttle_scale c) pt (cc_throttle_acceleration c) (cc_throttle_deceleration c).
Definition cc_set_last_update (now : Instant) (c : CongestionControl) : CongestionControl :=
  mkCongestionControl (cc_rtt c) (cc_rtt_variance c) (cc_rtt_alpha c) (cc_rtt_beta c)
    (cc_packets_lost c) (cc_packets_sent c) (cc_throttle c) (cc_min_throttle c)
    (cc_max_throttle c) now (cc_throttle_interval c) (cc_use_advanced_throttling c)
    (cc_throttle_scale c) (cc_packet_throttle c) (cc_throttle_acceleration c)
    (cc_throttle_deceleration c).

(** [now] is the [Instant::now()] of the constructor. *)
Definition CongestionControl_new (rtt_alpha rtt_beta : f32) (now : Instant)
  : CongestionControl := {|
  cc_rtt := from_millis 50;
  cc_rtt_variance := from_millis 25;
  cc_rtt_alpha := rtt_alpha;
  cc_rtt_beta := rtt_beta;
  cc_packets_lost := 0;
  cc_packets_sent := 0;
  cc_throttle := f32_zero;
  cc_min_throttle := f32_zero;
  cc_max_throttle := f32_one;
  cc_last_throttle_update := now;
  cc_throttle_interval := from_secs 1;
  cc_use_advanced_throttling := false;
  cc_throttle_scale := 32;
  cc_packet_throttle := 32;
  cc_throttle_acceleration := 2;
  cc_throttle_deceleration := 2
|}.

Definition CongestionControl_default (now : Instant) : CongestionControl :=
  CongestionControl_new (f32_lit 1 10) (f32_lit 1 4) now.

Definition CongestionControl_enable_advanced_throttling
  (scale acceleration deceleration interval_ms : Z) (c : CongestionControl)
  : CongestionControl :=
  mkCongestionControl (cc_rtt c) (cc_rtt_variance c) (cc_rtt_alpha c) (cc_rtt_beta c)
    (cc_packets_lost c) (cc_packets_sent c) (cc_throttle c) (cc_min_throttle c)
    (cc_max_throttle c) (cc_last_throttle_update c) (from_millis interval_ms) true
    scale scale acceleration deceleration.

Definition CongestionControl_update_rtt (sample : Duration) (c : CongestionControl)
  : CongestionControl :=
  let sample_ms := f32_of_Z (as_millis sample) in
  let rtt_ms := f32_of_Z (as_millis (cc_rtt c)) in
  let new_rtt_ms := f32_add (f32_mul (f32_sub f32_one (cc_rtt_alpha c)) rtt_ms)
                            (f32_mul (cc_rtt_alpha c) sample_ms) in
  let diff := f32_abs (f32_sub rtt_ms sample_ms) in
  let var_ms := f32_of_Z (as_millis (cc_rtt_variance c)) in
  let new_var_ms := f32_add (f32_mul (f32_sub f32_one (cc_rtt_beta c)) var_ms)
                            (f32_mul (cc_rtt_beta c) diff) in
  cc_set_rtt (from_millis (f32_to_u64 new_rtt_ms)) (from_millis (f32_to_u64 new_var_ms)) c.

Definition CongestionControl_rtt (c : CongestionControl) : Duration := cc_rtt c.
Definition CongestionControl_rtt_variance (c : CongestionControl) : Duration := cc_rtt_variance c.

(** [4 * x as u64] and the sum of durations panic on overflow. *)
Definition CongestionControl_rto (c : CongestionControl) : option Duration :=
  ms ← mul_u64 4 (as_u64 (as_millis (cc_rtt_variance c)));
  add_duration (cc_rtt c) (from_millis ms).

Definition CongestionControl_record_loss (c : CongestionControl) : option CongestionControl :=
  lost ← add_u32 (cc_packets_lost c) 1;
  Some (cc_set_counts lost (cc_packets_sent c) c).
Definition CongestionControl_record_sent (c : CongestionControl) : option CongestionControl :=
  sent ← add_u32 (cc_packets_sent c) 1;
  Some (cc_set_counts (cc_packets_lost c) sent c).

Definition CongestionControl_loss_rate (c : CongestionControl) : f32 :=
  if cc_packets_sent c =? 0 then f32_zero
  else f32_div (f32_of_Z (cc_packets_lost c)) (f32_of_Z (cc_packets_sent c)).

Definition CongestionControl_update_simple_throttle (loss_rate : f32) (c : CongestionControl)
  : CongestionControl :=
  if f32_gtb loss_rate (f32_lit 5 100) then
    cc_set_throttle (f32_min (f32_add (cc_throttle c) (f32_lit 1 10)) (cc_max_throttle c))
      (cc_packet_throttle c) c
  else if f32_ltb loss_rate (f32_lit 1 100) && f32_gtb (cc_throttle c) (cc_min_throttle c) then
    cc_set_throttle (f32_max (f32_sub (cc_throttle c) (f32_lit 5 100)) (cc_min_throttle c))
      (cc_packet_throttle c) c
  else c.

Definition CongestionControl_update_advanced_throttle (loss_rate : f32) (c : CongestionControl)
  : option CongestionControl :=
  pt ← (if f32_gtb loss_rate (f32_lit 1 100) then
          Some (if cc_throttle_deceleration c <? cc_packet_throttle c
                then cc_packet_throttle c - cc_throttle_deceleration c else 0)
        else if f32_ltb loss_rate (f32_lit 5 1000)
                && (cc_packet_throttle c <? cc_throttle_scale c) then
          sum ← add_u32 (cc_packet_throttle c) (cc_throttle_acceleration c);
          Some (Z.min sum (cc_throttle_scale c))
        else Some (cc_packet_throttle c));
  Some (cc_set_throttle
          (f32_sub f32_one (f32_div (f32_of_Z pt) (f32_of_Z (cc_throttle_scale c)))) pt c).

Definition CongestionControl_update_throttle (now : Instant) (c : CongestionControl)
  : option (bool * CongestionControl) :=
  if duration_since now (cc_last_throttle_update c) <? cc_throttle_interval c
  then Some (false, c)
  else
    let loss_rate := CongestionControl_loss_rate c in
    c ← (if cc_use_advanced_throttling c
         then CongestionControl_update_advanced_throttle loss_rate c
         else Some (CongestionControl_update_simple_throttle loss_rate c));
    Some (true, cc_set_last_update now (cc_set_counts 0 0 c)).

(** [sample] is the value of [rand::random::<f32>()], drawn only when it is needed. *)
Definition CongestionControl_should_drop_unreliable (sample : f32) (c : CongestionControl)
  : bool :=
  if f32_eqb (cc_throttle c) f32_zero then false else f32_ltb sample (cc_throttle c).

Definition CongestionControl_throttle (c : CongestionControl) : f32 := cc_throttle c.
Definition CongestionControl_packet_throttle (c : CongestionControl) : Z := cc_packet_throttle c.
Definition CongestionControl_throttle_scale (c : CongestionControl) : Z := cc_throttle_scale c.
Definition CongestionControl_is_advanced_throttling_enabled (c : CongestionControl) : bool :=
  cc_use_advanced_throttling c.

Definition CongestionControl_set_throttle_range (min max : f32) (c : CongestionControl)
  : CongestionControl :=
  mkCongestionControl (cc_rtt c) (cc_rtt_variance c) (cc_rtt_alpha c) (cc_rtt_beta c)
    (cc_packets_lost c) (cc_packets_sent c) (cc_throttle c) (f32_clamp01 min)
    (f32_clamp01 max) (cc_last_throttle_update c) (cc_throttle_interval c)
    (cc_use_advanced_throttling c) (cc_throttle_scale c) (cc_packet_throttle c)
    (cc_throttle_acceleration c) (cc_throttle_deceleration c).

Definition CongestionControl_configure_throttle (interval_ms acceleration deceleration : Z)
  (c : CongestionControl) : CongestionControl :=
  mkCongestionControl (cc_rtt c) (cc_rtt_variance c) (cc_rtt_alpha c) (cc_rtt_beta c)
    (cc_packets_lost c) (cc_packets_sent c) (cc_throttle c) (cc_min_throttle c)
    (cc_max_throttle c) (cc_last_throttle_update c) (from_millis interval_ms)
    (cc_use_advanced_throttling c) (cc_throttle_scale c) (cc_packet_throttle c)
    acceleration deceleration.

Definition CongestionControl_reset_stats (c : CongestionControl) : CongestionControl :=
  cc_set_counts 0 0 c.

(* ------------------------------------------------------------------ *)
(** ** The throttle                                                     *)
(* ------------------------------------------------------------------ *)

(** The packet throttle lies in its scale and recovering cannot overflow. *)
Definition throttle_ok (c : CongestionControl) : Prop :=
  0 <= cc_packet_throttle c <= cc_throttle_scale c /\
  0 <= cc_throttle_deceleration c /\ 0 <= cc_throttle_acceleration c /\
  cc_throttle_scale c + cc_throttle_acceleration c <= u32_max.

Definition lossy (loss_rate : f32) : bool := f32_gtb loss_rate (f32_lit 1 100).
Definition clean (loss_rate : f32) : bool :=
  negb (lossy loss_rate) && f32_ltb loss_rate (f32_lit 5 1000).

(** What one interval does to the packet throttle. *)
Definition throttle_step (c : CongestionControl) (loss_rate : f32) : Z :=
  if lossy loss_rate then Z.max 0 (cc_packet_throttle c - cc_throttle_deceleration c)
  else if clean loss_rate
  then Z.min (cc_throttle_scale c) (cc_packet_throttle c + cc_throttle_acceleration c)
  else cc_packet_throttle c.

Lemma update_advanced_throttle_spec r c : throttle_ok c ->
  CongestionControl_update_advanced_throttle r c =
  Some (cc_set_throttle (f32_sub f32_one
          (f32_div (f32_of_Z (throttle_step c r)) (f32_of_Z (cc_throttle_scale c))))
          (throttle_step c r) c).
Proof.
  unfold throttle_ok, CongestionControl_update_advanced_throttle, throttle_step, clean, lossy.
  intros (Hp & Hd & Ha & Hs).
  destruct (f32_gtb r (f32_lit 1 100)); cbn [negb andb].
  - cbn [mbind option_bind]. replace (if cc_throttle_deceleration c <? _ then _ else _)
      with (Z.max 0 (cc_packet_throttle c - cc_throttle_deceleration c))
      by (destruct (Z.ltb_spec (cc_throttle_deceleration c) (cc_packet_throttle c)); lia). done.
  - destruct (f32_ltb r (f32_lit 5 1000)); cbn [andb]; [|done].
    destruct (Z.ltb_spec (cc_packet_throttle c) (cc_throttle_scale c)).
    + unfold add_u32. rewrite checked_in by lia. cbn [mbind option_bind].
      by rewrite Z.min_comm.
    + cbn [mbind option_bind].
      by replace (Z.min _ _) with (cc_packet_throttle c) by lia.
Qed.

Lemma throttle_step_ok c r t : throttle_ok c ->
  throttle_ok (cc_set_throttle t (throttle_step c r) c).
Proof.
  unfold throttle_ok, throttle_step. intros (Hp & Hd & Ha & Hs). simpl.
  destruct (lossy r), (clean r); lia.
Qed.

Definition run_intervals (c : CongestionControl) (rates : list f32) : option CongestionControl :=
  foldM (fun c r => CongestionControl_update_advanced_throttle r c) c rates.

Lemma run_intervals_cons c r rates : throttle_ok c ->
  run_intervals c (r :: rates) =
  run_intervals (cc_set_throttle (f32_sub f32_one
          (f32_div (f32_of_Z (throttle_step c r)) (f32_of_Z (cc_throttle_scale c))))
          (throttle_step c r) c) rates.
Proof.
  intros. unfold run_intervals. cbn [foldM]. by rewrite update_advanced_throttle_spec.
Qed.

(** C30: Advanced throttling, started from a packet throttle within its scale, with rates of change
    that are not negative, and with a scale and an acceleration that add up to at most 32 bits:
    whatever the measured loss rates, it never panics nor leaves its scale; a run of lossy
    intervals lowers the packet throttle by the deceleration each time down to 0, and a run of
    clean ones raises it by the acceleration back to the scale.  (A [ThrottleConfigure] may set an
    acceleration that breaks the condition, and then a clean interval panics,
    [acceleration_overflow].) *)
Theorem advanced_throttle_bounded c rates (Hok : throttle_ok c) :
  exists c', run_intervals c rates = Some c' /\
    0 <= cc_packet_throttle c' <= cc_throttle_scale c' /\
    (Forall (fun r => lossy r = true) rates ->
     cc_packet_throttle c' =
       Z.max 0 (cc_packet_throttle c - zlen rates * cc_throttle_deceleration c)) /\
    (Forall (fun r => clean r = true) rates ->
     cc_packet_throttle c' = Z.min (cc_throttle_scale c)
       (cc_packet_throttle c + zlen rates * cc_throttle_acceleration c)).
Proof.
  revert c Hok. induction rates as [|r rates IH]; intros c Hok.
  - exists c. pose proof Hok as (? & ? & ? & ?). unfold zlen; simpl.
    split_all; [done|lia|lia|intros _; lia|intros _; lia].
  - rewrite run_intervals_cons by done.
    edestruct IH as (c' & E & Hr & Hl & Hc); [apply throttle_step_ok, Hok|].
    exists c'. split; [exact E|]. split; [done|]. pose proof Hok as (? & ? & ? & ?).
    rewrite zlen_cons. pose proof (zlen_nonneg rates). simpl in Hl, Hc.
    unfold throttle_step in Hl, Hc. split; intros HF; inversion_clear HF as [|? ? Hx HF'].
    + rewrite Hl by done. rewrite Hx. nia.
    + rewrite Hc by done. assert (lossy r = false) as ->
        by (unfold clean in Hx; by destruct (lossy r)). rewrite Hx. nia.
Qed.

Lemma advanced_throttle_bounded_witness :
  exists c', run_intervals (CongestionControl_enable_advanced_throttling 32 2 3 5000
      (CongestionControl_default 0)) [f32_lit 1 10; f32_lit 1 10] = Some c' /\
    cc_packet_throttle c' = 26.
Proof.
  destruct (advanced_throttle_bounded (CongestionControl_enable_advanced_throttling 32 2 3 5000
      (CongestionControl_default 0)) [f32_lit 1 10; f32_lit 1 10]) as (c' & E & _ & Hl & _).
  { unfold throttle_ok, u32_max. simpl. lia. }
  exists c'. split; [exact E|]. rewrite Hl by (repeat constructor). reflexivity.
Defined.

(** The update is due exactly when the interval has elapsed; then the counters restart. *)
Lemma update_throttle_spec now c b c' :
  CongestionControl_update_throttle now c = Some (b, c') ->
  b = negb (duration_since now (cc_last_throttle_update c) <? cc_throttle_interval c) /\
  (b = false -> c' = c) /\
  (b = true -> cc_packets_lost c' = 0 /\ cc_packets_sent c' = 0 /\
               cc_last_throttle_update c' = now).
Proof.
  unfold CongestionControl_update_throttle. destruct (_ <? _); simpl.
  - intros [= <- <-]. done.
  - destruct (if cc_use_advanced_throttling c then _ else _); simpl; [|done].
    intros [= <- <-]. done.
Qed.

(** A throttle that is off drops nothing, and draws no sample. *)
Lemma should_drop_unreliable_off sample c : cc_throttle c = f32_zero ->
  CongestionControl_should_drop_unreliable sample c = false.
Proof. unfold CongestionControl_should_drop_unreliable. by intros ->. Qed.

(** An acceleration near [u32::MAX] makes a clean interval overflow, which panics. *)
Example acceleration_overflow :
  CongestionControl_update_advanced_throttle f32_zero
    (cc_set_throttle f32_zero 31 (CongestionControl_configure_throttle 1000 u32_max 2
      (CongestionControl_enable_advanced_throttling 32 2 2 1000 (CongestionControl_default 0))))
  = None.
Proof. vm_compute. reflexivity. Qed.
