(* ===== verification/Ack.v ===== *)
(** The acknowledgment handler of [bitfold-protocol/src/acknowledgment.rs]: which sent
    packets are in flight, which remote packets were received, and the 32-bit field that
    carries the acknowledgments. *)

From S2P Require Import Prelude Float32 Core Packet SequenceBuffer Congestion.

Definition REDUNDANT_PACKET_ACKS_SIZE : Z := 32.
Definition DEFAULT_SEND_PACKETS_SIZE : Z := 256.

Record SentPacket : Set := mkSentPacket {
  sp_packet_type : PacketType;
  sp_payload : list Z;
  sp_ordering_guarantee : OrderingGuarantee;
  sp_item_identifier : option Z;
  sp_sent_time : Instant
}.

(** [ReceivedPacket {}]. *)
Inductive ReceivedPacket : Set := mkReceivedPacket.

Record AcknowledgmentHandler : Type := mkAcknowledgmentHandler {
  ah_sequence_number : Z;
  ah_remote_ack_sequence_num : Z;
  ah_sent_packets : gmap Z SentPacket;
  ah_received_packets : SequenceBuffer ReceivedPacket;
  ah_congestion : CongestionControl
}.

Definition AcknowledgmentHandler_with_congestion (congestion : CongestionControl)
  : AcknowledgmentHandler := {|
  ah_sequence_number := 0;
  ah_remote_ack_sequence_num := u16_max;
  ah_sent_packets := ∅;
  ah_received_packets := SequenceBuffer_with_capacity mkReceivedPacket (REDUNDANT_PACKET_ACKS_SIZE + 1);
  ah_congestion := congestion
|}.
Definition AcknowledgmentHandler_new (now : Instant) : AcknowledgmentHandler :=
  AcknowledgmentHandler_with_congestion (CongestionControl_default now).

Definition AcknowledgmentHandler_default (now : Instant) : AcknowledgmentHandler :=
  AcknowledgmentHandler_new now.
Definition AcknowledgmentHandler_congestion (h : AcknowledgmentHandler) : CongestionControl :=
  ah_congestion h.
Definition AcknowledgmentHandler_packets_in_flight (h : AcknowledgmentHandler) : Z :=
  as_u16 (Z.of_nat (size (ah_sent_packets h))).
Definition AcknowledgmentHandler_local_sequence_num (h : AcknowledgmentHandler) : Z :=
  ah_sequence_number h.
Definition AcknowledgmentHandler_remote_sequence_num (h : AcknowledgmentHandler) : Z :=
  wrapping_sub16 (sq_sequence_num (ah_received_packets h)) 1.
Definition AcknowledgmentHandler_rtt (h : AcknowledgmentHandler) : Duration :=
  CongestionControl_rtt (ah_congestion h).
Definition AcknowledgmentHandler_rto (h : AcknowledgmentHandler) : option Duration :=
  CongestionControl_rto (ah_congestion h).
Definition AcknowledgmentHandler_loss_rate (h : AcknowledgmentHandler) : f32 :=
  CongestionControl_loss_rate (ah_congestion h).
Definition AcknowledgmentHandler_throttle (h : AcknowledgmentHandler) : f32 :=
  CongestionControl_throttle (ah_congestion h).

(** [congestion_mut]: an update through the mutable reference. *)
Definition AcknowledgmentHandler_congestion_mut (f : CongestionControl -> CongestionControl)
  (h : AcknowledgmentHandler) : AcknowledgmentHandler :=
  mkAcknowledgmentHandler (ah_sequence_number h) (ah_remote_ack_sequence_num h)
    (ah_sent_packets h) (ah_received_packets h) (f (ah_congestion h)).

Definition AcknowledgmentHandler_update_throttle (now : Instant) (h : AcknowledgmentHandler)
  : option (bool * AcknowledgmentHandler) :=
  '(b, c) ← CongestionControl_update_throttle now (ah_congestion h);
  Some (b, AcknowledgmentHandler_congestion_mut (fun _ => c) h).
Definition AcknowledgmentHandler_should_drop_unreliable (sample : f32)
  (h : AcknowledgmentHandler) : bool :=
  CongestionControl_should_drop_unreliable sample (ah_congestion h).

(** One iteration of the loop of [ack_bitfield]; [mask <<= 1] drops the top bit. *)
Definition ack_bit (received : SequenceBuffer ReceivedPacket) (most_recent : Z)
  (acc : Z * Z) (i : Z) : option (Z * Z) :=
  let '(ack_bitfield, mask) := acc in
  e ← SequenceBuffer_exists received (wrapping_sub16 most_recent i);
  Some (if e : bool then Z.lor ack_bitfield mask else ack_bitfield,
        as_u32 (Z.shiftl mask 1)).

Definition AcknowledgmentHandler_ack_bitfield (h : AcknowledgmentHandler) : option Z :=
  fst <$> foldM (ack_bit (ah_received_packets h) (AcknowledgmentHandler_remote_sequence_num h))
            (0, 1) (seqZ 1 REDUNDANT_PACKET_ACKS_SIZE).

(** [if let Some(sent_packet) = self.sent_packets.remove(&s) { ... update_rtt }]. *)
Definition ack_sent (now : Instant) (st : gmap Z SentPacket * CongestionControl) (s : Z)
  : gmap Z SentPacket * CongestionControl :=
  match st.1 !! s with
  | Some sent_packet =>
      (delete s st.1,
       CongestionControl_update_rtt (duration_since now (sp_sent_time sent_packet)) st.2)
  | None => st
  end.

(** The loop over the bit field. *)
Definition ack_field_step (now : Instant) (remote_ack_seq : Z)
  (st : (gmap Z SentPacket * CongestionControl) * Z) (i : Z)
  : (gmap Z SentPacket * CongestionControl) * Z :=
  let '(sent, remote_ack_field) := st in
  let ack_sequence := wrapping_sub16 remote_ack_seq i in
  (if Z.land remote_ack_field 1 =? 1 then ack_sent now sent ack_sequence else sent,
   Z.shiftr remote_ack_field 1).

Definition AcknowledgmentHandler_process_incoming
  (remote_seq_num remote_ack_seq remote_ack_field : Z) (now : Instant)
  (h : AcknowledgmentHandler) : option AcknowledgmentHandler :=
  let remote_ack :=
    if sequence_greater_than remote_ack_seq (ah_remote_ack_sequence_num h)
    then remote_ack_seq else ah_remote_ack_sequence_num h in
  '(_, received) ← SequenceBuffer_insert mkReceivedPacket (ah_received_packets h) remote_seq_num mkReceivedPacket;
  let st := ack_sent now (ah_sent_packets h, ah_congestion h) remote_ack_seq in
  let '((sent, congestion), _) :=
    foldl (ack_field_step now remote_ack_seq) (st, remote_ack_field)
      (seqZ 1 REDUNDANT_PACKET_ACKS_SIZE) in
  Some (mkAcknowledgmentHandler (ah_sequence_number h) remote_ack sent received congestion).

Definition AcknowledgmentHandler_process_outgoing (packet_type : PacketType)
  (payload : list Z) (ordering_guarantee : OrderingGuarantee) (item_identifier : option Z)
  (now : Instant) (h : AcknowledgmentHandler) : option AcknowledgmentHandler :=
  let sent := <[ah_sequence_number h := mkSentPacket packet_type payload ordering_guarantee
                 item_identifier now]> (ah_sent_packets h) in
  congestion ← CongestionControl_record_sent (ah_congestion h);
  Some (mkAcknowledgmentHandler (wrapping_add16 (ah_sequence_number h) 1)
          (ah_remote_ack_sequence_num h) sent (ah_received_packets h) congestion).

(** The filter of [dropped_packets]. *)
Definition is_dropped (remote_ack_sequence s : Z) : bool :=
  if sequence_less_than s remote_ack_sequence
  then REDUNDANT_PACKET_ACKS_SIZE <? wrapping_sub16 remote_ack_sequence s
  else false.

Definition AcknowledgmentHandler_dropped_packets (h : AcknowledgmentHandler)
  : option (list SentPacket * AcknowledgmentHandler) :=
  let sent_sequences := merge_sort Z.le (map_to_list (ah_sent_packets h)).*1 in
  let to_drop := filter (fun s => is_dropped (ah_remote_ack_sequence_num h) s = true)
                   sent_sequences in
  let dropped := omap (fun s => ah_sent_packets h !! s) to_drop in
  let sent := foldr delete (ah_sent_packets h) to_drop in
  congestion ← foldM (fun c _ => CongestionControl_record_loss c) (ah_congestion h) dropped;
  Some (dropped, mkAcknowledgmentHandler (ah_sequence_number h)
    (ah_remote_ack_sequence_num h) sent (ah_received_packets h) congestion).

(* ------------------------------------------------------------------ *)
(** ** What an acknowledgment settles                                   *)
(* ------------------------------------------------------------------ *)

(** The sequences an acknowledgment [(ack, field)] names: [ack] itself and, for each bit
    [i - 1] of the field, the one [i] before it. *)
Definition in_field (ack field s i : Z) : bool :=
  (s =? wrapping_sub16 ack i) && Z.testbit field (i - 1).
Definition acked (ack field s : Z) : bool :=
  (s =? ack) || existsb (in_field ack field s) (seqZ 1 REDUNDANT_PACKET_ACKS_SIZE).

Lemma acked_spec ack field s : acked ack field s = true <->
  s = ack \/ exists i, 1 <= i <= 32 /\ s = wrapping_sub16 ack i /\ Z.testbit field (i - 1) = true.
Proof.
  unfold acked. rewrite orb_true_iff, Z.eqb_eq, existsb_exists. unfold in_field.
  apply or_iff_compat_l. split.
  - intros (i & Hi & Hb). apply list_elem_of_In, elem_of_seqZ in Hi.
    apply andb_true_iff in Hb as [Hs Hb]. exists i. unfold REDUNDANT_PACKET_ACKS_SIZE in Hi.
    split_all; [lia|lia|by apply Z.eqb_eq|done].
  - intros (i & Hi & -> & Hb). exists i. rewrite Z.eqb_refl, Hb. split; [|done].
    apply list_elem_of_In, elem_of_seqZ. unfold REDUNDANT_PACKET_ACKS_SIZE. lia.
Qed.

Lemma ack_sent_lookup now st k s :
  (ack_sent now st k).1 !! s = if decide (s = k) then None else st.1 !! s.
Proof.
  unfold ack_sent. destruct (st.1 !! k) eqn:E; simpl.
  - destruct (decide (s = k)) as [->|]; [apply lookup_delete_eq|by apply lookup_delete_ne].
  - by destruct (decide (s = k)) as [->|].
Qed.

Lemma land_1_testbit x : (Z.land x 1 =? 1) = Z.testbit x 0.
Proof.
  replace 1 with (Z.ones 1) by done. rewrite Z.land_ones by done.
  rewrite Z.bit0_odd, Zmod_odd. by destruct (Z.odd x).
Qed.

Lemma ack_field_fold now ack st field k (n : nat) s : 0 <= k ->
  (foldl (ack_field_step now ack) (st, Z.shiftr field k) (seqZ (k + 1) (Z.of_nat n))).1.1 !! s =
  if existsb (in_field ack field s) (seqZ (k + 1) (Z.of_nat n)) then None else st.1 !! s.
Proof.
  intros Hk. revert k Hk st. induction n as [|n IH]; intros k Hk st; [done|].
  replace (seqZ (k + 1) (Z.of_nat (S n))) with ((k + 1) :: seqZ (k + 1 + 1) (Z.of_nat n))
    by (rewrite (seqZ_cons _ (Z.of_nat (S n))) by lia; f_equal; f_equal; lia).
  cbn [foldl existsb]. unfold ack_field_step at 2.
  rewrite Z.shiftr_shiftr, land_1_testbit, Z.shiftr_spec, Z.add_0_l by lia.
  rewrite IH by lia. unfold in_field at 2. replace (k + 1 - 1) with k by lia.
  destruct (existsb _ _); [by rewrite orb_true_r|]. rewrite orb_false_r.
  destruct (Z.testbit field k); [|by rewrite andb_false_r].
  rewrite ack_sent_lookup, andb_true_r.
  destruct (Z.eqb_spec s (wrapping_sub16 ack (k + 1))); by case_decide.
Qed.

(** The congestion measurements aside, an incoming acknowledgment is a set subtraction. *)
Lemma process_incoming_sent seq ack field now h h' :
  AcknowledgmentHandler_process_incoming seq ack field now h = Some h' ->
  ah_sent_packets h' = filter (fun p => acked ack field p.1 = false) (ah_sent_packets h).
Proof.
  unfold AcknowledgmentHandler_process_incoming.
  destruct (SequenceBuffer_insert _ _ _ _) as [[? received]|];
    cbn [mbind option_bind]; [|done].
  pose proof (ack_field_fold now ack (ack_sent now (ah_sent_packets h, ah_congestion h) ack)
    field 0 32) as Hf.
  rewrite Z.shiftr_0_r in Hf. change (0 + 1) with 1 in Hf.
  change (Z.of_nat 32) with REDUNDANT_PACKET_ACKS_SIZE in Hf.
  revert Hf. generalize (foldl (ack_field_step now ack)
    (ack_sent now (ah_sent_packets h, ah_congestion h) ack, field)
    (seqZ 1 REDUNDANT_PACKET_ACKS_SIZE)). intros [[sent c] f] Hf.
  cbn [fst] in Hf. intros [= <-]. cbn [ah_sent_packets].
  apply map_eq. intros s. rewrite Hf by done. rewrite ack_sent_lookup. cbn [fst].
  rewrite (lookup_filter_key (acked ack field)). unfold acked.
  destruct (Z.eqb_spec s ack) as [->|Hne]; cbn [orb].
  - rewrite decide_True by done. by destruct (existsb _ _).
  - by rewrite decide_False by done.
Qed.

(* ------------------------------------------------------------------ *)
(** ** What the bit field says                                          *)
(* ------------------------------------------------------------------ *)

Lemma ack_bits_fold b mr (p : Z -> bool) (n : nat) : (n <= 32)%nat ->
  (forall i, 1 <= i <= Z.of_nat n -> SequenceBuffer_exists b (wrapping_sub16 mr i) = Some (p i)) ->
  exists f, foldM (ack_bit b mr) (0, 1) (seqZ 1 (Z.of_nat n)) = Some (f, as_u32 (2 ^ Z.of_nat n)) /\
    0 <= f < 2 ^ Z.of_nat n /\
    forall j, 0 <= j -> Z.testbit f j = (j <? Z.of_nat n) && p (j + 1).
Proof.
  induction n as [|n IH]; intros Hn Hp.
  - exists 0. split; [done|]. split; [done|]. intros j Hj. rewrite Z.testbit_0_l.
    destruct (Z.ltb_spec j (Z.of_nat 0)); [lia|done].
  - destruct IH as (f & E & Hf & Hb); [lia|intros; apply Hp; lia|].
    assert (0 < 2 ^ Z.of_nat n <= 2 ^ 31) as Hpow
      by (split; [lia|apply Z.pow_le_mono_r; lia]).
    rewrite Nat2Z.inj_succ, <-Z.add_1_r, seqZ_app by lia.
    rewrite foldM_app, E. cbn [mbind option_bind]. change (seqZ ?a 1) with [Z.of_nat 0 + a].
    rewrite Z.add_0_l. cbn [foldM]. unfold ack_bit. rewrite (Z.add_comm 1), Hp by lia.
    cbn [mbind option_bind].
    rewrite (as_u32_id (2 ^ Z.of_nat n)) by (unfold u32_ok; lia).
    rewrite Z.shiftl_mul_pow2, Z.pow_add_r by lia. change (2 ^ 1) with 2.
    eexists. split; [done|]. destruct (p (Z.of_nat n + 1)) eqn:Ep; split.
    + assert (Z.land f (2 ^ Z.of_nat n) = 0) as Hl.
      { apply Z.bits_inj'. intros j Hj.
        rewrite Z.land_spec, Z.bits_0, Hb, Z.pow2_bits_eqb by lia. lia. }
      rewrite <-Z.lxor_lor, <-Z.add_nocarry_lxor by done. lia.
    + intros j Hj. rewrite Z.lor_spec, Hb, Z.pow2_bits_eqb by lia.
      destruct (Z.eqb_spec (Z.of_nat n) j) as [<-|Hne].
      * rewrite Ep, orb_true_r. lia.
      * rewrite orb_false_r. f_equal. lia.
    + lia.
    + intros j Hj. rewrite Hb by done. destruct (decide (j = Z.of_nat n)) as [->|].
      * rewrite Ep, !andb_false_r. done.
      * f_equal. lia.
Qed.

(** While the buffer tracks the received set, bit [j] of the field stands for the sequence
    [j + 1] before the most recent one. *)
Lemma ack_bitfield_spec h R : tracks (ah_received_packets h) R ->
  zlen (sq_entry_sequences (ah_received_packets h)) = 33 ->
  exists f, AcknowledgmentHandler_ack_bitfield h = Some f /\ u32_ok f /\
    forall j, 0 <= j < 32 -> Z.testbit f j =
      bool_decide (wrapping_sub16 (AcknowledgmentHandler_remote_sequence_num h) (j + 1) ∈ R).
Proof.
  intros Ht Hn. set (mr := AcknowledgmentHandler_remote_sequence_num h).
  destruct (ack_bits_fold (ah_received_packets h) mr
    (fun i => bool_decide (wrapping_sub16 mr i ∈ R)) 32) as (f & E & Hf & Hb); [lia| |].
  - intros i Hi. apply tracks_exists; [done|]. rewrite Hn.
    pose proof (tr_head _ _ Ht). unfold mr, AcknowledgmentHandler_remote_sequence_num.
    int_solve.
  - exists f. unfold AcknowledgmentHandler_ack_bitfield. fold mr.
    change REDUNDANT_PACKET_ACKS_SIZE with (Z.of_nat 32). rewrite E. split; [done|].
    split; [exact Hf|]. intros j Hj. rewrite Hb by lia.
    by destruct (Z.ltb_spec j (Z.of_nat 32)); [|lia].
Qed.

(* ------------------------------------------------------------------ *)
(** ** The protocol between two handlers                                *)
(* ------------------------------------------------------------------ *)

Definition send (h : AcknowledgmentHandler) (p : SentPacket) : option AcknowledgmentHandler :=
  AcknowledgmentHandler_process_outgoing (sp_packet_type p) (sp_payload p)
    (sp_ordering_guarantee p) (sp_item_identifier p) (sp_sent_time p) h.

(** An arrival: its sequence and the acknowledgment it carried. *)
Definition receive (now : Instant) (h : AcknowledgmentHandler) (m : Z * Z * Z)
  : option AcknowledgmentHandler :=
  let '(seq, ack, field) := m in AcknowledgmentHandler_process_incoming seq ack field now h.

Lemma send_Some h p : 0 <= cc_packets_sent (ah_congestion h) < u32_max ->
  send h p = Some (mkAcknowledgmentHandler (wrapping_add16 (ah_sequence_number h) 1)
    (ah_remote_ack_sequence_num h) (<[ah_sequence_number h := p]> (ah_sent_packets h))
    (ah_received_packets h) (cc_set_counts (cc_packets_lost (ah_congestion h))
      (cc_packets_sent (ah_congestion h) + 1) (ah_congestion h))).
Proof.
  intros. unfold send, AcknowledgmentHandler_process_outgoing, CongestionControl_record_sent,
    add_u32. rewrite checked_in by lia. by destruct p.
Qed.

Lemma send_all_spec ps h : 0 <= ah_sequence_number h ->
  ah_sequence_number h + zlen ps < 65536 ->
  0 <= cc_packets_sent (ah_congestion h) ->
  cc_packets_sent (ah_congestion h) + zlen ps <= u32_max ->
  exists h', foldM send h ps = Some h' /\
    ah_sequence_number h' = ah_sequence_number h + zlen ps /\
    ah_received_packets h' = ah_received_packets h /\
    forall s, ah_sent_packets h' !! s =
      if (ah_sequence_number h <=? s) && (s <? ah_sequence_number h + zlen ps)
      then ps !! Z.to_nat (s - ah_sequence_number h) else ah_sent_packets h !! s.
Proof.
  revert h. induction ps as [|p ps IH]; intros h H0 Hs Hc0 Hc.
  - exists h. split_all; [done|unfold zlen; simpl; lia|done|]. intros s. unfold zlen. simpl.
    destruct (_ && _) eqn:E; [lia|done].
  - rewrite zlen_cons in Hs, Hc. pose proof (zlen_nonneg ps). cbn [foldM].
    rewrite send_Some by lia. cbn [mbind option_bind].
    replace (wrapping_add16 (ah_sequence_number h) 1) with (ah_sequence_number h + 1)
      by int_solve.
    edestruct IH as (h' & -> & E1 & E2 & E3); cbn [ah_sequence_number ah_congestion] in *;
      [lia|lia|simpl; lia|simpl; lia|].
    exists h'. rewrite zlen_cons. split_all; [done|lia|done|]. intros s. rewrite E3.
    cbn [ah_sent_packets]. destruct (decide (s = ah_sequence_number h)) as [->|Hne].
    + rewrite lookup_insert_eq.
      destruct (Z.leb_spec (ah_sequence_number h + 1) (ah_sequence_number h)); [lia|].
      destruct (Z.leb_spec (ah_sequence_number h) (ah_sequence_number h)); [|lia].
      destruct (Z.ltb_spec (ah_sequence_number h) (ah_sequence_number h + (1 + zlen ps))); [|lia].
      cbn [andb]. by rewrite Z.sub_diag.
    + rewrite lookup_insert_ne by done.
      destruct (_ && _) eqn:E; destruct ((ah_sequence_number h <=? s) && _) eqn:E'; try lia; [|done].
      replace (Z.to_nat (s - ah_sequence_number h))
        with (S (Z.to_nat (s - (ah_sequence_number h + 1)))) by lia. done.
Qed.

(** The receiver's side: the buffer tracks what arrived, and its head is the latest. *)
Definition receiver_ok (h : AcknowledgmentHandler) (R : gset Z) : Prop :=
  tracks (ah_received_packets h) R /\
  zlen (sq_entry_sequences (ah_received_packets h)) = 33 /\
  (R = ∅ /\ sq_sequence_num (ah_received_packets h) = 0 \/
   sq_sequence_num (ah_received_packets h) - 1 ∈ R).

Lemma process_incoming_received seq ack field now h :
  (0 < length (sq_entry_sequences (ah_received_packets h)))%nat ->
  exists acc b h', SequenceBuffer_insert mkReceivedPacket (ah_received_packets h) seq mkReceivedPacket = Some (acc, b) /\
    AcknowledgmentHandler_process_incoming seq ack field now h = Some h' /\
    ah_received_packets h' = b.
Proof.
  intros Hn. unfold AcknowledgmentHandler_process_incoming.
  destruct (insert_total mkReceivedPacket (ah_received_packets h) seq mkReceivedPacket Hn) as (acc & b & -> & _).
  cbn [mbind option_bind].
  generalize (foldl (ack_field_step now ack)
    (ack_sent now (ah_sent_packets h, ah_congestion h) ack, field)
    (seqZ 1 REDUNDANT_PACKET_ACKS_SIZE)). intros [[sent c] f].
  by eexists acc, b, _.
Qed.

Lemma receive_ok now m h R : receiver_ok h R -> (forall s, s ∈ R -> s < 32000) ->
  0 <= m.1.1 < 32000 ->
  exists h', receive now h m = Some h' /\ receiver_ok h' ({[m.1.1]} ∪ R).
Proof.
  destruct m as [[seq ack] field]. cbn [fst]. intros (Ht & Hn & Hh) HR Hm.
  pose proof (tr_head _ _ Ht) as Hh0.
  assert (sq_sequence_num (ah_received_packets h) <= 32000)
    by (destruct Hh as [[_ ->]|Hh]; [lia|]; apply HR in Hh; lia).
  destruct (process_incoming_received seq ack field now h) as (acc & b & h' & Hi & E & Hb);
    [apply Ht|].
  destruct (tracks_insert mkReceivedPacket _ R seq mkReceivedPacket Ht) as (acc' & b' & Hi' & Hhead & Hlen & Ht'); [lia..|].
  rewrite Hi in Hi'. injection Hi' as -> ->. exists h'. split; [exact E|].
  unfold receiver_ok. rewrite Hb. split; [done|]. split; [unfold zlen in *; lia|]. right.
  rewrite Hhead. destruct Hh as [[-> ->]|Hh].
  - replace (Z.max 0 (seq + 1) - 1) with seq by lia. set_solver.
  - destruct (decide (sq_sequence_num (ah_received_packets h) <= seq + 1)).
    + replace (Z.max _ _ - 1) with seq by lia. set_solver.
    + rewrite Z.max_l by lia. set_solver.
Qed.

Lemma receive_all_ok now ms h R : receiver_ok h R -> (forall s, s ∈ R -> s < 32000) ->
  Forall (fun m => 0 <= m.1.1 < 32000) ms ->
  exists h', foldM (receive now) h ms = Some h' /\
    receiver_ok h' (list_to_set ((fun m => m.1.1) <$> ms) ∪ R).
Proof.
  intros Hok HR Hms. revert h R Hok HR. induction Hms as [|m ms Hm _ IH]; intros h R Hok HR.
  - exists h. split; [done|]. simpl. by rewrite (left_id_L ∅ (∪)).
  - destruct (receive_ok now m h R Hok HR Hm) as (h1 & E1 & Hok1). cbn [foldM]. rewrite E1.
    cbn [mbind option_bind].
    destruct (IH _ _ Hok1) as (h' & -> & Hok').
    { intros s Hs. apply elem_of_union in Hs as [->%elem_of_singleton|Hs]; [lia|by apply HR]. }
    exists h'. split; [done|]. rewrite fmap_cons, list_to_set_cons.
    by replace ({[m.1.1]} ∪ list_to_set ((λ m0, m0.1.1) <$> ms) ∪ R)
      with (list_to_set ((λ m0, m0.1.1) <$> ms) ∪ ({[m.1.1]} ∪ R)) by set_solver.
Qed.

Lemma receiver_new_ok c : receiver_ok (AcknowledgmentHandler_with_congestion c) ∅.
Proof.
  split; [|split; [done|by left]]. split; try done; try (simpl; lia).
  - intros i s H. simpl in H.
    apply (lookup_replicate 33 None (Some s) i) in H as [? _]. done.
Qed.

(** The field and the latest sequence of a receiver name exactly its window. *)
Lemma acked_window field (R : gset Z) latest s :
  (forall j, 0 <= j < 32 -> Z.testbit field j = bool_decide (wrapping_sub16 latest (j + 1) ∈ R)) ->
  (forall x, x ∈ R -> x <= latest) ->
  (forall x, x ∈ R -> 0 <= x < 32000) ->
  latest ∈ R ->
  acked latest field s = true <-> s ∈ R /\ latest - 32 <= s.
Proof.
  intros Hbits Hmax HR Hl. pose proof (HR _ Hl) as Hlr. rewrite acked_spec. split.
  - intros [->|(i & Hi & -> & Hb)]; [split; [done|lia]|].
    rewrite Hbits in Hb by lia. replace (i - 1 + 1) with i in Hb by lia.
    apply bool_decide_eq_true in Hb. split; [done|]. apply HR in Hb. int_solve.
  - intros [Hs Hw]. pose proof (HR _ Hs). pose proof (Hmax _ Hs).
    destruct (decide (s = latest)) as [->|Hne]; [by left|right].
    exists (latest - s). split; [lia|]. assert (s = wrapping_sub16 latest (latest - s)) as Es
      by int_solve. split; [done|]. rewrite Hbits by lia.
    replace (latest - s - 1 + 1) with (latest - s) by lia. rewrite <-Es.
    by apply bool_decide_eq_true.
Qed.

(** The numbers of one handler's packets in flight. *)
Definition in_flight (h : AcknowledgmentHandler) (s : Z) : Prop := is_Some (ah_sent_packets h !! s).

(** C21: The acknowledgment protocol, end to end: a sender numbers its packets from 0, any of
    them arrive in any order and any number of times, and the receiver answers with its latest
    sequence and bit field.  Handling that answer leaves in flight exactly the packets that did
    not arrive or are more than 32 behind the latest arrival, for fewer than 32000 packets. *)
Theorem ack_protocol_exact ps ms cs cr t seq (Hps : zlen ps <= 32000)
  (Hc : cc_packets_sent cs = 0) (Hne : ms <> [])
  (Hms : Forall (fun m => 0 <= m.1.1 < zlen ps) ms) :
  exists snd rcv field snd',
    foldM send (AcknowledgmentHandler_with_congestion cs) ps = Some snd /\
    foldM (receive t) (AcknowledgmentHandler_with_congestion cr) ms = Some rcv /\
    AcknowledgmentHandler_ack_bitfield rcv = Some field /\
    AcknowledgmentHandler_process_incoming seq
      (AcknowledgmentHandler_remote_sequence_num rcv) field t snd = Some snd' /\
    AcknowledgmentHandler_remote_sequence_num rcv ∈ (fun m => m.1.1) <$> ms /\
    forall s, in_flight snd' s <-> 0 <= s < zlen ps /\
      ~ (s ∈ (fun m => m.1.1) <$> ms /\
         AcknowledgmentHandler_remote_sequence_num rcv - 32 <= s).
Proof.
  destruct (send_all_spec ps (AcknowledgmentHandler_with_congestion cs))
    as (snd & Es & Eseq & Ercv & Esent); [simpl; unfold u32_max; lia..|].
  destruct (receive_all_ok t ms (AcknowledgmentHandler_with_congestion cr) ∅)
    as (rcv & Er & Ht & Hn & Hh); [apply receiver_new_ok|set_solver| |].
  { eapply Forall_impl; [exact Hms|]. simpl. lia. }
  rewrite (right_id_L ∅ (∪)) in Ht, Hh. set (R := (fun m : Z * Z * Z => m.1.1) <$> ms) in *.
  assert (forall s, s ∈ R -> 0 <= s < zlen ps) as HR.
  { unfold R. intros s (m & -> & Hm)%list_elem_of_fmap. by eapply Forall_forall in Hms. }
  assert (sq_sequence_num (ah_received_packets rcv) - 1 ∈ R) as Hlatest.
  { destruct Hh as [[He _]|Hh]; [|set_solver]. destruct ms as [|m ms]; [done|]. set_solver. }
  destruct (ack_bitfield_spec rcv _ Ht Hn) as (field & Ef & _ & Hbits).
  set (latest := AcknowledgmentHandler_remote_sequence_num rcv) in *.
  assert (latest = sq_sequence_num (ah_received_packets rcv) - 1) as Hl.
  { pose proof (HR _ Hlatest). unfold latest, AcknowledgmentHandler_remote_sequence_num. int_solve. }
  destruct (process_incoming_received seq latest field t snd) as (acc & b & snd' & _ & Ep & _).
  { rewrite Ercv. simpl. lia. }
  exists snd, rcv, field, snd'. do 4 (split; [done|]). split; [change (latest ∈ R); by rewrite Hl|]. fold latest.
  intros s. unfold in_flight. rewrite (process_incoming_sent _ _ _ _ _ _ Ep).
  rewrite (lookup_filter_key (acked latest field)), Esent.
  assert (acked latest field s = true <-> s ∈ R /\ latest - 32 <= s) as Hacked.
  { rewrite <-(elem_of_list_to_set (C := gset Z)). apply acked_window.
    - intros j Hj. by apply Hbits.
    - intros x Hx. apply (tr_range _ _ Ht) in Hx. lia.
    - intros x Hx%elem_of_list_to_set. apply HR in Hx. lia.
    - by rewrite Hl, elem_of_list_to_set. }
  destruct (acked latest field s).
  - split; [by intros [? ?]|]. intros [_ Hno]. destruct Hno. by apply Hacked.
  - cbn [ah_sequence_number AcknowledgmentHandler_with_congestion ah_sent_packets] in *.
    rewrite lookup_empty, Z.sub_0_r, Z.add_0_l.
    assert (~ (s ∈ R /\ latest - 32 <= s)) as Hno by (intros Hw; by apply Hacked in Hw).
    destruct ((0 <=? s) && (s <? zlen ps)) eqn:E.
    + split; [intros _; split; [lia|done]|]. intros _. apply lookup_lt_is_Some.
      unfold zlen in *. lia.
    + split; [by intros [? ?]|]. intros [? _]. lia.
Qed.

Definition sample_sent : SentPacket := mkSentPacket TypePacket [1; 2; 3] OrderNone None 0.

Lemma ack_protocol_exact_witness :
  exists snd', ~ in_flight snd' 0 /\ in_flight snd' 1 /\ ~ in_flight snd' 2.
Proof.
  destruct (ack_protocol_exact [sample_sent; sample_sent; sample_sent]
    [(2, 0, 0); (0, 65535, 7); (2, 0, 0)] (CongestionControl_default 0)
    (CongestionControl_default 0) 9 0) as (snd & rcv & field & snd' & _ & Er & _ & _ & _ & H).
  - unfold zlen; simpl; lia.
  - reflexivity.
  - discriminate.
  - repeat constructor; unfold zlen; simpl; lia.
  - vm_compute in Er. injection Er as <-. exists snd'. rewrite !H. clear.
    assert (AcknowledgmentHandler_remote_sequence_num _ = 2) as -> by reflexivity.
    unfold zlen. simpl. split; [|split]; [intros [_ Hno]; apply Hno; split; [set_solver|lia]
      |split; [lia|intros [Hin _]; set_solver] |intros [_ Hno]; apply Hno; split; [set_solver|lia]].
Defined.

(* ------------------------------------------------------------------ *)
(** ** Dropped packets                                                  *)
(* ------------------------------------------------------------------ *)

(** In 16-bit serial arithmetic: more than 32 behind, in the half of the numbering that
    precedes [r]; the antipode belongs to that half when it is numerically smaller. *)
Definition far_behind (r s : Z) : Prop :=
  32 < wrapping_sub16 r s < 32768 \/ wrapping_sub16 r s = 32768 /\ s < r.

Lemma is_dropped_spec r s : u16_ok r -> u16_ok s ->
  is_dropped r s = true <-> far_behind r s.
Proof.
  unfold is_dropped, far_behind, sequence_less_than, sequence_greater_than, REDUNDANT_PACKET_ACKS_SIZE.
  intros Hr Hs.
  destruct (Z.ltb_spec s r), (Z.leb_spec (r - s) 32768), (Z.ltb_spec r s),
    (Z.ltb_spec 32768 (s - r)); cbn [andb orb]; rewrite ?Z.ltb_lt; int_solve.
Qed.

Lemma foldr_delete_lookup {A} (m : gmap Z A) l s :
  foldr delete m l !! s = if decide (s ∈ l) then None else m !! s.
Proof.
  induction l as [|k l IH]; cbn [foldr]; [by rewrite decide_False by set_solver|].
  destruct (decide (s = k)) as [->|Hne].
  - rewrite lookup_delete_eq. by rewrite decide_True by set_solver.
  - rewrite lookup_delete_ne, IH by done. destruct (decide (s ∈ l)).
    + by rewrite decide_True by set_solver.
    + by rewrite decide_False by set_solver.
Qed.

Lemma record_loss_Some c : 0 <= cc_packets_lost c < u32_max ->
  CongestionControl_record_loss c
  = Some (cc_set_counts (cc_packets_lost c + 1) (cc_packets_sent c) c).
Proof. intros. unfold CongestionControl_record_loss, add_u32. by rewrite checked_in by lia. Qed.

Lemma record_losses {A} (l : list A) c : 0 <= cc_packets_lost c ->
  cc_packets_lost c + zlen l <= u32_max ->
  exists c', foldM (fun c _ => CongestionControl_record_loss c) c l = Some c' /\
    cc_packets_lost c' = cc_packets_lost c + zlen l /\ cc_packets_sent c' = cc_packets_sent c.
Proof.
  revert c. induction l as [|x l IH]; intros c H0 Hc; cbn [foldM].
  - exists c. unfold zlen. simpl. split_all; [done|lia|done].
  - rewrite zlen_cons in Hc |- *. pose proof (zlen_nonneg l).
    rewrite record_loss_Some by lia.
    cbn [mbind option_bind]. edestruct IH as (c' & -> & E1 & E2); simpl in *; [lia|lia|].
    exists c'. split_all; [done|lia|done].
Qed.

Lemma Sorted_filter (P : Z -> Prop) `{!forall s, Decision (P s)} (l : list Z) :
  Transitive Z.le -> Sorted Z.le l -> Sorted Z.le (filter P l).
Proof.
  intros Htr Hl. apply StronglySorted_Sorted. apply Sorted_StronglySorted in Hl; [|done].
  induction Hl as [|x l Hl IH Hx]; [constructor|]. rewrite filter_cons.
  destruct (decide (P x)); [|done]. constructor; [done|].
  rewrite Forall_forall in Hx |- *. intros y [_ Hy]%list_elem_of_filter. by apply Hx.
Qed.

(** C26: [dropped_packets] declares lost exactly the packets in flight more than 32 sequence
    numbers behind the latest acknowledged one (in 16-bit serial order), returns them in
    ascending order of sequence, forgets them and counts each as one loss. *)
Theorem dropped_packets_exact h (Hr : u16_ok (ah_remote_ack_sequence_num h))
  (Hs : forall s, in_flight h s -> u16_ok s)
  (Hc : 0 <= cc_packets_lost (ah_congestion h) /\
        cc_packets_lost (ah_congestion h) + Z.of_nat (size (ah_sent_packets h)) <= u32_max) :
  exists dropped h' ks, AcknowledgmentHandler_dropped_packets h = Some (dropped, h') /\
    Sorted Z.le ks /\ NoDup ks /\
    Forall2 (fun s p => ah_sent_packets h !! s = Some p) ks dropped /\
    (forall s, s ∈ ks <-> in_flight h s /\
       far_behind (ah_remote_ack_sequence_num h) s) /\
    (forall s, ah_sent_packets h' !! s = if decide (s ∈ ks) then None else ah_sent_packets h !! s) /\
    cc_packets_lost (ah_congestion h') = cc_packets_lost (ah_congestion h) + zlen dropped.
Proof.
  unfold AcknowledgmentHandler_dropped_packets.
  set (keys := merge_sort Z.le (map_to_list (ah_sent_packets h)).*1).
  set (ks := filter (fun s => is_dropped (ah_remote_ack_sequence_num h) s = true) keys).
  assert (keys ≡ₚ (map_to_list (ah_sent_packets h)).*1) as Hperm by apply merge_sort_Permutation.
  assert (forall s, s ∈ ks <-> in_flight h s /\
    far_behind (ah_remote_ack_sequence_num h) s) as Hks.
  { intros s. unfold ks. rewrite list_elem_of_filter, Hperm.
    assert (s ∈ (map_to_list (ah_sent_packets h)).*1 <-> in_flight h s) as ->.
    { rewrite list_elem_of_fmap. split.
      - intros ([k p] & -> & Hp%elem_of_map_to_list). by exists p.
      - intros [p Hp]. exists (s, p). by rewrite elem_of_map_to_list. }
    split.
    - intros [H1 H2]. split; [done|]. apply is_dropped_spec; auto.
    - intros [H1 H2]. split; [|done]. apply is_dropped_spec; auto. }
  assert (Forall2 (fun s p => ah_sent_packets h !! s = Some p) ks
            (omap (fun s => ah_sent_packets h !! s) ks)) as Hall.
  { assert (Forall (in_flight h) ks) as HF by (apply Forall_forall; intros s Hs'; by apply Hks).
    clear -HF. induction HF as [|s l [p Hp] _ IH]; simpl; [constructor|].
    rewrite Hp. by constructor. }
  assert (NoDup keys) as Hnd by (rewrite Hperm; apply NoDup_fst_map_to_list).
  destruct (record_losses (omap (fun s => ah_sent_packets h !! s) ks) (ah_congestion h))
    as (c & E & Hlost & _); [lia| |].
  { apply Forall2_length in Hall. unfold zlen. rewrite <-Hall.
    assert (length ks <= size (ah_sent_packets h))%nat; [|lia].
    rewrite <-length_map_to_list, <-(length_fmap fst), <-Hperm. apply length_filter. }
  rewrite E. cbn [mbind option_bind]. eexists _, _, ks. split; [reflexivity|].
  split_and!.
  - unfold ks. apply Sorted_filter; [intros x y z; lia|].
    apply Sorted_merge_sort. intros x y. lia.
  - by apply NoDup_filter.
  - exact Hall.
  - exact Hks.
  - intros s. apply foldr_delete_lookup.
  - exact Hlost.
Qed.

Lemma dropped_packets_exact_witness :
  exists dropped h' (ks : list Z), AcknowledgmentHandler_dropped_packets
    (mkAcknowledgmentHandler 3 40 {[ 3 := sample_sent; 20 := sample_sent; 41 := sample_sent ]}
       (SequenceBuffer_with_capacity mkReceivedPacket 33) (CongestionControl_default 0))
    = Some (dropped, h') /\ forall s, s ∈ ks <-> s = 3.
Proof.
  destruct (dropped_packets_exact
    (mkAcknowledgmentHandler 3 40 {[ 3 := sample_sent; 20 := sample_sent; 41 := sample_sent ]}
       (SequenceBuffer_with_capacity mkReceivedPacket 33) (CongestionControl_default 0)))
    as (dropped & h' & ks & E & _ & _ & _ & Hks & _ & _).
  - unfold u16_ok; simpl; lia.
  - intros s [p Hp]. simpl in Hp.
    apply lookup_insert_Some in Hp as [[<- _]|[_ Hp]]; [unfold u16_ok; lia|].
    apply lookup_insert_Some in Hp as [[<- _]|[_ Hp]]; [unfold u16_ok; lia|].
    apply lookup_singleton_Some in Hp as [<- _]. unfold u16_ok. lia.
  - split; vm_compute; discriminate.
  - exists dropped, h', ks. split; [exact E|]. intros s. rewrite Hks. simpl. unfold in_flight.
    simpl. split.
    + intros [[p Hp] Hf]. unfold far_behind, wrapping_sub16 in Hf.
      apply lookup_insert_Some in Hp as [[<- _]|[_ Hp]]; [done|].
      apply lookup_insert_Some in Hp as [[<- _]|[_ Hp]]; [vm_compute in Hf; intuition congruence|].
      apply lookup_singleton_Some in Hp as [<- _]. vm_compute in Hf. intuition congruence.
    + intros ->. split; [by eexists|]. left. vm_compute. split; done.
Defined.

(** The 33 slots do not divide the 65536 sequence numbers: just after the wrap two sequences
    of one window share a slot, and an acknowledgment of a received packet is lost.  The
    receiver below got every packet from 65503 to 65535, then packet 0. *)
Definition wrap_arrivals : list (Z * Z * Z) :=
  (fun s => (s, 65535, 0)) <$> ([30000; 60000] ++ seqZ 65503 33 ++ [0]).

Example ack_bit_lost_at_wrap :
  (h ← foldM (receive 0) (AcknowledgmentHandler_new 0) wrap_arrivals;
   f ← AcknowledgmentHandler_ack_bitfield h;
   Some (AcknowledgmentHandler_remote_sequence_num h, f)) = Some (0, 4294967295 - 2 ^ 30).
Proof. vm_compute. reflexivity. Qed.
