(* ===== verification/Bandwidth.v ===== *)
(** Bandwidth limits: the manager of [bitfold-protocol/src/bandwidth.rs] and the per-peer
    throttle of [bitfold-peer/src/bandwidth_throttle.rs]. *)

From S2P Require Import Prelude Float32.

(* ------------------------------------------------------------------ *)
(** ** [BandwidthManager]                                               *)
(* ------------------------------------------------------------------ *)

Record BandwidthManager : Set := mkBandwidthManager {
  bm_outgoing_bandwidth : Z;
  bm_incoming_bandwidth : Z;
  bm_bytes_sent_this_window : Z;
  bm_bytes_recv_this_window : Z;
  bm_window_start : Instant;
  bm_window_duration : Duration
}.

Definition BandwidthManager_new (outgoing_bw incoming_bw : Z) (window_duration : Duration)
  (now : Instant) : BandwidthManager :=
  mkBandwidthManager outgoing_bw incoming_bw 0 0 now window_duration.
Definition BandwidthManager_unlimited (now : Instant) : BandwidthManager :=
  BandwidthManager_new 0 0 (from_secs 1) now.
Definition BandwidthManager_set_outgoing_bandwidth (bw : Z) (m : BandwidthManager) :=
  mkBandwidthManager bw (bm_incoming_bandwidth m) (bm_bytes_sent_this_window m)
    (bm_bytes_recv_this_window m) (bm_window_start m) (bm_window_duration m).
Definition BandwidthManager_set_incoming_bandwidth (bw : Z) (m : BandwidthManager) :=
  mkBandwidthManager (bm_outgoing_bandwidth m) bw (bm_bytes_sent_this_window m)
    (bm_bytes_recv_this_window m) (bm_window_start m) (bm_window_duration m).
Definition BandwidthManager_update_window (now : Instant) (m : BandwidthManager)
  : BandwidthManager :=
  if bm_window_duration m <=? duration_since now (bm_window_start m)
  then mkBandwidthManager (bm_outgoing_bandwidth m) (bm_incoming_bandwidth m) 0 0 now
         (bm_window_duration m)
  else m.

(** [self.update_window_if_needed()] does nothing in the source; the sum panics on overflow. *)
Definition BandwidthManager_can_send_outgoing (byte_count : Z) (m : BandwidthManager)
  : option bool :=
  if bm_outgoing_bandwidth m =? 0 then Some true
  else sum ← add_u32 (bm_bytes_sent_this_window m) (as_u32 byte_count);
       Some (sum <=? bm_outgoing_bandwidth m).
Definition BandwidthManager_record_sent (byte_count : Z) (m : BandwidthManager)
  : option BandwidthManager :=
  sum ← add_u32 (bm_bytes_sent_this_window m) (as_u32 byte_count);
  Some (mkBandwidthManager (bm_outgoing_bandwidth m) (bm_incoming_bandwidth m) sum
    (bm_bytes_recv_this_window m) (bm_window_start m) (bm_window_duration m)).
Definition BandwidthManager_can_receive_incoming (byte_count : Z) (m : BandwidthManager)
  : option bool :=
  if bm_incoming_bandwidth m =? 0 then Some true
  else sum ← add_u32 (bm_bytes_recv_this_window m) (as_u32 byte_count);
       Some (sum <=? bm_incoming_bandwidth m).
Definition BandwidthManager_record_received (byte_count : Z) (m : BandwidthManager)
  : option BandwidthManager :=
  sum ← add_u32 (bm_bytes_recv_this_window m) (as_u32 byte_count);
  Some (mkBandwidthManager (bm_outgoing_bandwidth m) (bm_incoming_bandwidth m)
    (bm_bytes_sent_this_window m) sum (bm_window_start m) (bm_window_duration m)).
Definition BandwidthManager_outgoing_utilization (m : BandwidthManager) : f32 :=
  if bm_outgoing_bandwidth m =? 0 then f32_zero
  else f32_div (f32_of_Z (bm_bytes_sent_this_window m)) (f32_of_Z (bm_outgoing_bandwidth m)).
Definition BandwidthManager_incoming_utilization (m : BandwidthManager) : f32 :=
  if bm_incoming_bandwidth m =? 0 then f32_zero
  else f32_div (f32_of_Z (bm_bytes_recv_this_window m)) (f32_of_Z (bm_incoming_bandwidth m)).

(* ------------------------------------------------------------------ *)
(** ** [BandwidthThrottle]                                              *)
(* ------------------------------------------------------------------ *)

Definition BANDWIDTH_WINDOW : Duration := from_secs 1.

Record BandwidthThrottle : Set := mkBandwidthThrottle {
  bt_bytes_sent_this_window : Z;
  bt_bytes_received_this_window : Z;
  bt_bandwidth_window_start : Instant;
  bt_outgoing_bandwidth_limit : Z;
  bt_incoming_bandwidth_limit : Z
}.

Definition BandwidthThrottle_new (outgoing_limit incoming_limit : Z) (start_time : Instant)
  : BandwidthThrottle := mkBandwidthThrottle 0 0 start_time outgoing_limit incoming_limit.
Definition BandwidthThrottle_update_bandwidth_window (time : Instant) (t : BandwidthThrottle)
  : bool * BandwidthThrottle :=
  if BANDWIDTH_WINDOW <=? duration_since time (bt_bandwidth_window_start t)
  then (true, mkBandwidthThrottle 0 0 time (bt_outgoing_bandwidth_limit t)
                (bt_incoming_bandwidth_limit t))
  else (false, t).
Definition BandwidthThrottle_record_bytes_sent (bytes : Z) (t : BandwidthThrottle)
  : BandwidthThrottle :=
  mkBandwidthThrottle (saturating_add32 (bt_bytes_sent_this_window t) bytes)
    (bt_bytes_received_this_window t) (bt_bandwidth_window_start t)
    (bt_outgoing_bandwidth_limit t) (bt_incoming_bandwidth_limit t).
Definition BandwidthThrottle_record_bytes_received (bytes : Z) (t : BandwidthThrottle)
  : BandwidthThrottle :=
  mkBandwidthThrottle (bt_bytes_sent_this_window t)
    (saturating_add32 (bt_bytes_received_this_window t) bytes) (bt_bandwidth_window_start t)
    (bt_outgoing_bandwidth_limit t) (bt_incoming_bandwidth_limit t).
Definition BandwidthThrottle_can_send_within_bandwidth (t : BandwidthThrottle) : bool :=
  if bt_outgoing_bandwidth_limit t =? 0 then true
  else bt_bytes_sent_this_window t <? bt_outgoing_bandwidth_limit t.
Definition BandwidthThrottle_bandwidth_utilization (t : BandwidthThrottle) : f32 :=
  if bt_outgoing_bandwidth_limit t =? 0 then f32_zero
  else f32_div (f32_of_Z (bt_bytes_sent_this_window t))
               (f32_of_Z (bt_outgoing_bandwidth_limit t)).
Definition BandwidthThrottle_can_receive_within_bandwidth (t : BandwidthThrottle) : bool :=
  if bt_incoming_bandwidth_limit t =? 0 then true
  else bt_bytes_received_this_window t <? bt_incoming_bandwidth_limit t.
Definition BandwidthThrottle_incoming_bandwidth_utilization (t : BandwidthThrottle) : f32 :=
  if bt_incoming_bandwidth_limit t =? 0 then f32_zero
  else f32_div (f32_of_Z (bt_bytes_received_this_window t))
               (f32_of_Z (bt_incoming_bandwidth_limit t)).
Definition BandwidthThrottle_set_outgoing_bandwidth_limit (limit : Z) (t : BandwidthThrottle) :=
  mkBandwidthThrottle (bt_bytes_sent_this_window t) (bt_bytes_received_this_window t)
    (bt_bandwidth_window_start t) limit (bt_incoming_bandwidth_limit t).
Definition BandwidthThrottle_set_incoming_bandwidth_limit (limit : Z) (t : BandwidthThrottle) :=
  mkBandwidthThrottle (bt_bytes_sent_this_window t) (bt_bytes_received_this_window t)
    (bt_bandwidth_window_start t) (bt_outgoing_bandwidth_limit t) limit.
Definition BandwidthThrottle_outgoing_bandwidth_limit (t : BandwidthThrottle) : Z :=
  bt_outgoing_bandwidth_limit t.
Definition BandwidthThrottle_incoming_bandwidth_limit (t : BandwidthThrottle) : Z :=
  bt_incoming_bandwidth_limit t.
Definition BandwidthThrottle_bytes_sent_this_window (t : BandwidthThrottle) : Z :=
  bt_bytes_sent_this_window t.
Definition BandwidthThrottle_bytes_received_this_window (t : BandwidthThrottle) : Z :=
  bt_bytes_received_this_window t.

(** A meter with the given limit, of which [used] bytes are used up, lets [n] more datagrams of up
    to 1537 bytes through: there is no limit, or it is far enough away. *)
Definition spare (limit used n : Z) : Prop := 0 <= used /\ (limit = 0 \/ used + n * 1537 <= limit).

Lemma spare_after limit used used' n k : 0 <= k -> spare limit used (n + k) ->
  (0 <= used -> 0 <= used' <= used + k * 1537) -> spare limit used' n.
Proof. intros Hk [H0 H] Hu. specialize (Hu H0). split; [lia|]. destruct H; [by left|right; lia]. Qed.
Lemma spare_less limit used n m : m <= n -> spare limit used n -> spare limit used m.
Proof. intros Hm [H0 [H|H]]; (split; [done|]); [by left|right; lia]. Qed.
Lemma spare_check limit used n :
  (0 <=? used) && ((limit =? 0) || (used + n * 1537 <=? limit)) = true -> spare limit used n.
Proof.
  intros [H1%Z.leb_le [H2%Z.eqb_eq|H2%Z.leb_le]%orb_true_iff]%andb_true_iff; split; auto.
Qed.
(** Such a meter does not stop the next datagram. *)
Lemma spare_open limit used n : 1 <= n -> spare limit used n ->
  (if limit =? 0 then true else used <? limit) = true.
Proof. intros Hn [H0 [->|H]]; [done|]. destruct (limit =? 0); [done|]. apply Z.ltb_lt. lia. Qed.

(* ------------------------------------------------------------------ *)
(** ** The throttle meters a gated sender                               *)
(* ------------------------------------------------------------------ *)

(** A sender that consults the throttle before each datagram, as the host's flush does:
    refresh the window, send if allowed, record. The result is the datagrams let through. *)
Definition gated_send (acc : BandwidthThrottle * list (Instant * Z)) (d : Instant * Z)
  : BandwidthThrottle * list (Instant * Z) :=
  let '(t, sent) := acc in
  let t := (BandwidthThrottle_update_bandwidth_window d.1 t).2 in
  if BandwidthThrottle_can_send_within_bandwidth t
  then (BandwidthThrottle_record_bytes_sent d.2 t, sent ++ [d])
  else (t, sent).
Definition gated_sends := foldl gated_send.

(** The bytes of the log [sent] that fall in the window opened at [start]. *)
Definition window_bytes (start : Instant) (sent : list (Instant * Z)) : Z :=
  zsum (fun d => if start <=? d.1 then d.2 else 0) sent.

Record meter_ok (limit M : Z) (t : BandwidthThrottle) (sent : list (Instant * Z)) : Prop := {
  mt_limit : bt_outgoing_bandwidth_limit t = limit;
  mt_exact : bt_bytes_sent_this_window t = window_bytes (bt_bandwidth_window_start t) sent;
  mt_bound : bt_bytes_sent_this_window t <= limit + M - 1;
  mt_recent d : d ∈ sent -> d.1 - bt_bandwidth_window_start t < BANDWIDTH_WINDOW
}.

Lemma window_bytes_new T sent : (forall d, d ∈ sent -> d.1 < T) -> window_bytes T sent = 0.
Proof.
  unfold window_bytes. induction sent as [|d sent IH]; intros H; simpl; [done|].
  rewrite IH by (intros; apply H; by right). specialize (H d ltac:(by left)).
  destruct (Z.leb_spec T d.1); lia.
Qed.

Lemma gated_send_ok limit M t sent d : 0 < limit -> limit + M <= u32_max ->
  meter_ok limit M t sent -> 0 <= d.2 <= M -> bt_bandwidth_window_start t <= d.1 ->
  meter_ok limit M (gated_send (t, sent) d).1 (gated_send (t, sent) d).2 /\
  bt_bandwidth_window_start t <= bt_bandwidth_window_start (gated_send (t, sent) d).1 <= d.1.
Proof.
  intros Hl HM [Hlim Hex Hb Hrec] Hd Hs. unfold gated_send.
  unfold BandwidthThrottle_update_bandwidth_window, duration_since.
  assert (0 < BANDWIDTH_WINDOW) by (vm_compute; done).
  set (t' := (if BANDWIDTH_WINDOW <=? _ then _ else _).2).
  assert (meter_ok limit M t' sent /\
    bt_bandwidth_window_start t <= bt_bandwidth_window_start t' <= d.1 /\
    d.1 - bt_bandwidth_window_start t' < BANDWIDTH_WINDOW) as (Ht & Hst & Hw).
  { unfold t', saturating_sub. destruct (Z.leb_spec BANDWIDTH_WINDOW
      (Z.max 0 (d.1 - bt_bandwidth_window_start t))); simpl.
    - split; [|lia]. split; simpl; [done| |lia|].
      + symmetry. apply window_bytes_new. intros x Hx. specialize (Hrec x Hx). lia.
      + intros x Hx. specialize (Hrec x Hx). lia.
    - split; [by split|]. lia. }
  clearbody t'. destruct Ht as [Hlim' Hex' Hb' Hrec'].
  unfold BandwidthThrottle_can_send_within_bandwidth. rewrite Hlim'.
  destruct (Z.eqb_spec limit 0); [lia|].
  destruct (Z.ltb_spec (bt_bytes_sent_this_window t') limit); simpl; [|by split].
  split; [|done]. unfold BandwidthThrottle_record_bytes_sent, saturating_add32.
  split; simpl; [done| |lia|].
  - rewrite Z.min_r by lia. unfold window_bytes in *. rewrite zsum_app. simpl.
    destruct (Z.leb_spec (bt_bandwidth_window_start t') d.1); lia.
  - intros x Hx. apply elem_of_app in Hx as [Hx| ->%list_elem_of_singleton]; [by apply Hrec'|lia].
Qed.

(** C31: A sender that consults the throttle before each datagram never puts more than the
    limit plus one datagram into a one-second window: the counter of the window is exact, and
    below [limit + M] for datagrams of at most [M] bytes sent at nondecreasing times. *)
Theorem bandwidth_window_bound limit incoming t0 M ds (Hl : 0 < limit) (HM0 : 0 <= M)
  (HM : limit + M <= u32_max) (Hsize : Forall (fun d => 0 <= d.2 <= M) ds)
  (Hsort : Sorted Z.le (t0 :: ds.*1)) :
  let '(t, sent) := gated_sends (BandwidthThrottle_new limit incoming t0, []) ds in
  window_bytes (bt_bandwidth_window_start t) sent = bt_bytes_sent_this_window t /\
  bt_bytes_sent_this_window t < limit + M.
Proof.
  apply Sorted_StronglySorted in Hsort; [|intros x y z; lia].
  apply StronglySorted_inv in Hsort as [Hsort Hall].
  revert Hsize Hsort Hall.
  set (t := BandwidthThrottle_new limit incoming t0).
  assert (meter_ok limit M t []) as Ht by (split; simpl; [done|done|lia|set_solver]).
  change t0 with (bt_bandwidth_window_start t). clearbody t. revert t Ht.
  generalize (@nil (Instant * Z)) as sent.
  induction ds as [|d ds IH]; intros sent t Ht Hsize Hsort Hall; cbn [gated_sends foldl].
  { destruct Ht. split; [done|lia]. }
  inversion_clear Hsize as [|? ? Hd Hsize']. simpl in Hsort, Hall.
  apply StronglySorted_inv in Hsort as [Hsort Hge]. inversion_clear Hall as [|? ? Ht0 Hall'].
  destruct (gated_send_ok limit M t sent d Hl HM Ht Hd Ht0) as [Ht' Hs'].
  destruct (gated_send (t, sent) d) as [t' sent']. simpl in Ht', Hs'.
  apply IH; [done|done|done|]. eapply Forall_impl; [exact Hge|]. simpl. lia.
Qed.

Lemma bandwidth_window_bound_witness :
  let '(t, sent) := gated_sends (BandwidthThrottle_new 100 0 0, [])
                      [(0, 60); (1, 60); (2, 60); (1500000000, 60)] in
  window_bytes (bt_bandwidth_window_start t) sent = bt_bytes_sent_this_window t /\
  bt_bytes_sent_this_window t < 160 /\ sent = [(0, 60); (1, 60); (1500000000, 60)].
Proof.
  pose proof (bandwidth_window_bound 100 0 0 60
    [(0, 60); (1, 60); (2, 60); (1500000000, 60)]) as H.
  destruct H as [H1 H2]; [lia|lia|vm_compute; discriminate|repeat constructor; simpl; lia
    |repeat constructor; simpl; lia|].
  split; [exact H1|]. split; [exact H2|reflexivity].
Defined.
