(* ===== verification/Channel.v ===== *)
(** Channels and their manager: [bitfold-protocol/src/channel.rs]. *)

From S2P Require Import Prelude Core Packet.

Record Channel : Set := mkChannel {
  chan_id : Z;
  chan_delivery : DeliveryGuarantee;
  chan_ordering : OrderingGuarantee
}.
Definition Channel_new := mkChannel.
Definition Channel_unreliable (id : Z) : Channel := Channel_new id Unreliable OrderNone.
Definition Channel_unreliable_sequenced (id : Z) : Channel :=
  Channel_new id Unreliable (Sequenced (Some id)).
Definition Channel_reliable_unordered (id : Z) : Channel := Channel_new id Reliable OrderNone.
Definition Channel_reliable_ordered (id : Z) : Channel :=
  Channel_new id Reliable (Ordered (Some id)).

Definition Channel_id (c : Channel) : Z := chan_id c.
Definition Channel_delivery (c : Channel) : DeliveryGuarantee := chan_delivery c.
Definition Channel_ordering (c : Channel) : OrderingGuarantee := chan_ordering c.

Record ChannelManager : Set := mkChannelManager { cm_channels : list Channel }.
Definition ChannelManager_new (channel_count : Z) : ChannelManager :=
  mkChannelManager (Channel_unreliable <$> seqZ 0 channel_count).
(** [manager.channels[0] = ...]; the index exists. *)
Definition ChannelManager_default_channels : ChannelManager :=
  mkChannelManager (<[0%nat := Channel_reliable_ordered 0]> (cm_channels (ChannelManager_new 1))).
Definition ChannelManager_configure_channel (id : Z) (delivery : DeliveryGuarantee)
  (ordering : OrderingGuarantee) (m : ChannelManager) : ChannelManager :=
  mkChannelManager (alter (fun c => mkChannel (chan_id c) delivery ordering) (Z.to_nat id)
    (cm_channels m)).
Definition ChannelManager_get_channel (id : Z) (m : ChannelManager) : option Channel :=
  cm_channels m !! Z.to_nat id.
Definition ChannelManager_channel_count (m : ChannelManager) : Z :=
  as_u8 (zlen (cm_channels m)).

Definition ChannelManager_channels (m : ChannelManager) : list Channel := cm_channels m.

(** Every channel sits at the index that is its identifier, and there are at most 255. *)
Definition ChannelManager_ok (m : ChannelManager) : Prop :=
  zlen (cm_channels m) < 256 /\
  forall i c, cm_channels m !! i = Some c -> chan_id c = Z.of_nat i.

Lemma ChannelManager_new_ok n : u8_ok n -> ChannelManager_ok (ChannelManager_new n).
Proof.
  intros Hn. split; simpl.
  - unfold zlen. rewrite length_fmap, length_seqZ. unfold u8_ok in Hn. lia.
  - intros i c. rewrite list_lookup_fmap. intros Hi.
    destruct (seqZ 0 n !! i) as [z|] eqn:E; simplify_eq/=.
    apply lookup_seqZ in E as [-> _]. simpl. lia.
Qed.

Lemma ChannelManager_default_ok : ChannelManager_ok ChannelManager_default_channels.
Proof.
  split; [done|]. intros [|i] c H; simplify_eq/=; done.
Qed.

Lemma configure_channel_ok id d o m : ChannelManager_ok m ->
  ChannelManager_ok (ChannelManager_configure_channel id d o m).
Proof.
  intros [Hl Hi]. split; simpl.
  - unfold zlen. by rewrite length_alter.
  - intros i c. destruct (decide (i = Z.to_nat id)) as [->|Hne].
    + rewrite list_lookup_alter_eq. intros (c' & Hc & ->)%fmap_Some. by apply Hi in Hc.
    + rewrite list_lookup_alter_ne by done. apply Hi.
Qed.

Lemma configure_channel_get id id' d o m : 0 <= id -> 0 <= id' ->
  ChannelManager_get_channel id' (ChannelManager_configure_channel id d o m) =
  (fun c => if id' =? id then mkChannel (chan_id c) d o else c)
    <$> ChannelManager_get_channel id' m.
Proof.
  intros. unfold ChannelManager_get_channel. simpl.
  destruct (Z.eqb_spec id' id) as [->|Hne].
  - by rewrite list_lookup_alter_eq.
  - rewrite list_lookup_alter_ne by lia. by destruct (_ !! _).
Qed.

(** Configuring never adds a channel: an identifier out of range is ignored. *)
Lemma configure_channel_count id d o m :
  ChannelManager_channel_count (ChannelManager_configure_channel id d o m)
  = ChannelManager_channel_count m.
Proof. unfold ChannelManager_channel_count, zlen. simpl. by rewrite length_alter. Qed.
