(* ===== verification/ChannelState.v ===== *)
(** Ordered and sequenced delivery per channel: [bitfold-peer/src/channel_state.rs]. *)

From S2P Require Import Prelude Buffers.

Record ChannelState : Set := mkChannelState {
  cs_expected_sequence : Z;
  cs_buffered_packets : gmap Z SharedBytes;
  cs_latest_sequence : Z
}.

Definition ChannelState_new : ChannelState := mkChannelState 0 ∅ 0.

(** The [while let] loop: each round removes one buffered packet, so one more round than
    there are packets is enough. *)
Fixpoint deliver_consecutive (fuel : nat) (st : ChannelState) (ready : list SharedBytes)
  : list SharedBytes * ChannelState :=
  match fuel with
  | O => (ready, st)
  | S fuel =>
      match cs_buffered_packets st !! cs_expected_sequence st with
      | Some packet_data =>
          deliver_consecutive fuel
            (mkChannelState (wrapping_add16 (cs_expected_sequence st) 1)
               (delete (cs_expected_sequence st) (cs_buffered_packets st))
               (cs_latest_sequence st))
            (ready ++ [packet_data])
      | None => (ready, st)
      end
  end.

Definition ChannelState_process_ordered (sequence : Z) (data : SharedBytes) (st : ChannelState)
  : list SharedBytes * ChannelState :=
  let buffered := <[sequence := data]> (cs_buffered_packets st) in
  deliver_consecutive (S (size buffered))
    (mkChannelState (cs_expected_sequence st) buffered (cs_latest_sequence st)) [].

Definition ChannelState_process_sequenced (sequence : Z) (data : SharedBytes)
  (st : ChannelState) : option SharedBytes * ChannelState :=
  let is_newer := wrapping_sub16 sequence (cs_latest_sequence st) <? 32768 in
  if is_newer || (sequence =? 0)
  then (Some data, mkChannelState (cs_expected_sequence st) (cs_buffered_packets st) sequence)
  else (None, st).

(* ------------------------------------------------------------------ *)
(** ** Ordered delivery of a stream                                     *)
(* ------------------------------------------------------------------ *)

Section Stream.
(** The sender's stream: message [i] is sent with sequence [i mod 65536]. *)
Variable msgs : Z -> SharedBytes.

(** [k] messages are delivered and the set [P] of later ones is buffered. *)
Record holds (st : ChannelState) (k : Z) (P : gset Z) : Prop := {
  hd_expected : cs_expected_sequence st = as_u16 k;
  hd_window i : i ∈ P -> k <= i < k + 65536;
  hd_buffered s x : cs_buffered_packets st !! s = Some x <->
    exists i, i ∈ P /\ s = as_u16 i /\ x = msgs i
}.

Lemma as_u16_window k i j : k <= i < k + 65536 -> k <= j < k + 65536 ->
  as_u16 i = as_u16 j -> i = j.
Proof. int_solve. Qed.

Lemma holds_insert st k P i : holds st k P -> k <= i < k + 65536 ->
  holds (mkChannelState (cs_expected_sequence st)
           (<[as_u16 i := msgs i]> (cs_buffered_packets st)) (cs_latest_sequence st))
        k ({[i]} ∪ P).
Proof.
  intros [He Hw Hb] Hi. split; simpl; [done|set_solver|]. intros s x.
  rewrite lookup_insert_Some, Hb. split.
  - intros [[<- <-]|(Hne & j & Hj & -> & ->)]; [exists i|exists j]; set_solver.
  - intros (j & Hj & -> & ->). destruct (decide (j = i)) as [->|Hne]; [by left|right].
    assert (j ∈ P) as HjP by set_solver. split; [|by exists j].
    intros E. apply Hne. symmetry. by apply (as_u16_window k); [| apply Hw|].
Qed.

Lemma holds_deliver st k P : holds st k P -> k ∈ P ->
  cs_buffered_packets st !! cs_expected_sequence st = Some (msgs k) /\
  holds (mkChannelState (wrapping_add16 (cs_expected_sequence st) 1)
           (delete (cs_expected_sequence st) (cs_buffered_packets st)) (cs_latest_sequence st))
        (k + 1) (P ∖ {[k]}).
Proof.
  intros [He Hw Hb] Hk. split; [apply Hb; by exists k|]. split; simpl.
  - rewrite He. int_solve.
  - intros i Hi. assert (i ∈ P /\ i <> k) as [Hi' Hne] by set_solver. apply Hw in Hi'. lia.
  - intros s x. rewrite lookup_delete_Some, Hb, He. split.
    + intros (Hne & i & Hi & -> & ->). exists i. set_solver.
    + intros (i & Hi & -> & ->). assert (i ∈ P /\ i <> k) as [Hi' Hne] by set_solver.
      split; [|by exists i]. intros E. apply Hne. symmetry.
      by apply (as_u16_window k); [apply Hw|apply Hw|].
Qed.

Lemma holds_stop st k P : holds st k P -> k ∉ P ->
  cs_buffered_packets st !! cs_expected_sequence st = None.
Proof.
  intros [He Hw Hb] Hk. destruct (_ !! _) as [x|] eqn:E; [|done].
  apply Hb in E as (i & Hi & E & _). rewrite He in E.
  pose proof (Hw i Hi). assert (k = i) as <- by (apply (as_u16_window k); lia || done). done.
Qed.

(** The loop delivers the consecutive run and stops at the first gap. *)
Lemma deliver_consecutive_spec fuel st ready k P : holds st k P ->
  (size (cs_buffered_packets st) < fuel)%nat ->
  exists k' st' P', k <= k' /\
    deliver_consecutive fuel st ready = (ready ++ (msgs <$> seqZ k (k' - k)), st') /\
    holds st' k' P' /\ (k' ∉ P') /\
    (forall i, i ∈ P <-> i ∈ P' \/ k <= i < k').
Proof.
  revert st ready k P. induction fuel as [|fuel IH]; intros st ready k P Hh Hf; [lia|].
  cbn [deliver_consecutive]. destruct (decide (k ∈ P)) as [Hk|Hk].
  - destruct (holds_deliver _ _ _ Hh Hk) as [E Hh']. rewrite E.
    edestruct IH as (k' & st' & P' & Hle & -> & Hh'' & Hgap & HP); [exact Hh'| |].
    { cbn [cs_buffered_packets]. rewrite map_size_delete_Some by (by eexists).
      assert (size (cs_buffered_packets st) <> 0%nat); [|lia].
      apply map_size_ne_0_lookup. by eexists _, _. }
    exists k', st', P'. split; [lia|]. split.
    { rewrite <-app_assoc. simpl. rewrite (seqZ_cons k) by lia.
      cbn [fmap list_fmap]. by replace (Z.pred (k' - k)) with (k' - (k + 1)) by lia. }
    split; [done|]. split; [done|]. intros i. specialize (HP i).
    destruct (decide (i = k)) as [->|Hne]; [|].
    2: { rewrite elem_of_difference, elem_of_singleton in HP. destruct HP as [HP1 HP2]. split.
         - intros Hi. destruct (HP1 (conj Hi Hne)) as [?|?]; [by left|right; lia].
         - intros [?|?]; apply HP2; [by left|right; lia]. }
    split; [right; lia|done].
  - rewrite (holds_stop _ _ _ Hh Hk). exists k, st, P. rewrite Z.sub_diag. simpl.
    rewrite app_nil_r. split_and!; [lia|done|done|done|]. intros i. split; [by left|].
    intros [?|?]; [done|lia].
Qed.

Lemma process_ordered_spec st k P i : holds st k P -> k <= i < k + 65536 ->
  exists k' st' P', k <= k' /\
    ChannelState_process_ordered (as_u16 i) (msgs i) st = (msgs <$> seqZ k (k' - k), st') /\
    holds st' k' P' /\ (k' ∉ P') /\
    (forall j, j ∈ P \/ j = i <-> j ∈ P' \/ k <= j < k').
Proof.
  intros Hh Hi. unfold ChannelState_process_ordered.
  destruct (deliver_consecutive_spec (S (size (<[as_u16 i := msgs i]> (cs_buffered_packets st))))
    _ [] k _ (holds_insert _ _ _ _ Hh Hi)) as (k' & st' & P' & Hle & E & Hh' & Hg & HP).
  { simpl. lia. }
  exists k', st', P'. split; [done|]. split; [exact E|]. split; [done|]. split; [done|].
  intros j. rewrite <-HP. set_solver.
Qed.

(** Feeding the arrivals, the indices of stream messages, and collecting the deliveries. *)
Definition receive_ordered (acc : list SharedBytes * ChannelState) (i : Z)
  : list SharedBytes * ChannelState :=
  let '(ready, st) := ChannelState_process_ordered (as_u16 i) (msgs i) acc.2 in
  (acc.1 ++ ready, st).

(** No message arrives twice, and none arrives 65536 or more ahead of a missing one. *)
Definition admissible (arrivals : list Z) : Prop :=
  NoDup arrivals /\
  forall pre i post, arrivals = pre ++ i :: post ->
    0 <= i /\ forall j, 0 <= j <= i - 65536 -> j ∈ pre.

Lemma receive_ordered_spec arrivals : admissible arrivals ->
  exists k st P, foldl receive_ordered ([], ChannelState_new) arrivals
                 = (msgs <$> seqZ 0 k, st) /\
    0 <= k /\ holds st k P /\ (k ∉ P) /\
    forall j, 0 <= j -> (j ∈ arrivals <-> j ∈ P \/ j < k).
Proof.
  induction arrivals as [|i pre IH] using rev_ind; intros [Hnd Hadm].
  - exists 0, ChannelState_new, ∅. split_and!; [done|done| |set_solver|].
    + split; [done|set_solver|]. simpl. intros s x. rewrite lookup_empty. set_solver.
    + intros j Hj. split; [set_solver|]. intros [?|?]; [set_solver|lia].
  - apply NoDup_app in Hnd as (Hnd & Hfresh & _).
    destruct IH as (k & st & P & E & Hk & Hh & Hg & Hmem).
    { split; [done|]. intros p j q ->. apply (Hadm p j (q ++ [i])). by rewrite <-app_assoc. }
    destruct (Hadm pre i [] eq_refl) as [Hi Hwin].
    assert (k <= i < k + 65536) as Hwi.
    { assert (i ∉ pre) as Hni by (intros H; apply (Hfresh i H); by left).
      rewrite (Hmem i Hi) in Hni.
      assert (k ∉ pre) as Hkn by (rewrite Hmem by done; intros [?|?]; [done|lia]).
      destruct (decide (i < k)) as [?|?]; [destruct Hni; by right|].
      destruct (decide (k + 65536 <= i)); [|lia]. destruct Hkn. apply Hwin. lia. }
    destruct (process_ordered_spec st k P i Hh Hwi) as (k' & st' & P' & Hle & E' & Hh' & Hg' & HP).
    exists k', st', P'. rewrite foldl_app, E. cbn [foldl]. unfold receive_ordered. cbn [fst snd].
    rewrite E'. split_and!; [|lia|done|done|].
    + rewrite <-fmap_app. do 2 f_equal.
      replace k' with (k + (k' - k)) at 2 by lia. by rewrite seqZ_app by lia.
    + intros j Hj. rewrite elem_of_app, list_elem_of_singleton, (Hmem j Hj).
      specialize (HP j). destruct (decide (j < k)); [intuition lia|].
      assert ((j ∈ P \/ j < k) \/ j = i <-> j ∈ P \/ j = i) as -> by (intuition lia).
      rewrite HP. intuition lia.
Qed.

(** C22: Ordered delivery.  Whatever the order in which the messages of a stream of any length
    arrive (each at most once, none a whole numbering ahead of a gap), the channel delivers
    exactly the messages before the first missing one, each once and in order, across the
    wrap of the 16-bit sequence numbers. *)
Theorem ordered_delivery arrivals (Hadm : admissible arrivals) :
  exists k st, foldl receive_ordered ([], ChannelState_new) arrivals
               = (msgs <$> seqZ 0 k, st) /\
    0 <= k /\ (k ∉ arrivals) /\ (forall j, 0 <= j < k -> j ∈ arrivals).
Proof.
  destruct (receive_ordered_spec arrivals Hadm) as (k & st & P & E & Hk & _ & Hg & Hmem).
  exists k, st. split_and!; [done|done| |].
  - rewrite Hmem by done. intros [?|?]; [done|lia].
  - intros j Hj. rewrite Hmem by lia. right. lia.
Qed.

End Stream.

Lemma admissible_small arrivals : NoDup arrivals ->
  Forall (fun i => 0 <= i < 65536) arrivals -> admissible arrivals.
Proof.
  intros Hnd Hall. split; [done|]. intros pre i post ->.
  apply Forall_app in Hall as [_ Hall]. inversion_clear Hall. split; [lia|]. intros j Hj. lia.
Qed.

Lemma ordered_delivery_witness :
  let msgs i := SharedBytes_from_vec [i] in
  (foldl (receive_ordered msgs) ([], ChannelState_new) [2; 0; 1; 5]).1
    = msgs <$> [0; 1; 2] /\ admissible [2; 0; 1; 5].
Proof.
  assert (admissible [2; 0; 1; 5]) as Ha.
  { apply admissible_small; [|repeat constructor; lia]. apply (bool_decide_unpack _). by compute. }
  split; [|exact Ha].
  destruct (ordered_delivery (fun i => SharedBytes_from_vec [i]) [2; 0; 1; 5] Ha)
    as (k & st & E & Hk & Hno & Hall).
  rewrite E. cbn [fst]. assert (k = 3) as ->; [|reflexivity].
  assert (3 ∉ [2; 0; 1; 5]) by (apply (bool_decide_unpack _); by compute).
  destruct (decide (3 < k)); [destruct H; apply Hall; lia|].
  assert (k <> 0 /\ k <> 1 /\ k <> 2) by (split_and!; intros ->; apply Hno; set_solver). lia.
Defined.

(** A duplicate of a message already delivered is not dropped: it stays buffered, and is
    delivered in place of the message a whole numbering later. *)
Example stale_duplicate_buffered :
  let st := (ChannelState_process_ordered 0 (SharedBytes_from_vec [7]) ChannelState_new).2 in
  let st := (ChannelState_process_ordered 0 (SharedBytes_from_vec [7]) st).2 in
  cs_expected_sequence st = 1 /\
  cs_buffered_packets st !! 0 = Some (SharedBytes_from_vec [7]).
Proof. by vm_compute. Qed.

(** [process_sequenced] delivers a message exactly when it is within half of the numbering
    ahead of the latest one, with one exception: sequence 0 is always delivered. *)
Lemma process_sequenced_spec s d st :
  u16_ok s -> u16_ok (cs_latest_sequence st) ->
  ((ChannelState_process_sequenced s d st).1 = Some d <->
     wrapping_sub16 s (cs_latest_sequence st) < 32768 \/ s = 0).
Proof.
  intros. unfold ChannelState_process_sequenced. destruct (_ || _) eqn:E; simpl.
  - split; [|done]. intros _. lia.
  - split; [done|]. lia.
Qed.

Example sequenced_zero_is_never_old :
  (ChannelState_process_sequenced 0 (SharedBytes_from_vec [1]) (mkChannelState 0 ∅ 100)).1
  = Some (SharedBytes_from_vec [1]).
Proof. by vm_compute. Qed.
