(* ===== verification/FragmentBuffer.v ===== *)
(** Reassembly of fragmented messages: [bitfold-peer/src/fragment_buffer.rs]. *)

From S2P Require Import Prelude.

Record CommandFragmentBuffer : Set := mkCommandFragmentBuffer {
  fb_channel_id : Z;
  fb_fragment_count : Z;
  fb_ordered : bool;
  fb_fragments : gmap Z (list Z);
  fb_created_at : Instant
}.

Definition CommandFragmentBuffer_new (channel_id fragment_count : Z) (ordered : bool)
  (created_at : Instant) : CommandFragmentBuffer :=
  mkCommandFragmentBuffer channel_id fragment_count ordered ∅ created_at.
Definition CommandFragmentBuffer_channel_id (b : CommandFragmentBuffer) : Z := fb_channel_id b.
Definition CommandFragmentBuffer_is_ordered (b : CommandFragmentBuffer) : bool := fb_ordered b.
Definition CommandFragmentBuffer_created_at (b : CommandFragmentBuffer) : Instant :=
  fb_created_at b.

Definition CommandFragmentBuffer_add_fragment (fragment_id : Z) (data : list Z)
  (b : CommandFragmentBuffer) : CommandFragmentBuffer :=
  mkCommandFragmentBuffer (fb_channel_id b) (fb_fragment_count b) (fb_ordered b)
    (<[fragment_id := data]> (fb_fragments b)) (fb_created_at b).

Definition CommandFragmentBuffer_is_complete (b : CommandFragmentBuffer) : bool :=
  Z.of_nat (size (fb_fragments b)) =? fb_fragment_count b.

(** The [for] loop of [reassemble]. *)
Fixpoint reassemble_loop (ids : list Z) (fragments : gmap Z (list Z)) (result : list Z)
  : option (list Z) :=
  match ids with
  | [] => Some result
  | fragment_id :: ids =>
      match fragments !! fragment_id with
      | Some data => reassemble_loop ids (delete fragment_id fragments) (result ++ data)
      | None => None
      end
  end.

Definition CommandFragmentBuffer_reassemble (b : CommandFragmentBuffer) : option (list Z) :=
  if negb (CommandFragmentBuffer_is_complete b) then None
  else reassemble_loop (seqZ 0 (fb_fragment_count b)) (fb_fragments b) [].

Definition FRAGMENT_TIMEOUT : Duration := from_secs 5.

(** The stale sequences are collected first and removed afterwards. *)
Definition cleanup_stale_fragments (command_fragments : gmap Z CommandFragmentBuffer)
  (time : Instant) : gmap Z CommandFragmentBuffer :=
  let stale_sequences :=
    omap (fun p : Z * CommandFragmentBuffer =>
      if FRAGMENT_TIMEOUT <? duration_since time (CommandFragmentBuffer_created_at p.2)
      then Some p.1 else None) (map_to_list command_fragments) in
  foldl (fun m seq => delete seq m) command_fragments stale_sequences.

(* ------------------------------------------------------------------ *)
(** ** Reassembly                                                       *)
(* ------------------------------------------------------------------ *)

Lemma reassemble_loop_spec (chunks : list (list Z)) k m acc :
  (forall i, (i < length chunks)%nat -> m !! (k + Z.of_nat i) = chunks !! i) ->
  reassemble_loop (seqZ k (zlen chunks)) m acc = Some (acc ++ concat chunks).
Proof.
  revert k m acc. induction chunks as [|c chunks IH]; intros k m acc Hm.
  - simpl. by rewrite app_nil_r.
  - rewrite zlen_cons, seqZ_cons by (pose proof (zlen_nonneg chunks); lia).
    cbn [reassemble_loop concat]. rewrite <-(Z.add_0_r k) at 1.
    change 0 with (Z.of_nat 0). rewrite Hm by (simpl; lia). cbn [lookup list_lookup].
    replace (Z.pred (1 + zlen chunks)) with (zlen chunks) by lia.
    rewrite IH; [by rewrite app_assoc|]. intros i Hi.
    rewrite lookup_delete_ne by lia.
    replace (Z.succ k + Z.of_nat i) with (k + Z.of_nat (S i)) by lia.
    rewrite Hm by (simpl; lia). done.
Qed.

(** The fragments of [chunks] received so far. *)
Definition fragment_of (chunks : list (list Z)) (i : Z) : list Z :=
  default [] (chunks !! Z.to_nat i).
Definition add_all (chunks : list (list Z)) (b : CommandFragmentBuffer) (ids : list Z)
  : CommandFragmentBuffer :=
  foldl (fun b i => CommandFragmentBuffer_add_fragment i (fragment_of chunks i) b) b ids.

Lemma add_all_fragments chunks ids b i :
  fb_fragments (add_all chunks b ids) !! i =
  if decide (i ∈ ids) then Some (fragment_of chunks i) else fb_fragments b !! i.
Proof.
  unfold add_all. induction ids as [|j ids IH] using rev_ind; cbn [foldl].
  - by rewrite decide_False by set_solver.
  - rewrite foldl_app. cbn [foldl CommandFragmentBuffer_add_fragment fb_fragments]. destruct (decide (i = j)) as [->|Hne].
    + rewrite lookup_insert_eq. by rewrite decide_True by set_solver.
    + rewrite lookup_insert_ne, IH by done. destruct (decide (i ∈ ids)).
      * by rewrite decide_True by set_solver.
      * by rewrite decide_False by set_solver.
Qed.

Lemma add_all_count chunks ids b : fb_fragment_count (add_all chunks b ids) = fb_fragment_count b.
Proof.
  unfold add_all. revert b. induction ids as [|j ids IH]; intros b; [done|]. simpl. by rewrite IH.
Qed.

(** The number of distinct fragments received decides completeness. *)
Lemma add_all_complete chunks ids ch o t :
  Forall (fun i => 0 <= i < zlen chunks) ids ->
  let b := add_all chunks (CommandFragmentBuffer_new ch (zlen chunks) o t) ids in
  CommandFragmentBuffer_is_complete b = true <->
  forall i, 0 <= i < zlen chunks -> i ∈ ids.
Proof.
  intros Hids b. unfold CommandFragmentBuffer_is_complete, b. rewrite add_all_count.
  cbn [CommandFragmentBuffer_new fb_fragment_count]. fold b.
  assert (size (fb_fragments b) = size (list_to_set ids : gset Z)) as ->.
  { rewrite <-size_dom. f_equal. apply set_eq. intros i.
    rewrite elem_of_dom, elem_of_list_to_set. unfold b. rewrite add_all_fragments.
    case_decide; simpl; split; try done. by intros [? ?]. }
  set (full := list_to_set (seqZ 0 (zlen chunks)) : gset Z).
  assert (size full = length chunks) as Hfull.
  { unfold full. rewrite size_list_to_set by apply NoDup_seqZ.
    rewrite length_seqZ. unfold zlen. lia. }
  assert (forall i, i ∈ full <-> 0 <= i < zlen chunks) as Hin.
  { intros i. unfold full. rewrite elem_of_list_to_set, elem_of_seqZ. lia. }
  assert ((list_to_set ids : gset Z) ⊆ full) as Hsub.
  { intros i. rewrite elem_of_list_to_set, Hin. intros Hi. by eapply Forall_forall in Hids. }
  rewrite Z.eqb_eq. unfold zlen at 1. split.
  - intros Hsz i Hi. apply Hin in Hi.
    rewrite <-(set_subseteq_size_eq _ full Hsub) in Hi by lia.
    by apply elem_of_list_to_set in Hi.
  - intros Hall. assert ((list_to_set ids : gset Z) = full) as ->.
    { apply set_eq. intros i. rewrite Hin, elem_of_list_to_set. split; [|apply Hall].
      intros Hi. by eapply Forall_forall in Hids. }
    lia.
Qed.

Lemma reassemble_all chunks ids ch o t : Forall (fun i => 0 <= i < zlen chunks) ids ->
  (forall i, 0 <= i < zlen chunks -> i ∈ ids) ->
  CommandFragmentBuffer_reassemble
    (add_all chunks (CommandFragmentBuffer_new ch (zlen chunks) o t) ids) = Some (concat chunks).
Proof.
  intros Hids Hall. pose proof (add_all_complete chunks ids ch o t Hids) as Hc. cbn zeta in Hc.
  unfold CommandFragmentBuffer_reassemble. pose proof Hall as Hin. apply Hc in Hall as ->.
  simpl. rewrite add_all_count.
  apply reassemble_loop_spec. intros i Hi. rewrite add_all_fragments.
  rewrite decide_True by (apply Hin; unfold zlen; lia). unfold fragment_of.
  replace (Z.to_nat (0 + Z.of_nat i)) with i by lia.
  destruct (lookup_lt_is_Some_2 chunks i Hi) as [c ->]. done.
Qed.

(** C23: Reassembly.  Once fragments of a message split in [n] chunks, all numbered below [n], have
    arrived in any order and with any duplicates, the buffer reports itself complete exactly when
    every chunk has arrived, and then it yields the chunks concatenated in order; otherwise it
    yields nothing. *)
Theorem reassemble_exact chunks ids ch o t
  (Hids : Forall (fun i => 0 <= i < zlen chunks) ids) :
  let b := add_all chunks (CommandFragmentBuffer_new ch (zlen chunks) o t) ids in
  (CommandFragmentBuffer_is_complete b = true <-> forall i, 0 <= i < zlen chunks -> i ∈ ids) /\
  ((forall i, 0 <= i < zlen chunks -> i ∈ ids) ->
     CommandFragmentBuffer_reassemble b = Some (concat chunks)) /\
  (~ (forall i, 0 <= i < zlen chunks -> i ∈ ids) ->
     CommandFragmentBuffer_reassemble b = None).
Proof.
  intros b. pose proof (add_all_complete chunks ids ch o t Hids) as Hc. fold b in Hc. cbn zeta in Hc.
  split; [exact Hc|]. split; [by apply reassemble_all|]. intros Hall.
  unfold CommandFragmentBuffer_reassemble.
  destruct (CommandFragmentBuffer_is_complete b); [|done]. destruct Hall. by apply Hc.
Qed.

Lemma reassemble_exact_witness :
  let chunks := [[1; 2]; [3; 4]; [5]] in
  CommandFragmentBuffer_reassemble
    (add_all chunks (CommandFragmentBuffer_new 0 3 true 0) [2; 0; 2; 1]) = Some [1; 2; 3; 4; 5]
  /\ CommandFragmentBuffer_reassemble
    (add_all chunks (CommandFragmentBuffer_new 0 3 true 0) [2; 0; 2]) = None
  /\ CommandFragmentBuffer_is_complete
    (add_all chunks (CommandFragmentBuffer_new 0 3 true 0) [2; 0; 2]) <> true.
Proof.
  intros chunks.
  split_and!.
  - apply (reassemble_exact chunks [2; 0; 2; 1] 0 true 0).
    + repeat constructor; unfold zlen; simpl; lia.
    + unfold zlen. simpl. intros i Hi. assert (i = 0 \/ i = 1 \/ i = 2) by lia. set_solver.
  - apply (reassemble_exact chunks [2; 0; 2] 0 true 0).
    + repeat constructor; unfold zlen; simpl; lia.
    + unfold zlen. simpl. intros H. specialize (H 1 ltac:(lia)). set_solver.
  - assert (Forall (fun i => 0 <= i < zlen chunks) [2; 0; 2]) as Hids
      by (repeat constructor; unfold zlen; simpl; lia).
    intros Hc. pose proof (proj1 (proj1 (reassemble_exact chunks [2; 0; 2] 0 true 0 Hids)) Hc 1
      ltac:(unfold zlen; simpl; lia)). set_solver.
Defined.

(** A buffer that stays incomplete is dropped exactly when it is older than the timeout. *)
Lemma cleanup_stale_fragments_lookup m time s :
  cleanup_stale_fragments m time !! s =
  match m !! s with
  | Some b => if FRAGMENT_TIMEOUT <? duration_since time (fb_created_at b) then None else Some b
  | None => None
  end.
Proof.
  unfold cleanup_stale_fragments.
  set (stale := omap _ _).
  assert (forall s, s ∈ stale <-> exists b, m !! s = Some b /\
    (FRAGMENT_TIMEOUT <? duration_since time (fb_created_at b)) = true) as Hst.
  { intros k. unfold stale. rewrite list_elem_of_omap. split.
    - intros ([k' b] & Hb%elem_of_map_to_list & E). simpl in E.
      unfold CommandFragmentBuffer_created_at in E. case_match; simplify_eq. by exists b.
    - intros (b & Hb & E). exists (k, b). rewrite elem_of_map_to_list. split; [done|].
      simpl. unfold CommandFragmentBuffer_created_at. by rewrite E. }
  assert (forall l (m' : gmap Z CommandFragmentBuffer) k,
    foldl (fun m seq => delete seq m) m' l !! k = if decide (k ∈ l) then None else m' !! k) as Hf.
  { intros l. induction l as [|x l IH]; intros m' k; cbn [foldl]; [by rewrite decide_False by set_solver|].
    rewrite IH. destruct (decide (k ∈ l)); [by rewrite decide_True by set_solver|].
    destruct (decide (k = x)) as [->|Hne].
    - rewrite lookup_delete_eq. by rewrite decide_True by set_solver.
    - rewrite lookup_delete_ne by done. by rewrite decide_False by set_solver. }
  rewrite Hf. destruct (decide (s ∈ stale)) as [Hs|Hs].
  - apply Hst in Hs as (b & -> & ->). done.
  - destruct (m !! s) as [b|] eqn:E; [|done]. destruct (_ <? _) eqn:E'; [|done].
    destruct Hs. apply Hst. by exists b.
Qed.
