(* ===== verification/Unsequenced.v ===== *)
(** Duplicate detection of unsequenced groups in a 1024-bit sliding window:
    [bitfold-peer/src/unsequenced.rs]. *)

From S2P Require Import Prelude.

Record UnsequencedState : Set := mkUnsequencedState {
  us_incoming_unsequenced_group : Z;
  us_unsequenced_window : list Z;
  us_outgoing_unsequenced_group : Z
}.

Definition UnsequencedState_new : UnsequencedState :=
  mkUnsequencedState 0 (replicate 32 0) 0.

Definition UnsequencedState_default : UnsequencedState := UnsequencedState_new.
Definition UnsequencedState_incoming_group (s : UnsequencedState) : Z :=
  us_incoming_unsequenced_group s.
Definition UnsequencedState_outgoing_group (s : UnsequencedState) : Z :=
  us_outgoing_unsequenced_group s.

Definition UnsequencedState_next_outgoing_group (s : UnsequencedState) : Z * UnsequencedState :=
  (us_outgoing_unsequenced_group s,
   mkUnsequencedState (us_incoming_unsequenced_group s) (us_unsequenced_window s)
     (wrapping_add16 (us_outgoing_unsequenced_group s) 1)).

(** [self.unsequenced_window[i]]; every index the source uses is below 32. *)
Definition word (w : list Z) (i : nat) : Z := default 0 (w !! i).

Definition UnsequencedState_is_duplicate (group : Z) (s : UnsequencedState) : bool :=
  let w := us_unsequenced_window s in
  if forallb (fun x => x =? 0) w then false
  else
    let offset := wrapping_sub16 group (us_incoming_unsequenced_group s) in
    if (offset <? 1024) && (offset / 32 <? 32) then
      negb (Z.land (word w (Z.to_nat (offset / 32))) (Z.shiftl 1 (offset mod 32)) =? 0)
    else 32768 <? offset.

(** [for i in a..a+n { w[i] = f(w, i) }]. *)
Definition for_update (f : list Z -> nat -> Z) (a n : nat) (w : list Z) : list Z :=
  foldl (fun w i => <[i := f w i]> w) w (seq a n).

(** The shift of the window by [advance] bits. *)
Definition shift_window (advance : Z) (w : list Z) : list Z :=
  let word_shift := Z.to_nat (advance / 32) in
  let bit_shift := advance mod 32 in
  let w :=
    if (0 <? word_shift)%nat then
      if (32 <=? word_shift)%nat then replicate 32 0
      else for_update (fun _ _ => 0) (32 - word_shift) word_shift
             (for_update (fun w i => word w (i + word_shift)) 0 (32 - word_shift) w)
    else w in
  if (0 <? bit_shift) && (word_shift <? 32)%nat then
    let w := for_update (fun w i => Z.lor (Z.shiftr (word w i) bit_shift)
                                    (as_u32 (Z.shiftl (word w (i + 1)) (32 - bit_shift)))) 0 31 w in
    <[31%nat := Z.shiftr (word w 31) bit_shift]> w
  else w.

Definition UnsequencedState_mark_received (group : Z) (s : UnsequencedState)
  : UnsequencedState :=
  let offset := wrapping_sub16 group (us_incoming_unsequenced_group s) in
  let '(base, w) :=
    if (1024 <=? offset) && (offset <=? 32768) then
      let advance := saturating_sub offset 512 in
      (wrapping_add16 (us_incoming_unsequenced_group s) advance,
       shift_window advance (us_unsequenced_window s))
    else (us_incoming_unsequenced_group s, us_unsequenced_window s) in
  let final_offset := wrapping_sub16 group base in
  let w :=
    if (final_offset <? 1024) && (final_offset / 32 <? 32) then
      let word_index := Z.to_nat (final_offset / 32) in
      <[word_index := Z.lor (word w word_index) (Z.shiftl 1 (final_offset mod 32))]> w
    else w in
  mkUnsequencedState base w (us_outgoing_unsequenced_group s).

(* ------------------------------------------------------------------ *)
(** ** The window as a set of bits                                      *)
(* ------------------------------------------------------------------ *)

Definition window_ok (w : list Z) : Prop := length w = 32%nat /\ Forall u32_ok w.

(** Bit [p] of the window, [0 <= p < 1024]. *)
Definition bit (w : list Z) (p : Z) : bool := Z.testbit (word w (Z.to_nat (p / 32))) (p mod 32).

Lemma for_update_lookup f a n w j :
  (forall w' i, (forall j, (i <= j)%nat -> w' !! j = w !! j) -> f w' i = f w i) ->
  for_update f a n w !! j =
  if decide ((a <= j < a + n)%nat /\ (j < length w)%nat) then Some (f w j) else w !! j.
Proof.
  intros Hf. unfold for_update.
  assert (forall n, length (foldl (fun w i => <[i := f w i]> w) w (seq a n)) = length w) as Hlen.
  { clear. intros n. induction n as [|n IH]; [done|].
    rewrite seq_S, foldl_app. simpl. by rewrite length_insert. }
  revert j. induction n as [|n IH]; intros j.
  - simpl. rewrite decide_False by lia. done.
  - rewrite seq_S, foldl_app. cbn [foldl].
    set (w' := foldl _ w (seq a n)) in *.
    assert (length w' = length w) as Hl by apply Hlen.
    assert (f w' (a + n)%nat = f w (a + n)%nat) as ->.
    { apply Hf. intros k Hk. rewrite IH, decide_False by lia. done. }
    destruct (decide (j = (a + n)%nat)) as [->|Hne].
    + destruct (decide (a + n < length w)%nat).
      * rewrite list_lookup_insert_eq by (rewrite Hl; lia). by rewrite decide_True by lia.
      * rewrite list_insert_ge by (rewrite Hl; lia). rewrite IH.
        by rewrite !decide_False by lia.
    + rewrite list_lookup_insert_ne, IH by done.
      destruct (decide ((a <= j < a + n)%nat /\ _)).
      * by rewrite decide_True by lia.
      * by rewrite decide_False by lia.
Qed.

Lemma for_update_length f a n w : length (for_update f a n w) = length w.
Proof.
  unfold for_update. induction n as [|n IH]; [done|].
  rewrite seq_S, foldl_app. simpl. by rewrite length_insert.
Qed.

Lemma word_for_update f a n w j :
  (forall w' i, (forall j, (i <= j)%nat -> w' !! j = w !! j) -> f w' i = f w i) ->
  (a + n <= length w)%nat ->
  word (for_update f a n w) j = if decide (a <= j < a + n)%nat then f w j else word w j.
Proof.
  intros Hf Hn. unfold word at 1. rewrite for_update_lookup by done.
  destruct (decide (a <= j < a + n)%nat).
  - by rewrite decide_True by lia.
  - by rewrite decide_False by lia.
Qed.

Lemma word_out w j : (length w <= j)%nat -> word w j = 0.
Proof. intros H. unfold word. by rewrite lookup_ge_None_2. Qed.
Lemma word_insert w i x j : (i < length w)%nat ->
  word (<[i := x]> w) j = if decide (j = i) then x else word w j.
Proof.
  intros Hi. unfold word. destruct (decide (j = i)) as [->|Hne].
  - by rewrite list_lookup_insert_eq.
  - by rewrite list_lookup_insert_ne.
Qed.
Lemma word_ok w j : Forall u32_ok w -> u32_ok (word w j).
Proof.
  intros Hw. unfold word. destruct (w !! j) eqn:E; simpl; [|unfold u32_ok; lia].
  by eapply Forall_lookup in Hw.
Qed.

(** Words after the whole-word part of the shift. *)
Lemma words_shift ws w j : length w = 32%nat -> (0 < ws < 32)%nat ->
  word (for_update (fun _ _ => 0) (32 - ws) ws
         (for_update (fun w i => word w (i + ws)) 0 (32 - ws) w)) j = word w (j + ws).
Proof.
  intros Hw Hws. rewrite word_for_update; [|done|rewrite for_update_length; lia].
  rewrite word_for_update; [|intros w' i Hi; unfold word; rewrite Hi by lia; done|lia].
  destruct (decide (32 - ws <= j < 32 - ws + ws)%nat); [by rewrite word_out by lia|].
  destruct (decide (0 <= j < 0 + (32 - ws))%nat); [done|].
  by rewrite !word_out by lia.
Qed.

Lemma testbit_trunc32 x q : 0 <= q -> Z.testbit (as_u32 x) q = (q <? 32) && Z.testbit x q.
Proof.
  intros Hq. unfold as_u32. change 4294967296 with (2 ^ 32).
  destruct (Z.ltb_spec q 32); simpl.
  - by apply Z.mod_pow2_bits_low.
  - apply Z.mod_pow2_bits_high. lia.
Qed.

Lemma u32_testbit_high x q : u32_ok x -> 32 <= q -> Z.testbit x q = false.
Proof.
  intros Hx Hq. rewrite <-(as_u32_id x Hx), testbit_trunc32 by lia.
  destruct (Z.ltb_spec q 32); [lia|done].
Qed.

Lemma u32_from_bits x : 0 <= x -> (forall q, 32 <= q -> Z.testbit x q = false) -> u32_ok x.
Proof.
  intros Hx Hb. assert (x = as_u32 x) as ->; [|apply as_u32_ok].
  apply Z.bits_inj'. intros q Hq. rewrite testbit_trunc32 by done.
  destruct (Z.ltb_spec q 32); [done|]. by apply Hb.
Qed.

Lemma u32_lor x y : u32_ok x -> u32_ok y -> u32_ok (Z.lor x y).
Proof.
  intros Hx Hy. apply u32_from_bits; [apply Z.lor_nonneg; unfold u32_ok in *; lia|].
  intros q Hq. by rewrite Z.lor_spec, !u32_testbit_high by done.
Qed.

Lemma u32_shiftr x n : 0 <= n -> u32_ok x -> u32_ok (Z.shiftr x n).
Proof.
  intros Hn Hx. apply u32_from_bits; [apply Z.shiftr_nonneg; unfold u32_ok in *; lia|].
  intros q Hq. rewrite Z.shiftr_spec by lia. apply u32_testbit_high; [done|lia].
Qed.

Lemma window_ok_words w : length w = 32%nat -> (forall j, (j < 32)%nat -> u32_ok (word w j)) ->
  window_ok w.
Proof.
  intros Hl Hw. split; [done|]. apply Forall_lookup. intros j x Hj.
  pose proof (lookup_lt_Some _ _ _ Hj). specialize (Hw j ltac:(lia)). unfold word in Hw.
  by rewrite Hj in Hw.
Qed.

(** The words of a shifted window: word [j] joins two neighbours of the old window. *)
Definition shifted_word (w : list Z) (ws : nat) (bs : Z) (j : nat) : Z :=
  if bs =? 0 then word w (j + ws)
  else Z.lor (Z.shiftr (word w (j + ws)) bs)
         (as_u32 (Z.shiftl (word w (j + 1 + ws)) (32 - bs))).

Lemma shift_words adv w : window_ok w -> 0 <= adv ->
  length (shift_window adv w) = 32%nat /\
  forall j, (j < 32)%nat ->
    word (shift_window adv w) j = shifted_word w (Z.to_nat (adv / 32)) (adv mod 32) j.
Proof.
  intros [Hl Hw] Ha. unfold shift_window.
  set (ws := Z.to_nat (adv / 32)). set (bs := adv mod 32).
  set (w1 := if (0 <? ws)%nat then _ else w).
  assert (length w1 = 32%nat /\ forall j, word w1 j = word w (j + ws)) as [Hl1 Hw1].
  { unfold w1. destruct (Nat.ltb_spec 0 ws).
    - destruct (Nat.leb_spec 32 ws).
      + split; [done|]. intros j. rewrite (word_out w) by lia. unfold word.
        destruct (replicate 32 0 !! j) eqn:E; [|done]. by apply lookup_replicate in E as [-> _].
      + split; [by rewrite !for_update_length|]. intros j. apply words_shift; [done|lia].
    - split; [done|]. intros j. f_equal. lia. }
  clearbody w1. unfold shifted_word.
  assert (0 <= bs < 32) as Hbs by (apply Z.mod_pos_bound; lia).
  destruct (Z.ltb_spec 0 bs), (Z.eqb_spec bs 0); try lia; cbn [andb].
  2: { split; [done|]. intros j Hj. apply Hw1. }
  destruct (Nat.ltb_spec ws 32).
  - split; [by rewrite length_insert, for_update_length|]. intros j Hj.
    destruct (decide (j = 31%nat)) as [->|Hne].
    + rewrite word_insert, decide_True by (done || rewrite for_update_length; lia).
      rewrite (word_out w (31 + 1 + ws)) by lia. rewrite Z.shiftl_0_l.
      change (as_u32 0) with 0. rewrite Z.lor_0_r, <-Hw1.
      rewrite word_for_update; [done| |lia].
      intros w' i Hi. unfold word. by rewrite !Hi by lia.
    + rewrite word_insert, decide_False by (done || rewrite for_update_length; lia).
      rewrite word_for_update; [|intros w' i Hi; unfold word; by rewrite !Hi by lia|lia].
      rewrite decide_True by lia. by rewrite !Hw1.
  - split; [done|]. intros j Hj. rewrite Hw1, !word_out by lia.
    by rewrite Z.shiftr_0_l, Z.shiftl_0_l.
Qed.

Lemma shifted_word_ok w ws bs j : Forall u32_ok w -> 0 <= bs -> u32_ok (shifted_word w ws bs j).
Proof.
  intros Hw Hb. unfold shifted_word. destruct (bs =? 0); [by apply word_ok|].
  apply u32_lor; [apply u32_shiftr; [done|by apply word_ok]|apply as_u32_ok].
Qed.

Lemma shifted_word_bit w ws bs j q : Forall u32_ok w -> 0 <= bs < 32 -> 0 <= q < 32 ->
  Z.testbit (shifted_word w ws bs j) q =
  Z.testbit (word w (j + ws + Z.to_nat ((q + bs) / 32))) ((q + bs) mod 32).
Proof.
  intros Hw Hbs Hq. unfold shifted_word.
  destruct (Z.eqb_spec bs 0) as [->|Hne].
  { rewrite Z.add_0_r, Z.div_small, Z.mod_small by lia. do 2 f_equal. lia. }
  rewrite Z.lor_spec, Z.shiftr_spec, testbit_trunc32 by lia.
  destruct (Z.ltb_spec q 32); [|lia]. cbn [andb]. rewrite Z.shiftl_spec by lia.
  destruct (decide (q + bs < 32)).
  - rewrite (Z.testbit_neg_r _ (q - (32 - bs))), orb_false_r by lia.
    rewrite Z.div_small, Z.mod_small by lia. do 2 f_equal. lia.
  - rewrite (u32_testbit_high _ (q + bs)), orb_false_l; [|by apply word_ok|lia].
    replace ((q + bs) / 32) with 1 by (apply Z.div_unique with (q + bs - 32); lia).
    replace ((q + bs) mod 32) with (q - (32 - bs))
      by (apply Z.mod_unique with 1; lia).
    do 2 f_equal. lia.
Qed.

Lemma shift_window_ok adv w : window_ok w -> 0 <= adv -> window_ok (shift_window adv w).
Proof.
  intros Hok Ha. destruct (shift_words adv w Hok Ha) as [Hl Hw]. destruct Hok as [_ Hf].
  apply window_ok_words; [done|]. intros j Hj. rewrite Hw by done.
  apply shifted_word_ok; [done|]. apply Z.mod_pos_bound. lia.
Qed.

Lemma shift_window_bit adv w p : window_ok w -> 0 <= adv -> 0 <= p < 1024 ->
  bit (shift_window adv w) p = bit w (p + adv).
Proof.
  intros Hok Ha Hp. destruct (shift_words adv w Hok Ha) as [Hl Hw]. destruct Hok as [_ Hf].
  unfold bit. rewrite Hw by zmod. pose proof (Z.mod_pos_bound adv 32 ltac:(lia)).
  pose proof (Z.mod_pos_bound p 32 ltac:(lia)).
  rewrite shifted_word_bit by done.
  pose proof (Z.div_mod adv 32 ltac:(lia)). pose proof (Z.div_mod p 32 ltac:(lia)).
  replace (p + adv) with ((p / 32 + adv / 32) * 32 + (p mod 32 + adv mod 32)) by lia.
  rewrite Z.div_add_l by lia. rewrite (Z.add_comm ((p / 32 + adv / 32) * 32)), Z.mod_add by lia.
  do 2 f_equal. assert (0 <= p / 32 /\ 0 <= adv / 32) as [? ?]
    by (split; apply Z.div_pos; lia).
  assert (0 <= (p mod 32 + adv mod 32) / 32) by (apply Z.div_pos; lia). lia.
Qed.

(* ------------------------------------------------------------------ *)
(** ** At most one delivery per group                                   *)
(* ------------------------------------------------------------------ *)

Lemma land_bit_test x n : 0 <= n -> negb (Z.land x (Z.shiftl 1 n) =? 0) = Z.testbit x n.
Proof.
  intros Hn. rewrite Z.shiftl_1_l. destruct (Z.testbit x n) eqn:E.
  - apply negb_true_iff, Z.eqb_neq. intros H0. apply (f_equal (fun y => Z.testbit y n)) in H0.
    by rewrite Z.land_spec, E, Z.pow2_bits_true, Z.bits_0 in H0.
  - apply negb_false_iff, Z.eqb_eq. apply Z.bits_inj'. intros q Hq.
    rewrite Z.land_spec, Z.bits_0, Z.pow2_bits_eqb by done.
    destruct (Z.eqb_spec n q) as [<-|]; [by rewrite E|by rewrite andb_false_r].
Qed.

Lemma bit_set w off p : window_ok w -> 0 <= off < 1024 -> 0 <= p < 1024 ->
  let i := Z.to_nat (off / 32) in
  bit (<[i := Z.lor (word w i) (Z.shiftl 1 (off mod 32))]> w) p = (p =? off) || bit w p.
Proof.
  intros [Hl _] Ho Hp i. unfold bit. rewrite word_insert by (unfold i; rewrite Hl; zmod).
  assert (0 <= off mod 32 < 32 /\ 0 <= p mod 32 < 32) as [? ?]
    by (split; apply Z.mod_pos_bound; lia).
  pose proof (Z.div_mod off 32 ltac:(lia)). pose proof (Z.div_mod p 32 ltac:(lia)).
  assert (0 <= off / 32 /\ 0 <= p / 32) as [? ?] by (split; apply Z.div_pos; lia).
  unfold i. destruct (decide (Z.to_nat (p / 32) = Z.to_nat (off / 32))) as [Heq|Hne].
  - rewrite Z.lor_spec, Z.shiftl_1_l, Z.pow2_bits_eqb, Heq by lia. rewrite orb_comm. f_equal. lia.
  - destruct (Z.eqb_spec p off) as [->|]; [done|done].
Qed.

Lemma window_ok_set w off : window_ok w -> 0 <= off < 1024 ->
  let i := Z.to_nat (off / 32) in
  window_ok (<[i := Z.lor (word w i) (Z.shiftl 1 (off mod 32))]> w).
Proof.
  intros [Hl Hw] Ho i. split; [by rewrite length_insert|].
  apply Forall_insert; [done|]. apply u32_lor; [by apply word_ok|].
  rewrite Z.shiftl_1_l. assert (0 <= off mod 32 < 32) by (apply Z.mod_pos_bound; lia).
  unfold u32_ok. split; [lia|]. change 4294967296 with (2 ^ 32).
  apply Z.pow_lt_mono_r; lia.
Qed.

Lemma bit_out w q : window_ok w -> 1024 <= q -> bit w q = false.
Proof.
  intros [Hl _] Hq. unfold bit. rewrite word_out; [apply Z.bits_0|].
  assert (32 <= q / 32) by (apply Z.div_le_lower_bound; lia). lia.
Qed.

Lemma window_empty w : window_ok w ->
  forallb (fun x => x =? 0) w = true <-> forall p, 0 <= p < 1024 -> bit w p = false.
Proof.
  intros [Hl Hw]. rewrite forallb_forall. split.
  - intros H p Hp. unfold bit, word. destruct (w !! _) as [x|] eqn:E; simpl; [|apply Z.bits_0].
    apply list_elem_of_lookup_2, list_elem_of_In, H in E. apply Z.eqb_eq in E as ->. apply Z.bits_0.
  - intros H x Hx. apply list_elem_of_In, list_elem_of_lookup in Hx as [j Hj].
    pose proof (lookup_lt_Some _ _ _ Hj). apply Z.eqb_eq, Z.bits_inj'. intros q Hq.
    rewrite Z.bits_0. destruct (decide (q < 32)).
    + specialize (H (Z.of_nat j * 32 + q) ltac:(lia)). unfold bit in H.
      rewrite Z.div_add_l, Z.div_small, Z.add_0_r, Nat2Z.id in H by lia.
      rewrite (Z.add_comm (Z.of_nat j * 32)), Z.mod_add, Z.mod_small in H by lia.
      unfold word in H. by rewrite Hj in H.
    + apply u32_testbit_high; [|lia]. by eapply Forall_lookup in Hw.
Qed.

(** The groups as unbounded indices: [b] is the index of the window base and [R] the groups
    accepted so far. *)
Record sees (s : UnsequencedState) (b : Z) (R : list Z) : Prop := {
  se_base : us_incoming_unsequenced_group s = as_u16 b;
  se_window : window_ok (us_unsequenced_window s);
  se_bits p : 0 <= p < 1024 -> bit (us_unsequenced_window s) p = bool_decide (b + p ∈ R);
  se_range i : i ∈ R -> i < b + 1024;
  se_nonempty : R = [] /\ b = 0 \/ exists i, i ∈ R /\ b <= i
}.

Definition next_base (b i : Z) : Z := if b + 1024 <=? i then i - 512 else b.
Definition is_new (b : Z) (R : list Z) (i : Z) : bool := (b <=? i) && bool_decide (i ∉ R).

Lemma sees_new : sees UnsequencedState_new 0 [].
Proof.
  split; [done| | |set_solver|by left].
  - split; [done|]. apply Forall_replicate. unfold u32_ok. lia.
  - intros p Hp. rewrite bool_decide_eq_false_2 by set_solver. revert p Hp.
    apply window_empty; [|done]. split; [done|]. apply Forall_replicate. unfold u32_ok. lia.
Qed.

Lemma sees_is_duplicate s b R i : sees s b R -> 0 <= i -> b - 32767 <= i <= b + 32768 ->
  UnsequencedState_is_duplicate (as_u16 i) s = negb (is_new b R i).
Proof.
  intros [Hb Hw Hbits Hr Hne] Hi0 Hi. unfold UnsequencedState_is_duplicate, is_new.
  destruct (forallb _ _) eqn:Ee.
  - destruct Hne as [[-> ->]|(j & Hj & Hbj)].
    + rewrite bool_decide_eq_true_2 by set_solver.
      destruct (Z.leb_spec 0 i); [done|lia].
    + specialize (Hr j Hj).
      pose proof (proj1 (window_empty _ Hw) Ee (j - b) ltac:(lia)) as Hf.
      rewrite Hbits in Hf by lia. apply bool_decide_eq_false in Hf.
      by replace (b + (j - b)) with j in Hf by lia.
  - rewrite Hb. destruct (Z.leb_spec b i); cbn [andb negb].
    + replace (wrapping_sub16 (as_u16 i) (as_u16 b)) with (i - b) by int_solve.
      destruct (Z.ltb_spec (i - b) 1024); cbn [andb].
      * destruct (Z.ltb_spec ((i - b) / 32) 32) as [|Hge]; [|exfalso; revert Hge; zmod].
        rewrite land_bit_test by (apply Z.mod_pos_bound; lia). fold (bit (us_unsequenced_window s) (i - b)).
        rewrite Hbits by lia. replace (b + (i - b)) with i by lia.
        rewrite bool_decide_not. by rewrite negb_involutive.
      * destruct (Z.ltb_spec 32768 (i - b)); [lia|].
        rewrite bool_decide_eq_true_2; [done|]. intros Hin. apply Hr in Hin. lia.
    + replace (wrapping_sub16 (as_u16 i) (as_u16 b)) with (i - b + 65536) by int_solve.
      destruct (Z.ltb_spec (i - b + 65536) 1024); [lia|]. cbn [andb]. lia.
Qed.

Lemma sees_mark s b R i : sees s b R -> b <= i <= b + 32768 ->
  sees (UnsequencedState_mark_received (as_u16 i) s) (next_base b i) (R ++ [i]).
Proof.
  intros [Hb Hw Hbits Hr Hne] Hi. unfold UnsequencedState_mark_received, next_base.
  rewrite Hb. replace (wrapping_sub16 (as_u16 i) (as_u16 b)) with (i - b) by int_solve.
  set (b' := if b + 1024 <=? i then i - 512 else b).
  set (w' := if b + 1024 <=? i then shift_window (i - 512 - b) (us_unsequenced_window s)
             else us_unsequenced_window s).
  assert ((if (1024 <=? i - b) && (i - b <=? 32768)
    then (wrapping_add16 (as_u16 b) (saturating_sub (i - b) 512),
          shift_window (saturating_sub (i - b) 512) (us_unsequenced_window s))
    else (as_u16 b, us_unsequenced_window s)) = (as_u16 b', w')) as ->.
  { unfold b', w'. destruct (Z.leb_spec 1024 (i - b)), (Z.leb_spec (b + 1024) i),
      (Z.leb_spec (i - b) 32768); try lia; cbn [andb]; [|done].
    replace (saturating_sub (i - b) 512) with (i - 512 - b) by int_solve.
    f_equal. int_solve. }
  assert (b <= b' <= i /\ i < b' + 1024 /\ (forall j, j ∈ R -> j < b' + 1024)) as (Hb1 & Hb2 & Hr').
  { unfold b'. destruct (Z.leb_spec (b + 1024) i); split_and!; try lia; intros j Hj;
      specialize (Hr j Hj); lia. }
  assert (window_ok w' /\ forall p, 0 <= p < 1024 -> bit w' p = bool_decide (b' + p ∈ R)) as [Hw' Hbits'].
  { unfold w', b'. destruct (Z.leb_spec (b + 1024) i); [|by split].
    split; [apply shift_window_ok; [done|lia]|]. intros p Hp.
    rewrite shift_window_bit by (done || lia).
    replace (i - 512 + p) with (b + (p + (i - 512 - b))) by lia.
    destruct (decide (p + (i - 512 - b) < 1024)); [by rewrite Hbits by lia|].
    rewrite bit_out by (done || lia). symmetry. apply bool_decide_eq_false_2. intros Hin.
    apply Hr in Hin. lia. }
  clearbody b' w'. replace (wrapping_sub16 (as_u16 i) (as_u16 b')) with (i - b') by int_solve.
  destruct (Z.ltb_spec (i - b') 1024); [|lia].
  destruct (Z.ltb_spec ((i - b') / 32) 32) as [|Hge]; [|exfalso; revert Hge; zmod].
  cbn [andb]. split; cbn [us_incoming_unsequenced_group us_unsequenced_window].
  - done.
  - apply window_ok_set; [done|lia].
  - intros p Hp. rewrite bit_set by (done || lia). rewrite Hbits' by lia.
    destruct (Z.eqb_spec p (i - b')) as [->|Hne']; cbn [orb].
    + symmetry. apply bool_decide_eq_true_2. replace (b' + (i - b')) with i by lia. set_solver.
    + apply bool_decide_ext. rewrite elem_of_app, list_elem_of_singleton.
      split; [by left|]. intros [?|?]; [done|lia].
  - intros j. rewrite elem_of_app, list_elem_of_singleton. intros [?| ->]; [by apply Hr'|lia].
  - right. exists i. split; [set_solver|lia].
Qed.

(** A receiver as the command processor drives it: duplicates are ignored, the rest is marked
    and delivered.  The log is the indices delivered. *)
Definition receive_group (acc : list Z * UnsequencedState) (i : Z) : list Z * UnsequencedState :=
  if UnsequencedState_is_duplicate (as_u16 i) acc.2 then acc
  else (acc.1 ++ [i], UnsequencedState_mark_received (as_u16 i) acc.2).

(** The abstract window: a base and the delivered indices. *)
Definition accept (acc : list Z * Z) (i : Z) : list Z * Z :=
  if is_new acc.2 acc.1 i then (acc.1 ++ [i], next_base acc.2 i) else acc.

(** Every arrival is within half of the numbering of the base the window has by then. *)
Fixpoint in_reach (acc : list Z * Z) (arrivals : list Z) : Prop :=
  match arrivals with
  | [] => True
  | i :: arrivals =>
      0 <= i /\ acc.2 - 32767 <= i <= acc.2 + 32768 /\ in_reach (accept acc i) arrivals
  end.

(** C24: Unsequenced delivery refines an abstract window: over groups numbered without bound and
    arriving within half of the 16-bit numbering of the window, the bit window with its word
    and bit shifts delivers exactly the arrivals that are neither behind the base nor delivered
    before, so no group is ever delivered twice. *)
Theorem unsequenced_at_most_once arrivals (Hreach : in_reach ([], 0) arrivals) :
  (foldl receive_group ([], UnsequencedState_new) arrivals).1 = (foldl accept ([], 0) arrivals).1 /\
  NoDup (foldl receive_group ([], UnsequencedState_new) arrivals).1.
Proof.
  assert (forall R b s, sees s b R -> in_reach (R, b) arrivals -> NoDup R ->
    (foldl receive_group (R, s) arrivals).1 = (foldl accept (R, b) arrivals).1 /\
    NoDup (foldl accept (R, b) arrivals).1) as H.
  { clear Hreach. induction arrivals as [|i arrivals IH]; intros R b s Hs; [done|].
    cbn [in_reach foldl]. intros (Hi0 & Hi & Hre) Hnd. unfold receive_group at 2.
    unfold accept at 2 4. unfold accept in Hre at 1. cbn [fst snd] in *.
    rewrite (sees_is_duplicate s b R i) by done.
    destruct (is_new b R i) eqn:E; cbn [negb]; [|by apply IH].
    unfold is_new in E. apply andb_true_iff in E as [Hbi Hni].
    apply bool_decide_eq_true in Hni. apply IH; [|done|].
    - apply sees_mark; [done|lia].
    - apply NoDup_app. split; [done|]. split; [|by apply NoDup_singleton].
      intros x Hx ->%list_elem_of_singleton. done. }
  destruct (H [] 0 UnsequencedState_new sees_new Hreach (NoDup_nil_2)) as [E Hnd].
  split; [exact E|]. by rewrite E.
Qed.

Lemma unsequenced_at_most_once_witness :
  (foldl receive_group ([], UnsequencedState_new) [0; 3; 3; 1500; 0; 1000; 1000; 3]).1
    = [0; 3; 1500; 1000] /\
  NoDup (foldl receive_group ([], UnsequencedState_new) [0; 3; 3; 1500; 0; 1000; 1000; 3]).1.
Proof.
  destruct (unsequenced_at_most_once [0; 3; 3; 1500; 0; 1000; 1000; 3]) as [E Hnd].
  - vm_compute. repeat split; discriminate.
  - split; [|exact Hnd]. rewrite E. reflexivity.
Defined.

(** While nothing was received the window accepts any group, but a group behind the base is
    never marked: a first group above 32768 is delivered every time it arrives. *)
Example early_group_delivered_twice :
  (foldl receive_group ([], UnsequencedState_new) [40000; 40000]).1 = [40000; 40000].
Proof. by vm_compute. Qed.
