(* ===== verification/FlowControl.v ===== *)
(** Window-based flow control of reliable data: [bitfold-peer/src/flow_control.rs]. *)

From S2P Require Import Prelude Float32 Core.

Record FlowControl : Set := mkFlowControl {
  fc_window_size : Z;
  fc_reliable_data_in_transit : Z
}.

Definition FlowControl_new (config : Config) : FlowControl :=
  mkFlowControl (initial_window_size config) 0.
Definition FlowControl_default : FlowControl := FlowControl_new Config_default.

Definition FlowControl_window_size (f : FlowControl) : Z := fc_window_size f.
Definition FlowControl_reliable_data_in_transit (f : FlowControl) : Z :=
  fc_reliable_data_in_transit f.

(** [Ord::clamp] panics when [min > max]. *)
Definition clamp (x min max : Z) : option Z :=
  if min <=? max then Some (if x <? min then min else if max <? x then max else x) else None.

Definition FlowControl_set_window_size (config : Config) (window_size : Z) (f : FlowControl)
  : option FlowControl :=
  w ← clamp window_size (min_window_size config) (max_window_size config);
  Some (mkFlowControl w (fc_reliable_data_in_transit f)).

Definition FlowControl_record_reliable_data_sent (data_size : Z) (f : FlowControl)
  : FlowControl :=
  mkFlowControl (fc_window_size f) (saturating_add32 (fc_reliable_data_in_transit f) data_size).
Definition FlowControl_record_reliable_data_acked (data_size : Z) (f : FlowControl)
  : FlowControl :=
  mkFlowControl (fc_window_size f) (saturating_sub (fc_reliable_data_in_transit f) data_size).

Definition FlowControl_can_send_reliable (config : Config) (packets_in_flight : Z)
  (f : FlowControl) : option bool :=
  if negb (use_window_flow_control config) then
    Some (packets_in_flight <? max_packets_in_flight config)
  else
    let approx_packet_size := fragment_size config in
    window_bytes ← mul_u32 (fc_window_size f) approx_packet_size;
    Some (fc_reliable_data_in_transit f <? window_bytes).

Definition FlowControl_adjust_window_size (config : Config) (loss_rate : f32) (rtt_ms : Z)
  (f : FlowControl) : option FlowControl :=
  if negb (use_window_flow_control config) then Some f
  else if f32_ltb loss_rate (f32_lit 1 100) && (rtt_ms <? 200) then
    sum ← add_u32 (fc_window_size f) (Z.max (fc_window_size f / 32) 1);
    Some (mkFlowControl (Z.min sum (max_window_size config)) (fc_reliable_data_in_transit f))
  else if f32_gtb loss_rate (f32_lit 5 100) || (500 <? rtt_ms) then
    diff ← sub_u32 (fc_window_size f) (Z.max (fc_window_size f / 16) 1);
    Some (mkFlowControl (Z.max diff (min_window_size config)) (fc_reliable_data_in_transit f))
  else Some f.

(* ------------------------------------------------------------------ *)
(** ** The window stays in its bounds and reaches them                  *)
(* ------------------------------------------------------------------ *)

(** Bounds under which the arithmetic cannot overflow: no window is empty, and the largest can
    grow by one step. *)
Definition window_config_ok (c : Config) : Prop :=
  1 <= min_window_size c <= max_window_size c /\
  max_window_size c + Z.max (max_window_size c / 32) 1 <= u32_max.
Definition window_in (c : Config) (f : FlowControl) : Prop :=
  min_window_size c <= fc_window_size f <= max_window_size c.

Definition good (m : f32 * Z) : bool := f32_ltb m.1 (f32_lit 1 100) && (m.2 <? 200).
Definition poor (m : f32 * Z) : bool :=
  negb (good m) && (f32_gtb m.1 (f32_lit 5 100) || (500 <? m.2)).

Definition adjust (c : Config) (f : FlowControl) (m : f32 * Z) : option FlowControl :=
  FlowControl_adjust_window_size c m.1 m.2 f.

Lemma adjust_spec c f m : use_window_flow_control c = true ->
  window_config_ok c -> window_in c f ->
  exists f', adjust c f m = Some f' /\ window_in c f' /\
    fc_reliable_data_in_transit f' = fc_reliable_data_in_transit f /\
    fc_window_size f' =
      (if good m then Z.min (max_window_size c) (fc_window_size f + Z.max 1 (fc_window_size f / 32))
       else if poor m
       then Z.max (min_window_size c) (fc_window_size f - Z.max 1 (fc_window_size f / 16))
       else fc_window_size f).
Proof.
  unfold window_config_ok, window_in, u32_max. intros Hu Hc Hw.
  unfold adjust, FlowControl_adjust_window_size, poor. rewrite Hu. cbn [negb]. fold (good m).
  assert (0 <= fc_window_size f / 32 <= max_window_size c / 32) by
    (split; [zmod|apply Z.div_le_mono; lia]).
  assert (0 <= fc_window_size f / 16 <= fc_window_size f) by (split; zmod).
  destruct (good m); cbn [negb andb].
  - unfold add_u32, u32_max. rewrite checked_in by lia. cbn [mbind option_bind].
    eexists. split; [done|]. cbn [fc_window_size fc_reliable_data_in_transit]. lia.
  - destruct (_ || _).
    + unfold sub_u32, u32_max. rewrite checked_in by lia. cbn [mbind option_bind].
      eexists. split; [done|]. cbn [fc_window_size fc_reliable_data_in_transit]. lia.
    + exists f. split_and!; [done|lia|lia|done|done].
Qed.

(** An adjustment panics exactly when a window that is to grow overflows, or when an empty one is
    to shrink; the configuration does not rule out either. *)
Lemma adjust_panics c f m : use_window_flow_control c = true -> u32_ok (fc_window_size f) ->
  adjust c f m = None <->
  good m = true /\ u32_max < fc_window_size f + Z.max (fc_window_size f / 32) 1 \/
  poor m = true /\ fc_window_size f = 0.
Proof.
  unfold u32_ok, adjust, FlowControl_adjust_window_size, poor. intros -> Hw. cbn [negb]. fold (good m).
  assert (0 <= fc_window_size f / 32) by zmod. assert (0 <= fc_window_size f / 16 <= fc_window_size f) by (split; zmod).
  unfold add_u32, sub_u32, checked, u32_max. destruct (good m); cbn [negb andb].
  - destruct (_ && _) eqn:E; cbn [mbind option_bind]; split; [done|lia|lia|done].
  - destruct (_ || _); [|split; [done|by intros [[? _]|[? _]]]].
    destruct (_ && _) eqn:E; cbn [mbind option_bind]; (split; [done || (intros _; right; split; [done|])|done || idtac]); zmod.
Qed.

(** C29: With flow control on, a minimum window of at least one packet, a maximum not below it that
    can grow by a 32nd within 32 bits, and a window that starts within these bounds: whatever loss
    rates and round-trip times it is shown, adjusting the window never panics and never leaves the
    bounds; under sustained good conditions the window reaches its
    maximum, and under sustained poor ones its minimum, within as many adjustments as the
    window is wide. *)
Theorem window_bounded_and_adaptive c f ms (Hu : use_window_flow_control c = true)
  (Hc : window_config_ok c) (Hw : window_in c f) :
  exists f', foldM (adjust c) f ms = Some f' /\ window_in c f' /\
    (Forall (fun m => good m = true) ms -> max_window_size c - fc_window_size f <= zlen ms ->
       fc_window_size f' = max_window_size c) /\
    (Forall (fun m => poor m = true) ms -> fc_window_size f - min_window_size c <= zlen ms ->
       fc_window_size f' = min_window_size c).
Proof.
  revert f Hw. induction ms as [|m ms IH]; intros f Hw.
  - exists f. unfold window_in, zlen in *. simpl. split_and!; [done|lia|lia|intros; lia|intros; lia].
  - destruct (adjust_spec c f m Hu Hc Hw) as (f1 & E & Hw1 & _ & Hval). cbn [foldM]. rewrite E.
    cbn [mbind option_bind]. destruct (IH f1 Hw1) as (f' & E' & Hw' & Hg & Hp).
    exists f'. split; [done|]. split; [done|]. rewrite zlen_cons. pose proof (zlen_nonneg ms).
    unfold window_in, window_config_ok in *.
    split; intros HF Hlen; inversion_clear HF as [|? ? Hm HF'].
    + apply Hg; [done|]. rewrite Hm in Hval. lia.
    + apply Hp; [done|]. rewrite Hm in Hval. unfold poor in Hm.
      destruct (good m); [done|]. lia.
Qed.

Definition window_config : Config :=
  mkConfig false 0 None 0 16 1024 64 1452 f32_zero 0 0 None 512 50 1 0 0 true CompNone 128 true
    0 false 32 2 2 5000 true 66 64 70 0 None None None false true 576 1400 5000 64.

Lemma window_bounded_and_adaptive_witness :
  exists f', foldM (adjust window_config) (FlowControl_new window_config)
    [(f32_lit 1 2, 20); (f32_lit 1 2, 20)] = Some f' /\ fc_window_size f' = 64.
Proof.
  destruct (window_bounded_and_adaptive window_config (FlowControl_new window_config)
    [(f32_lit 1 2, 20); (f32_lit 1 2, 20)]) as (f' & E & _ & _ & Hp).
  - reflexivity.
  - vm_compute. repeat split; discriminate.
  - unfold window_in. simpl. lia.
  - exists f'. split; [exact E|]. apply Hp; [repeat constructor|]. unfold zlen. simpl. lia.
Defined.

Lemma set_window_size_in c w f : min_window_size c <= max_window_size c ->
  exists f', FlowControl_set_window_size c w f = Some f' /\ window_in c f'.
Proof.
  intros Hm. unfold FlowControl_set_window_size, clamp, window_in.
  destruct (Z.leb_spec (min_window_size c) (max_window_size c)); [|lia].
  cbn [mbind option_bind]. eexists. split; [done|]. cbn [fc_window_size].
  destruct (Z.ltb_spec w (min_window_size c)), (Z.ltb_spec (max_window_size c) w); lia.
Qed.

(** The window size of a [VerifyConnect] is clamped with a panic when the bounds cross. *)
Lemma set_window_size_panics c w f : max_window_size c < min_window_size c ->
  FlowControl_set_window_size c w f = None.
Proof.
  intros Hm. unfold FlowControl_set_window_size, clamp.
  by destruct (Z.leb_spec (min_window_size c) (max_window_size c)); [lia|].
Qed.
