(* ===== verification/Pmtu.v ===== *)
(** Path MTU discovery: [bitfold-peer/src/pmtu_discovery.rs]. *)

From S2P Require Import Prelude Float32 Core Buffers Command.

Record PmtuDiscovery : Set := mkPmtuDiscovery {
  pm_config : Config;
  pm_fragment_size : Z;
  pm_low : Z;
  pm_high : Z;
  pm_last_probe : Instant;
  pm_outstanding : option (Z * Z * Instant)
}.

Definition PmtuDiscovery_new (config : Config) (time : Instant) : PmtuDiscovery :=
  mkPmtuDiscovery config (fragment_size config) (pmtu_min config) (pmtu_max config) time None.
Definition PmtuDiscovery_current_fragment_size (p : PmtuDiscovery) : Z := pm_fragment_size p.
Definition PmtuDiscovery_set_fragment_size (size : Z) (p : PmtuDiscovery) : PmtuDiscovery :=
  mkPmtuDiscovery (pm_config p) size (pm_low p) (pm_high p) (pm_last_probe p) (pm_outstanding p).
Definition PmtuDiscovery_low_bound (p : PmtuDiscovery) : Z := pm_low p.
Definition PmtuDiscovery_high_bound (p : PmtuDiscovery) : Z := pm_high p.
Definition PmtuDiscovery_has_outstanding_probe (p : PmtuDiscovery) : bool :=
  match pm_outstanding p with Some _ => true | None => false end.

(** [self.config.receive_buffer_max_size.min(u16::MAX as usize) as u16]. *)
Definition datagram_cap (c : Config) : Z := Z.min (receive_buffer_max_size c) u16_max.

(** The bytes of a probe datagram besides the probe's payload. *)
Definition probe_overhead (c : Config) : Z :=
  let compression_overhead := match compression c with CompLz4 => 5 | _ => 1 end in
  let checksum_overhead := if use_checksums c then 4 else 0 in
  let static_overhead := 1 + compression_overhead + checksum_overhead in
  let per_command_overhead := 2 + (1 + 2 + 4 + 2) in
  static_overhead + per_command_overhead.
Definition probe_payload_len (c : Config) (target : Z) : Z :=
  if probe_overhead c <? target then Z.max (target - probe_overhead c) 1 else 1.

(** [rand::random()] draws the token, then [fill_bytes] the payload. *)
Definition PmtuDiscovery_handle_pmtu (time : Instant) (rto : Duration) (rng : Rng)
  (p : PmtuDiscovery) : option ProtocolCommand * PmtuDiscovery * Rng :=
  if negb (use_pmtu_discovery (pm_config p)) then (None, p, rng)
  else
    match pm_outstanding p with
    | Some (size, _, sent) =>
        let timeout := Z.max rto (from_millis 200) in
        if timeout <? duration_since time sent then
          let high := if 0 <? size then Z.min (pm_high p) (size - 1) else pm_high p in
          (None, mkPmtuDiscovery (pm_config p) (pm_fragment_size p) (pm_low p) high time None, rng)
        else (None, p, rng)
    | None =>
        let datagram_cap := datagram_cap (pm_config p) in
        let high := if datagram_cap <? pm_high p then datagram_cap else pm_high p in
        if saturating_sub high (pm_low p) <=? pmtu_converge_threshold (pm_config p) then
          (None, mkPmtuDiscovery (pm_config p) (pm_low p) (pm_low p) high (pm_last_probe p) None,
           rng)
        else if duration_since time (pm_last_probe p)
                <? from_millis (pmtu_interval_ms (pm_config p)) then
          (None, mkPmtuDiscovery (pm_config p) (pm_fragment_size p) (pm_low p) high
                   (pm_last_probe p) None, rng)
        else
          let mid := as_u16 ((pm_low p + high) / 2) in
          let target := Z.min mid datagram_cap in
          let payload_len := probe_payload_len (pm_config p) target in
          let '(token, rng) := random_u32 rng in
          let '(payload_vec, rng) := fill_bytes (Z.to_nat payload_len) rng in
          let command := PMTUProbe target token (SharedBytes_from_vec payload_vec) in
          (Some command,
           mkPmtuDiscovery (pm_config p) (pm_fragment_size p) (pm_low p) high time
             (Some (mid, token, time)), rng)
    end.

Definition PmtuDiscovery_process_reply (size token : Z) (time : Instant) (p : PmtuDiscovery)
  : bool * PmtuDiscovery :=
  match pm_outstanding p with
  | Some (_, pending_token, _) =>
      if pending_token =? token then
        let low := Z.max (pm_low p) size in
        (true, mkPmtuDiscovery (pm_config p) low low (pm_high p) time None)
      else (false, p)
  | None => (false, p)
  end.

Definition PmtuDiscovery_create_reply (size token : Z) : ProtocolCommand := PMTUReply size token.

(* ------------------------------------------------------------------ *)
(** ** Convergence on a path of a given MTU                             *)
(* ------------------------------------------------------------------ *)

(** One search round on a path that carries datagrams of up to [m] bytes: a probe that fits is
    answered, another is lost and times out.  [t] is the time of the probe, [t'] that of the
    answer or of the check that finds the timeout. *)
Definition probe_round (m : Z) (rto : Duration) (t t' : Instant) (rng : Rng) (p : PmtuDiscovery)
  : PmtuDiscovery * Rng :=
  match PmtuDiscovery_handle_pmtu t rto rng p with
  | (Some (PMTUProbe size token _), p, rng) =>
      if size <=? m then ((PmtuDiscovery_process_reply size token t' p).2, rng)
      else let '(_, p, rng) := PmtuDiscovery_handle_pmtu t' rto rng p in (p, rng)
  | (_, p, rng) => (p, rng)
  end.

(** The round leaves time for the interval since the last probe and for the timeout. *)
Definition round_times (c : Config) (rto : Duration) (last t t' : Instant) : Prop :=
  last + from_millis (pmtu_interval_ms c) <= t /\ t + Z.max rto (from_millis 200) < t'.

Record searching (c : Config) (m : Z) (p : PmtuDiscovery) : Prop := {
  sr_config : pm_config p = c;
  sr_idle : pm_outstanding p = None;
  sr_bounds : 0 <= pm_low p <= m /\ m <= Z.min (pm_high p) (datagram_cap c);
  sr_u16 : pm_high p <= 65535
}.

(** The width of the search, with the high bound clamped to a datagram. *)
Definition width (c : Config) (p : PmtuDiscovery) : Z :=
  Z.min (pm_high p) (datagram_cap c) - pm_low p.

Definition converged (c : Config) (p : PmtuDiscovery) : Prop :=
  width c p <= pmtu_converge_threshold c.

(** What a round leaves: nothing to do, a raised low bound or a lowered high bound. *)
Lemma probe_round_value c m rto t t' rng p : use_pmtu_discovery c = true ->
  1 <= pmtu_converge_threshold c -> 0 <= pmtu_interval_ms c ->
  searching c m p -> round_times c rto (pm_last_probe p) t t' ->
  let high := Z.min (pm_high p) (datagram_cap c) in
  let mid := (pm_low p + high) / 2 in
  (probe_round m rto t t' rng p).1 =
  if width c p <=? pmtu_converge_threshold c
  then mkPmtuDiscovery c (pm_low p) (pm_low p) high (pm_last_probe p) None
  else if mid <=? m then mkPmtuDiscovery c mid mid high t' None
  else mkPmtuDiscovery c (pm_fragment_size p) (pm_low p) (mid - 1) t' None.
Proof.
  intros Hu Hth Hint [Hc Hidle Hb Hu16] [Ht Ht'] high mid.
  unfold probe_round, PmtuDiscovery_handle_pmtu at 1. rewrite Hc, Hu, Hidle. cbn [negb].
  assert ((if datagram_cap c <? pm_high p then datagram_cap c else pm_high p) = high) as ->
    by (unfold high; destruct (Z.ltb_spec (datagram_cap c) (pm_high p)); lia).
  unfold width. fold high. unfold saturating_sub at 1. rewrite Z.max_r by lia.
  assert (high <= 65535 /\ high <= datagram_cap c) as [Hh Hcap] by lia.
  unfold from_millis in Ht, Ht'.
  destruct (Z.leb_spec (high - pm_low p) (pmtu_converge_threshold c)) as [Hcv|Hcv]; [done|].
  unfold duration_since, saturating_sub at 1, from_millis at 1.
  destruct (Z.ltb_spec (Z.max 0 (t - pm_last_probe p)) (pmtu_interval_ms c * 1000000)); [lia|].
  fold mid. assert (pm_low p < mid < high) as Hm by (unfold mid; zmod).
  rewrite as_u16_id by (unfold u16_ok; lia). clearbody mid. rewrite (Z.min_l mid) by lia.
  destruct (random_u32 rng) as [token rng1], (fill_bytes _ rng1) as [payload rng2].
  destruct (Z.leb_spec mid m).
  - unfold PmtuDiscovery_process_reply. cbn [pm_outstanding]. rewrite Z.eqb_refl.
    cbn [fst snd pm_config pm_low pm_high]. by rewrite Z.max_r by lia.
  - unfold PmtuDiscovery_handle_pmtu. cbn [pm_config pm_outstanding]. rewrite Hu. cbn [negb].
    unfold duration_since, saturating_sub, from_millis.
    destruct (Z.ltb_spec (Z.max rto (200 * 1000000)) (Z.max 0 (t' - t))); [|lia].
    destruct (Z.ltb_spec 0 mid); [|lia].
    cbn [fst pm_low pm_high pm_fragment_size]. by rewrite (Z.min_r high) by lia.
Qed.

Lemma probe_round_spec c m rto t t' rng p : use_pmtu_discovery c = true ->
  1 <= pmtu_converge_threshold c -> 0 <= pmtu_interval_ms c ->
  searching c m p -> round_times c rto (pm_last_probe p) t t' ->
  let p' := (probe_round m rto t t' rng p).1 in
  searching c m p' /\ pm_last_probe p' <= t' /\
  (converged c p -> converged c p' /\ pm_fragment_size p' = pm_low p') /\
  (~ converged c p -> width c p' - 1 <= (width c p - 1) / 2).
Proof.
  intros Hu Hth Hint Hs Htimes p'. unfold p'.
  rewrite (probe_round_value c m rto t t' rng p Hu Hth Hint Hs Htimes).
  destruct Hs as [Hc Hidle Hb Hu16], Htimes as [Ht Ht']. unfold from_millis in Ht, Ht'.
  unfold converged, width.
  set (high := Z.min (pm_high p) (datagram_cap c)) in *.
  assert (high <= 65535 /\ high <= datagram_cap c) as [Hh Hcap] by lia. clearbody high.
  destruct (Z.leb_spec (high - pm_low p) (pmtu_converge_threshold c)) as [Hcv|Hcv].
  { cbn [pm_low pm_high pm_last_probe pm_fragment_size]. rewrite !(Z.min_l high) by lia.
    split_and!; [by split; cbn; lia || done|lia|done|lia]. }
  assert (pm_low p < (pm_low p + high) / 2 < high) as Hm by zmod.
  assert (2 * ((pm_low p + high) / 2) <= pm_low p + high <= 2 * ((pm_low p + high) / 2) + 1)
    as Hmid by zmod.
  set (mid := (pm_low p + high) / 2) in *. clearbody mid.
  destruct (Z.leb_spec mid m); cbn [pm_low pm_high pm_last_probe pm_fragment_size].
  - rewrite !(Z.min_l high) by lia.
    split_and!; [by split; cbn; lia || done|lia|lia|]. intros _. zmod.
  - rewrite !(Z.min_l (mid - 1)) by lia.
    split_and!; [by split; cbn; lia || done|lia|lia|]. intros _. zmod.
Qed.

(** Rounds at times [ts]. *)
Fixpoint rounds (m : Z) (rto : Duration) (ts : list (Instant * Instant)) (rng : Rng)
  (p : PmtuDiscovery) : PmtuDiscovery :=
  match ts with
  | [] => p
  | (t, t') :: ts => let '(p, rng) := probe_round m rto t t' rng p in rounds m rto ts rng p
  end.

Fixpoint rounds_times (c : Config) (rto : Duration) (last : Instant)
  (ts : list (Instant * Instant)) : Prop :=
  match ts with
  | [] => True
  | (t, t') :: ts => round_times c rto last t t' /\ rounds_times c rto t' ts
  end.

Lemma rounds_spec c m rto ts : use_pmtu_discovery c = true ->
  1 <= pmtu_converge_threshold c -> 0 <= pmtu_interval_ms c ->
  forall rng p last, searching c m p -> pm_last_probe p <= last -> rounds_times c rto last ts ->
  searching c m (rounds m rto ts rng p) /\
  (converged c p -> converged c (rounds m rto ts rng p) /\
     (ts <> [] -> pm_fragment_size (rounds m rto ts rng p) = pm_low (rounds m rto ts rng p))) /\
  (forall n, length ts = S n -> width c p - 1 < 2 ^ Z.of_nat n ->
     converged c (rounds m rto ts rng p) /\
     pm_fragment_size (rounds m rto ts rng p) = pm_low (rounds m rto ts rng p)).
Proof.
  intros Hu Hth Hint. induction ts as [|[t t'] ts IH]; intros rng p last Hs Hlast Hts;
    cbn [rounds].
  { split; [done|]. split; [done|]. intros n Hn. discriminate. }
  destruct Hts as [[H1 H2] Hts].
  pose proof (probe_round_spec c m rto t t' rng p Hu Hth Hint Hs) as Hr.
  destruct (probe_round m rto t t' rng p) as [p1 rng1]. cbn [fst] in Hr.
  destruct Hr as (Hs1 & Hl1 & Hcv & Hw); [split; lia|].
  destruct (IH rng1 p1 t' Hs1 Hl1 Hts) as (Hsr & Hcr & Hnr).
  split; [done|]. split.
  - intros Hp. destruct (Hcv Hp) as [Hp1 Hf1]. destruct (Hcr Hp1) as [Hc2 Hf2]. split; [done|].
    intros _. destruct ts as [|x ts]; [exact Hf1|by apply Hf2].
  - intros n Hn Hwn. destruct (decide (width c p <= pmtu_converge_threshold c)) as [Hp|Hp].
    + destruct (Hcv Hp) as [Hp1 Hf1]. destruct (Hcr Hp1) as [Hc2 Hf2]. split; [done|].
      destruct ts as [|x ts]; [exact Hf1|by apply Hf2].
    + injection Hn as Hn. specialize (Hw Hp). destruct n as [|n].
      { simpl in Hwn. lia. }
      apply (Hnr n); [done|]. rewrite Nat2Z.inj_succ, Z.pow_succ_r in Hwn by lia. zmod.
Qed.


Definition sample_times : list (Instant * Instant) :=
  (fun k => (6000000000 * k, 6000000000 * k + 1000000000)) <$> seqZ 1 17.


(** A reply is matched by its token alone: the size it echoes is believed as it is, even above
    the probed size and the high bound. *)
Example reply_size_unchecked :
  pm_fragment_size (PmtuDiscovery_process_reply 9000 7 1
    (mkPmtuDiscovery Config_default 1024 576 1400 0 (Some (988, 7, 0)))).2 = 9000.
Proof. reflexivity. Qed.
