(* ===== verification/PeerParts.v ===== *)
(** Small parts of a peer: its connection state ([bitfold-peer/src/peer_state.rs]), the queue
    of outgoing commands ([command_queue.rs]) and the statistics ([statistics.rs]). *)

From S2P Require Import Prelude Float32 Buffers Command.

(* ------------------------------------------------------------------ *)
(** ** [PeerState]                                                      *)
(* ------------------------------------------------------------------ *)

Inductive PeerState : Set :=
| Idle
| Connecting
| AcknowledgingConnect
| ConnectionSucceeded
| Connected
| Disconnecting
| Zombie.

#[export] Instance PeerState_eq_dec : EqDecision PeerState.
Proof. solve_decision. Defined.

Definition PeerState_is_active (s : PeerState) : bool :=
  match s with
  | Connected | ConnectionSucceeded | AcknowledgingConnect | Connecting => true
  | _ => false
  end.
Definition PeerState_is_established (s : PeerState) : bool :=
  match s with Connected | ConnectionSucceeded => true | _ => false end.
Definition PeerState_is_disconnecting (s : PeerState) : bool :=
  match s with Disconnecting | Zombie => true | _ => false end.
Definition PeerState_is_connecting (s : PeerState) : bool :=
  match s with Connecting | AcknowledgingConnect | ConnectionSucceeded => true | _ => false end.

(** A state is idle, disconnecting, or active; and the active ones are the handshake's and the
    established ones. *)
Lemma PeerState_partition s :
  (s = Idle /\ PeerState_is_active s = false /\ PeerState_is_disconnecting s = false) \/
  (PeerState_is_disconnecting s = true /\ PeerState_is_active s = false) \/
  (PeerState_is_active s = true /\ PeerState_is_disconnecting s = false).
Proof. destruct s; simpl; tauto. Qed.
Lemma PeerState_active_split s :
  PeerState_is_active s = PeerState_is_connecting s || PeerState_is_established s.
Proof. by destruct s. Qed.

(* ------------------------------------------------------------------ *)
(** ** [CommandQueue]                                                   *)
(* ------------------------------------------------------------------ *)

Record CommandQueue : Set := mkCommandQueue {
  cq_commands : list ProtocolCommand;
  cq_max_queue_size : Z
}.

Definition CommandQueue_new (capacity : Z) : CommandQueue := mkCommandQueue [] capacity.
Definition CommandQueue_default : CommandQueue := CommandQueue_new 256.
Definition CommandQueue_enqueue (command : ProtocolCommand) (q : CommandQueue)
  : bool * CommandQueue :=
  let commands := cq_commands q ++ [command] in
  (cq_max_queue_size q <=? zlen commands, mkCommandQueue commands (cq_max_queue_size q)).
Definition CommandQueue_len (q : CommandQueue) : Z := zlen (cq_commands q).
Definition CommandQueue_is_empty (q : CommandQueue) : bool :=
  match cq_commands q with [] => true | _ => false end.
Definition CommandQueue_drain (q : CommandQueue) : list ProtocolCommand * CommandQueue :=
  (cq_commands q, mkCommandQueue [] (cq_max_queue_size q)).
Definition CommandQueue_iter (q : CommandQueue) : list ProtocolCommand := cq_commands q.
Definition CommandQueue_clear (q : CommandQueue) : CommandQueue :=
  mkCommandQueue [] (cq_max_queue_size q).

(** The queue is first in, first out and loses nothing, past its nominal size too. *)
Lemma enqueue_all_drain cs q :
  (CommandQueue_drain (foldl (fun q c => (CommandQueue_enqueue c q).2) q cs)).1
  = cq_commands q ++ cs.
Proof.
  revert q. induction cs as [|c cs IH]; intros q; cbn [foldl]; [simpl; by rewrite app_nil_r|].
  rewrite IH. simpl. by rewrite <-app_assoc.
Qed.

(* ------------------------------------------------------------------ *)
(** ** [PeerStatistics]                                                 *)
(* ------------------------------------------------------------------ *)

Record PeerStatistics : Set := mkPeerStatistics {
  packets_sent : Z;
  packets_received : Z;
  packets_lost : Z;
  bytes_sent : Z;
  bytes_received : Z
}.
Definition PeerStatistics_default : PeerStatistics := mkPeerStatistics 0 0 0 0 0.
Definition PeerStatistics_packet_loss_rate (s : PeerStatistics) : f32 :=
  if packets_sent s =? 0 then f32_zero
  else f32_div (f32_of_Z (packets_lost s)) (f32_of_Z (packets_sent s)).
Definition PeerStatistics_reset (s : PeerStatistics) : PeerStatistics := PeerStatistics_default.
