(* ===== verification/Peer.v ===== *)
(** A remote peer ([bitfold-peer/src/peer/mod.rs]): its state, and the operations on it that
    do not encode or decode datagrams.

    Methods that take [&mut self] are computations of the monad [PeerM]: they thread the peer
    and the source of randomness, and [None] is a panic. *)

From S2P Require Import Prelude Float32 Core NetAddr Buffers Packet Command SequenceBuffer.
From S2P Require Import Congestion.
From S2P Require Import Ack Bandwidth ChannelState FragmentBuffer Unsequenced FlowControl Pmtu.
From S2P Require Import PeerParts.

Record Peer : Type := mkPeer {
  p_last_heard : Instant;
  p_last_sent : Instant;
  p_remote_address : SocketAddr;
  p_state : PeerState;
  p_peer_id : Z;
  p_incoming_session_id : Z;
  p_outgoing_session_id : Z;
  p_connect_id : Z;
  p_outgoing_reliable_sequence : Z;
  p_outgoing_unreliable_sequence : Z;
  p_incoming_reliable_sequence : Z;
  p_incoming_unreliable_sequence : Z;
  p_next_unreliable_sequence : Z;
  p_unsequenced_state : UnsequencedState;
  p_acknowledge_handler : AcknowledgmentHandler;
  p_config : Config;
  p_command_queue : CommandQueue;
  p_total_waiting_data : Z;
  p_command_fragments : gmap Z CommandFragmentBuffer;
  p_channel_states : gmap Z ChannelState;
  p_flow_control : FlowControl;
  p_bandwidth_throttle : BandwidthThrottle;
  p_statistics : PeerStatistics;
  p_tx_pool : PacketAllocator;
  p_compression_pool : CompressionBufferPool;
  p_pmtu : PmtuDiscovery
}.

(** Assignments to the fields. *)
Definition set_last_heard (x : Instant) (p : Peer) : Peer :=
  mkPeer x (p_last_sent p) (p_remote_address p) (p_state p) (p_peer_id p)
    (p_incoming_session_id p) (p_outgoing_session_id p) (p_connect_id p)
    (p_outgoing_reliable_sequence p) (p_outgoing_unreliable_sequence p)
    (p_incoming_reliable_sequence p) (p_incoming_unreliable_sequence p)
    (p_next_unreliable_sequence p) (p_unsequenced_state p) (p_acknowledge_handler p) (p_config
    p) (p_command_queue p) (p_total_waiting_data p) (p_command_fragments p) (p_channel_states
    p) (p_flow_control p) (p_bandwidth_throttle p) (p_statistics p) (p_tx_pool p)
    (p_compression_pool p) (p_pmtu p).
Definition set_last_sent (x : Instant) (p : Peer) : Peer :=
  mkPeer (p_last_heard p) x (p_remote_address p) (p_state p) (p_peer_id p)
    (p_incoming_session_id p) (p_outgoing_session_id p) (p_connect_id p)
    (p_outgoing_reliable_sequence p) (p_outgoing_unreliable_sequence p)
    (p_incoming_reliable_sequence p) (p_incoming_unreliable_sequence p)
    (p_next_unreliable_sequence p) (p_unsequenced_state p) (p_acknowledge_handler p) (p_config
    p) (p_command_queue p) (p_total_waiting_data p) (p_command_fragments p) (p_channel_states
    p) (p_flow_control p) (p_bandwidth_throttle p) (p_statistics p) (p_tx_pool p)
    (p_compression_pool p) (p_pmtu p).
Definition set_state (x : PeerState) (p : Peer) : Peer :=
  mkPeer (p_last_heard p) (p_last_sent p) (p_remote_address p) x (p_peer_id p)
    (p_incoming_session_id p) (p_outgoing_session_id p) (p_connect_id p)
    (p_outgoing_reliable_sequence p) (p_outgoing_unreliable_sequence p)
    (p_incoming_reliable_sequence p) (p_incoming_unreliable_sequence p)
    (p_next_unreliable_sequence p) (p_unsequenced_state p) (p_acknowledge_handler p) (p_config
    p) (p_command_queue p) (p_total_waiting_data p) (p_command_fragments p) (p_channel_states
    p) (p_flow_control p) (p_bandwidth_throttle p) (p_statistics p) (p_tx_pool p)
    (p_compression_pool p) (p_pmtu p).
Definition set_peer_id (x : Z) (p : Peer) : Peer :=
  mkPeer (p_last_heard p) (p_last_sent p) (p_remote_address p) (p_state p) x
    (p_incoming_session_id p) (p_outgoing_session_id p) (p_connect_id p)
    (p_outgoing_reliable_sequence p) (p_outgoing_unreliable_sequence p)
    (p_incoming_reliable_sequence p) (p_incoming_unreliable_sequence p)
    (p_next_unreliable_sequence p) (p_unsequenced_state p) (p_acknowledge_handler p) (p_config
    p) (p_command_queue p) (p_total_waiting_data p) (p_command_fragments p) (p_channel_states
    p) (p_flow_control p) (p_bandwidth_throttle p) (p_statistics p) (p_tx_pool p)
    (p_compression_pool p) (p_pmtu p).
Definition set_incoming_session_id (x : Z) (p : Peer) : Peer :=
  mkPeer (p_last_heard p) (p_last_sent p) (p_remote_address p) (p_state p) (p_peer_id p) x
    (p_outgoing_session_id p) (p_connect_id p) (p_outgoing_reliable_sequence p)
    (p_outgoing_unreliable_sequence p) (p_incoming_reliable_sequence p)
    (p_incoming_unreliable_sequence p) (p_next_unreliable_sequence p) (p_unsequenced_state p)
    (p_acknowledge_handler p) (p_config p) (p_command_queue p) (p_total_waiting_data p)
    (p_command_fragments p) (p_channel_states p) (p_flow_control p) (p_bandwidth_throttle p)
    (p_statistics p) (p_tx_pool p) (p_compression_pool p) (p_pmtu p).
Definition set_connect_id (x : Z) (p : Peer) : Peer :=
  mkPeer (p_last_heard p) (p_last_sent p) (p_remote_address p) (p_state p) (p_peer_id p)
    (p_incoming_session_id p) (p_outgoing_session_id p) x (p_outgoing_reliable_sequence p)
    (p_outgoing_unreliable_sequence p) (p_incoming_reliable_sequence p)
    (p_incoming_unreliable_sequence p) (p_next_unreliable_sequence p) (p_unsequenced_state p)
    (p_acknowledge_handler p) (p_config p) (p_command_queue p) (p_total_waiting_data p)
    (p_command_fragments p) (p_channel_states p) (p_flow_control p) (p_bandwidth_throttle p)
    (p_statistics p) (p_tx_pool p) (p_compression_pool p) (p_pmtu p).
Definition set_next_unreliable_sequence (x : Z) (p : Peer) : Peer :=
  mkPeer (p_last_heard p) (p_last_sent p) (p_remote_address p) (p_state p) (p_peer_id p)
    (p_incoming_session_id p) (p_outgoing_session_id p) (p_connect_id p)
    (p_outgoing_reliable_sequence p) (p_outgoing_unreliable_sequence p)
    (p_incoming_reliable_sequence p) (p_incoming_unreliable_sequence p) x (p_unsequenced_state
    p) (p_acknowledge_handler p) (p_config p) (p_command_queue p) (p_total_waiting_data p)
    (p_command_fragments p) (p_channel_states p) (p_flow_control p) (p_bandwidth_throttle p)
    (p_statistics p) (p_tx_pool p) (p_compression_pool p) (p_pmtu p).
Definition set_unsequenced_state (x : UnsequencedState) (p : Peer) : Peer :=
  mkPeer (p_last_heard p) (p_last_sent p) (p_remote_address p) (p_state p) (p_peer_id p)
    (p_incoming_session_id p) (p_outgoing_session_id p) (p_connect_id p)
    (p_outgoing_reliable_sequence p) (p_outgoing_unreliable_sequence p)
    (p_incoming_reliable_sequence p) (p_incoming_unreliable_sequence p)
    (p_next_unreliable_sequence p) x (p_acknowledge_handler p) (p_config p) (p_command_queue
    p) (p_total_waiting_data p) (p_command_fragments p) (p_channel_states p) (p_flow_control
    p) (p_bandwidth_throttle p) (p_statistics p) (p_tx_pool p) (p_compression_pool p) (p_pmtu
    p).
Definition set_acknowledge_handler (x : AcknowledgmentHandler) (p : Peer) : Peer :=
  mkPeer (p_last_heard p) (p_last_sent p) (p_remote_address p) (p_state p) (p_peer_id p)
    (p_incoming_session_id p) (p_outgoing_session_id p) (p_connect_id p)
    (p_outgoing_reliable_sequence p) (p_outgoing_unreliable_sequence p)
    (p_incoming_reliable_sequence p) (p_incoming_unreliable_sequence p)
    (p_next_unreliable_sequence p) (p_unsequenced_state p) x (p_config p) (p_command_queue p)
    (p_total_waiting_data p) (p_command_fragments p) (p_channel_states p) (p_flow_control p)
    (p_bandwidth_throttle p) (p_statistics p) (p_tx_pool p) (p_compression_pool p) (p_pmtu p).
Definition set_config (x : Config) (p : Peer) : Peer :=
  mkPeer (p_last_heard p) (p_last_sent p) (p_remote_address p) (p_state p) (p_peer_id p)
    (p_incoming_session_id p) (p_outgoing_session_id p) (p_connect_id p)
    (p_outgoing_reliable_sequence p) (p_outgoing_unreliable_sequence p)
    (p_incoming_reliable_sequence p) (p_incoming_unreliable_sequence p)
    (p_next_unreliable_sequence p) (p_unsequenced_state p) (p_acknowledge_handler p) x
    (p_command_queue p) (p_total_waiting_data p) (p_command_fragments p) (p_channel_states p)
    (p_flow_control p) (p_bandwidth_throttle p) (p_statistics p) (p_tx_pool p)
    (p_compression_pool p) (p_pmtu p).
Definition set_command_queue (x : CommandQueue) (p : Peer) : Peer :=
  mkPeer (p_last_heard p) (p_last_sent p) (p_remote_address p) (p_state p) (p_peer_id p)
    (p_incoming_session_id p) (p_outgoing_session_id p) (p_connect_id p)
    (p_outgoing_reliable_sequence p) (p_outgoing_unreliable_sequence p)
    (p_incoming_reliable_sequence p) (p_incoming_unreliable_sequence p)
    (p_next_unreliable_sequence p) (p_unsequenced_state p) (p_acknowledge_handler p) (p_config
    p) x (p_total_waiting_data p) (p_command_fragments p) (p_channel_states p) (p_flow_control
    p) (p_bandwidth_throttle p) (p_statistics p) (p_tx_pool p) (p_compression_pool p) (p_pmtu
    p).
Definition set_total_waiting_data (x : Z) (p : Peer) : Peer :=
  mkPeer (p_last_heard p) (p_last_sent p) (p_remote_address p) (p_state p) (p_peer_id p)
    (p_incoming_session_id p) (p_outgoing_session_id p) (p_connect_id p)
    (p_outgoing_reliable_sequence p) (p_outgoing_unreliable_sequence p)
    (p_incoming_reliable_sequence p) (p_incoming_unreliable_sequence p)
    (p_next_unreliable_sequence p) (p_unsequenced_state p) (p_acknowledge_handler p) (p_config
    p) (p_command_queue p) x (p_command_fragments p) (p_channel_states p) (p_flow_control p)
    (p_bandwidth_throttle p) (p_statistics p) (p_tx_pool p) (p_compression_pool p) (p_pmtu p).
Definition set_command_fragments (x : gmap Z CommandFragmentBuffer) (p : Peer) : Peer :=
  mkPeer (p_last_heard p) (p_last_sent p) (p_remote_address p) (p_state p) (p_peer_id p)
    (p_incoming_session_id p) (p_outgoing_session_id p) (p_connect_id p)
    (p_outgoing_reliable_sequence p) (p_outgoing_unreliable_sequence p)
    (p_incoming_reliable_sequence p) (p_incoming_unreliable_sequence p)
    (p_next_unreliable_sequence p) (p_unsequenced_state p) (p_acknowledge_handler p) (p_config
    p) (p_command_queue p) (p_total_waiting_data p) x (p_channel_states p) (p_flow_control p)
    (p_bandwidth_throttle p) (p_statistics p) (p_tx_pool p) (p_compression_pool p) (p_pmtu p).
Definition set_channel_states (x : gmap Z ChannelState) (p : Peer) : Peer :=
  mkPeer (p_last_heard p) (p_last_sent p) (p_remote_address p) (p_state p) (p_peer_id p)
    (p_incoming_session_id p) (p_outgoing_session_id p) (p_connect_id p)
    (p_outgoing_reliable_sequence p) (p_outgoing_unreliable_sequence p)
    (p_incoming_reliable_sequence p) (p_incoming_unreliable_sequence p)
    (p_next_unreliable_sequence p) (p_unsequenced_state p) (p_acknowledge_handler p) (p_config
    p) (p_command_queue p) (p_total_waiting_data p) (p_command_fragments p) x (p_flow_control
    p) (p_bandwidth_throttle p) (p_statistics p) (p_tx_pool p) (p_compression_pool p) (p_pmtu
    p).
Definition set_flow_control (x : FlowControl) (p : Peer) : Peer :=
  mkPeer (p_last_heard p) (p_last_sent p) (p_remote_address p) (p_state p) (p_peer_id p)
    (p_incoming_session_id p) (p_outgoing_session_id p) (p_connect_id p)
    (p_outgoing_reliable_sequence p) (p_outgoing_unreliable_sequence p)
    (p_incoming_reliable_sequence p) (p_incoming_unreliable_sequence p)
    (p_next_unreliable_sequence p) (p_unsequenced_state p) (p_acknowledge_handler p) (p_config
    p) (p_command_queue p) (p_total_waiting_data p) (p_command_fragments p) (p_channel_states
    p) x (p_bandwidth_throttle p) (p_statistics p) (p_tx_pool p) (p_compression_pool p)
    (p_pmtu p).
Definition set_bandwidth_throttle (x : BandwidthThrottle) (p : Peer) : Peer :=
  mkPeer (p_last_heard p) (p_last_sent p) (p_remote_address p) (p_state p) (p_peer_id p)
    (p_incoming_session_id p) (p_outgoing_session_id p) (p_connect_id p)
    (p_outgoing_reliable_sequence p) (p_outgoing_unreliable_sequence p)
    (p_incoming_reliable_sequence p) (p_incoming_unreliable_sequence p)
    (p_next_unreliable_sequence p) (p_unsequenced_state p) (p_acknowledge_handler p) (p_config
    p) (p_command_queue p) (p_total_waiting_data p) (p_command_fragments p) (p_channel_states
    p) (p_flow_control p) x (p_statistics p) (p_tx_pool p) (p_compression_pool p) (p_pmtu p).
Definition set_statistics (x : PeerStatistics) (p : Peer) : Peer :=
  mkPeer (p_last_heard p) (p_last_sent p) (p_remote_address p) (p_state p) (p_peer_id p)
    (p_incoming_session_id p) (p_outgoing_session_id p) (p_connect_id p)
    (p_outgoing_reliable_sequence p) (p_outgoing_unreliable_sequence p)
    (p_incoming_reliable_sequence p) (p_incoming_unreliable_sequence p)
    (p_next_unreliable_sequence p) (p_unsequenced_state p) (p_acknowledge_handler p) (p_config
    p) (p_command_queue p) (p_total_waiting_data p) (p_command_fragments p) (p_channel_states
    p) (p_flow_control p) (p_bandwidth_throttle p) x (p_tx_pool p) (p_compression_pool p)
    (p_pmtu p).
Definition set_tx_pool (x : PacketAllocator) (p : Peer) : Peer :=
  mkPeer (p_last_heard p) (p_last_sent p) (p_remote_address p) (p_state p) (p_peer_id p)
    (p_incoming_session_id p) (p_outgoing_session_id p) (p_connect_id p)
    (p_outgoing_reliable_sequence p) (p_outgoing_unreliable_sequence p)
    (p_incoming_reliable_sequence p) (p_incoming_unreliable_sequence p)
    (p_next_unreliable_sequence p) (p_unsequenced_state p) (p_acknowledge_handler p) (p_config
    p) (p_command_queue p) (p_total_waiting_data p) (p_command_fragments p) (p_channel_states
    p) (p_flow_control p) (p_bandwidth_throttle p) (p_statistics p) x (p_compression_pool p)
    (p_pmtu p).
Definition set_compression_pool (x : CompressionBufferPool) (p : Peer) : Peer :=
  mkPeer (p_last_heard p) (p_last_sent p) (p_remote_address p) (p_state p) (p_peer_id p)
    (p_incoming_session_id p) (p_outgoing_session_id p) (p_connect_id p)
    (p_outgoing_reliable_sequence p) (p_outgoing_unreliable_sequence p)
    (p_incoming_reliable_sequence p) (p_incoming_unreliable_sequence p)
    (p_next_unreliable_sequence p) (p_unsequenced_state p) (p_acknowledge_handler p) (p_config
    p) (p_command_queue p) (p_total_waiting_data p) (p_command_fragments p) (p_channel_states
    p) (p_flow_control p) (p_bandwidth_throttle p) (p_statistics p) (p_tx_pool p) x (p_pmtu
    p).
Definition set_pmtu (x : PmtuDiscovery) (p : Peer) : Peer :=
  mkPeer (p_last_heard p) (p_last_sent p) (p_remote_address p) (p_state p) (p_peer_id p)
    (p_incoming_session_id p) (p_outgoing_session_id p) (p_connect_id p)
    (p_outgoing_reliable_sequence p) (p_outgoing_unreliable_sequence p)
    (p_incoming_reliable_sequence p) (p_incoming_unreliable_sequence p)
    (p_next_unreliable_sequence p) (p_unsequenced_state p) (p_acknowledge_handler p) (p_config
    p) (p_command_queue p) (p_total_waiting_data p) (p_command_fragments p) (p_channel_states
    p) (p_flow_control p) (p_bandwidth_throttle p) (p_statistics p) (p_tx_pool p)
    (p_compression_pool p) x.

(* ------------------------------------------------------------------ *)
(** ** Computations on a peer                                           *)
(* ------------------------------------------------------------------ *)

Definition PeerM (A : Type) : Type := Peer -> Rng -> option (A * Peer * Rng).
#[export] Instance PeerM_ret : MRet PeerM := fun A a p r => Some (a, p, r).
#[export] Instance PeerM_bind : MBind PeerM := fun A B f m p r =>
  match m p r with Some (a, p, r) => f a p r | None => None end.

Definition gets {A} (f : Peer -> A) : PeerM A := fun p r => Some (f p, p, r).
Definition modify (f : Peer -> Peer) : PeerM unit := fun p r => Some (tt, f p, r).
(** A computation that may panic. *)
Definition may_panic {A} (f : Peer -> option A) : PeerM A := fun p r =>
  match f p with Some a => Some (a, p, r) | None => None end.
(** A pure update of the peer that also returns a value. *)
Definition updating {A} (f : Peer -> A * Peer) : PeerM A := fun p r =>
  let '(a, p) := f p in Some (a, p, r).
Definition drawing {A} (f : Rng -> A * Rng) : PeerM A := fun p r =>
  let '(a, r) := f r in Some (a, p, r).

(** A loop over a list. *)
Fixpoint for_each {A} (f : A -> PeerM unit) (l : list A) : PeerM unit :=
  match l with
  | [] => mret tt
  | x :: l => _ ← f x; for_each f l
  end.

(* ------------------------------------------------------------------ *)
(** ** Construction                                                     *)
(* ------------------------------------------------------------------ *)

(** The generator is drawn for [outgoing_session_id], then for [connect_id]. *)
Definition Peer_new (addr : SocketAddr) (config : Config) (time : Instant) (rng : Rng)
  : Peer * Rng :=
  let '(outgoing_session_id, rng) := random_u16 rng in
  let '(connect_id, rng) := random_u32 rng in
  let handler := AcknowledgmentHandler_new time in
  let handler :=
    if use_advanced_throttling config then
      AcknowledgmentHandler_congestion_mut
        (CongestionControl_enable_advanced_throttling (throttle_scale config)
           (throttle_acceleration config) (throttle_deceleration config)
           (throttle_interval config)) handler
    else handler in
  ({| p_last_heard := time;
      p_last_sent := time;
      p_remote_address := addr;
      p_state := Idle;
      p_peer_id := 0;
      p_incoming_session_id := 0;
      p_outgoing_session_id := outgoing_session_id;
      p_connect_id := connect_id;
      p_outgoing_reliable_sequence := 0;
      p_outgoing_unreliable_sequence := 0;
      p_incoming_reliable_sequence := 0;
      p_incoming_unreliable_sequence := 0;
      p_next_unreliable_sequence := 0;
      p_unsequenced_state := UnsequencedState_new;
      p_acknowledge_handler := handler;
      p_config := config;
      p_command_queue := CommandQueue_default;
      p_total_waiting_data := 0;
      p_command_fragments := ∅;
      p_channel_states := ∅;
      p_flow_control := FlowControl_new config;
      p_bandwidth_throttle := BandwidthThrottle_new (outgoing_bandwidth_limit config)
                                (incoming_bandwidth_limit config) time;
      p_statistics := PeerStatistics_default;
      p_tx_pool := PacketAllocator_new (max_packet_size config) 256;
      p_compression_pool := CompressionBufferPool_default;
      p_pmtu := PmtuDiscovery_new config time |}, rng).

(* ------------------------------------------------------------------ *)
(** ** Connection state                                                 *)
(* ------------------------------------------------------------------ *)

Definition Peer_is_established (p : Peer) : bool := PeerState_is_established (p_state p).

(** [self.command_queue.enqueue(command)], which bypasses the accounting of [enqueue_command]. *)
Definition queue_push (command : ProtocolCommand) (p : Peer) : Peer :=
  set_command_queue (CommandQueue_enqueue command (p_command_queue p)).2 p.

Definition Peer_initiate_connect (p : Peer) : Peer :=
  if bool_decide (p_state p = Idle) then
    queue_push (Connect (channel_count (p_config p)) 1400 1 (p_outgoing_session_id p)
                  (p_connect_id p))
      (set_state Connecting p)
  else p.

Definition Peer_record_send (p : Peer) : bool * Peer :=
  let was_est := Peer_is_established p in
  let p :=
    match p_state p with
    | Idle =>
        if use_connection_handshake (p_config p) then Peer_initiate_connect p
        else set_state Connecting p
    | ConnectionSucceeded => set_state Connected p
    | _ => p
    end in
  (negb was_est && Peer_is_established p, p).

Definition Peer_record_recv (p : Peer) : bool * Peer :=
  let was_est := Peer_is_established p in
  let p :=
    match p_state p with
    | Idle => if negb (use_connection_handshake (p_config p)) then set_state Connected p else p
    | Connecting =>
        if negb (use_connection_handshake (p_config p)) then set_state Connected p else p
    | AcknowledgingConnect => set_state Connected p
    | _ => p
    end in
  (negb was_est && Peer_is_established p, p).

Definition Peer_disconnect (p : Peer) : Peer :=
  if negb (PeerState_is_disconnecting (p_state p))
  then queue_push (Disconnect 0) (set_state Disconnecting p)
  else p.

(* ------------------------------------------------------------------ *)
(** ** Measurements                                                     *)
(* ------------------------------------------------------------------ *)

Definition Peer_get_state (p : Peer) : PeerState := p_state p.
Definition Peer_packets_in_flight (p : Peer) : Z :=
  AcknowledgmentHandler_packets_in_flight (p_acknowledge_handler p).
(** The methods [last_heard] and [last_sent]. *)
Definition Peer_last_heard (time : Instant) (p : Peer) : Duration :=
  duration_since time (p_last_heard p).
Definition Peer_last_sent (time : Instant) (p : Peer) : Duration :=
  duration_since time (p_last_sent p).
Definition Peer_rtt (p : Peer) : Duration := AcknowledgmentHandler_rtt (p_acknowledge_handler p).
Definition Peer_rto (p : Peer) : option Duration :=
  AcknowledgmentHandler_rto (p_acknowledge_handler p).
Definition Peer_loss_rate (p : Peer) : f32 :=
  AcknowledgmentHandler_loss_rate (p_acknowledge_handler p).
Definition Peer_throttle (p : Peer) : f32 :=
  AcknowledgmentHandler_throttle (p_acknowledge_handler p).
Definition Peer_update_throttle (time : Instant) : PeerM bool :=
  '(b, h) ← may_panic (fun p => AcknowledgmentHandler_update_throttle time (p_acknowledge_handler p));
  _ ← modify (set_acknowledge_handler h);
  mret b.

(** [self.statistics.x += n]. *)
Definition Peer_record_packet_sent : PeerM unit :=
  n ← may_panic (fun p => add_u64 (packets_sent (p_statistics p)) 1);
  modify (fun p => let s := p_statistics p in
    set_statistics (mkPeerStatistics n (packets_received s) (packets_lost s) (bytes_sent s)
      (bytes_received s)) p).
Definition Peer_record_packet_received : PeerM unit :=
  n ← may_panic (fun p => add_u64 (packets_received (p_statistics p)) 1);
  modify (fun p => let s := p_statistics p in
    set_statistics (mkPeerStatistics (packets_sent s) n (packets_lost s) (bytes_sent s)
      (bytes_received s)) p).
Definition Peer_record_packet_lost : PeerM unit :=
  n ← may_panic (fun p => add_u64 (packets_lost (p_statistics p)) 1);
  modify (fun p => let s := p_statistics p in
    set_statistics (mkPeerStatistics (packets_sent s) (packets_received s) n (bytes_sent s)
      (bytes_received s)) p).
Definition Peer_record_data_sent (bytes : Z) : PeerM unit :=
  n ← may_panic (fun p => add_u64 (bytes_sent (p_statistics p)) bytes);
  modify (fun p => let s := p_statistics p in
    set_statistics (mkPeerStatistics (packets_sent s) (packets_received s) (packets_lost s) n
      (bytes_received s)) p).
Definition Peer_record_data_received (bytes : Z) : PeerM unit :=
  n ← may_panic (fun p => add_u64 (bytes_received (p_statistics p)) bytes);
  modify (fun p => let s := p_statistics p in
    set_statistics (mkPeerStatistics (packets_sent s) (packets_received s) (packets_lost s)
      (bytes_sent s) n) p).

Definition Peer_get_config (p : Peer) : Config := p_config p.
Definition Peer_statistics (p : Peer) : PeerStatistics := p_statistics p.
(** [statistics_mut]: an update through the mutable reference. *)
Definition Peer_statistics_mut (f : PeerStatistics -> PeerStatistics) (p : Peer) : Peer :=
  set_statistics (f (p_statistics p)) p.
Definition Peer_bandwidth_utilization (p : Peer) : f32 :=
  BandwidthThrottle_bandwidth_utilization (p_bandwidth_throttle p).
Definition Peer_incoming_bandwidth_utilization (p : Peer) : f32 :=
  BandwidthThrottle_incoming_bandwidth_utilization (p_bandwidth_throttle p).
(** [impl Debug]: [ip:port]. *)
Definition Peer_debug (p : Peer) : string :=
  IpAddr_to_string (sa_ip (p_remote_address p)) +:+ ":" +:+ pretty (sa_port (p_remote_address p)).
Definition Peer_gather_dropped_packets : PeerM (list SentPacket) :=
  '(dropped, h) ← may_panic (fun p => AcknowledgmentHandler_dropped_packets
                                         (p_acknowledge_handler p));
  _ ← modify (set_acknowledge_handler h);
  _ ← for_each (fun _ => Peer_record_packet_lost) dropped;
  mret dropped.

(* ------------------------------------------------------------------ *)
(** ** The command queue                                                *)
(* ------------------------------------------------------------------ *)

Definition command_data_size (command : ProtocolCommand) : Z :=
  match command with
  | SendReliable _ _ _ data | SendUnreliable _ data | SendUnreliableSequenced _ _ data
  | SendUnsequenced _ _ data | SendFragment _ _ _ _ _ data
  | SendUnreliableFragment _ _ _ _ data => Z.of_nat (sb_len data)
  | _ => 0
  end.

Definition Peer_enqueue_command (command : ProtocolCommand) : PeerM bool :=
  let data_size := command_data_size command in
  full ← may_panic (fun p =>
    if 0 <? max_waiting_data (p_config p) then
      new_total ← add_usize (p_total_waiting_data p) data_size;
      Some (max_waiting_data (p_config p) <? new_total)
    else Some false);
  if full : bool then mret false
  else
    total ← may_panic (fun p => add_usize (p_total_waiting_data p) data_size);
    _ ← modify (set_total_waiting_data total);
    updating (fun p =>
      let '(b, q) := CommandQueue_enqueue command (p_command_queue p) in
      (b, set_command_queue q p)).

Definition Peer_enqueue_ack_command (sent_time : option Z) : PeerM unit :=
  mask ← may_panic (fun p => AcknowledgmentHandler_ack_bitfield (p_acknowledge_handler p));
  sequence ← gets (fun p => AcknowledgmentHandler_remote_sequence_num (p_acknowledge_handler p));
  _ ← Peer_enqueue_command (Acknowledge sequence mask sent_time);
  mret tt.
Definition Peer_enqueue_ping_command (timestamp : Z) : PeerM unit :=
  _ ← Peer_enqueue_command (Ping timestamp); mret tt.
Definition Peer_enqueue_pong_command (timestamp : Z) : PeerM unit :=
  _ ← Peer_enqueue_command (Pong timestamp); mret tt.

Definition Peer_drain_commands : PeerM (list ProtocolCommand) :=
  updating (fun p =>
    let '(cs, q) := CommandQueue_drain (p_command_queue p) in
    (cs, set_command_queue q (set_total_waiting_data 0 p))).
Definition Peer_queued_commands_count (p : Peer) : Z := CommandQueue_len (p_command_queue p).
Definition Peer_has_queued_commands (p : Peer) : bool :=
  negb (CommandQueue_is_empty (p_command_queue p)).

(* ------------------------------------------------------------------ *)
(** ** Path MTU, flow control, bandwidth, unsequenced groups, fragments  *)
(* ------------------------------------------------------------------ *)

Definition Peer_current_fragment_size (p : Peer) : Z :=
  PmtuDiscovery_current_fragment_size (p_pmtu p).
Definition Peer_handle_pmtu (time : Instant) : PeerM unit :=
  rto ← may_panic Peer_rto;
  m ← gets p_pmtu;
  '(probe, m) ← drawing (fun r =>
    let '(probe, m, r) := PmtuDiscovery_handle_pmtu time rto r m in ((probe, m), r));
  _ ← modify (set_pmtu m);
  match probe with
  | Some probe_cmd => _ ← Peer_enqueue_command probe_cmd; mret tt
  | None => mret tt
  end.

Definition Peer_window_size (p : Peer) : Z := fc_window_size (p_flow_control p).
Definition Peer_reliable_data_in_transit (p : Peer) : Z :=
  fc_reliable_data_in_transit (p_flow_control p).
Definition Peer_set_window_size (window_size : Z) : PeerM unit :=
  f ← may_panic (fun p => FlowControl_set_window_size (p_config p) window_size (p_flow_control p));
  modify (set_flow_control f).
Definition Peer_record_reliable_data_sent (data_size : Z) (p : Peer) : Peer :=
  set_flow_control (FlowControl_record_reliable_data_sent data_size (p_flow_control p)) p.
Definition Peer_record_reliable_data_acked (data_size : Z) (p : Peer) : Peer :=
  set_flow_control (FlowControl_record_reliable_data_acked data_size (p_flow_control p)) p.
Definition Peer_can_send_reliable (p : Peer) : option bool :=
  FlowControl_can_send_reliable (p_config p) (Peer_packets_in_flight p) (p_flow_control p).
Definition Peer_adjust_window_size : PeerM unit :=
  f ← may_panic (fun p => FlowControl_adjust_window_size (p_config p) (Peer_loss_rate p)
                            (as_u32 (as_millis (Peer_rtt p))) (p_flow_control p));
  modify (set_flow_control f).

Definition Peer_update_bandwidth_window (time : Instant) (p : Peer) : bool * Peer :=
  let '(b, t) := BandwidthThrottle_update_bandwidth_window time (p_bandwidth_throttle p) in
  (b, set_bandwidth_throttle t p).
Definition Peer_record_bytes_sent (bytes : Z) (p : Peer) : Peer :=
  set_bandwidth_throttle (BandwidthThrottle_record_bytes_sent bytes (p_bandwidth_throttle p)) p.
Definition Peer_record_bytes_received (bytes : Z) (p : Peer) : Peer :=
  set_bandwidth_throttle
    (BandwidthThrottle_record_bytes_received bytes (p_bandwidth_throttle p)) p.
Definition Peer_can_send_within_bandwidth (p : Peer) : bool :=
  BandwidthThrottle_can_send_within_bandwidth (p_bandwidth_throttle p).
Definition Peer_can_receive_within_bandwidth (p : Peer) : bool :=
  BandwidthThrottle_can_receive_within_bandwidth (p_bandwidth_throttle p).

Definition Peer_next_unsequenced_group : PeerM Z :=
  updating (fun p =>
    let '(g, s) := UnsequencedState_next_outgoing_group (p_unsequenced_state p) in
    (g, set_unsequenced_state s p)).
Definition Peer_is_unsequenced_duplicate (group : Z) (p : Peer) : bool :=
  UnsequencedState_is_duplicate group (p_unsequenced_state p).
Definition Peer_mark_unsequenced_received (group : Z) (p : Peer) : Peer :=
  set_unsequenced_state (UnsequencedState_mark_received group (p_unsequenced_state p)) p.
Definition Peer_cleanup_stale_fragments (time : Instant) (p : Peer) : Peer :=
  set_command_fragments (cleanup_stale_fragments (p_command_fragments p) time) p.
