(* ===== verification/Fragmenter.v ===== *)
(** Enqueueing user data, fragmented when it does not fit one datagram:
    [bitfold-peer/src/peer/fragmenter.rs]. *)

From S2P Require Import Prelude Core Externs Buffers Packet Command CodecFacts Ack PeerParts.
From S2P Require Import Peer FragmentBuffer.

(** The datagram bytes around the framed commands: the command count, the compression header
    and the checksum. *)
Definition packet_overhead (c : Config) : Z :=
  let compression_overhead := match compression c with CompLz4 => 5 | _ => 1 end in
  let checksum_overhead := if use_checksums c then 4 else 0 in
  1 + compression_overhead + checksum_overhead.

(** [min(self.current_fragment_size() as usize, self.config.receive_buffer_max_size)]. *)
Definition Peer_datagram_cap (p : Peer) : Z :=
  Z.min (Peer_current_fragment_size p) (receive_buffer_max_size (p_config p)).

(** The payload a command with a header of [header] bytes may carry. *)
Definition payload_budget (p : Peer) (header : Z) : Z :=
  saturating_sub (saturating_sub (saturating_sub (Peer_datagram_cap p)
    (packet_overhead (p_config p))) 2) header.

(** [usize::div_ceil]. *)
Definition div_ceil (a b : Z) : Z := (a + b - 1) / b.

Definition slice (base : SharedBytes) (start len : Z) : option SharedBytes :=
  SharedBytes_slice base (Z.to_nat start) (Z.to_nat len).

Definition Peer_enqueue_reliable_data (channel_id : Z) (data : list Z) (ordered : bool)
  : PeerM Z :=
  sequence ← gets (fun p => AcknowledgmentHandler_local_sequence_num (p_acknowledge_handler p));
  max_payload_reliable ← gets (fun p => payload_budget p 7);
  fragment_payload ← gets (fun p => payload_budget p 9);
  max_frags ← gets (fun p => max_fragments (p_config p));
  if max_payload_reliable <? 1 then mret sequence
  else if zlen data <=? max_payload_reliable then
    _ ← Peer_enqueue_command (SendReliable channel_id sequence ordered
                                (SharedBytes_from_arc data));
    mret sequence
  else if fragment_payload <? 1 then mret sequence
  else
    let total_fragments := div_ceil (zlen data) fragment_payload in
    if u8_max <? total_fragments then mret sequence
    else if max_frags <? total_fragments then
      let base := SharedBytes_from_arc data in
      fragment_data ← may_panic (fun _ => slice base 0 (Z.min fragment_payload (zlen data)));
      _ ← Peer_enqueue_command (SendFragment channel_id sequence ordered 0 1 fragment_data);
      mret sequence
    else
      _ ← for_each (fun fragment_id =>
            let start := fragment_id * fragment_payload in
            let fin := Z.min ((fragment_id + 1) * fragment_payload) (zlen data) in
            let base := SharedBytes_from_arc data in
            fragment_data ← may_panic (fun _ => slice base start (fin - start));
            _ ← Peer_enqueue_command (SendFragment channel_id sequence ordered fragment_id
                                        total_fragments fragment_data);
            mret tt) (seqZ 0 total_fragments);
      mret sequence.

Definition Peer_enqueue_unreliable_data (channel_id : Z) (data : list Z) : PeerM Z :=
  sequence ← gets p_next_unreliable_sequence;
  _ ← modify (set_next_unreliable_sequence (wrapping_add16 sequence 1));
  max_payload_unreliable ← gets (fun p => payload_budget p 4);
  fragment_payload ← gets (fun p => payload_budget p 8);
  max_frags ← gets (fun p => max_fragments (p_config p));
  if max_payload_unreliable <? 1 then mret sequence
  else if zlen data <=? max_payload_unreliable then
    _ ← Peer_enqueue_command (SendUnreliable channel_id (SharedBytes_from_arc data));
    mret sequence
  else if fragment_payload <? 1 then mret sequence
  else
    let total_fragments := div_ceil (zlen data) fragment_payload in
    if u8_max <? total_fragments then mret sequence
    else if max_frags <? total_fragments then
      let base := SharedBytes_from_arc data in
      fragment_data ← may_panic (fun _ => slice base 0 (Z.min fragment_payload (zlen data)));
      _ ← Peer_enqueue_command (SendUnreliableFragment channel_id sequence 0 1 fragment_data);
      mret sequence
    else
      _ ← for_each (fun fragment_id =>
            let start := fragment_id * fragment_payload in
            let fin := Z.min ((fragment_id + 1) * fragment_payload) (zlen data) in
            let base := SharedBytes_from_arc data in
            fragment_data ← may_panic (fun _ => slice base start (fin - start));
            _ ← Peer_enqueue_command (SendUnreliableFragment channel_id sequence fragment_id
                                        total_fragments fragment_data);
            mret tt) (seqZ 0 total_fragments);
      mret sequence.
