(* ===== verification/PeerEncoder.v ===== *)
(** From queued commands to datagrams: [bitfold-peer/src/peer/encoder.rs]. *)

From S2P Require Import Prelude Core Externs Buffers Packet Command Codec CodecFacts Framing.
From S2P Require Import PeerParts Peer Fragmenter.

Section Encoder.
Context {X : Externs}.

(** Encoding, compression and checksum of a command packet, with the buffers of the pools; the
    [?] returns keep the state changed so far. *)
Definition Peer_seal_packet (packet : CommandPacket) : PeerM (io_result (list Z)) :=
  scratch ← updating (fun p =>
    let '(b, pool) := PacketAllocator_allocate (p_tx_pool p) in (b, set_tx_pool pool p));
  match encode_packet_into [] packet with
  | Err e => mret (Err e)
  | Ok scratch =>
      compression_buffer ← updating (fun p =>
        let '(b, pool) := CompressionBufferPool_acquire (p_compression_pool p) in
        (b, set_compression_pool pool p));
      config ← gets p_config;
      match compress_with_buffer scratch (compression config) (compression_threshold config)
              compression_buffer with
      | Err e => mret (Err e)
      | Ok final_data =>
          _ ← modify (fun p => set_tx_pool (PacketAllocator_deallocate (p_tx_pool p) scratch) p);
          _ ← Peer_record_packet_sent;
          let final_data :=
            if use_checksums config then append_checksum_in_place final_data else final_data in
          _ ← Peer_record_data_sent (zlen final_data);
          mret (Ok final_data)
      end
  end.

Definition Peer_encode_queued_commands (now : Instant) : PeerM (io_result (list Z)) :=
  cs ← Peer_drain_commands;
  let packet := foldl CommandPacket_add_command (CommandPacket_new now) cs in
  Peer_seal_packet packet.

(** The selection loop: how many of the queued commands fit. *)
Fixpoint select_commands (static_overhead max_size : Z) (cs : list ProtocolCommand)
  (aggregated_len : Z) (selected_count : nat) : io_result nat :=
  match cs with
  | [] => Ok selected_count
  | cmd :: cs =>
      encoded ← encode_command cmd;
      let cmd_total := 2 + zlen encoded in
      if max_size <? static_overhead + aggregated_len + cmd_total then Ok selected_count
      else select_commands static_overhead max_size cs (aggregated_len + cmd_total)
             (S selected_count)
  end.

Definition is_pmtu_probe (c : option ProtocolCommand) : bool :=
  match c with Some (PMTUProbe _ _ _) => true | _ => false end.

Definition Peer_encode_queued_commands_bounded (max_size : Z) (now : Instant)
  : PeerM (io_result (option (list Z))) :=
  queued ← gets Peer_has_queued_commands;
  if negb queued then mret (Ok None)
  else
    config ← gets p_config;
    cs ← gets (fun p => CommandQueue_iter (p_command_queue p));
    let max_size :=
      if is_pmtu_probe (head cs) then receive_buffer_max_size config else max_size in
    let static_overhead := packet_overhead config in
    match select_commands static_overhead max_size cs 0 0 with
    | Err e => mret (Err e)
    | Ok O => mret (Ok None)
    | Ok selected_count =>
        drained ← Peer_drain_commands;
        let packet := foldl CommandPacket_add_command (CommandPacket_new now)
                        (take selected_count drained) in
        _ ← for_each (fun cmd => _ ← Peer_enqueue_command cmd; mret tt)
              (drop selected_count drained);
        sealed ← Peer_seal_packet packet;
        match sealed with
        | Err e => mret (Err e)
        | Ok final_data =>
            if max_size <? zlen final_data then mret (Ok None) else mret (Ok (Some final_data))
        end
    end.

End Encoder.
