(* ===== verification/CommandProcessor.v ===== *)
(** Processing of incoming datagrams and commands:
    [bitfold-peer/src/peer/command_processor.rs]. *)

From S2P Require Import Prelude Core Externs Buffers Packet Command Codec CodecFacts Framing.
From S2P Require Import SequenceBuffer Congestion Ack Bandwidth ChannelState FragmentBuffer.
From S2P Require Import Unsequenced FlowControl Pmtu PeerParts Peer Fragmenter.

(** [Packet::new(self.remote_address, payload, delivery, ordering, channel_id)]. *)
Definition incoming_packet (p : Peer) (payload : list Z) (d : DeliveryGuarantee)
  (o : OrderingGuarantee) (channel_id : Z) : Packet :=
  Packet_new (p_remote_address p) payload d o channel_id.

Definition one_packet (payload : list Z) (d : DeliveryGuarantee) (o : OrderingGuarantee)
  (channel_id : Z) : PeerM (result ErrorKind IncomingPackets) :=
  gets (fun p => Ok (IncomingPackets_one (incoming_packet p payload d o channel_id) TypePacket)).
Definition no_packets : PeerM (result ErrorKind IncomingPackets) :=
  mret (Ok IncomingPackets_zero).

(** [self.acknowledge_handler.process_incoming(a, b, field, time)]. *)
Definition acknowledge (seq ack field : Z) (time : Instant) : PeerM unit :=
  h ← may_panic (fun p => AcknowledgmentHandler_process_incoming seq ack field time
                            (p_acknowledge_handler p));
  modify (set_acknowledge_handler h).

(** [self.channel_states.entry(id).or_insert_with(ChannelState::new)], then one method of it. *)
Definition with_channel {A} (channel_id : Z) (f : ChannelState -> A * ChannelState) : PeerM A :=
  updating (fun p =>
    let '(a, st) := f (default ChannelState_new (p_channel_states p !! channel_id)) in
    (a, set_channel_states (<[channel_id := st]> (p_channel_states p)) p)).

Definition process_send_reliable (channel_id sequence : Z) (ordered : bool) (data : SharedBytes)
  (time : Instant) : PeerM (result ErrorKind IncomingPackets) :=
  _ ← acknowledge sequence sequence 0 time;
  _ ← Peer_enqueue_ack_command None;
  if ordered then
    ordered_packets ← with_channel channel_id
      (ChannelState_process_ordered sequence (SharedBytes_from_arc (SharedBytes_to_arc data)));
    gets (fun p => Ok (IncomingPackets_many
      ((fun packet_data => (incoming_packet p (SharedBytes_to_arc packet_data) Reliable
                              (Ordered None) channel_id, TypePacket)) <$> ordered_packets)))
  else one_packet (SharedBytes_to_arc data) Reliable OrderNone channel_id.

Definition process_send_unreliable_sequenced (channel_id sequence : Z) (data : SharedBytes)
  : PeerM (result ErrorKind IncomingPackets) :=
  newest ← with_channel channel_id
    (ChannelState_process_sequenced sequence (SharedBytes_from_arc (SharedBytes_to_arc data)));
  match newest with
  | Some packet_data =>
      one_packet (SharedBytes_to_arc packet_data) Unreliable (Sequenced None) channel_id
  | None => no_packets
  end.

Definition process_send_unsequenced (channel_id unsequenced_group : Z) (data : SharedBytes)
  : PeerM (result ErrorKind IncomingPackets) :=
  duplicate ← gets (Peer_is_unsequenced_duplicate unsequenced_group);
  if duplicate : bool then no_packets
  else
    _ ← modify (Peer_mark_unsequenced_received unsequenced_group);
    one_packet (SharedBytes_to_arc data) Unreliable Unsequenced channel_id.

(** [self.command_fragments.entry(sequence).or_insert_with(...)] and [add_fragment]; if the
    buffer is then complete it is taken out of the map. *)
Definition add_to_fragments (channel_id sequence : Z) (ordered : bool)
  (fragment_id fragment_count : Z) (data : SharedBytes) (time : Instant)
  : PeerM (option CommandFragmentBuffer) :=
  updating (fun p =>
    let buffer := default (CommandFragmentBuffer_new channel_id fragment_count ordered time)
                    (p_command_fragments p !! sequence) in
    let buffer := CommandFragmentBuffer_add_fragment fragment_id (SharedBytes_to_arc data) buffer in
    if CommandFragmentBuffer_is_complete buffer
    then (Some buffer, set_command_fragments (delete sequence (p_command_fragments p)) p)
    else (None, set_command_fragments (<[sequence := buffer]> (p_command_fragments p)) p)).

Definition process_send_fragment (channel_id sequence : Z) (ordered : bool)
  (fragment_id fragment_count : Z) (data : SharedBytes) (time : Instant)
  : PeerM (result ErrorKind IncomingPackets) :=
  _ ← acknowledge sequence sequence 0 time;
  complete ← add_to_fragments channel_id sequence ordered fragment_id fragment_count data time;
  match complete with
  | None => no_packets
  | Some buffer =>
      let channel_id := CommandFragmentBuffer_channel_id buffer in
      let is_ordered := CommandFragmentBuffer_is_ordered buffer in
      match CommandFragmentBuffer_reassemble buffer with
      | None => no_packets
      | Some reassembled =>
          _ ← Peer_enqueue_ack_command None;
          if is_ordered then
            ready_packets ← with_channel channel_id
              (ChannelState_process_ordered sequence (SharedBytes_from_vec reassembled));
            match ready_packets with
            | [] => no_packets
            | [payload] => one_packet (SharedBytes_to_arc payload) Reliable OrderNone channel_id
            | _ =>
                gets (fun p => Ok (IncomingPackets_many
                  ((fun payload => (incoming_packet p (SharedBytes_to_arc payload) Reliable
                                      OrderNone channel_id, TypePacket)) <$> ready_packets)))
            end
          else one_packet reassembled Reliable OrderNone channel_id
      end
  end.

Definition process_send_unreliable_fragment (channel_id sequence fragment_id fragment_count : Z)
  (data : SharedBytes) (time : Instant) : PeerM (result ErrorKind IncomingPackets) :=
  complete ← add_to_fragments channel_id sequence false fragment_id fragment_count data time;
  match complete with
  | None => no_packets
  | Some buffer =>
      match CommandFragmentBuffer_reassemble buffer with
      | None => no_packets
      | Some reassembled =>
          one_packet reassembled Unreliable OrderNone (CommandFragmentBuffer_channel_id buffer)
      end
  end.

Definition process_connect (channels outgoing_session_id connect_id : Z)
  : PeerM (result ErrorKind IncomingPackets) :=
  state ← gets p_state;
  if bool_decide (state = Idle) then
    _ ← modify (set_incoming_session_id outgoing_session_id);
    peer_id ← drawing random_u16;
    _ ← modify (fun p => set_state AcknowledgingConnect
                           (set_connect_id connect_id (set_peer_id peer_id p)));
    _ ← modify (fun p => queue_push
          (VerifyConnect (p_peer_id p) (Z.min channels (channel_count (p_config p))) 1400
             (p_incoming_session_id p) (p_outgoing_session_id p) (Peer_window_size p)) p);
    no_packets
  else no_packets.

Definition process_verify_connect
  (peer_id incoming_session_id outgoing_session_id window_size : Z)
  : PeerM (result ErrorKind IncomingPackets) :=
  state ← gets p_state;
  if bool_decide (state = Connecting) then
    _ ← modify (fun p => set_incoming_session_id incoming_session_id (set_peer_id peer_id p));
    config ← gets p_config;
    _ ← (if use_window_flow_control config then
           own ← gets Peer_window_size;
           Peer_set_window_size (Z.min window_size own)
         else mret tt);
    own_session ← gets p_outgoing_session_id;
    if negb (outgoing_session_id =? own_session) then
      mret (Err (CouldNotReadHeader "Session ID mismatch"))
    else
      _ ← modify (set_state ConnectionSucceeded);
      no_packets
  else no_packets.

Definition Peer_process_command (command : ProtocolCommand) (time : Instant)
  : PeerM (result ErrorKind IncomingPackets) :=
  _ ← modify (set_last_heard time);
  match command with
  | Acknowledge sequence received_mask _ =>
      _ ← acknowledge sequence sequence received_mask time;
      no_packets
  | Ping timestamp => _ ← Peer_enqueue_pong_command timestamp; no_packets
  | Pong _ => no_packets
  | SendReliable channel_id sequence ordered data =>
      process_send_reliable channel_id sequence ordered data time
  | SendUnreliable channel_id data =>
      one_packet (SharedBytes_to_arc data) Unreliable OrderNone channel_id
  | SendUnreliableSequenced channel_id sequence data =>
      process_send_unreliable_sequenced channel_id sequence data
  | SendUnsequenced channel_id unsequenced_group data =>
      process_send_unsequenced channel_id unsequenced_group data
  | SendFragment channel_id sequence ordered fragment_id fragment_count data =>
      process_send_fragment channel_id sequence ordered fragment_id fragment_count data time
  | SendUnreliableFragment channel_id sequence fragment_id fragment_count data =>
      process_send_unreliable_fragment channel_id sequence fragment_id fragment_count data time
  | Disconnect _ => _ ← modify (set_state Zombie); no_packets
  | Connect channels _ _ outgoing_session_id connect_id =>
      process_connect channels outgoing_session_id connect_id
  | VerifyConnect peer_id _ _ incoming_session_id outgoing_session_id window_size =>
      process_verify_connect peer_id incoming_session_id outgoing_session_id window_size
  | BandwidthLimit incoming outgoing =>
      _ ← modify (fun p =>
            set_bandwidth_throttle
              (BandwidthThrottle_set_outgoing_bandwidth_limit outgoing
                (BandwidthThrottle_set_incoming_bandwidth_limit incoming (p_bandwidth_throttle p)))
              (set_config (Config_set_bandwidth incoming outgoing (p_config p)) p));
      no_packets
  | ThrottleConfigure interval acceleration deceleration =>
      _ ← modify (fun p => set_acknowledge_handler
            (AcknowledgmentHandler_congestion_mut
               (CongestionControl_configure_throttle interval acceleration deceleration)
               (p_acknowledge_handler p)) p);
      no_packets
  | PMTUProbe size token _ =>
      _ ← Peer_enqueue_command (PmtuDiscovery_create_reply size token);
      no_packets
  | PMTUReply size token =>
      _ ← modify (fun p => set_pmtu (PmtuDiscovery_process_reply size token time (p_pmtu p)).2 p);
      no_packets
  end.

Section Processor.
Context {X : Externs}.

(** The loop over the commands of a packet; the first error ends it. *)
Fixpoint process_commands (cs : list ProtocolCommand) (time : Instant)
  (all_packets : list (Packet * PacketType)) : PeerM (result ErrorKind IncomingPackets) :=
  match cs with
  | [] => mret (Ok (IncomingPackets_many all_packets))
  | command :: cs =>
      packets ← Peer_process_command command time;
      match packets with
      | Err e => mret (Err e)
      | Ok packets => process_commands cs time (all_packets ++ ZeroOrMore_collect packets)
      end
  end.

(** Checksum, decompression and decoding, which do not touch the peer. *)
Definition open_datagram (use_checksums : bool) (data : list Z) (now : Instant)
  : result ErrorKind CommandPacket :=
  payload ← (if use_checksums then to_header_error (validate_and_strip_checksum data)
             else Ok data);
  decompressed ← to_header_error (decompress payload);
  to_header_error (decode_packet decompressed now).

Definition Peer_process_command_packet (data : list Z) (time : Instant)
  : PeerM (result ErrorKind IncomingPackets) :=
  _ ← Peer_record_data_received (zlen data);
  config ← gets p_config;
  match open_datagram (use_checksums config) data time with
  | Err e => mret (Err e)
  | Ok command_packet =>
      _ ← Peer_record_packet_received;
      process_commands (commands command_packet) time []
  end.

End Processor.
