(* ===== verification/Session.v ===== *)
(** The interface between the session manager and a session engine:
    [bitfold-host/src/session.rs] and [event_types.rs]. *)

From S2P Require Import Prelude Core Packet.

(** What a session asks of the runtime. *)
Inductive Action (E : Type) : Type :=
| Send (bytes : list Z)
| Emit (event : E).
Arguments Send {E} bytes.
Arguments Emit {E} event.

Inductive SocketEvent : Set :=
| EvPacket (packet : Packet)
| EvConnect (addr : SocketAddr)
| EvTimeout (addr : SocketAddr)
| EvDisconnect (addr : SocketAddr).

(** The trait [Session], with its event types; methods that draw random numbers thread the
    generator, and [None] is a panic. *)
Class Session (S SendEvent ReceiveEvent : Type) := {
  event_address : SendEvent -> SocketAddr;
  create_session : Config -> SocketAddr -> Instant -> Rng -> S * Rng;
  is_established : S -> bool;
  should_drop : Instant -> S -> Rng -> option ((bool * list (Action ReceiveEvent)) * S * Rng);
  process_packet : list Z -> Instant -> S -> Rng -> option (list (Action ReceiveEvent) * S * Rng);
  process_event : SendEvent -> Instant -> S -> Rng -> option (list (Action ReceiveEvent) * S * Rng);
  update : Instant -> S -> Rng -> option (list (Action ReceiveEvent) * S * Rng)
}.

(** What actions hand out: datagrams, and events for the application. *)
Definition sends {E} (acts : list (Action E)) : list (list Z) :=
  omap (fun act => match act with Send bytes => Some bytes | Emit _ => None end) acts.
Definition emits {E} (acts : list (Action E)) : list E :=
  omap (fun act => match act with Send _ => None | Emit ev => Some ev end) acts.

Lemma emits_app {E} (l k : list (Action E)) : emits (l ++ k) = emits l ++ emits k.
Proof. unfold emits. by rewrite omap_app. Qed.
Lemma emits_all {E} (evs : list E) : emits (Emit <$> evs) = evs.
Proof. induction evs as [|ev evs IH]; [done|]. cbn. by rewrite <-IH at 2. Qed.
Lemma sends_all {E} dgs : sends (E := E) (Send <$> dgs) = dgs.
Proof. induction dgs as [|dg dgs IH]; [done|]. cbn. by rewrite <-IH at 2. Qed.
Lemma sends_app {E} (l k : list (Action E)) : sends (l ++ k) = sends l ++ sends k.
Proof. unfold sends. by rewrite omap_app. Qed.
Lemma emits_sends {E} dgs : emits (E := E) (Send <$> dgs) = [].
Proof. by induction dgs. Qed.
Lemma sends_emits {E} (evs : list E) : sends (Emit <$> evs) = [].
Proof. by induction evs. Qed.
