(* ===== verification/PeerSession.v ===== *)
(** The peer as a session engine: [bitfold-host/src/peer_session.rs]. *)

From S2P Require Import Prelude Float32 Core Externs Buffers Packet Command Codec CodecFacts.
From S2P Require Import Framing Ack Bandwidth Unsequenced Pmtu PeerParts Peer Fragmenter.
From S2P Require Import PeerEncoder CommandProcessor Session.

(** [SessionEventAddress] for [SocketEvent] and [Packet]. *)
Definition SocketEvent_address (e : SocketEvent) : SocketAddr :=
  match e with
  | EvPacket packet => pk_addr packet
  | EvConnect addr | EvTimeout addr | EvDisconnect addr => addr
  end.
Definition Packet_address (p : Packet) : SocketAddr := pk_addr p.

Section PeerSession.
Context {X : Externs}.

Definition Actions : Type := list (Action SocketEvent).

(** [should_drop] does not draw random numbers nor panic. *)
Definition Peer_should_drop (time : Instant) (p : Peer) : bool * Actions :=
  if bool_decide (p_state p = Zombie) then (true, [Emit (EvDisconnect (p_remote_address p))])
  else
    let should_drop :=
      (max_packets_in_flight (p_config p) <? Peer_packets_in_flight p)
      || (idle_connection_timeout (p_config p) <=? Peer_last_heard time p) in
    (should_drop,
     if should_drop then
       Emit (EvTimeout (p_remote_address p)) ::
       (if Peer_is_established p then [Emit (EvDisconnect (p_remote_address p))] else [])
     else []).

Definition Peer_process_packet (payload : list Z) (time : Instant) : PeerM Actions :=
  match payload with
  | [] => mret []
  | _ =>
      _ ← updating (Peer_update_bandwidth_window time);
      allowed ← gets Peer_can_receive_within_bandwidth;
      if negb allowed then mret []
      else
        _ ← modify (Peer_record_bytes_received (as_u32 (zlen payload)));
        packets ← Peer_process_command_packet payload time;
        match packets with
        | Ok packets =>
            connected ← updating Peer_record_recv;
            addr ← gets p_remote_address;
            mret ((if connected : bool then [Emit (EvConnect addr)] else [])
                  ++ ((fun incoming => Emit (EvPacket incoming.1)) <$> ZeroOrMore_collect packets))
        | Err _ => mret []
        end
  end.

(** The [while offset < base.len()] loop; every round takes at least one byte. *)
Fixpoint enqueue_unsequenced (fuel : nat) (channel_id : Z) (base : SharedBytes)
  (max_payload_unseq offset : Z) : PeerM unit :=
  match fuel with
  | O => mret tt
  | S fuel =>
      if offset <? Z.of_nat (sb_len base) then
        let len := Z.min max_payload_unseq (Z.of_nat (sb_len base) - offset) in
        chunk ← may_panic (fun _ => slice base offset len);
        unsequenced_group ← Peer_next_unsequenced_group;
        _ ← Peer_enqueue_command (SendUnsequenced channel_id unsequenced_group chunk);
        enqueue_unsequenced fuel channel_id base max_payload_unseq (offset + len)
      else mret tt
  end.

(** The flush loop; every datagram takes at least one command off the queue. *)
Fixpoint flush_commands (fuel : nat) (time : Instant) (actions : Actions) : PeerM Actions :=
  match fuel with
  | O => mret actions
  | S fuel =>
      go ← gets (fun p => Peer_has_queued_commands p && Peer_can_send_within_bandwidth p);
      if negb go then mret actions
      else
        cap ← gets Peer_datagram_cap;
        encoded ← Peer_encode_queued_commands_bounded cap time;
        match encoded with
        | Ok (Some bytes) =>
            _ ← modify (Peer_record_bytes_sent (as_u32 (zlen bytes)));
            flush_commands fuel time (actions ++ [Send bytes])
        | Ok None | Err _ => mret actions
        end
  end.
Definition Peer_flush (time : Instant) (actions : Actions) : PeerM Actions :=
  n ← gets (fun p => S (length (cq_commands (p_command_queue p))));
  flush_commands n time actions.

Definition Peer_process_event (event : Packet) (time : Instant) : PeerM Actions :=
  connected ← updating Peer_record_send;
  addr ← gets p_remote_address;
  let actions := if connected : bool then [Emit (EvConnect addr)] else [] in
  let channel_id := pk_channel_id event in
  let ordering := pk_ordering event in
  _ ← (match pk_delivery event with
       | Reliable =>
           let ordered := match ordering with OrderNone => false | _ => true end in
           _ ← Peer_enqueue_reliable_data channel_id (pk_payload event) ordered;
           mret tt
       | Unreliable =>
           match ordering with
           | Unsequenced =>
               budget ← gets (fun p => payload_budget p 6);
               let base := SharedBytes_from_arc (pk_payload event) in
               enqueue_unsequenced (S (sb_len base)) channel_id base (Z.max 1 budget) 0
           | _ =>
               _ ← Peer_enqueue_unreliable_data channel_id (pk_payload event);
               mret tt
           end
       end);
  Peer_flush time actions.

(** [clock] is the [Instant::now()] behind [time.elapsed()]. *)
Definition Peer_update (clock time : Instant) : PeerM Actions :=
  _ ← updating (Peer_update_bandwidth_window time);
  idle ← gets (fun p =>
    Peer_is_established p &&
    match heartbeat_interval (p_config p) with
    | Some heartbeat_interval =>
        (heartbeat_interval <=? Peer_last_sent time p)
        && (heartbeat_interval <=? Peer_last_heard time p)
    | None => false
    end);
  _ ← (if idle : bool
       then Peer_enqueue_ping_command (as_u32 (as_millis (duration_since clock time)))
       else mret tt);
  actions ← Peer_flush time [];
  _ ← Peer_handle_pmtu time;
  mret actions.

(** [impl Session for Peer]. *)
#[export] Instance Peer_Session (clock : Instant) : Session Peer Packet SocketEvent := {|
  event_address := Packet_address;
  create_session config address time rng := Peer_new address config time rng;
  is_established := Peer_is_established;
  should_drop time p rng := Some (Peer_should_drop time p, p, rng);
  process_packet := Peer_process_packet;
  process_event := Peer_process_event;
  update := Peer_update clock
|}.

End PeerSession.
