(* ===== verification/SessionManager.v ===== *)
(** The session manager: [bitfold-host/src/session_manager.rs].

    It is generic in the session engine ([Session]), in the datagram socket (the trait
    [Socket] of [bitfold-core/src/transport.rs]) and in the interceptor (the trait
    [Interceptor] of [bitfold-core/src/interceptor.rs]); the iteration order of its hash map
    is a parameter. *)

From S2P Require Import Prelude Core Buffers Packet Session.

(** The trait [Socket].  [receive_packet] is given the length of the buffer it may fill and
    returns the bytes it put there. *)
Class Transport (T : Type) := {
  send_packet : SocketAddr -> list Z -> T -> io_result Z * T;
  receive_packet : Z -> T -> io_result (list Z * SocketAddr) * T;
  local_addr : T -> io_result SocketAddr;
  is_blocking_mode : T -> bool
}.

(** The trait [Interceptor]: whether to go on, and the possibly modified bytes. *)
Class Interceptor (I : Type) := {
  on_receive : SocketAddr -> list Z -> I -> (bool * list Z) * I;
  on_send : SocketAddr -> list Z -> I -> (bool * list Z) * I
}.

(** [NoOpInterceptor]. *)
Definition NoOpInterceptor := unit.
Definition NoOpInterceptor_on_receive (_addr : SocketAddr) (_data : list Z) (i : NoOpInterceptor)
  : (bool * list Z) * NoOpInterceptor := ((true, _data), i).
Definition NoOpInterceptor_on_send (_addr : SocketAddr) (_data : list Z) (i : NoOpInterceptor)
  : (bool * list Z) * NoOpInterceptor := ((true, _data), i).
#[export] Instance NoOpInterceptor_Interceptor : Interceptor NoOpInterceptor := {|
  on_receive := NoOpInterceptor_on_receive;
  on_send := NoOpInterceptor_on_send
|}.

(** [Box<dyn Interceptor>]: an interceptor of the application, or the default one. *)
Inductive BoxInterceptor (I : Type) : Type :=
| Custom (i : I)
| NoOp (i : NoOpInterceptor).
Arguments Custom {I} i.
Arguments NoOp {I} i.
#[export] Instance BoxInterceptor_Interceptor {I} `{!Interceptor I}
  : Interceptor (BoxInterceptor I) := {|
  on_receive addr data b :=
    match b with
    | Custom i => let '(out, i) := on_receive addr data i in (out, Custom i)
    | NoOp i => let '(out, i) := on_receive addr data i in (out, NoOp i)
    end;
  on_send addr data b :=
    match b with
    | Custom i => let '(out, i) := on_send addr data i in (out, Custom i)
    | NoOp i => let '(out, i) := on_send addr data i in (out, NoOp i)
    end
|}.
(** [interceptor.unwrap_or_else(|| Box::new(NoOpInterceptor))]. *)
Definition boxed {I : Type} (interceptor : option I) : BoxInterceptor I :=
  match interceptor with Some i => Custom i | None => NoOp tt end.

(** The trait [EventSink], and the sink over a channel: the events sent and not yet received.
    The manager keeps the receiving end, so a send never fails. *)
Class EventSink (K E : Type) := { sink_send : E -> K -> K }.
Definition ChannelSink (E : Type) : Type := list E.
Definition ChannelSink_new {E} (sender : list E) : ChannelSink E := sender.
Definition ChannelSink_send {E} (event : E) (c : ChannelSink E) : ChannelSink E := c ++ [event].
#[export] Instance ChannelSink_EventSink {E} : EventSink (ChannelSink E) E := {|
  sink_send := ChannelSink_send
|}.

Section Manager.
Context {S SendEvent ReceiveEvent T I : Type}.
Context `{!Session S SendEvent ReceiveEvent, !Transport T, !Interceptor I}.
(** The iteration order of the [HashMap]. *)
Context (iteration_order : list SocketAddr -> list SocketAddr).

Record Messenger : Type := mkMessenger {
  mg_config : Config;
  mg_socket : T;
  mg_sent_events : ChannelSink ReceiveEvent;
  mg_pending_sends : list (SocketAddr * list Z);
  mg_pending_events : list ReceiveEvent;
  mg_interceptor : I;
  mg_send_pool : PacketAllocator
}.

Definition Messenger_new (config : Config) (socket : T) (event_sender : list ReceiveEvent)
  (interceptor : I) : Messenger :=
  mkMessenger config socket (ChannelSink_new event_sender) [] [] interceptor
    (PacketAllocator_new (max_packet_size config) 256).

(** [handle_actions]. *)
Definition handle_action (address : SocketAddr) (m : Messenger) (action : Action ReceiveEvent)
  : Messenger :=
  match action with
  | Send bytes =>
      mkMessenger (mg_config m) (mg_socket m) (mg_sent_events m)
        (mg_pending_sends m ++ [(address, bytes)]) (mg_pending_events m) (mg_interceptor m)
        (mg_send_pool m)
  | Emit ev =>
      mkMessenger (mg_config m) (mg_socket m) (mg_sent_events m) (mg_pending_sends m)
        (mg_pending_events m ++ [ev]) (mg_interceptor m) (mg_send_pool m)
  end.
Definition handle_actions (address : SocketAddr) (actions : list (Action ReceiveEvent))
  (m : Messenger) : Messenger := foldl (handle_action address) m actions.

(** One round of the first loop of [flush]; a send error is only logged. *)
Definition flush_send (m : Messenger) (s : SocketAddr * list Z) : Messenger :=
  let '(addr, payload) := s in
  let '((pass, payload), i) := on_send addr payload (mg_interceptor m) in
  let socket := if pass : bool then (send_packet addr payload (mg_socket m)).2 else mg_socket m in
  mkMessenger (mg_config m) socket (mg_sent_events m) (mg_pending_sends m)
    (mg_pending_events m) i (PacketAllocator_deallocate (mg_send_pool m) payload).
Definition Messenger_flush (m : Messenger) : Messenger :=
  let m := foldl flush_send
    (mkMessenger (mg_config m) (mg_socket m) (mg_sent_events m) [] (mg_pending_events m)
       (mg_interceptor m) (mg_send_pool m)) (mg_pending_sends m) in
  mkMessenger (mg_config m) (mg_socket m)
    (foldl (fun sink event => sink_send event sink) (mg_sent_events m) (mg_pending_events m))
    (mg_pending_sends m) [] (mg_interceptor m) (mg_send_pool m).

(** [sm_receive_buffer] is the length of [receive_buffer], whose contents never outlive a round
    of the receive loop. *)
Record SessionManager : Type := mkSessionManager {
  sm_sessions : gmap SocketAddr S;
  sm_receive_buffer : Z;
  sm_user_events : list SendEvent;
  sm_messenger : Messenger;
  sm_max_unestablished_sessions : Z;
  sm_duplicate_peer_count : gmap IpAddr Z;
  sm_max_duplicate_peers : Z
}.

Definition set_sessions (x : gmap SocketAddr S) (m : SessionManager) : SessionManager :=
  mkSessionManager x (sm_receive_buffer m) (sm_user_events m) (sm_messenger m)
    (sm_max_unestablished_sessions m) (sm_duplicate_peer_count m) (sm_max_duplicate_peers m).
Definition set_user_events (x : list SendEvent) (m : SessionManager) : SessionManager :=
  mkSessionManager (sm_sessions m) (sm_receive_buffer m) x (sm_messenger m)
    (sm_max_unestablished_sessions m) (sm_duplicate_peer_count m) (sm_max_duplicate_peers m).
Definition set_messenger (x : Messenger) (m : SessionManager) : SessionManager :=
  mkSessionManager (sm_sessions m) (sm_receive_buffer m) (sm_user_events m) x
    (sm_max_unestablished_sessions m) (sm_duplicate_peer_count m) (sm_max_duplicate_peers m).
Definition set_duplicate_peer_count (x : gmap IpAddr Z) (m : SessionManager) : SessionManager :=
  mkSessionManager (sm_sessions m) (sm_receive_buffer m) (sm_user_events m) (sm_messenger m)
    (sm_max_unestablished_sessions m) x (sm_max_duplicate_peers m).
(** [self.messenger.handle_actions(&address, actions)]. *)
Definition with_actions (address : SocketAddr) (actions : list (Action ReceiveEvent))
  (m : SessionManager) : SessionManager :=
  set_messenger (handle_actions address actions (sm_messenger m)) m.

Definition unestablished_session_count (m : SessionManager) : Z :=
  Z.of_nat (length (filter (fun s => is_established s.2 = false) (map_to_list (sm_sessions m)))).
(** The two ends of the channels the application holds, as the queues behind them. *)
Definition SessionManager_event_sender (m : SessionManager) : list SendEvent := sm_user_events m.
Definition SessionManager_event_receiver (m : SessionManager) : list ReceiveEvent :=
  mg_sent_events (sm_messenger m).
Definition SessionManager_socket (m : SessionManager) : T := mg_socket (sm_messenger m).
Definition sessions_count (m : SessionManager) : Z := Z.of_nat (size (sm_sessions m)).
Definition established_sessions (m : SessionManager) : list SocketAddr :=
  filter (fun a => is_established <$> (sm_sessions m !! a) = Some true)
    (iteration_order (map_to_list (sm_sessions m)).*1).

(** A mutable borrow: the borrowed session and what the manager is once it has changed. *)
Definition session_mut (addr : SocketAddr) (m : SessionManager)
  : option (S * (S -> SessionManager)) :=
  (fun session => (session, fun s => set_sessions (<[addr := s]> (sm_sessions m)) m))
    <$> sm_sessions m !! addr.
Definition established_sessions_count (m : SessionManager) : Z :=
  Z.of_nat (length (filter (fun s => is_established s.2 = true) (map_to_list (sm_sessions m)))).

Definition increment_duplicate_count (addr : SocketAddr) (m : SessionManager)
  : option SessionManager :=
  n ← add_usize (default 0 (sm_duplicate_peer_count m !! sa_ip addr)) 1;
  Some (set_duplicate_peer_count (<[sa_ip addr := n]> (sm_duplicate_peer_count m)) m).
Definition decrement_duplicate_count (addr : SocketAddr) (m : SessionManager)
  : option SessionManager :=
  match sm_duplicate_peer_count m !! sa_ip addr with
  | None => Some m
  | Some count =>
      count ← sub_usize count 1;
      let counts := <[sa_ip addr := count]> (sm_duplicate_peer_count m) in
      Some (set_duplicate_peer_count
              (if count =? 0 then delete (sa_ip addr) counts else counts) m)
  end.
Definition can_accept_duplicate (addr : SocketAddr) (m : SessionManager) : bool :=
  if sm_max_duplicate_peers m =? 0 then true
  else default 0 (sm_duplicate_peer_count m !! sa_ip addr) <? sm_max_duplicate_peers m.
Definition duplicate_peer_count (addr : SocketAddr) (m : SessionManager) : Z :=
  default 0 (sm_duplicate_peer_count m !! sa_ip addr).

(** The state of a poll: the manager, the local [unestablished_sessions], the generator. *)
Definition Poll : Type := SessionManager * Z * Rng.

(** A datagram that passed the interceptor. *)
Definition deliver_datagram (payload : list Z) (address : SocketAddr) (time : Instant)
  (st : Poll) : option Poll :=
  let '(m, unestablished_sessions, rng) := st in
  match sm_sessions m !! address with
  | Some session =>
      let was_est := is_established session in
      '(actions, session, rng) ← process_packet payload time session rng;
      let m := with_actions address actions
                 (set_sessions (<[address := session]> (sm_sessions m)) m) in
      unestablished_sessions ←
        (if negb was_est && is_established session
         then sub_usize unestablished_sessions 1 else Some unestablished_sessions);
      Some (m, unestablished_sessions, rng)
  | None =>
      let '(session, rng) := create_session (mg_config (sm_messenger m)) address time rng in
      '(actions, session, rng) ← process_packet payload time session rng;
      let m := with_actions address actions m in
      if (unestablished_sessions <? sm_max_unestablished_sessions m)
         && can_accept_duplicate address m then
        m ← increment_duplicate_count address
              (set_sessions (<[address := session]> (sm_sessions m)) m);
        unestablished_sessions ← add_usize unestablished_sessions 1;
        Some (m, unestablished_sessions, rng)
      else Some (m, unestablished_sessions, rng)
  end.

(** The receive loop.  [None] is a panic, or more than [fuel] receives in one poll. *)
Fixpoint receive_loop (fuel : nat) (time : Instant) (st : Poll) : option Poll :=
  match fuel with
  | O => None
  | Datatypes.S fuel =>
      let '(m, unestablished_sessions, rng) := st in
      let mg := sm_messenger m in
      let '(received, socket) := receive_packet (sm_receive_buffer m) (mg_socket mg) in
      let mg := mkMessenger (mg_config mg) socket (mg_sent_events mg) (mg_pending_sends mg)
                  (mg_pending_events mg) (mg_interceptor mg) (mg_send_pool mg) in
      match received with
      | Err _ => Some (set_messenger mg m, unestablished_sessions, rng)
      | Ok (payload, address) =>
          let '((should_process, payload), i) := on_receive address payload (mg_interceptor mg) in
          let mg := mkMessenger (mg_config mg) (mg_socket mg) (mg_sent_events mg)
                      (mg_pending_sends mg) (mg_pending_events mg) i (mg_send_pool mg) in
          let st := (set_messenger mg m, unestablished_sessions, rng) in
          if negb should_process then receive_loop fuel time st
          else
            st ← deliver_datagram payload address time st;
            if is_blocking_mode (mg_socket (sm_messenger st.1.1)) then Some st
            else receive_loop fuel time st
      end
  end.

(** One round of the [while let Ok(event) = try_recv()] loop. *)
Definition handle_user_event (time : Instant) (st : Poll) (event : SendEvent) : option Poll :=
  let '(m, unestablished_sessions, rng) := st in
  let addr := event_address event in
  match sm_sessions m !! addr with
  | Some session =>
      let was_est := is_established session in
      '(actions, session, rng) ← process_event event time session rng;
      let m := with_actions addr actions
                 (set_sessions (<[addr := session]> (sm_sessions m)) m) in
      unestablished_sessions ←
        (if negb was_est && is_established session
         then sub_usize unestablished_sessions 1 else Some unestablished_sessions);
      Some (m, unestablished_sessions, rng)
  | None =>
      if negb (can_accept_duplicate addr m) then Some st
      else
        let '(session, rng) := create_session (mg_config (sm_messenger m)) addr time rng in
        '(actions, session, rng) ← process_event event time session rng;
        let m := with_actions addr actions
                   (set_sessions (<[addr := session]> (sm_sessions m)) m) in
        m ← increment_duplicate_count addr m;
        Some (m, unestablished_sessions, rng)
  end.

Definition user_event_loop (time : Instant) (st : Poll) : option Poll :=
  let '(m, unestablished_sessions, rng) := st in
  foldM (handle_user_event time) (set_user_events [] m, unestablished_sessions, rng)
    (sm_user_events m).

(** [for (addr, session) in self.sessions.iter_mut()] with [update]. *)
Definition update_session (time : Instant) (st : Poll) (addr : SocketAddr) : option Poll :=
  let '(m, unestablished_sessions, rng) := st in
  match sm_sessions m !! addr with
  | None => Some st
  | Some session =>
      '(actions, session, rng) ← update time session rng;
      Some (with_actions addr actions (set_sessions (<[addr := session]> (sm_sessions m)) m),
            unestablished_sessions, rng)
  end.
Definition update_loop (time : Instant) (st : Poll) : option Poll :=
  foldM (update_session time) st (iteration_order (map_to_list (sm_sessions st.1.1)).*1).

(** The loop that collects the addresses to drop. *)
Definition check_drop (time : Instant) (acc : Poll * list SocketAddr) (addr : SocketAddr)
  : option (Poll * list SocketAddr) :=
  let '(st, to_drop) := acc in
  let '(m, unestablished_sessions, rng) := st in
  match sm_sessions m !! addr with
  | None => Some acc
  | Some session =>
      '((drop, actions), session, rng) ← should_drop time session rng;
      Some ((with_actions addr actions (set_sessions (<[addr := session]> (sm_sessions m)) m),
             unestablished_sessions, rng),
            if drop : bool then to_drop ++ [addr] else to_drop)
  end.
Definition drop_session (m : SessionManager) (addr : SocketAddr) : option SessionManager :=
  decrement_duplicate_count addr (set_sessions (delete addr (sm_sessions m)) m).
Definition drop_loop (time : Instant) (st : Poll) : option Poll :=
  '((m, unestablished_sessions, rng), to_drop) ←
    foldM (check_drop time) (st, []) (iteration_order (map_to_list (sm_sessions st.1.1)).*1);
  m ← foldM drop_session m to_drop;
  Some (m, unestablished_sessions, rng).

Definition SessionManager_manual_poll (fuel : nat) (time : Instant) (m : SessionManager)
  (rng : Rng) : option (SessionManager * Rng) :=
  st ← receive_loop fuel time (m, unestablished_session_count m, rng);
  st ← user_event_loop time st;
  st ← update_loop time st;
  '(m, _, rng) ← drop_loop time st;
  Some (set_messenger (Messenger_flush (sm_messenger m)) m, rng).

End Manager.

Section Construction.
Context {S SendEvent ReceiveEvent T I : Type} `{!Session S SendEvent ReceiveEvent}.

Definition SessionManager_new_with_interceptor (socket : T) (config : Config)
  (interceptor : option I)
  : @SessionManager S SendEvent ReceiveEvent T (BoxInterceptor I) :=
  mkSessionManager ∅ (receive_buffer_max_size config) []
    (Messenger_new config socket [] (boxed interceptor))
    (max_unestablished_connections config) ∅ (max_duplicate_peers config).
Definition SessionManager_new (socket : T) (config : Config)
  : @SessionManager S SendEvent ReceiveEvent T (BoxInterceptor I) :=
  SessionManager_new_with_interceptor socket config None.
End Construction.
