(* ===== verification/Sockets.v ===== *)
(** The operating system's side of the host: UDP sockets and their options
    ([bitfold-host/src/socket.rs], up to [SocketWithConditioner]), the clock
    ([bitfold-host/src/time.rs]), and the address utilities
    ([bitfold-core/src/utilities.rs]).

    The sockets of [std::net] and [socket2], the resolver and the reverse lookup are the
    interfaces of this file; nothing is assumed about them here. *)

From S2P Require Import Prelude Core NetAddr.
From S2P Require Import Session.
From S2P Require Import SessionManager.

(* ------------------------------------------------------------------ *)
(** ** Sockets                                                          *)
(* ------------------------------------------------------------------ *)

(** An operation on a socket: it may fail, and it may change the socket either way. *)
Definition IoM (U A : Type) : Type := U -> io_result A * U.
#[export] Instance IoM_ret {U} : MRet (IoM U) := fun A a u => (Ok a, u).
#[export] Instance IoM_bind {U} : MBind (IoM U) := fun A B f m u =>
  match m u with (Ok a, u) => f a u | (Err e, u) => (Err e, u) end.

(** [std::net::UdpSocket], with the two options that go through [socket2].  A clone made by
    [try_clone] is another handle to the same socket. *)
Class UdpSocket (U : Type) := {
  udp_bind : list SocketAddr -> io_result U;
  try_clone : IoM U unit;
  set_recv_buffer_size : Z -> IoM U unit;
  set_send_buffer_size : Z -> IoM U unit;
  set_ttl : Z -> IoM U unit;
  set_broadcast : bool -> IoM U unit;
  set_nonblocking : bool -> IoM U unit;
  send_to : list Z -> SocketAddr -> IoM U Z;
  (** The number of bytes received, the sender, and the buffer (of the given length) after it. *)
  recv_from : Z -> IoM U (Z * SocketAddr * list Z);
  udp_local_addr : U -> io_result SocketAddr
}.

(** [std::net::ToSocketAddrs]: for host names, a query to the resolver. *)
Class ToSocketAddrs (A : Type) := { to_socket_addrs : A -> io_result (list SocketAddr) }.
#[export] Instance SocketAddr_ToSocketAddrs : ToSocketAddrs SocketAddr := {|
  to_socket_addrs a := Ok [a]
|}.
(** [UdpSocket::bind]. *)
Definition UdpSocket_bind {U A} `{!UdpSocket U, !ToSocketAddrs A} (addresses : A) : io_result U :=
  to_socket_addrs addresses ≫= udp_bind.

Section Sockets.
Context {U : Type} `{!UdpSocket U}.

(** [if let Some(x) = o { f(x)?; }]. *)
Definition if_some {A} (o : option A) (f : A -> IoM U unit) : IoM U unit :=
  match o with Some x => f x | None => mret tt end.

Definition apply_socket_options (config : Config) : IoM U unit :=
  _ ← try_clone;
  _ ← if_some (socket_recv_buffer_size config) set_recv_buffer_size;
  _ ← if_some (socket_send_buffer_size config) set_send_buffer_size;
  _ ← if_some (socket_ttl config) set_ttl;
  if socket_broadcast config then set_broadcast true else mret tt.

Record SocketWithConditioner : Type := mkSocketWithConditioner {
  sc_is_blocking_mode : bool;
  sc_socket : U
}.

Definition SocketWithConditioner_new (socket : U) (is_blocking_mode : bool)
  : result ErrorKind SocketWithConditioner :=
  let '(r, socket) := set_nonblocking (negb is_blocking_mode) socket in
  _ ← map_err ErrorKind_from_io r;
  Ok (mkSocketWithConditioner is_blocking_mode socket).

Definition SocketWithConditioner_send_packet (addr : SocketAddr) (payload : list Z)
  (s : SocketWithConditioner) : io_result Z * SocketWithConditioner :=
  let '(r, u) := send_to payload addr (sc_socket s) in
  (r, mkSocketWithConditioner (sc_is_blocking_mode s) u).
(** [&buffer[..recv_len]] of the buffer that [recv_from] filled. *)
Definition SocketWithConditioner_receive_packet (len : Z) (s : SocketWithConditioner)
  : io_result (list Z * SocketAddr) * SocketWithConditioner :=
  let '(r, u) := recv_from len (sc_socket s) in
  ((fun '(recv_len, address, buffer) => (take (Z.to_nat recv_len) buffer, address)) <$> r,
   mkSocketWithConditioner (sc_is_blocking_mode s) u).
Definition SocketWithConditioner_local_addr (s : SocketWithConditioner) : io_result SocketAddr :=
  udp_local_addr (sc_socket s).
Definition SocketWithConditioner_is_blocking_mode (s : SocketWithConditioner) : bool :=
  sc_is_blocking_mode s.

#[export] Instance SocketWithConditioner_Transport : Transport SocketWithConditioner := {|
  send_packet := SocketWithConditioner_send_packet;
  receive_packet := SocketWithConditioner_receive_packet;
  local_addr := SocketWithConditioner_local_addr;
  is_blocking_mode := SocketWithConditioner_is_blocking_mode
|}.
End Sockets.
Arguments SocketWithConditioner U : clear implicits.

(* ------------------------------------------------------------------ *)
(** ** The clock                                                        *)
(* ------------------------------------------------------------------ *)

(** The trait [Clock]: a reading, and the clock after it. *)
Class Clock (C : Type) := { now : C -> Instant * C }.

(** [SystemClock] is the stream of the values that [Instant::now()] will return. *)
Definition SystemClock : Type := nat -> Instant.
Definition SystemClock_now (c : SystemClock) : Instant * SystemClock :=
  (c 0%nat, fun n => c (S n)).
#[export] Instance SystemClock_Clock : Clock SystemClock := {| now := SystemClock_now |}.

(* ------------------------------------------------------------------ *)
(** ** Address utilities                                                *)
(* ------------------------------------------------------------------ *)

Section Utilities.
(** The resolver, and the reverse lookup of the [dns_lookup] crate. *)
Context `{!ToSocketAddrs string} (lookup_addr : IpAddr -> result string string).

Definition resolve_host (hostname : string) (port : Z) : io_result SocketAddr :=
  let addr_str := hostname +:+ ":" +:+ pretty port in
  addrs ← to_socket_addrs addr_str;
  match head addrs with
  | Some addr => Ok addr
  | None => Err (mkIoError NotFound "Could not resolve hostname")
  end.
(** [io::Error::other]. *)
Definition reverse_lookup (addr : IpAddr) : io_result string :=
  map_err (mkIoError OtherIo) (lookup_addr addr).
End Utilities.

Definition parse_ip (ip_str : string) (port : Z) : io_result SocketAddr :=
  ip ← map_err (fun e => mkIoError InvalidInput ("Invalid IP address: " +:+ e))
         (IpAddr_from_str ip_str);
  Ok (mkSocketAddr ip port).
Definition format_ip (addr : SocketAddr) : string := IpAddr_to_string (sa_ip addr).
Definition format_ip_addr (ip : IpAddr) : string := IpAddr_to_string ip.

(** Parsing a formatted address gives it back. *)
Lemma parse_format_ip a : IpAddr_ok (sa_ip a) -> parse_ip (format_ip a) (sa_port a) = Ok a.
Proof. intros H. unfold parse_ip, format_ip. rewrite from_to_string by done. by destruct a. Qed.
