(* ===== verification/Host.v ===== *)
(** The host: opening sockets, the session manager behind it and the polling loop
    ([bitfold-host/src/socket.rs], from [Host]). *)

From S2P Require Import Prelude Core Externs Buffers Packet PeerParts Peer PeerSession Session.
From S2P Require Import SessionManager.
From S2P Require Import Sockets.

Section Host.
Context {X : Externs} {U C I : Type} `{!UdpSocket U, !Clock C, !Interceptor I}.
(** The clock behind [Instant::elapsed], and the hash map's iteration order. *)
Context (clock : Instant) (iteration_order : list SocketAddr -> list SocketAddr).

#[local] Instance host_session : Session Peer Packet SocketEvent := Peer_Session clock.

(** The manager of a host: peers over a UDP socket, with a boxed interceptor. *)
Definition HostManager : Type :=
  SessionManager (S := Peer) (SendEvent := Packet) (ReceiveEvent := SocketEvent)
    (T := SocketWithConditioner U) (I := BoxInterceptor I).

Record Host : Type := mkHost {
  h_handler : HostManager;
  h_clock : C
}.
Definition set_handler (x : HostManager) (h : Host) : Host := mkHost x (h_clock h).

Definition bind_with_config_clock_and_interceptor (socket : U) (config : Config) (clk : C)
  (interceptor : option I) : result ErrorKind Host :=
  let '(r, socket) := apply_socket_options config socket in
  _ ← map_err ErrorKind_from_io r;
  s ← SocketWithConditioner_new socket (blocking_mode config);
  Ok (mkHost (SessionManager_new_with_interceptor s config interceptor) clk).
Definition bind_with_config_and_clock (socket : U) (config : Config) (clk : C)
  : result ErrorKind Host := bind_with_config_clock_and_interceptor socket config clk None.

Definition Host_get_packet_sender (h : Host) : list Packet :=
  SessionManager_event_sender (h_handler h).
Definition Host_get_event_receiver (h : Host) : list SocketEvent :=
  SessionManager_event_receiver (h_handler h).
Definition Host_send (packet : Packet) (h : Host) : Host :=
  set_handler (set_user_events (sm_user_events (h_handler h) ++ [packet]) (h_handler h)) h.
Definition Host_recv (h : Host) : option SocketEvent * Host :=
  let mg := sm_messenger (h_handler h) in
  match mg_sent_events mg with
  | [] => (None, h)
  | e :: es =>
      (Some e, set_handler (set_messenger (mkMessenger (mg_config mg) (mg_socket mg) es
                 (mg_pending_sends mg) (mg_pending_events mg) (mg_interceptor mg)
                 (mg_send_pool mg)) (h_handler h)) h)
  end.
(** [fuel] bounds the datagrams that one poll may receive. *)
Definition Host_manual_poll (fuel : nat) (time : Instant) (h : Host) (rng : Rng)
  : option (Host * Rng) :=
  '(m, rng) ← SessionManager_manual_poll iteration_order fuel time (h_handler h) rng;
  Some (set_handler m h, rng).

(** The first [rounds] rounds of the polling loop, which never returns; sleeping and yielding
    change nothing but the time. *)
Fixpoint start_polling_with_duration (rounds fuel : nat) (sleep_duration : option Duration)
  (h : Host) (rng : Rng) : option (Host * Rng) :=
  match rounds with
  | O => Some (h, rng)
  | S rounds =>
      let '(time, clk) := now (h_clock h) in
      '(h, rng) ← Host_manual_poll fuel time (mkHost (h_handler h) clk) rng;
      start_polling_with_duration rounds fuel sleep_duration h rng
  end.
Definition start_polling (rounds fuel : nat) (h : Host) (rng : Rng) : option (Host * Rng) :=
  start_polling_with_duration rounds fuel (Some (from_millis 1)) h rng.

Definition Host_local_addr (h : Host) : result ErrorKind SocketAddr :=
  map_err ErrorKind_from_io (local_addr (SessionManager_socket (h_handler h))).
Definition Host_disconnect (addr : SocketAddr) (h : Host) : Host :=
  match session_mut addr (h_handler h) with
  | Some (session, write) => set_handler (write (Peer_disconnect session)) h
  | None => h
  end.
Definition Host_broadcast (channel_id : Z) (data : list Z) (delivery : DeliveryGuarantee)
  (ordering : OrderingGuarantee) (h : Host) : Z * Host :=
  let addresses := established_sessions iteration_order (h_handler h) in
  (zlen addresses,
   foldl (fun h addr => Host_send (Packet_new addr data delivery ordering channel_id) h)
     h addresses).
Definition Host_broadcast_reliable (channel_id : Z) (data : list Z) (h : Host) : Z * Host :=
  Host_broadcast channel_id data Reliable (Ordered None) h.
Definition Host_broadcast_unreliable (channel_id : Z) (data : list Z) (h : Host) : Z * Host :=
  Host_broadcast channel_id data Unreliable OrderNone h.
Definition Host_established_connections_count (h : Host) : Z :=
  established_sessions_count (h_handler h).

(** A broadcast queues one packet per established session and nothing else. *)
Lemma Host_broadcast_queues ch data d o h :
  let '(n, h') := Host_broadcast ch data d o h in
  sm_user_events (h_handler h') = sm_user_events (h_handler h) ++
    ((fun addr => Packet_new addr data d o ch)
       <$> established_sessions iteration_order (h_handler h)) /\
  sm_sessions (h_handler h') = sm_sessions (h_handler h) /\
  n = zlen (established_sessions iteration_order (h_handler h)).
Proof.
  unfold Host_broadcast. generalize (established_sessions iteration_order (h_handler h)) as addrs.
  intros addrs. revert h.
  induction addrs as [|a addrs IH]; intros h; cbn [foldl fmap list_fmap].
  - by rewrite app_nil_r.
  - destruct (IH (Host_send (Packet_new a data d o ch) h)) as (-> & -> & _). simpl.
    by rewrite <-app_assoc.
Qed.

End Host.
Arguments HostManager U I : clear implicits.
Arguments Host U C I : clear implicits.

(** Binding: the constructors that open the socket themselves and use the system clock, whose
    readings are [system]. *)
Section Bind.
Context {U I : Type} `{!UdpSocket U} (system : SystemClock).

Definition bind_with_config {A} `{!ToSocketAddrs A} (addresses : A) (config : Config)
  : result ErrorKind (Host U SystemClock I) :=
  socket ← map_err ErrorKind_from_io (UdpSocket_bind addresses);
  bind_with_config_and_clock socket config system.
Definition bind {A} `{!ToSocketAddrs A} (addresses : A) : result ErrorKind (Host U SystemClock I) :=
  bind_with_config addresses Config_default.
Definition bind_any_with_config (config : Config) : result ErrorKind (Host U SystemClock I) :=
  let loopback := IpV4 2130706433 (* 127.0.0.1 *) in
  let address := mkSocketAddr loopback 0 in
  socket ← map_err ErrorKind_from_io (UdpSocket_bind address);
  bind_with_config_and_clock socket config system.
Definition bind_any : result ErrorKind (Host U SystemClock I) :=
  bind_any_with_config Config_default.
Definition bind_with_interceptor {A} `{!ToSocketAddrs A} (addresses : A) (config : Config)
  (interceptor : I) : result ErrorKind (Host U SystemClock I) :=
  socket ← map_err ErrorKind_from_io (UdpSocket_bind addresses);
  bind_with_config_clock_and_interceptor socket config system (Some interceptor).
End Bind.
