(* ===== verification/Throughput.v ===== *)
(** The throughput monitor: [bitfold-host/src/throughput.rs].  It counts ticks and closes an
    entry when its duration has passed; no other part of the program uses it. *)

From S2P Require Import Prelude.

Record ThroughputEntry : Set := mkThroughputEntry { te_measured_throughput : Z; te_start : Instant }.
Record ThroughputMonitoring : Set := mkThroughputMonitoring {
  tm_throughput_duration : Duration;
  tm_timer : Instant;
  tm_current_throughput : Z;
  tm_measured_throughput : list ThroughputEntry
}.

Definition ThroughputEntry_new (measured_throughput : Z) (time : Instant) : ThroughputEntry :=
  mkThroughputEntry measured_throughput time.

(** [now] is the reading of the clock. *)
Definition ThroughputMonitoring_new (throughput_duration : Duration) (now : Instant)
  : ThroughputMonitoring := mkThroughputMonitoring throughput_duration now 0 [].
(** The clock is read for [elapsed] and, in the completing branch, again for the new timer. *)
Definition ThroughputMonitoring_tick (now now' : Instant) (t : ThroughputMonitoring)
  : option (bool * ThroughputMonitoring) :=
  if tm_throughput_duration t <=? duration_since now (tm_timer t) then
    Some (true, mkThroughputMonitoring (tm_throughput_duration t) now' 0
      (tm_measured_throughput t ++ [ThroughputEntry_new (tm_current_throughput t) (tm_timer t)]))
  else
    n ← add_u32 (tm_current_throughput t) 1;
    Some (false, mkThroughputMonitoring (tm_throughput_duration t) (tm_timer t) n
                   (tm_measured_throughput t)).
(** [sum::<u32>()], which panics on overflow as [+] does. *)
Definition measured_sum (t : ThroughputMonitoring) : option Z :=
  foldM (fun acc e => add_u32 acc (te_measured_throughput e)) 0 (tm_measured_throughput t).
Definition ThroughputMonitoring_average (t : ThroughputMonitoring) : option Z :=
  match tm_measured_throughput t with
  | [] => Some 0
  | l => sum ← measured_sum t; Some (sum / as_u32 (zlen l))
  end.
Definition ThroughputMonitoring_reset (t : ThroughputMonitoring) : ThroughputMonitoring :=
  mkThroughputMonitoring (tm_throughput_duration t) (tm_timer t) 0 [].
Definition ThroughputMonitoring_last_throughput (t : ThroughputMonitoring) : Z :=
  default 0 (te_measured_throughput <$> last (tm_measured_throughput t)).
Definition ThroughputMonitoring_total_measured_ticks (t : ThroughputMonitoring) : option Z :=
  sum ← measured_sum t; add_u32 sum (tm_current_throughput t).
(** [impl Debug] and [impl Display]; [duration_debug] is the standard library's pretty [Debug]
    of durations, and [now] the reading behind [elapsed].  The average may panic. *)
Definition ThroughputMonitoring_fmt (duration_debug : Duration -> string) (now : Instant)
  (t : ThroughputMonitoring) : option string :=
  average ← ThroughputMonitoring_average t;
  Some ("Current Throughput: " +:+ pretty (ThroughputMonitoring_last_throughput t) +:+
        ", Elapsed Time: " +:+ duration_debug (duration_since now (tm_timer t)) +:+
        ", Average Throughput: " +:+ pretty average).
