(* ===== verification/ThroughputFacts.v ===== *)
(** The throughput monitor counts exactly: its totals against the ticks it was given. *)

From S2P Require Import Prelude Throughput.

(** The ticks of a monitor, each with its two readings of the clock, and what they returned. *)
Fixpoint ticks (readings : list (Instant * Instant)) (t : ThroughputMonitoring)
  : option (list bool * ThroughputMonitoring) :=
  match readings with
  | [] => Some ([], t)
  | (now, now') :: readings =>
      '(b, t) ← ThroughputMonitoring_tick now now' t;
      '(bs, t) ← ticks readings t;
      Some (b :: bs, t)
  end.

(** How many of the ticks completed a window ([b = true]), or did not. *)
Definition ticks_with (b : bool) (bs : list bool) : Z := zlen (filter (fun x => x = b) bs).

Lemma ticks_with_cons b x bs :
  ticks_with b (x :: bs) = (if bool_decide (x = b) then 1 else 0) + ticks_with b bs.
Proof.
  unfold ticks_with. rewrite filter_cons. case_decide; case_bool_decide; try done.
  by rewrite zlen_cons.
Qed.
Lemma ticks_with_range b bs : 0 <= ticks_with b bs <= zlen bs.
Proof.
  unfold ticks_with, zlen. pose proof (length_filter (fun x => x = b) bs). lia.
Qed.

(** The closing times among the readings. *)
Definition closings (readings : list (Instant * Instant)) (bs : list bool) : list Instant :=
  (fun x => x.1.2) <$> filter (fun x => x.2 = true) (zip readings bs).

Definition counted (t : ThroughputMonitoring) : Z :=
  zsum te_measured_throughput (tm_measured_throughput t).

(** What holds of a monitor that has been started at [t0] and ticked: the entries are the
    windows since, each with its start. *)
Record monitors (t0 : Instant) (closed : list Instant) (t : ThroughputMonitoring) : Prop := {
  mo_current : 0 <= tm_current_throughput t;
  mo_entries : Forall (fun e => 0 <= te_measured_throughput e) (tm_measured_throughput t);
  mo_starts : (te_start <$> tm_measured_throughput t) ++ [tm_timer t] = t0 :: closed
}.

Lemma counted_nonneg l : Forall (fun e => 0 <= te_measured_throughput e) l ->
  0 <= zsum te_measured_throughput l.
Proof. induction 1; [done|]. rewrite zsum_cons. lia. Qed.

Lemma measured_sum_exact l : forall acc, Forall (fun e => 0 <= te_measured_throughput e) l -> 0 <= acc ->
  acc + zsum te_measured_throughput l <= u32_max ->
  foldM (fun acc e => add_u32 acc (te_measured_throughput e)) acc l =
    Some (acc + zsum te_measured_throughput l).
Proof.
  induction l as [|e l IH]; intros acc Hl Ha Hm; cbn [foldM].
  - by rewrite Z.add_0_r.
  - apply Forall_cons in Hl as [He Hl]. pose proof (counted_nonneg l Hl). rewrite zsum_cons in *.
    unfold add_u32. rewrite checked_in by lia. cbn [mbind option_bind].
    rewrite IH by (done || lia). f_equal. lia.
Qed.

Lemma tick_exact now now' t0 closed t : monitors t0 closed t -> tm_current_throughput t < u32_max ->
  exists b t', ThroughputMonitoring_tick now now' t = Some (b, t') /\
    monitors t0 (closed ++ if b : bool then [now'] else []) t' /\
    counted t' + tm_current_throughput t' = counted t + tm_current_throughput t + (if b then 0 else 1) /\
    tm_current_throughput t' <= tm_current_throughput t + 1.
Proof.
  intros [H1 H2 H3] Hc. unfold ThroughputMonitoring_tick, counted. case_match.
  - eexists true, _. split; [done|].
    split; [|cbn [tm_measured_throughput tm_current_throughput]; rewrite zsum_app; cbn; lia].
    split; cbn; [lia|apply Forall_app; split; [done|by repeat constructor]|].
    rewrite fmap_app. cbn [fmap list_fmap te_start ThroughputEntry_new]. by rewrite H3.
  - unfold add_u32. rewrite checked_in by lia. eexists false, _. split; [done|].
    split; [split; cbn; [lia|done|by rewrite app_nil_r]|]. cbn [tm_measured_throughput tm_current_throughput]. lia.
Qed.

Lemma ticks_exact readings : forall t0 closed t, monitors t0 closed t ->
  tm_current_throughput t + zlen readings <= u32_max ->
  exists bs t', ticks readings t = Some (bs, t') /\ length bs = length readings /\
    monitors t0 (closed ++ closings readings bs) t' /\
    counted t' + tm_current_throughput t' =
      counted t + tm_current_throughput t + ticks_with false bs /\
    zlen (closings readings bs) = ticks_with true bs.
Proof.
  induction readings as [|[now now'] readings IH]; intros t0 closed t Ht Hlen; cbn [ticks].
  - exists [], t. change (closings [] []) with (@nil Instant). rewrite app_nil_r.
    change (ticks_with false []) with 0. split_and!; (done || lia).
  - rewrite zlen_cons in Hlen. pose proof (zlen_nonneg readings).
    destruct (tick_exact now now' t0 closed t Ht) as (b & t1 & E & Ht1 & Hc1 & Hn); [lia|].
    destruct (IH _ _ _ Ht1) as (bs & t' & E' & Hl & Ht' & Hc & Hz); [lia|].
    exists (b :: bs), t'. rewrite E. cbn [mbind option_bind]. rewrite E'. cbn [mbind option_bind].
    assert (closings ((now, now') :: readings) (b :: bs) =
      (if b then [now'] else []) ++ closings readings bs) as ->.
    { unfold closings. cbn [zip zip_with]. rewrite filter_cons. by destruct b. }
    rewrite app_assoc, zlen_app, Hz, !ticks_with_cons. cbn [length]. split_and!; try done.
    + by rewrite Hl.
    + destruct b; case_bool_decide; done || lia.
    + destruct b; case_bool_decide; done || lia.
Qed.

(** C40: The throughput monitor is exact.  Below 2^32 ticks no tick panics; the total is the number
    of ticks that did not complete a window; the windows measured are as many as the ticks that
    returned true, the first one starting with the monitor and each other one where the one
    before it closed; the average is the mean of the windows; and a reset forgets them all. *)
Theorem throughput_exact d t0 readings (Hlen : zlen readings <= u32_max) :
  exists bs t, ticks readings (ThroughputMonitoring_new d t0) = Some (bs, t) /\
    length bs = length readings /\
    ThroughputMonitoring_total_measured_ticks t = Some (ticks_with false bs) /\
    zlen (tm_measured_throughput t) = ticks_with true bs /\
    (te_start <$> tm_measured_throughput t) ++ [tm_timer t] = t0 :: closings readings bs /\
    ThroughputMonitoring_average t =
      Some (if bool_decide (ticks_with true bs = 0) then 0
            else (ticks_with false bs - tm_current_throughput t) / ticks_with true bs) /\
    ThroughputMonitoring_total_measured_ticks (ThroughputMonitoring_reset t) = Some 0.
Proof.
  destruct (ticks_exact readings t0 [] (ThroughputMonitoring_new d t0)) as (bs & t & E & Hl & [H1 H2 H3] & Hc & Hz);
    [by split|exact Hlen|].
  exists bs, t. split; [done|]. split; [done|]. cbn [app] in H3.
  change (counted (ThroughputMonitoring_new d t0)) with 0 in Hc.
  change (tm_current_throughput (ThroughputMonitoring_new d t0)) with 0 in Hc.
  pose proof (counted_nonneg _ H2) as Hn. unfold counted in Hc.
  pose proof (ticks_with_range false bs) as Hf. pose proof (ticks_with_range true bs) as Ht.
  assert (zlen bs = zlen readings) as Hlz by (unfold zlen; by rewrite Hl).
  assert (measured_sum t = Some (zsum te_measured_throughput (tm_measured_throughput t))) as Es.
  { unfold measured_sum. rewrite measured_sum_exact by (done || lia). done. }
  assert (zlen (tm_measured_throughput t) = ticks_with true bs) as Hw.
  { rewrite <-Hz. unfold zlen. apply (f_equal length) in H3.
    rewrite length_app, length_fmap in H3. simpl in H3. lia. }
  split_and!; try done.
  - unfold ThroughputMonitoring_total_measured_ticks. rewrite Es. cbn [mbind option_bind].
    unfold add_u32. rewrite checked_in by lia. f_equal. lia.
  - unfold ThroughputMonitoring_average. destruct (tm_measured_throughput t) as [|e l] eqn:El.
    + rewrite bool_decide_eq_true_2 by (rewrite <-Hw; done). done.
    + rewrite bool_decide_eq_false_2 by (rewrite <-Hw, zlen_cons; pose proof (zlen_nonneg l); lia).
      rewrite Es. cbn [mbind option_bind]. rewrite Hw, as_u32_id by (unfold u32_ok, u32_max in *; lia).
      do 2 f_equal. lia.
Qed.

(** Three ticks in the first window, one that closes it, and one in the next. *)
Lemma throughput_exact_witness :
  exists t, ticks [(1, 1); (2, 2); (3, 3); (10, 11); (12, 12)] (ThroughputMonitoring_new 10 0)
      = Some ([false; false; false; true; false], t) /\
    ThroughputMonitoring_total_measured_ticks t = Some 4 /\
    ThroughputMonitoring_average t = Some 3.
Proof.
  destruct (throughput_exact 10 0 [(1, 1); (2, 2); (3, 3); (10, 11); (12, 12)]) as (bs & t & E & _ & Ht & _).
  - by vm_compute.
  - vm_compute in E. injection E as <- <-. eexists. split; [reflexivity|].
    split; [exact Ht|reflexivity].
Defined.
