(* ===== verification/PeerFacts.v ===== *)
(** The command queue's accounting and the connection states of a peer. *)

From S2P Require Import Prelude Float32 Core Buffers Packet Command Ack Bandwidth PeerParts.
From S2P Require Import Peer.

(* ------------------------------------------------------------------ *)
(** ** Accounting of the waiting data                                   *)
(* ------------------------------------------------------------------ *)

Definition queue (p : Peer) : list ProtocolCommand := cq_commands (p_command_queue p).
Definition data_sizes : list ProtocolCommand -> Z := zsum command_data_size.

(** The counter is the data in the queue and respects the configured limit. *)
Record queue_ok (p : Peer) : Prop := {
  qo_exact : p_total_waiting_data p = data_sizes (queue p);
  qo_limit : 0 < max_waiting_data (p_config p) ->
             p_total_waiting_data p <= max_waiting_data (p_config p);
  qo_u64 : p_total_waiting_data p <= u64_max
}.

(** [n] more bytes can wait. *)
Definition room (n : Z) (p : Peer) : Prop :=
  p_total_waiting_data p + n <= u64_max /\
  (0 < max_waiting_data (p_config p) ->
   p_total_waiting_data p + n <= max_waiting_data (p_config p)).

(** The peer with [cs] appended to its queue. *)
Definition pushed (cs : list ProtocolCommand) (p : Peer) : Peer :=
  set_command_queue (mkCommandQueue (queue p ++ cs) (cq_max_queue_size (p_command_queue p)))
    (set_total_waiting_data (p_total_waiting_data p + data_sizes cs) p).

Lemma command_data_size_nonneg c : 0 <= command_data_size c.
Proof. destruct c; simpl; lia. Qed.
Lemma data_sizes_nonneg cs : 0 <= data_sizes cs.
Proof. apply zsum_nonneg, command_data_size_nonneg. Qed.
Lemma data_sizes_app cs ds : data_sizes (cs ++ ds) = data_sizes cs + data_sizes ds.
Proof. apply zsum_app. Qed.
Lemma data_sizes_cons c cs : data_sizes (c :: cs) = command_data_size c + data_sizes cs.
Proof. done. Qed.
#[export] Hint Resolve command_data_size_nonneg data_sizes_nonneg : bitfold.

Lemma pushed_app cs ds p : pushed ds (pushed cs p) = pushed (cs ++ ds) p.
Proof.
  unfold pushed, queue. cbn [p_total_waiting_data p_command_queue set_command_queue
    set_total_waiting_data cq_commands cq_max_queue_size].
  rewrite data_sizes_app, Z.add_assoc, app_assoc. done.
Qed.
Lemma pushed_nil p : pushed [] p = p.
Proof.
  unfold pushed, queue. rewrite app_nil_r. change (data_sizes []) with 0. rewrite Z.add_0_r.
  by destruct p as [??????????????? ? [? ?] ???? ?????].
Qed.
Lemma queue_pushed cs p : queue (pushed cs p) = queue p ++ cs.
Proof. done. Qed.

Lemma queue_ok_pushed cs p : queue_ok p -> room (data_sizes cs) p -> queue_ok (pushed cs p).
Proof.
  intros [He Hl Hu] [Hr' Hr]. split.
  - rewrite queue_pushed, data_sizes_app. cbn. by rewrite He.
  - intros H. cbn. by apply Hr.
  - exact Hr'.
Qed.

Lemma bind_run {A B} (m : PeerM A) (f : A -> PeerM B) p r a p' r' :
  m p r = Some (a, p', r') -> (m ≫= f) p r = f a p' r'.
Proof. intros H. unfold mbind, PeerM_bind. by rewrite H. Qed.

Lemma bind_inv {A B} (m : PeerM A) (f : A -> PeerM B) p r b p' r' :
  (m ≫= f) p r = Some (b, p', r') ->
  exists a p1 r1, m p r = Some (a, p1, r1) /\ f a p1 r1 = Some (b, p', r').
Proof.
  unfold mbind, PeerM_bind. destruct (m p r) as [[[a p1] r1]|]; [|done]. intros H. by exists a, p1, r1.
Qed.

(** One [enqueue_command], in both outcomes. *)
Lemma enqueue_command_run c p r : 0 <= p_total_waiting_data p -> queue_ok p ->
  p_total_waiting_data p + command_data_size c <= u64_max ->
  Peer_enqueue_command c p r =
  if decide (room (command_data_size c) p) then
    Some (cq_max_queue_size (p_command_queue p) <=? zlen (queue p ++ [c]), pushed [c] p, r)
  else Some (false, p, r).
Proof.
  intros H0 Hok Hb. pose proof (command_data_size_nonneg c).
  unfold Peer_enqueue_command, may_panic, gets, modify, updating.
  unfold mbind, PeerM_bind, option_bind, add_usize, add_u64, mret, PeerM_ret.
  rewrite !checked_in by lia.
  assert ((if 0 <? max_waiting_data (p_config p)
           then Some (max_waiting_data (p_config p) <? p_total_waiting_data p + command_data_size c)
           else Some false)
          = Some (negb (bool_decide (room (command_data_size c) p)))) as ->.
  { unfold room. destruct (Z.ltb_spec 0 (max_waiting_data (p_config p))).
    - do 2 f_equal. apply eq_true_iff_eq. rewrite negb_true_iff, bool_decide_eq_false, Z.ltb_lt. lia.
    - rewrite bool_decide_eq_true_2; [done|]. split; [done|lia]. }
  case_decide as Hr.
  - rewrite bool_decide_eq_true_2 by done. cbn [negb].
    unfold pushed, data_sizes, CommandQueue_enqueue. cbn [zsum foldr]. rewrite Z.add_0_r. rewrite checked_in by lia. done.
  - rewrite bool_decide_eq_false_2 by done. done.
Qed.

Lemma enqueue_fits c p r : 0 <= p_total_waiting_data p -> queue_ok p ->
  room (command_data_size c) p ->
  exists b, Peer_enqueue_command c p r = Some (b, pushed [c] p, r).
Proof.
  intros H0 Hok Hr. rewrite enqueue_command_run by (done || apply Hr).
  rewrite decide_True by done. by eexists.
Qed.

Lemma queue_ok_nonneg p : queue_ok p -> 0 <= p_total_waiting_data p.
Proof. intros [-> _ _]. apply data_sizes_nonneg. Qed.

Lemma room_weaken n m p : n <= m -> room m p -> room n p.
Proof. intros Hn [H1 H2]. split; [lia|]. intros H. specialize (H2 H). lia. Qed.

Lemma room_pushed n cs p : room (data_sizes cs + n) p -> room n (pushed cs p).
Proof. intros [H1 H2]. unfold room, pushed. cbn. split; [lia|]. intros H. specialize (H2 H). lia. Qed.

(** A loop that enqueues one command per element appends them all. *)
Lemma for_each_enqueue {A} (f : A -> PeerM unit) (g : A -> ProtocolCommand) (l : list A) p r :
  (forall x p r, x ∈ l -> queue_ok p -> room (command_data_size (g x)) p ->
     f x p r = Some (tt, pushed [g x] p, r)) ->
  queue_ok p -> room (data_sizes (g <$> l)) p ->
  for_each f l p r = Some (tt, pushed (g <$> l) p, r).
Proof.
  revert p. induction l as [|x l IH]; intros p Hf Hok Hr; cbn [for_each fmap list_fmap].
  { by rewrite pushed_nil. }
  rewrite fmap_cons, data_sizes_cons in Hr. pose proof (command_data_size_nonneg (g x)).
  pose proof (data_sizes_nonneg (g <$> l)).
  assert (data_sizes [g x] = command_data_size (g x)) as E1 by (unfold data_sizes; simpl; lia).
  erewrite bind_run by (apply Hf; [by left|done|]; by eapply room_weaken; [|exact Hr]; lia).
  rewrite IH.
  - by rewrite pushed_app.
  - intros. apply Hf; [by right|done..].
  - apply queue_ok_pushed; [done|]. rewrite E1. by eapply room_weaken; [|exact Hr]; lia.
  - apply room_pushed. by rewrite E1.
Qed.

Lemma for_each_enqueue_commands cs p r : queue_ok p -> room (data_sizes cs) p ->
  for_each (fun cmd => _ ← Peer_enqueue_command cmd; mret tt) cs p r = Some (tt, pushed cs p, r).
Proof.
  intros Hok Hr. rewrite <-(list_fmap_id cs) in Hr. rewrite <-(list_fmap_id cs) at 2.
  apply for_each_enqueue; [|done|done]. clear. intros c p r _ Hok Hr.
  destruct (enqueue_fits c p r) as [b E]; [by apply queue_ok_nonneg|done|done|].
  by rewrite (bind_run _ _ _ _ _ _ _ E).
Qed.

(** The waiting-data limit.  Whatever is offered, enqueueing keeps the counter equal to the
    payload bytes in the queue and within [max_waiting_data]; a command that fits is appended
    behind the others, and one that does not is dropped with nothing else changed. *)
Theorem enqueue_accounting c p r (Hok : queue_ok p)
  (Hbound : p_total_waiting_data p + command_data_size c <= u64_max) :
  exists b p', Peer_enqueue_command c p r = Some (b, p', r) /\ queue_ok p' /\
    (queue p' = queue p ++ [c] \/ (b = false /\ p' = p /\
       0 < max_waiting_data (p_config p) /\
       max_waiting_data (p_config p) < data_sizes (queue p) + command_data_size c)).
Proof.
  rewrite enqueue_command_run by (done || by apply queue_ok_nonneg).
  destruct (decide (room (command_data_size c) p)) as [Hr|Hr].
  - eexists _, _. split; [done|]. split; [|by left].
    apply queue_ok_pushed; [done|]. unfold data_sizes. simpl. by rewrite Z.add_0_r.
  - exists false, p. split; [done|]. split; [done|]. right. rewrite <-(qo_exact p Hok).
    unfold room in Hr. destruct (decide (0 < max_waiting_data (p_config p) /\
      max_waiting_data (p_config p) < p_total_waiting_data p + command_data_size c)) as [?|Hn];
      [tauto|]. destruct Hr. split; [done|]. lia.
Qed.

Definition sample_addr : SocketAddr := mkSocketAddr (IpV4 2130706433) 7000.
Definition sample_rng : Rng := fun n => Z.of_nat n * 7919 + 13.
Definition sample_peer : Peer := (Peer_new sample_addr Config_default 0 sample_rng).1.

Lemma sample_peer_queue_ok : queue_ok sample_peer.
Proof. by split. Qed.

Lemma enqueue_accounting_witness :
  exists b p', Peer_enqueue_command (SendUnreliable 0 (SharedBytes_from_vec [1; 2; 3])) sample_peer
                 sample_rng = Some (b, p', sample_rng) /\ queue_ok p'.
Proof.
  destruct (enqueue_accounting (SendUnreliable 0 (SharedBytes_from_vec [1; 2; 3])) sample_peer
              sample_rng sample_peer_queue_ok) as (b & p' & E & Hok & _).
  - vm_compute. discriminate.
  - exists b, p'. split; [exact E|exact Hok].
Defined.

(* ------------------------------------------------------------------ *)
(** ** Connection states                                                *)
(* ------------------------------------------------------------------ *)

(** The state transitions of sending and receiving, one table per method. *)
Lemma record_send_state p :
  p_state (Peer_record_send p).2 =
  match p_state p with
  | Idle => Connecting
  | ConnectionSucceeded => Connected
  | s => s
  end.
Proof.
  unfold Peer_record_send, Peer_initiate_connect.
  destruct (p_state p) eqn:E; cbn [snd]; try done.
  destruct (use_connection_handshake (p_config p)); [|done].
  by rewrite bool_decide_eq_true_2.
Qed.

Lemma record_recv_state p :
  p_state (Peer_record_recv p).2 =
  match p_state p with
  | AcknowledgingConnect => Connected
  | Idle | Connecting =>
      if use_connection_handshake (p_config p) then p_state p else Connected
  | s => s
  end.
Proof.
  unfold Peer_record_recv. destruct (p_state p) eqn:E; cbn [snd]; try done;
    destruct (use_connection_handshake (p_config p)); done.
Qed.

(** A send is never what establishes a connection, so [record_send] never reports one: it
    leaves [Idle] for [Connecting], and [ConnectionSucceeded] is established already. *)
Lemma record_send_never_connects p : (Peer_record_send p).1 = false.
Proof.
  pose proof (record_send_state p) as Hs. revert Hs. unfold Peer_record_send. cbn [fst snd].
  intros Hs. unfold Peer_is_established at 2. rewrite Hs.
  unfold Peer_is_established. by destruct (p_state p).
Qed.

(** Disconnecting is final: no send, receive or reconnect leaves it. *)
Lemma disconnecting_stays p : PeerState_is_disconnecting (p_state p) = true ->
  p_state (Peer_record_send p).2 = p_state p /\ p_state (Peer_record_recv p).2 = p_state p /\
  Peer_disconnect p = p /\ Peer_initiate_connect p = p.
Proof.
  intros H. rewrite record_send_state, record_recv_state.
  unfold Peer_disconnect, Peer_initiate_connect.
  rewrite H. destruct (p_state p); try done; rewrite bool_decide_eq_false_2; done.
Qed.
