(* ===== verification/FragmenterFacts.v ===== *)
(** What the fragmenter puts in the queue. *)

From S2P Require Import Prelude Core Buffers Packet Command CodecFacts Ack FragmentBuffer.
From S2P Require Import PeerParts Peer PeerFacts Fragmenter.

(* ------------------------------------------------------------------ *)
(** ** Chunks of a message                                              *)
(* ------------------------------------------------------------------ *)

(** The view [base.slice(i * size, min((i + 1) * size, len) - i * size)]. *)
Definition chunk (size : Z) (data : list Z) (i : Z) : SharedBytes :=
  mkSharedBytes data (Z.to_nat (i * size))
    (Z.to_nat (Z.min ((i + 1) * size) (zlen data) - i * size)).

Definition chunks (size : Z) (data : list Z) : list SharedBytes :=
  chunk size data <$> seqZ 0 (div_ceil (zlen data) size).

Lemma div_ceil_spec a b : 0 < b -> 0 <= a ->
  let n := div_ceil a b in 0 <= n /\ a <= n * b /\ (0 < a -> (n - 1) * b < a).
Proof. intros Hb Ha. unfold div_ceil. cbn zeta. split_and!; [apply Z.div_pos; lia|zmod|zmod]. Qed.

Lemma chunk_slice size data i : 0 < size -> 0 <= i < div_ceil (zlen data) size ->
  slice (SharedBytes_from_arc data) (i * size) (Z.min ((i + 1) * size) (zlen data) - i * size)
  = Some (chunk size data i).
Proof.
  intros Hs Hi. pose proof (zlen_nonneg data).
  destruct (div_ceil_spec (zlen data) size Hs ltac:(lia)) as (Hn & Hc & Hc').
  assert (0 < zlen data) by (destruct (decide (zlen data = 0)) as [E|]; [|lia];
    rewrite E in Hi; unfold div_ceil in Hi; rewrite Z.div_small in Hi; lia).
  specialize (Hc' ltac:(lia)).
  assert (i * size < zlen data) by nia.
  unfold slice, SharedBytes_slice, SharedBytes_from_arc, chunk. cbn [sb_len sb_start sb_data].
  unfold zlen in *.
  destruct (Nat.leb_spec (Z.to_nat (i * size)) (length data)); [|lia].
  destruct (Nat.leb_spec (Z.to_nat (i * size) +
    Z.to_nat (Z.min ((i + 1) * size) (Z.of_nat (length data)) - i * size)) (length data)); [|nia].
  done.
Qed.

Lemma chunk_ok size data i : 0 < size -> bytes_ok data -> 0 <= i < div_ceil (zlen data) size ->
  SharedBytes_ok (chunk size data i).
Proof.
  intros Hs Hb Hi. eapply SharedBytes_slice_ok; [|by apply chunk_slice].
  split; simpl; [lia|done].
Qed.

Lemma chunk_len size data i : 0 < size -> 0 <= i ->
  Z.of_nat (sb_len (chunk size data i)) <= size.
Proof. intros. unfold chunk. cbn [sb_len]. nia. Qed.

Lemma chunk_as_slice size data i : 0 < size -> 0 <= i ->
  SharedBytes_as_slice (chunk size data i) =
  take (Z.to_nat size) (drop (Z.to_nat i * Z.to_nat size) data).
Proof.
  intros Hs Hi. unfold SharedBytes_as_slice, chunk, zlen. cbn [sb_len sb_start sb_data].
  replace (Z.to_nat (i * size)) with (Z.to_nat i * Z.to_nat size)%nat by lia.
  destruct (decide ((i + 1) * size <= Z.of_nat (length data))).
  - f_equal. lia.
  - rewrite !take_ge; [done|rewrite length_drop; nia|rewrite length_drop; nia].
Qed.

Lemma concat_takes (size : nat) (data : list Z) (n : nat) :
  concat ((fun i => take size (drop (i * size) data)) <$> seq 0 n) = take (n * size) data.
Proof.
  induction n as [|n IH]; [done|]. rewrite seq_S, fmap_app, concat_app, IH. simpl.
  rewrite app_nil_r, take_take_drop. f_equal. lia.
Qed.

Lemma chunks_concat size data : 0 < size ->
  concat (SharedBytes_as_slice <$> chunks size data) = data.
Proof.
  intros Hs. pose proof (zlen_nonneg data).
  destruct (div_ceil_spec (zlen data) size Hs ltac:(lia)) as (Hn & Hc & _).
  unfold chunks. set (n := div_ceil (zlen data) size) in *.
  assert (SharedBytes_as_slice <$> (chunk size data <$> seqZ 0 n) =
    (fun i => take (Z.to_nat size) (drop (i * Z.to_nat size) data)) <$> seq 0 (Z.to_nat n)) as ->.
  { unfold seqZ. rewrite <-!list_fmap_compose. apply list_fmap_ext. intros i x Hx.
    simpl. rewrite chunk_as_slice by lia. do 2 f_equal. lia. }
  rewrite concat_takes. apply take_ge. unfold zlen in *. nia.
Qed.

Lemma chunks_total size data : 0 < size ->
  zsum (fun d => Z.of_nat (sb_len d)) (chunks size data) = zlen data.
Proof.
  intros Hs. rewrite <-(chunks_concat size data Hs) at 2.
  assert (Forall (fun d => length (SharedBytes_as_slice d) = sb_len d) (chunks size data)) as HF.
  { unfold chunks. apply Forall_fmap, Forall_forall. intros i Hi%elem_of_seqZ. simpl.
    rewrite Z.add_0_l in Hi.
    assert (slice (SharedBytes_from_arc data) (i * size)
      (Z.min ((i + 1) * size) (zlen data) - i * size) = Some (chunk size data i)) as E
      by (apply chunk_slice; lia).
    unfold slice, SharedBytes_slice in E. case_match eqn:Eb; [|done].
    unfold SharedBytes_as_slice. unfold chunk. cbn [sb_len sb_start sb_data].
    rewrite length_take, length_drop. unfold SharedBytes_from_arc in *. cbn in *. lia. }
  induction HF as [|d l Hd _ IH]; [done|]. cbn [fmap list_fmap concat]. rewrite zlen_app, <-IH.
  unfold zlen. rewrite Hd. done.
Qed.

(* ------------------------------------------------------------------ *)
(** ** The fragment loop                                                *)
(* ------------------------------------------------------------------ *)

Section Loop.
(** The command a fragment becomes: its identifier and its data. *)
Variable mk : Z -> SharedBytes -> ProtocolCommand.
Hypothesis mk_size : forall i d, command_data_size (mk i d) = Z.of_nat (sb_len d).

Definition fragment_commands (size : Z) (data : list Z) : list ProtocolCommand :=
  (fun i => mk i (chunk size data i)) <$> seqZ 0 (div_ceil (zlen data) size).

Lemma fragment_commands_size size data : 0 < size ->
  data_sizes (fragment_commands size data) = zlen data.
Proof.
  intros Hs. rewrite <-(chunks_total size data Hs). unfold fragment_commands, chunks, data_sizes.
  generalize (seqZ 0 (div_ceil (zlen data) size)) as l. intros l.
  induction l as [|i l IH]; [done|]. by rewrite !fmap_cons, !zsum_cons, IH, mk_size.
Qed.

Lemma fragment_loop_run size data p r : 0 < size -> queue_ok p -> room (zlen data) p ->
  for_each (fun fragment_id =>
      let start := fragment_id * size in
      let fin := Z.min ((fragment_id + 1) * size) (zlen data) in
      let base := SharedBytes_from_arc data in
      fragment_data ← may_panic (fun _ => slice base start (fin - start));
      _ ← Peer_enqueue_command (mk fragment_id fragment_data);
      mret tt) (seqZ 0 (div_ceil (zlen data) size)) p r
  = Some (tt, pushed (fragment_commands size data) p, r).
Proof.
  intros Hs Hok Hr. apply for_each_enqueue; [|done|].
  - intros i p' r' Hi%elem_of_seqZ Hok' Hr'. cbn zeta. rewrite Z.add_0_l in Hi.
    erewrite bind_run.
    2: { unfold may_panic. by rewrite chunk_slice by lia. }
    destruct (enqueue_fits (mk i (chunk size data i)) p' r') as [b E];
      [by apply queue_ok_nonneg|done|done|].
    by rewrite (bind_run _ _ _ _ _ _ _ E).
  - fold (fragment_commands size data). by rewrite fragment_commands_size.
Qed.
End Loop.

(** The datagram that carries one command alone, uncompressed. *)
Definition datagram_size (c : Config) (cmd : ProtocolCommand) : Z :=
  packet_overhead c + 2 + header_size cmd + payload_size cmd.

Lemma payload_budget_fits p header n : 0 <= header -> 1 <= payload_budget p header -> n <= payload_budget p header ->
  packet_overhead (p_config p) + 2 + header + n <= Peer_datagram_cap p.
Proof. unfold payload_budget, saturating_sub. lia. Qed.

Lemma payload_budget_mono p h h' : h <= h' -> payload_budget p h' <= payload_budget p h.
Proof. unfold payload_budget, saturating_sub. lia. Qed.

(** What a message becomes in the queue: one command if it fits, else its fragments. *)
Definition message_commands (single : SharedBytes -> ProtocolCommand)
  (mk : Z -> Z -> SharedBytes -> ProtocolCommand) (budget fragment_budget : Z) (data : list Z)
  : list ProtocolCommand :=
  if zlen data <=? budget then [single (SharedBytes_from_arc data)]
  else fragment_commands (mk (div_ceil (zlen data) fragment_budget)) fragment_budget data.

Definition payload_of (c : ProtocolCommand) : list Z :=
  match c with
  | SendReliable _ _ _ d | SendUnreliable _ d | SendUnreliableSequenced _ _ d
  | SendUnsequenced _ _ d | SendFragment _ _ _ _ _ d | SendUnreliableFragment _ _ _ _ d =>
      SharedBytes_as_slice d
  | _ => []
  end.

Lemma single_size (single : SharedBytes -> ProtocolCommand) data :
  (forall d, command_data_size (single d) = Z.of_nat (sb_len d)) ->
  data_sizes [single (SharedBytes_from_arc data)] = zlen data.
Proof. intros H. unfold data_sizes. simpl. rewrite H, Z.add_0_r. done. Qed.

(** The payloads of a message's commands are the message. *)
Lemma message_commands_payload single mk budget fb data : 0 < fb ->
  (forall d, payload_of (single d) = SharedBytes_as_slice d) ->
  (forall n i d, payload_of (mk n i d) = SharedBytes_as_slice d) ->
  concat (payload_of <$> message_commands single mk budget fb data) = data.
Proof.
  intros Hf Hs Hm. unfold message_commands. destruct (_ <=? _).
  - simpl. rewrite Hs, app_nil_r. unfold SharedBytes_as_slice. simpl. by rewrite take_ge.
  - transitivity (concat (SharedBytes_as_slice <$> chunks fb data));
      [|by apply chunks_concat]. f_equal. unfold fragment_commands, chunks.
    rewrite <-!list_fmap_compose. apply list_fmap_ext. intros i x _. simpl. apply Hm.
Qed.

(** Every one of them fits a datagram. *)
Lemma message_commands_fit single mk h hf p data : 0 <= h -> 0 <= hf ->
  1 <= payload_budget p h -> 1 <= payload_budget p hf ->
  (forall d, header_size (single d) = h /\ payload_size (single d) = Z.of_nat (sb_len d)) ->
  (forall n i d, header_size (mk n i d) = hf /\ payload_size (mk n i d) = Z.of_nat (sb_len d)) ->
  Forall (fun c => datagram_size (p_config p) c <= Peer_datagram_cap p)
    (message_commands single mk (payload_budget p h) (payload_budget p hf) data).
Proof.
  intros Hp Hpf Hh Hhf Hs Hm. unfold message_commands, datagram_size.
  destruct (Z.leb_spec (zlen data) (payload_budget p h)).
  - repeat constructor. destruct (Hs (SharedBytes_from_arc data)) as [-> ->].
    apply payload_budget_fits; [done|done|]. exact H.
  - unfold fragment_commands. apply Forall_fmap, Forall_forall. intros i Hi%elem_of_seqZ.
    cbn [compose]. match goal with |- context [mk ?n ?i ?d] => destruct (Hm n i d) as [-> ->] end.
    apply payload_budget_fits; [done|done|]. apply chunk_len; lia.
Qed.

Lemma enqueue_reliable_run ch data ordered p r (Hok : queue_ok p)
  (Hroom : room (zlen data) p) (Hmtu : 1 <= payload_budget p 9)
  (Hfrags : div_ceil (zlen data) (payload_budget p 9) <= Z.min 255 (max_fragments (p_config p))) :
  let seq := AcknowledgmentHandler_local_sequence_num (p_acknowledge_handler p) in
  let cs := message_commands (SendReliable ch seq ordered)
              (fun n i => SendFragment ch seq ordered i n)
              (payload_budget p 7) (payload_budget p 9) data in
  Peer_enqueue_reliable_data ch data ordered p r = Some (seq, pushed cs p, r).
Proof.
  intros seq cs. pose proof (payload_budget_mono p 7 9 ltac:(lia)).
  unfold Peer_enqueue_reliable_data. do 4 erewrite bind_run by reflexivity. fold seq.
  destruct (Z.ltb_spec (payload_budget p 7) 1); [lia|].
  unfold cs, message_commands. destruct (Z.leb_spec (zlen data) (payload_budget p 7)).
  - destruct (enqueue_fits (SendReliable ch seq ordered (SharedBytes_from_arc data)) p r) as [b E];
      [by apply queue_ok_nonneg|done|exact Hroom|]. by rewrite (bind_run _ _ _ _ _ _ _ E).
  - destruct (Z.ltb_spec (payload_budget p 9) 1); [lia|]. unfold u8_max.
    destruct (Z.ltb_spec 255 (div_ceil (zlen data) (payload_budget p 9))); [lia|].
    destruct (Z.ltb_spec (max_fragments (p_config p))
      (div_ceil (zlen data) (payload_budget p 9))); [lia|].
    erewrite bind_run; [reflexivity|].
    apply (fragment_loop_run (fun i => SendFragment ch seq ordered i
      (div_ceil (zlen data) (payload_budget p 9)))); [done|lia|done|done].
Qed.

(** C27: Reliable data.  A message that fits its fragment limits is enqueued whole: as one
    [SendReliable], or as fragments [0 .. n - 1] of [n] under one sequence number, whose
    payloads concatenate to the message; each command encodes to a datagram within the
    effective fragment size and the receive buffer; nothing else changes. *)
Theorem reliable_data_enqueued ch data ordered p r (Hok : queue_ok p)
  (Hroom : room (zlen data) p) (Hmtu : 1 <= payload_budget p 9)
  (Hfrags : div_ceil (zlen data) (payload_budget p 9) <= Z.min 255 (max_fragments (p_config p))) :
  let seq := AcknowledgmentHandler_local_sequence_num (p_acknowledge_handler p) in
  let cs := message_commands (SendReliable ch seq ordered)
              (fun n i => SendFragment ch seq ordered i n)
              (payload_budget p 7) (payload_budget p 9) data in
  Peer_enqueue_reliable_data ch data ordered p r = Some (seq, pushed cs p, r) /\
  concat (payload_of <$> cs) = data /\
  Forall (fun c => datagram_size (p_config p) c <= Peer_datagram_cap p) cs.
Proof.
  intros seq cs. pose proof (payload_budget_mono p 7 9 ltac:(lia)).
  split; [by apply enqueue_reliable_run|].
  split; [apply message_commands_payload; (done || lia)|apply message_commands_fit; (done || lia)].
Qed.

Lemma enqueue_unreliable_run ch data p r (Hok : queue_ok p)
  (Hroom : room (zlen data) p) (Hmtu : 1 <= payload_budget p 8)
  (Hfrags : div_ceil (zlen data) (payload_budget p 8) <= Z.min 255 (max_fragments (p_config p))) :
  let seq := p_next_unreliable_sequence p in
  let cs := message_commands (SendUnreliable ch)
              (fun n i => SendUnreliableFragment ch seq i n)
              (payload_budget p 4) (payload_budget p 8) data in
  Peer_enqueue_unreliable_data ch data p r =
    Some (seq, pushed cs (set_next_unreliable_sequence (wrapping_add16 seq 1) p), r).
Proof.
  intros seq cs. pose proof (payload_budget_mono p 4 8 ltac:(lia)).
  unfold Peer_enqueue_unreliable_data. do 2 erewrite bind_run by reflexivity. fold seq.
  set (p1 := set_next_unreliable_sequence (wrapping_add16 seq 1) p).
  assert (queue_ok p1) as Hok1 by (destruct Hok; by split).
  assert (room (zlen data) p1) as Hroom1 by exact Hroom.
  do 3 erewrite bind_run by reflexivity. change (payload_budget p1) with (payload_budget p).
  change (p_config p1) with (p_config p).
  destruct (Z.ltb_spec (payload_budget p 4) 1); [lia|].
  unfold cs, message_commands. destruct (Z.leb_spec (zlen data) (payload_budget p 4)).
  - destruct (enqueue_fits (SendUnreliable ch (SharedBytes_from_arc data)) p1 r) as [b E];
      [by apply queue_ok_nonneg|done|exact Hroom1|]. by rewrite (bind_run _ _ _ _ _ _ _ E).
  - destruct (Z.ltb_spec (payload_budget p 8) 1); [lia|]. unfold u8_max.
    destruct (Z.ltb_spec 255 (div_ceil (zlen data) (payload_budget p 8))); [lia|].
    destruct (Z.ltb_spec (max_fragments (p_config p))
      (div_ceil (zlen data) (payload_budget p 8))); [lia|].
    erewrite bind_run; [reflexivity|].
    apply (fragment_loop_run (fun i => SendUnreliableFragment ch seq i
      (div_ceil (zlen data) (payload_budget p 8)))); [done|lia|done|done].
Qed.

(** Unreliable data.  The same for unreliable messages, which take their sequence from a
    counter of their own that advances by one, wrapping, whatever happens to the message. *)
Theorem unreliable_data_enqueued ch data p r (Hok : queue_ok p)
  (Hroom : room (zlen data) p) (Hmtu : 1 <= payload_budget p 8)
  (Hfrags : div_ceil (zlen data) (payload_budget p 8) <= Z.min 255 (max_fragments (p_config p))) :
  let seq := p_next_unreliable_sequence p in
  let cs := message_commands (SendUnreliable ch)
              (fun n i => SendUnreliableFragment ch seq i n)
              (payload_budget p 4) (payload_budget p 8) data in
  Peer_enqueue_unreliable_data ch data p r =
    Some (seq, pushed cs (set_next_unreliable_sequence (wrapping_add16 seq 1) p), r) /\
  concat (payload_of <$> cs) = data /\
  Forall (fun c => datagram_size (p_config p) c <= Peer_datagram_cap p) cs.
Proof.
  intros seq cs. pose proof (payload_budget_mono p 4 8 ltac:(lia)).
  split; [by apply enqueue_unreliable_run|].
  split; [apply message_commands_payload; (done || lia)|apply message_commands_fit; (done || lia)].
Qed.

(** C38: Oversized messages.  A message of more than 255 fragments is dropped without an error,
    and one of more than [max_fragments] is cut: only its first fragment is enqueued, marked as
    the whole message. *)
Theorem oversized_data_cut ch data ordered p r (Hok : queue_ok p)
  (Hroom : room (zlen data) p) (Hmtu : 1 <= payload_budget p 9)
  (Hbig : Z.min 255 (max_fragments (p_config p)) < div_ceil (zlen data) (payload_budget p 9))
  (Hlong : payload_budget p 7 < zlen data) :
  let seq := AcknowledgmentHandler_local_sequence_num (p_acknowledge_handler p) in
  Peer_enqueue_reliable_data ch data ordered p r =
    Some (seq, if 255 <? div_ceil (zlen data) (payload_budget p 9) then p
               else pushed [SendFragment ch seq ordered 0 1 (chunk (payload_budget p 9) data 0)] p, r).
Proof.
  intros seq. pose proof (payload_budget_mono p 7 9 ltac:(lia)).
  unfold Peer_enqueue_reliable_data. do 4 erewrite bind_run by reflexivity. fold seq.
  destruct (Z.ltb_spec (payload_budget p 7) 1); [lia|].
  destruct (Z.leb_spec (zlen data) (payload_budget p 7)); [lia|].
  destruct (Z.ltb_spec (payload_budget p 9) 1); [lia|]. unfold u8_max.
  destruct (Z.ltb_spec 255 (div_ceil (zlen data) (payload_budget p 9))); [done|].
  destruct (Z.ltb_spec (max_fragments (p_config p))
    (div_ceil (zlen data) (payload_budget p 9))); [|lia].
  assert (slice (SharedBytes_from_arc data) 0 (Z.min (payload_budget p 9) (zlen data))
    = Some (chunk (payload_budget p 9) data 0)) as Es.
  { destruct (div_ceil_spec (zlen data) (payload_budget p 9) ltac:(lia) (zlen_nonneg data))
      as (_ & Hc & _).
    rewrite <-(chunk_slice (payload_budget p 9) data 0) by nia. f_equal; lia. }
  erewrite bind_run by (unfold may_panic; by rewrite Es). cbv beta.
  set (c := SendFragment ch seq ordered 0 1 (chunk (payload_budget p 9) data 0)).
  destruct (enqueue_fits c p r) as [b E]; [by apply queue_ok_nonneg|done| |].
  - eapply room_weaken; [|exact Hroom]. unfold c, chunk. cbn [command_data_size sb_len]. lia.
  - by rewrite (bind_run _ _ _ _ _ _ _ E).
Qed.

Definition long_data : list Z := repeat 7 3000.
Definition huge_data : list Z := repeat 7 (Z.to_nat 30000).
Definition sample_fragments : list ProtocolCommand :=
  message_commands (SendReliable 0 0 true) (fun n i => SendFragment 0 0 true i n)
    (payload_budget sample_peer 7) (payload_budget sample_peer 9) long_data.

Lemma sample_room (data : list Z) : (zlen data <=? 100000) = true -> room (zlen data) sample_peer.
Proof.
  intros H%Z.leb_le. unfold room, u64_max.
  change (p_total_waiting_data sample_peer) with 0.
  change (max_waiting_data (p_config sample_peer)) with 33554432. lia.
Qed.

Lemma reliable_data_enqueued_witness :
  length sample_fragments = 3%nat /\
  Peer_enqueue_reliable_data 0 long_data true sample_peer sample_rng
    = Some (0, pushed sample_fragments sample_peer, sample_rng) /\
  concat (payload_of <$> sample_fragments) = long_data.
Proof.
  destruct (reliable_data_enqueued 0 long_data true sample_peer sample_rng sample_peer_queue_ok)
    as (E & P & _).
  - apply sample_room. by vm_compute.
  - by vm_compute.
  - vm_compute. discriminate.
  - split; [by vm_compute|]. split; [exact E|exact P].
Defined.

Lemma unreliable_data_enqueued_witness :
  exists cs p', Peer_enqueue_unreliable_data 0 long_data sample_peer sample_rng
    = Some (0, p', sample_rng) /\ queue p' = cs /\ concat (payload_of <$> cs) = long_data.
Proof.
  destruct (unreliable_data_enqueued 0 long_data sample_peer sample_rng sample_peer_queue_ok)
    as (E & P & _).
  - apply sample_room. by vm_compute.
  - by vm_compute.
  - vm_compute. discriminate.
  - eexists _, _. split; [exact E|]. split; [reflexivity|exact P].
Defined.

Lemma oversized_data_cut_witness :
  exists c, Peer_enqueue_reliable_data 0 huge_data true sample_peer sample_rng
    = Some (0, pushed [c] sample_peer, sample_rng).
Proof.
  eexists. pose proof (oversized_data_cut 0 huge_data true sample_peer sample_rng
    sample_peer_queue_ok) as H. cbv zeta in H.
  replace (255 <? div_ceil (zlen huge_data) (payload_budget sample_peer 9)) with false in H
    by (by vm_compute). apply H.
  - apply sample_room. by vm_compute.
  - by vm_compute.
  - by vm_compute.
  - by vm_compute.
Defined.
