(* ===== verification/EncoderFacts.v ===== *)
(** What leaves the queue in a datagram, and what a receiver makes of it. *)

From S2P Require Import Prelude Core Externs Buffers Packet Command Codec CodecFacts Framing.
From S2P Require Import Ack Bandwidth PeerParts Peer PeerFacts Fragmenter PeerEncoder.
From S2P Require Import CommandProcessor Session PeerSession.

Section EncoderFacts.
Context {X : Externs}.

(* ------------------------------------------------------------------ *)
(** ** Sealing                                                          *)
(* ------------------------------------------------------------------ *)

(** The bytes of a packet of [cs] on the wire. *)
Definition compressed (c : Config) (cs : list ProtocolCommand) : io_result (list Z) :=
  compress (packet_bytes cs) (compression c) (compression_threshold c).
Definition trailer (c : Config) (bytes : list Z) : list Z :=
  if use_checksums c then append_checksum bytes else bytes.

Lemma compress_any_buffer data alg th out :
  compress_with_buffer data alg th out = compress data alg th.
Proof. done. Qed.

(** [p'] is [p] up to its buffer pools and statistics. *)
Definition sent_like (p p' : Peer) : Prop := exists s c t,
  p' = set_statistics s (set_compression_pool c (set_tx_pool t p)).

Lemma sent_like_refl p : sent_like p p.
Proof. exists (p_statistics p), (p_compression_pool p), (p_tx_pool p). by destruct p. Qed.

(** The statistics after one more datagram. *)
Definition count_sent (n : Z) (s : PeerStatistics) : PeerStatistics :=
  mkPeerStatistics (packets_sent s + 1) (packets_received s) (packets_lost s) (bytes_sent s + n)
    (bytes_received s).

(** The statistics can count [n] more datagrams of [size] bytes. *)
Record stats_room (n size : Z) (p : Peer) : Prop := {
  sr_packets : 0 <= packets_sent (p_statistics p) /\
               packets_sent (p_statistics p) + n <= u64_max;
  sr_bytes : 0 <= bytes_sent (p_statistics p) /\
             bytes_sent (p_statistics p) + n * size <= u64_max
}.

Lemma foldl_add_commands packet cs :
  foldl CommandPacket_add_command packet cs =
  mkCommandPacket (commands packet ++ cs) (packet_timestamp packet).
Proof.
  revert packet. induction cs as [|c cs IH]; intros [l t]; cbn [foldl].
  - by rewrite app_nil_r.
  - rewrite IH. simpl. by rewrite <-app_assoc.
Qed.

Context {L : ByteOrderLaws X}.

Lemma trailer_length c bytes :
  zlen (trailer c bytes) = zlen bytes + (if use_checksums c then 4 else 0).
Proof.
  unfold trailer, append_checksum. destruct (use_checksums c); [|lia].
  rewrite zlen_app. unfold zlen at 2. by rewrite to_be_bytes_length.
Qed.

Lemma compressed_length c cs bytes : compressed c cs = Ok bytes ->
  zlen bytes <= 2 + zlen (frames cs).
Proof.
  unfold compressed, compress. intros H. apply compress_with_buffer_size in H. revert H.
  unfold packet_bytes. rewrite zlen_cons. lia.
Qed.

(** The bytes around the frames are at most the overhead the selection reserves. *)
Lemma sealed_length c cs bytes : compressed c cs = Ok bytes ->
  zlen (trailer c bytes) <= packet_overhead c + zlen (frames cs).
Proof.
  intros H%compressed_length. rewrite trailer_length. unfold packet_overhead.
  destruct (compression c); lia.
Qed.

Lemma seal_run packet size p r : stats_room 1 size p ->
  packet_overhead (p_config p) + zlen (frames (commands packet)) <= size ->
  exists p', Peer_seal_packet packet p r =
    Some (trailer (p_config p) <$> compressed (p_config p) (commands packet), p', r) /\
    match compressed (p_config p) (commands packet) with
    | Ok bytes => sent_like p p' /\
        p_statistics p' = count_sent (zlen (trailer (p_config p) bytes)) (p_statistics p)
    | Err _ => sent_like p p' /\ p_statistics p' = p_statistics p
    end.
Proof.
  intros [Hp Hb] Hsize. unfold Peer_seal_packet.
  destruct (PacketAllocator_allocate (p_tx_pool p)) as [b pool] eqn:Ea.
  erewrite bind_run by (unfold updating; by rewrite Ea). cbv beta.
  rewrite encode_packet_into_closed. cbn [app].
  set (p1 := set_tx_pool pool p).
  destruct (CompressionBufferPool_acquire (p_compression_pool p1)) as [b' pool'] eqn:Ec.
  erewrite bind_run by (unfold updating; by rewrite Ec).
  set (p2 := set_compression_pool pool' p1).
  erewrite bind_run by reflexivity. rewrite compress_any_buffer.
  change (p_config p2) with (p_config p). fold (compressed (p_config p) (commands packet)).
  destruct (compressed (p_config p) (commands packet)) as [bytes|e] eqn:E.
  2: { exists p2. split; [done|]. split; [|done]. by exists (p_statistics p), pool', pool; destruct p. }
  pose proof (sealed_length _ _ _ E) as Hl. pose proof (zlen_nonneg (trailer (p_config p) bytes)).
  erewrite bind_run by reflexivity.
  erewrite bind_run.
  2: { unfold Peer_record_packet_sent. erewrite bind_run.
       2: { unfold may_panic, add_u64. rewrite checked_in; [done|]. cbn. lia. }
       reflexivity. }
  replace (if use_checksums (p_config p) then append_checksum_in_place bytes else bytes)
    with (trailer (p_config p) bytes) by done.
  erewrite bind_run.
  2: { unfold Peer_record_data_sent. erewrite bind_run.
       2: { unfold may_panic, add_u64. rewrite checked_in; [done|]. cbn. lia. }
       reflexivity. }
  eexists. split; [done|]. split; [by eexists _, _, _|done].
Qed.

(** Opening what was sealed. *)
Context `{!CrcLaws X, !ZlibLaws X, !Lz4Laws X}.

Lemma open_sealed c cs bytes now :
  compressed c cs = Ok bytes -> Forall frame_ok cs -> (length cs <= 255)%nat ->
  zlen (packet_bytes cs) < 2147483648 ->
  open_datagram (use_checksums c) (trailer c bytes) now =
    Ok (mkCommandPacket (command_reown <$> cs) now).
Proof.
  intros E Hf Hn Hl. unfold open_datagram, trailer.
  assert (decompress bytes = Ok (packet_bytes cs)) as Ed by 
    (by apply (compress_decompress _ (compression c) (compression_threshold c) [])).
  assert ((if use_checksums c then to_header_error (validate_and_strip_checksum
             (if use_checksums c then append_checksum bytes else bytes))
           else Ok (if use_checksums c then append_checksum bytes else bytes)) = Ok bytes) as ->.
  { destruct (use_checksums c); [|done]. by rewrite (strip_checksum_append _ (crc32_u32 _)). }
  cbn -[decompress decode_packet]. rewrite Ed. cbn -[decode_packet]. by rewrite decode_packet_bytes.
Qed.

(* ------------------------------------------------------------------ *)
(** ** Selecting what fits                                              *)
(* ------------------------------------------------------------------ *)

(** [k] is the length of the longest prefix of [cs] whose frames fit. *)
Definition longest_fit (overhead max_size : Z) (cs : list ProtocolCommand) (k : nat) : Prop :=
  (k <= length cs)%nat /\
  (k = 0%nat \/ overhead + zlen (frames (take k cs)) <= max_size) /\
  (forall k', (k < k' <= length cs)%nat -> max_size < overhead + zlen (frames (take k' cs))).

Lemma longest_fit_unique oh size cs k k' :
  longest_fit oh size cs k -> longest_fit oh size cs k' -> k = k'.
Proof.
  intros (H1 & H2 & H3) (H1' & H2' & H3').
  destruct (decide (k < k')%nat); [specialize (H3 k'); lia|].
  destruct (decide (k' < k)%nat); [specialize (H3' k); lia|]. lia.
Qed.

Lemma select_commands_spec oh max_size cs : forall agg n, exists k,
  select_commands oh max_size cs agg n = Ok (n + k)%nat /\
  longest_fit (oh + agg) max_size cs k.
Proof.
  induction cs as [|c cs IH]; intros agg n; cbn [select_commands].
  { exists 0%nat. rewrite Nat.add_0_r. split; [done|]. unfold longest_fit. simpl. split_all; lia. }
  rewrite encode_command_spec. cbn -[longest_fit]. rewrite <-frame_length.
  assert (forall j, zlen (frames (take (S j) (c :: cs))) = zlen (frame c) + zlen (frames (take j cs)))
    as Hf by (intros j; cbn [take]; by rewrite frames_cons, zlen_app).
  destruct (Z.ltb_spec max_size (oh + agg + zlen (frame c))).
  - exists 0%nat. rewrite Nat.add_0_r. split; [done|]. unfold longest_fit.
    split; [lia|]. split; [by left|]. intros [|j] Hj; [lia|]. rewrite Hf.
    pose proof (zlen_nonneg (frames (take j cs))). lia.
  - destruct (IH (agg + zlen (frame c)) (S n)) as (k & -> & Hk & Hfit & Hmax).
    exists (S k). split; [f_equal; lia|]. unfold longest_fit. split; [simpl; lia|]. split.
    + right. rewrite Hf. destruct Hfit as [->|Hfit]; [|lia]. rewrite take_0. cbn [frames].
      change (zlen (frames [])) with 0. lia.
    + intros [|j] Hj; [lia|]. rewrite Hf. specialize (Hmax j ltac:(simpl in Hj; lia)). lia.
Qed.

(** A frame is never shorter than six bytes, so a datagram of at most 1537 bytes holds no more
    commands than its count byte can say. *)
Lemma frame_min c : command_ok c -> 6 <= zlen (frame c).
Proof.
  intros Hc. rewrite frame_length, command_bytes_length by done.
  destruct c; simpl; try lia. case_match; lia.
Qed.

Lemma frames_min cs : Forall command_ok cs -> 6 * zlen cs <= zlen (frames cs).
Proof.
  induction 1 as [|c cs Hc _ IH]; [done|]. rewrite frames_cons, zlen_app, zlen_cons.
  pose proof (frame_min c Hc). lia.
Qed.

Lemma frame_ok_command cs : Forall frame_ok cs -> Forall command_ok cs.
Proof. intros H. eapply Forall_impl; [exact H|]. by intros c [? _]. Qed.

Lemma count_fits oh size cs : 2 <= oh -> size <= 1537 -> Forall frame_ok cs ->
  oh + zlen (frames cs) <= size -> (length cs <= 255)%nat.
Proof. intros Ho Hs Hf%frame_ok_command%frames_min Hz. unfold zlen in *. lia. Qed.

Lemma packet_overhead_min c : 2 <= packet_overhead c.
Proof. unfold packet_overhead. case_match; case_match; lia. Qed.

(* ------------------------------------------------------------------ *)
(** ** One bounded datagram                                             *)
(* ------------------------------------------------------------------ *)

(** The size a datagram of the queue may have: a probe at the head raises it. *)
Definition effective_size (max_size : Z) (p : Peer) : Z :=
  if is_pmtu_probe (head (queue p)) then receive_buffer_max_size (p_config p) else max_size.

(** The queue after its first [k] commands left. *)
Definition rest_like (k : nat) (p p' : Peer) : Prop := exists s c t,
  p' = set_statistics s (set_compression_pool c (set_tx_pool t
         (set_command_queue (mkCommandQueue (drop k (queue p))
                               (cq_max_queue_size (p_command_queue p)))
            (set_total_waiting_data (data_sizes (drop k (queue p))) p)))).

Lemma data_sizes_drop k cs : data_sizes (drop k cs) <= data_sizes cs.
Proof.
  rewrite <-(take_drop k cs) at 2. rewrite data_sizes_app.
  pose proof (data_sizes_nonneg (take k cs)). lia.
Qed.

Lemma queue_ok_rest k p p' : queue_ok p -> rest_like k p p' -> queue_ok p'.
Proof.
  intros [He Hl Hu] (s & c & t & ->). pose proof (data_sizes_drop k (queue p)).
  split; cbn; [done|intros Hm; specialize (Hl Hm); lia|lia].
Qed.

(** Draining and putting the rest back. *)
Lemma drain_and_requeue k p r : queue_ok p ->
  let p0 := set_command_queue (mkCommandQueue [] (cq_max_queue_size (p_command_queue p)))
              (set_total_waiting_data 0 p) in
  Peer_drain_commands p r = Some (queue p, p0, r) /\
  for_each (fun cmd => _ ← Peer_enqueue_command cmd; mret tt) (drop k (queue p)) p0 r =
    Some (tt, pushed (drop k (queue p)) p0, r).
Proof.
  intros [He Hl Hu] p0. split; [done|]. pose proof (data_sizes_drop k (queue p)).
  apply for_each_enqueue_commands.
  - split; cbn; [done|lia|]. unfold u64_max. lia.
  - split; [cbn; lia|]. intros Hm. specialize (Hl Hm). cbn. lia.
Qed.

(** What one call of the encoder does, when the compressor does not fail. *)
Lemma encode_bounded_run max_size now p r :
  let size := effective_size max_size p in
  let c := p_config p in
  queue_ok p -> stats_room 1 size p ->
  exists k, longest_fit (packet_overhead c) size (queue p) k /\
    match k with
    | O => Peer_encode_queued_commands_bounded max_size now p r = Some (Ok None, p, r)
    | _ => exists p',
        Peer_encode_queued_commands_bounded max_size now p r =
          Some ((fun b => Some (trailer c b)) <$> compressed c (take k (queue p)), p', r) /\
        rest_like k p p' /\
        match compressed c (take k (queue p)) with
        | Ok b => zlen (trailer c b) <= size /\
            p_statistics p' = count_sent (zlen (trailer c b)) (p_statistics p)
        | Err _ => p_statistics p' = p_statistics p
        end
    end.
Proof.
  intros size c Hok Hst. unfold Peer_encode_queued_commands_bounded.
  erewrite bind_run by reflexivity.
  destruct (select_commands_spec (packet_overhead c) size (queue p) 0 0) as (k & Hsel & Hk).
  rewrite Z.add_0_r, Nat.add_0_l in *. exists k. split; [done|].
  unfold Peer_has_queued_commands, CommandQueue_is_empty. fold (queue p).
  destruct (queue p) as [|c0 q0] eqn:Eq.
  { destruct Hk as [Hk _]. simpl in Hk. by assert (k = 0%nat) as -> by lia. }
  cbn [negb]. rewrite <-Eq in *. clear c0 q0 Eq.
  do 2 erewrite bind_run by reflexivity. unfold CommandQueue_iter. fold (queue p) c.
  unfold effective_size in size. fold c in size. fold size.
  rewrite Hsel. destruct k as [|k]; [done|].
  destruct (drain_and_requeue (S k) p r Hok) as [Hdr Hre].
  erewrite bind_run by exact Hdr. rewrite foldl_add_commands. cbn [app commands packet_timestamp CommandPacket_new].
  erewrite bind_run by exact Hre.
  match goal with |- context [pushed ?cs ?q] => set (p2 := pushed cs q) end.
  destruct Hk as (_ & [?|Hfit] & _); [done|].
  destruct (seal_run (mkCommandPacket (take (S k) (queue p)) now) size p2 r) as (p' & Hseal & Hp').
  { by destruct Hst. }
  { exact Hfit. }
  erewrite bind_run by exact Hseal. cbn [commands] in *. change (p_config p2) with c in *.
  assert (sent_like p2 p') as (s & cp & t & E) by (by case_match; apply Hp').
  assert (rest_like (S k) p p') as Hrest.
  { exists s, cp, t. rewrite E. reflexivity. }
  destruct (compressed c (take (S k) (queue p))) as [b|e] eqn:Ec.
  - exists p'. pose proof (sealed_length _ _ _ Ec). cbn -[Z.ltb].
    destruct (Z.ltb_spec size (zlen (trailer c b))); [lia|]. split; [done|]. split; [done|].
    destruct Hp' as [_ ->]. split; [lia|done].
  - exists p'. split; [done|]. split; [done|]. by destruct Hp' as [_ ->].
Qed.


(** The compressor accepts everything it is given; without compression this always holds. *)
Definition compresses (c : Config) : Prop := forall cs, is_ok (compressed c cs) = true.

Lemma compresses_none c : compression c = CompNone -> compresses c.
Proof. intros H cs. unfold compressed. by rewrite H, compress_None. Qed.

(** A datagram carries [cs]: it is no longer than [size] and a receiver with the same
    configuration decodes exactly these commands, in this order. *)
Definition carries (c : Config) (size : Z) (bytes : list Z) (cs : list ProtocolCommand) : Prop :=
  zlen bytes <= size /\
  forall now, open_datagram (use_checksums c) bytes now =
    Ok (mkCommandPacket (command_reown <$> cs) now).

Lemma carries_sealed c size cs bytes : compressed c cs = Ok bytes -> Forall frame_ok cs ->
  packet_overhead c + zlen (frames cs) <= size -> size <= 1537 ->
  carries c size (trailer c bytes) cs.
Proof.
  intros E Hf Hs Hz. pose proof (packet_overhead_min c).
  split; [pose proof (sealed_length _ _ _ E); lia|]. intros now.
  apply open_sealed; [done|done|by eapply count_fits|].
  unfold packet_bytes. rewrite zlen_cons. lia.
Qed.

(** What the flush loop needs of a peer. *)
Record sendable (n : Z) (size : Z) (p : Peer) : Prop := {
  sd_queue : queue_ok p;
  sd_frames : Forall frame_ok (queue p);
  sd_stats : stats_room n size p;
  sd_compress : compresses (p_config p);
  sd_size : 0 <= size <= 1537
}.

Lemma stats_room_weaken n m size size' p : 0 <= m <= n -> 0 <= size' <= size ->
  stats_room n size p -> stats_room m size' p.
Proof. intros Hm Hs [H1 H2]. split; nia. Qed.

(** C12: Bounded datagrams.  The encoder takes the longest prefix of the queue that fits the
    limit and no other command: nothing if not even the first one fits, and then the peer is
    unchanged; otherwise a datagram within the limit that decodes to exactly that prefix, which
    leaves the queue with the rest in order.  The final length check never rejects it. *)
Theorem bounded_datagram max_size now p r
  (Hp : sendable 1 (effective_size max_size p) p) :
  let size := effective_size max_size p in
  exists k, longest_fit (packet_overhead (p_config p)) size (queue p) k /\
    (k = 0%nat /\ Peer_encode_queued_commands_bounded max_size now p r = Some (Ok None, p, r) \/
     exists bytes p',
       Peer_encode_queued_commands_bounded max_size now p r = Some (Ok (Some bytes), p', r) /\
       carries (p_config p) size bytes (take k (queue p)) /\
       queue p' = drop k (queue p) /\ queue_ok p').
Proof.
  intros size. destruct Hp as [Hok Hf Hst Hc Hz].
  destruct (encode_bounded_run max_size now p r Hok Hst) as (k & Hk & Hrun). exists k.
  split; [done|]. destruct k as [|k]; [by left|]. right.
  destruct Hrun as (p' & Hrun & Hrest & _). pose proof (Hc (take (S k) (queue p))) as Hck.
  destruct (compressed (p_config p) (take (S k) (queue p))) as [b|] eqn:E; [|done].
  exists (trailer (p_config p) b), p'. split; [exact Hrun|].
  split; [|split; [by destruct Hrest as (? & ? & ? & ->)|by eapply queue_ok_rest]].
  destruct Hk as (_ & [?|Hfit] & _); [done|].
  apply carries_sealed; [done|by apply Forall_take|done|unfold size; lia].
Qed.

(* ------------------------------------------------------------------ *)
(** ** The flush loop                                                   *)
(* ------------------------------------------------------------------ *)

(** Why a flush stops. *)
Definition flush_done (p : Peer) : Prop :=
  queue p = [] \/ Peer_can_send_within_bandwidth p = false \/
  longest_fit (packet_overhead (p_config p)) (effective_size (Peer_datagram_cap p) p) (queue p) 0.

Lemma effective_cap p : effective_size (Peer_datagram_cap p) p <= receive_buffer_max_size (p_config p).
Proof. unfold effective_size, Peer_datagram_cap. case_match; lia. Qed.

(** The state of a peer that its datagrams do not change: all but the queue, the pools and the
    books of what was sent. *)
Definition core (p : Peer) :=
  (p_last_heard p, p_remote_address p, p_state p, p_next_unreliable_sequence p,
   p_unsequenced_state p, p_acknowledge_handler p, p_command_fragments p, p_channel_states p,
   p_pmtu p, bt_incoming_bandwidth_limit (p_bandwidth_throttle p),
   bt_bytes_received_this_window (p_bandwidth_throttle p),
   bt_bandwidth_window_start (p_bandwidth_throttle p)).

(** What flushing leaves alone. *)
Record kept (p p' : Peer) : Prop := {
  kp_core : core p' = core p;
  kp_config : p_config p' = p_config p;
  kp_cap : Peer_datagram_cap p' = Peer_datagram_cap p;
  kp_limit : bt_outgoing_bandwidth_limit (p_bandwidth_throttle p')
             = bt_outgoing_bandwidth_limit (p_bandwidth_throttle p)
}.

(** The bytes that left in the current window, and how many more datagrams its limit lets leave. *)
Definition window_sent (p : Peer) : Z := bt_bytes_sent_this_window (p_bandwidth_throttle p).
Definition outgoing (n : Z) (p : Peer) : Prop :=
  spare (bt_outgoing_bandwidth_limit (p_bandwidth_throttle p)) (window_sent p) n.

(** The books after [k] datagrams. *)
Record counted (k : Z) (p p' : Peer) (size : Z) : Prop := {
  ct_packets : packets_sent (p_statistics p') = packets_sent (p_statistics p) + k;
  ct_bytes : bytes_sent (p_statistics p) <= bytes_sent (p_statistics p')
             <= bytes_sent (p_statistics p) + k * size;
  ct_received : packets_received (p_statistics p') = packets_received (p_statistics p) /\
                bytes_received (p_statistics p') = bytes_received (p_statistics p);
  ct_window : 0 <= window_sent p -> 0 <= window_sent p' <= window_sent p + k * size
}.
Lemma counted_trans j k p p1 p2 size : counted j p p1 size -> counted k p1 p2 size ->
  counted (j + k) p p2 size.
Proof. intros [H1 H2 [H3 H4] H5] [J1 J2 [J3 J4] J5]. split; lia. Qed.
Lemma counted_outgoing n k size p p' : 0 <= k -> size <= 1537 -> counted k p p' size ->
  bt_outgoing_bandwidth_limit (p_bandwidth_throttle p') = bt_outgoing_bandwidth_limit (p_bandwidth_throttle p) ->
  outgoing (n + k) p -> outgoing n p'.
Proof.
  intros Hk Hs [_ _ _ Hw] E H. unfold outgoing. rewrite E. eapply spare_after; [exact Hk|exact H|].
  intros H0. specialize (Hw H0). nia.
Qed.

#[export] Instance kept_preorder : PreOrder kept.
Proof. split; [by intros p|]. intros p p1 p2 [] []. split; congruence. Qed.

(** One round of the loop takes [k > 0] commands off the queue. *)
Lemma flush_round n time actions p r :
  sendable (zlen (queue p)) (receive_buffer_max_size (p_config p)) p ->
  0 <= effective_size (Peer_datagram_cap p) p ->
  flush_done p /\ flush_commands (S n) time actions p r = Some (actions, p, r) \/
  exists bytes k p',
    (0 < k <= length (queue p))%nat /\ queue p' = drop k (queue p) /\
    kept p p' /\ counted 1 p p' (receive_buffer_max_size (p_config p)) /\
    carries (p_config p) (effective_size (Peer_datagram_cap p) p) bytes (take k (queue p)) /\
    sendable (zlen (queue p')) (receive_buffer_max_size (p_config p')) p' /\
    flush_commands (S n) time actions p r = flush_commands n time (actions ++ [Send bytes]) p' r.
Proof.
  intros [Hok Hf Hst Hc Hz] He. pose proof (effective_cap p). cbn [flush_commands].
  erewrite bind_run by reflexivity. unfold Peer_has_queued_commands, CommandQueue_is_empty.
  fold (queue p). destruct (decide (queue p = [])) as [Eq|Hne].
  { left. rewrite Eq. split; [by left|done]. }
  assert (negb match queue p with [] => true | _ => false end = true) as -> by by destruct (queue p).
  destruct (Peer_can_send_within_bandwidth p) eqn:Eb; cbn [negb andb].
  2: { left. split; [by right; left|done]. }
  assert (1 <= zlen (queue p)) as Hlen by (destruct (queue p); [done|]; rewrite zlen_cons;
    pose proof (zlen_nonneg l); lia).
  erewrite bind_run by reflexivity.
  destruct (encode_bounded_run (Peer_datagram_cap p) time p r Hok) as (k & Hk & Hrun).
  { eapply stats_room_weaken; [| |exact Hst]; lia. }
  destruct k as [|k].
  { left. split; [by right; right|]. by erewrite bind_run by exact Hrun. }
  right. destruct Hrun as (p1 & Hrun & Hrest & Hstat). pose proof (Hc (take (S k) (queue p))) as Hck.
  destruct (compressed (p_config p) (take (S k) (queue p))) as [b|] eqn:E; [|done].
  destruct Hstat as [Hlb Hstat]. pose proof (queue_ok_rest _ _ _ Hok Hrest) as Hok1.
  exists (trailer (p_config p) b), (S k),
    (Peer_record_bytes_sent (as_u32 (zlen (trailer (p_config p) b))) p1).
  destruct Hrest as (s & cp & t & E1). destruct Hk as (Hkl & [?|Hfit] & _); [done|].
  set (p2 := Peer_record_bytes_sent _ p1).
  assert (queue p2 = drop (S k) (queue p)) as Eq2 by (unfold p2; by rewrite E1).
  assert (p_config p2 = p_config p) as Ec2 by (unfold p2; by rewrite E1).
  split; [lia|]. split; [done|].
  split; [unfold p2; by rewrite E1|].
  split.
  { pose proof (zlen_nonneg (trailer (p_config p) b)).
    split; [..|unfold p2, window_sent; rewrite E1; cbn; unfold saturating_add32, as_u32, u32_max; zmod];
      change (p_statistics p2) with (p_statistics p1); rewrite Hstat; cbn; lia || done. }
  split; [apply carries_sealed; [done|by apply Forall_take|done|lia]|].
  split.
  - rewrite Ec2. split; [|rewrite Eq2; by apply Forall_drop| |by rewrite Ec2|lia].
    + destruct Hok1. split; done.
    + assert (zlen (queue p2) <= zlen (queue p) - 1) by
        (rewrite Eq2; unfold zlen; rewrite length_drop; lia).
      destruct Hst as [[H1 H2] [H3 H4]]. pose proof (zlen_nonneg (trailer (p_config p) b)).
      split; change (p_statistics p2) with (p_statistics p1); rewrite Hstat;
        cbn [count_sent packets_sent bytes_sent]; nia.
  - by erewrite bind_run by exact Hrun.
Qed.

Lemma flush_commands_run n time : forall actions p r,
  (length (queue p) < n)%nat ->
  sendable (zlen (queue p)) (receive_buffer_max_size (p_config p)) p ->
  1 <= Peer_datagram_cap p ->
  exists dgs sent p',
    flush_commands n time actions p r = Some (actions ++ (Send <$> dgs), p', r) /\
    queue p = concat sent ++ queue p' /\ queue_ok p' /\ flush_done p' /\ kept p p' /\
    Forall (fun cs => cs <> []) sent /\
    Forall2 (carries (p_config p) (receive_buffer_max_size (p_config p))) dgs sent /\
    (Forall (fun c => is_pmtu_probe (Some c) = false) (queue p) ->
     Forall (fun dg => zlen dg <= Peer_datagram_cap p) dgs) /\
    counted (zlen dgs) p p' (receive_buffer_max_size (p_config p)).
Proof.
  induction n as [|n IH]; intros actions p r Hn Hs Hcap; [lia|].
  pose proof (effective_cap p) as He.
  assert (0 <= effective_size (Peer_datagram_cap p) p) as He0.
  { unfold effective_size. destruct Hs. case_match; lia. }
  destruct (flush_round n time actions p r Hs He0) as
    [[Hd E]|(bytes & k & p1 & Hk & Eq & Hkept & Hct & [Hlen Hopen] & Hs1 & E)].
  - exists [], [], p. rewrite E, app_nil_r. destruct Hs. split_and!; try done.
    change (zlen []) with 0. split; lia || done.
  - destruct (IH (actions ++ [Send bytes]) p1 r) as (dgs & sent & p' & E' & Hq & Hok & Hd & Hk' & Hne & H2 & Hb & Hct').
    { rewrite Eq, length_drop. lia. } { done. } { by destruct Hkept as [_ _ -> _]. }
    exists (bytes :: dgs), (take k (queue p) :: sent), p'.
    split; [by rewrite E, E', <-app_assoc|]. split.
    { cbn [concat]. by rewrite <-app_assoc, <-Hq, Eq, take_drop. }
    split; [done|]. split; [done|]. split; [by transitivity p1|].
    split; [constructor; [|done]; intros H0; apply (f_equal length) in H0;
      rewrite length_take in H0; simpl in H0; lia|].
    destruct Hkept as [_ Ec Ecap _]. rewrite Ec in H2, Hct'. split; [|split].
    + constructor; [|done]. split; [lia|done].
    + intros Hnp. constructor.
      * unfold effective_size in Hlen. destruct Hnp; [simpl in Hk; lia|]. cbn [head] in Hlen.
        by rewrite H in Hlen.
      * rewrite Ecap in Hb. apply Hb. rewrite Eq. by apply Forall_drop.
    + rewrite zlen_cons. by eapply counted_trans.
Qed.

(** C11: Flushing the queue.  The loop always ends, and what it sends is the queue: datagrams
    that decode, one after the other, to the commands that left, in order and each exactly
    once; what stays is the rest of the queue.  It stops only when the queue is empty, the
    outgoing window is used up, or the command at the head does not fit a datagram; every
    datagram respects the receive buffer and, without probes, the path limit. *)
Theorem flush_sends_queue time actions p r
  (Hs : sendable (zlen (queue p)) (receive_buffer_max_size (p_config p)) p)
  (Hcap : 1 <= Peer_datagram_cap p) :
  exists dgs sent p',
    Peer_flush time actions p r = Some (actions ++ (Send <$> dgs), p', r) /\
    queue p = concat sent ++ queue p' /\ queue_ok p' /\ flush_done p' /\ kept p p' /\
    Forall (fun cs => cs <> []) sent /\
    Forall2 (carries (p_config p) (receive_buffer_max_size (p_config p))) dgs sent /\
    (Forall (fun c => is_pmtu_probe (Some c) = false) (queue p) ->
     Forall (fun dg => zlen dg <= Peer_datagram_cap p) dgs).
Proof.
  unfold Peer_flush. erewrite bind_run by reflexivity. fold (queue p).
  destruct (flush_commands_run (S (length (queue p))) time actions p r)
    as (dgs & sent & p' & H); [lia|done|done|]. exists dgs, sent, p'. tauto.
Qed.

End EncoderFacts.

Import Sample.

(** The sample peer with four commands in its queue. *)
Definition loaded_peer : Peer := pushed (commands sample_packet) sample_peer.

Lemma loaded_peer_sendable size : 0 <= size <= 1537 -> sendable 4 size loaded_peer.
Proof.
  intros Hs. split; [| | |by apply compresses_none|done].
  - split; [done|vm_compute; discriminate|vm_compute; discriminate].
  - exact sample_frames_ok.
  - split; change (packets_sent (p_statistics loaded_peer)) with 0;
      change (bytes_sent (p_statistics loaded_peer)) with 0; unfold u64_max; lia.
Qed.

Lemma loaded_fit : longest_fit 6 40 (commands sample_packet) 3.
Proof.
  split; [simpl; lia|]. split; [right; vm_compute; discriminate|].
  intros k' Hk'. assert (k' = 4%nat) as -> by (simpl in Hk'; lia). by vm_compute.
Qed.

Lemma bounded_datagram_witness :
  exists bytes p', Peer_encode_queued_commands_bounded 40 0 loaded_peer sample_rng
      = Some (Ok (Some bytes), p', sample_rng) /\
    carries (p_config loaded_peer) 40 bytes (take 3 (commands sample_packet)) /\
    queue p' = drop 3 (commands sample_packet).
Proof.
  destruct (bounded_datagram 40 0 loaded_peer sample_rng) as (k & Hk & Hrun).
  - change (effective_size 40 loaded_peer) with 40.
    destruct (loaded_peer_sendable 40) as [H1 H2 H3 H4 H5]; [lia|].
    split; [done|done| |done|done]. by apply (stats_room_weaken 4 1 40); [lia..|].
  - rewrite (longest_fit_unique _ _ _ _ _ Hk loaded_fit) in Hrun.
    destruct Hrun as [[? _]|(bytes & p' & E & Hc & Hq & _)]; [done|]. by exists bytes, p'.
Defined.

Lemma flush_sends_queue_witness :
  exists dgs sent p',
    Peer_flush 0 [] loaded_peer sample_rng = Some (Send <$> dgs, p', sample_rng) /\
    commands sample_packet = concat sent ++ queue p' /\
    Forall2 (carries (p_config loaded_peer) 1452) dgs sent.
Proof.
  destruct (flush_sends_queue 0 [] loaded_peer sample_rng) as (dgs & sent & p' & E & Hq & _ & _ & _ & _ & H & _).
  - apply loaded_peer_sendable. change (receive_buffer_max_size (p_config loaded_peer)) with 1452. lia.
  - by vm_compute.
  - exists dgs, sent, p'. split; [exact E|]. split; [exact Hq|exact H].
Defined.
