(* ===== verification/ProcessorFacts.v ===== *)
(** The connection state machine, the handshake, and what each incoming command does. *)

From S2P Require Import Prelude Float32 Core Externs Buffers Packet Command Codec CodecFacts.
From S2P Require Import Framing SequenceBuffer Ack Bandwidth ChannelState FragmentBuffer.
From S2P Require Import FlowControl Pmtu PeerParts Peer PeerFacts Fragmenter PeerEncoder.
From S2P Require Import CommandProcessor Session PeerSession.

(* ------------------------------------------------------------------ *)
(** ** Relational reasoning about computations on a peer                *)
(* ------------------------------------------------------------------ *)

(** Every run of [m] that does not panic takes the peer along [R]. *)
Definition moves {A} (R : Peer -> Peer -> Prop) (m : PeerM A) : Prop :=
  forall p r a p' r', m p r = Some (a, p', r') -> R p p'.

Section Moves.
Context (R : Peer -> Peer -> Prop) `{!PreOrder R}.

Lemma moves_ret {A} (a : A) : moves R (mret a).
Proof. by intros p r b p' r' [= <- <- <-]. Qed.
Lemma moves_bind {A B} (m : PeerM A) (f : A -> PeerM B) :
  moves R m -> (forall a, moves R (f a)) -> moves R (m ≫= f).
Proof.
  intros Hm Hf p r b p' r'. unfold mbind, PeerM_bind.
  destruct (m p r) as [[[a p1] r1]|] eqn:E; [|done]. intros E'.
  transitivity p1; [by eapply Hm|by eapply Hf].
Qed.
Lemma moves_gets {A} (f : Peer -> A) : moves R (gets f).
Proof. by intros p r b p' r' [= <- <- <-]. Qed.
Lemma moves_modify f : (forall p, R p (f p)) -> moves R (modify f).
Proof. intros H p r b p' r' [= <- <- <-]. apply H. Qed.
Lemma moves_may_panic {A} (f : Peer -> option A) : moves R (may_panic f).
Proof. intros p r b p' r'. unfold may_panic. case_match; [|done]. by intros [= <- <- <-]. Qed.
Lemma moves_updating {A} (f : Peer -> A * Peer) : (forall p, R p (f p).2) -> moves R (updating f).
Proof.
  intros H p r b p' r'. unfold updating. specialize (H p). destruct (f p). by intros [= <- <- <-].
Qed.
Lemma moves_drawing {A} (f : Rng -> A * Rng) : moves R (drawing f).
Proof. intros p r b p' r'. unfold drawing. destruct (f r). by intros [= <- <- <-]. Qed.
Lemma moves_for_each {A} (f : A -> PeerM unit) l : (forall x, moves R (f x)) -> moves R (for_each f l).
Proof.
  intros H. induction l as [|x l IH]; cbn [for_each]; [apply moves_ret|].
  apply moves_bind; [apply H|done].
Qed.
(** A computation that is a pure update in disguise. *)
Lemma moves_if {A} (b : bool) (m1 m2 : PeerM A) :
  moves R m1 -> moves R m2 -> moves R (if b then m1 else m2).
Proof. by destruct b. Qed.
End Moves.

(** Walks through a computation; leaves the updates of the peer that [done] does not settle. *)
Ltac moves_step :=
  lazymatch goal with
  | |- moves ?R (mbind _ _) => apply (moves_bind R); [|intros ?]
  | |- moves ?R (mret _) => apply (moves_ret R)
  | |- moves ?R (gets _) => apply (moves_gets R)
  | |- moves ?R (may_panic _) => apply (moves_may_panic R)
  | |- moves ?R (drawing _) => apply (moves_drawing R)
  | |- moves _ (modify _) => apply moves_modify; intros ?
  | |- moves _ (updating _) => apply moves_updating; intros ?
  | |- moves ?R (for_each _ _) => apply (moves_for_each R); intros ?
  | |- moves _ (if ?b then _ else _) => destruct b
  | |- moves _ (match ?x with _ => _ end) => destruct x
  | |- moves _ (let '_ := ?x in _) => destruct x
  end.
Ltac moves_tac := cbv zeta; repeat (moves_step; cbv zeta).

(* ------------------------------------------------------------------ *)
(** ** The connection state machine                                     *)
(* ------------------------------------------------------------------ *)

(** The specification: which state may follow which, with and without the handshake. *)
Inductive transition (handshake : bool) : PeerState -> PeerState -> Prop :=
| tr_initiate : transition handshake Idle Connecting
| tr_accept : transition handshake Idle AcknowledgingConnect
| tr_verified : transition handshake Connecting ConnectionSucceeded
| tr_acknowledged : transition handshake AcknowledgingConnect Connected
| tr_confirmed : transition handshake ConnectionSucceeded Connected
| tr_heard_idle : handshake = false -> transition handshake Idle Connected
| tr_heard : handshake = false -> transition handshake Connecting Connected
| tr_disconnect s : PeerState_is_disconnecting s = false -> transition handshake s Disconnecting
| tr_zombie s : transition handshake s Zombie.

(** What no operation of a session changes, and how it may change the state. *)
Record lives (p p' : Peer) : Prop := {
  lv_address : p_remote_address p' = p_remote_address p;
  lv_session : p_outgoing_session_id p' = p_outgoing_session_id p;
  lv_handshake : use_connection_handshake (p_config p') = use_connection_handshake (p_config p);
  lv_sent : p_last_sent p' = p_last_sent p;
  lv_state : rtc (transition (use_connection_handshake (p_config p))) (p_state p) (p_state p')
}.

#[export] Instance lives_preorder : PreOrder lives.
Proof.
  split.
  - intros p. by split.
  - intros p p1 p2 [A1 B1 C1 S1 D1] [A2 B2 C2 S2 D2]. split; try congruence.
    rewrite C1 in D2. by transitivity (p_state p1).
Qed.

(** Most operations do not touch the connection at all. *)
Record calm (p p' : Peer) : Prop := {
  cm_address : p_remote_address p' = p_remote_address p;
  cm_session : p_outgoing_session_id p' = p_outgoing_session_id p;
  cm_handshake : use_connection_handshake (p_config p') = use_connection_handshake (p_config p);
  cm_state : p_state p' = p_state p;
  cm_heard : p_last_heard p' = p_last_heard p;
  cm_sent : p_last_sent p' = p_last_sent p
}.

#[export] Instance calm_preorder : PreOrder calm.
Proof. split; [by intros p|]. intros p p1 p2 [] []. split; congruence. Qed.

Lemma calm_lives p p' : calm p p' -> lives p p'.
Proof. intros [H1 H2 H3 H4 _ H5]. split; [done..|]. by rewrite H4. Qed.

Lemma moves_calm_lives {A} (m : PeerM A) : moves calm m -> moves lives m.
Proof. intros H p r a p' r' E. by eapply calm_lives, H. Qed.

Lemma lives_step p p' : p_remote_address p' = p_remote_address p ->
  p_outgoing_session_id p' = p_outgoing_session_id p ->
  use_connection_handshake (p_config p') = use_connection_handshake (p_config p) ->
  p_last_sent p' = p_last_sent p ->
  transition (use_connection_handshake (p_config p)) (p_state p) (p_state p') -> lives p p'.
Proof. intros H1 H2 H3 H4 H5. split; [done..|]. by apply rtc_once. Qed.

Ltac calm_done := first [by constructor | by repeat case_match].
Ltac calm_tac := moves_tac; try calm_done.

Lemma enqueue_command_calm c : moves calm (Peer_enqueue_command c).
Proof. unfold Peer_enqueue_command. calm_tac. Qed.
Lemma enqueue_ack_calm t : moves calm (Peer_enqueue_ack_command t).
Proof. unfold Peer_enqueue_ack_command. calm_tac. apply enqueue_command_calm. Qed.
Lemma acknowledge_calm a b c t : moves calm (acknowledge a b c t).
Proof. unfold acknowledge. calm_tac. Qed.
Lemma with_channel_calm {A} ch (f : ChannelState -> A * ChannelState) :
  moves calm (with_channel ch f).
Proof. unfold with_channel. calm_tac. Qed.
Lemma add_to_fragments_calm ch s o i n d t : moves calm (add_to_fragments ch s o i n d t).
Proof. unfold add_to_fragments. calm_tac. Qed.

Create HintDb calm discriminated.
#[export] Hint Resolve enqueue_command_calm enqueue_ack_calm acknowledge_calm
  with_channel_calm add_to_fragments_calm : calm.
Ltac calm_auto := calm_tac; eauto with calm.

Lemma set_window_size_calm w : moves calm (Peer_set_window_size w).
Proof. unfold Peer_set_window_size. calm_auto. Qed.

Lemma process_send_reliable_calm ch s o d t : moves calm (process_send_reliable ch s o d t).
Proof. unfold process_send_reliable, one_packet. calm_auto. Qed.
Lemma process_sequenced_calm ch s d : moves calm (process_send_unreliable_sequenced ch s d).
Proof. unfold process_send_unreliable_sequenced, one_packet, no_packets. calm_auto. Qed.
Lemma process_unsequenced_calm ch g d : moves calm (process_send_unsequenced ch g d).
Proof. unfold process_send_unsequenced, one_packet, no_packets. calm_auto. Qed.
Lemma process_fragment_calm ch s o i n d t : moves calm (process_send_fragment ch s o i n d t).
Proof. unfold process_send_fragment, one_packet, no_packets. calm_auto. Qed.
Lemma process_unreliable_fragment_calm ch s i n d t :
  moves calm (process_send_unreliable_fragment ch s i n d t).
Proof. unfold process_send_unreliable_fragment, one_packet, no_packets. calm_auto. Qed.
#[export] Hint Resolve set_window_size_calm process_send_reliable_calm process_sequenced_calm
  process_unsequenced_calm process_fragment_calm process_unreliable_fragment_calm : calm.

(** The handshake commands, run out. *)
Lemma process_connect_run ch sid cid p r :
  process_connect ch sid cid p r =
  if decide (p_state p = Idle) then
    let '(peer_id, r') := random_u16 r in
    let p1 := set_state AcknowledgingConnect (set_connect_id cid (set_peer_id peer_id
                (set_incoming_session_id sid p))) in
    Some (Ok IncomingPackets_zero,
          queue_push (VerifyConnect peer_id (Z.min ch (channel_count (p_config p))) 1400 sid
                        (p_outgoing_session_id p) (Peer_window_size p)) p1, r')
  else Some (Ok IncomingPackets_zero, p, r).
Proof.
  unfold process_connect. erewrite bind_run by reflexivity. by destruct (decide (p_state p = Idle)) as [->|Hn];
    [|rewrite bool_decide_eq_false_2].
Qed.

Lemma process_connect_lives ch sid cid : moves lives (process_connect ch sid cid).
Proof.
  intros p r a p' r'. rewrite process_connect_run.
  destruct (decide (p_state p = Idle)) as [E|]; [|by intros [= <- <- <-]].
  unfold random_u16, draw. intros [= <- <- <-]. apply lives_step; try done. cbn. rewrite E. constructor.
Qed.

Lemma process_verify_connect_lives pid i o w : moves lives (process_verify_connect pid i o w).
Proof.
  intros p r a p' r'. unfold process_verify_connect. erewrite bind_run by reflexivity.
  case_bool_decide as Es; [|by intros [= <- <- <-]].
  erewrite bind_run by reflexivity. set (p1 := set_incoming_session_id i (set_peer_id pid p)).
  erewrite bind_run by reflexivity. intros H.
  apply bind_inv in H as ([] & p2 & r2 & E2 & H).
  assert (calm p1 p2) as L2.
  { revert E2. generalize p1 p2. clear. intros p p' E.
    refine ((_ : moves calm _) _ _ _ _ _ E). clear. calm_auto. }
  assert (calm p p2) as L by (transitivity p1; [calm_done|done]).
  erewrite bind_run in H by reflexivity. destruct (negb _).
  { injection H as <- <- <-. by apply calm_lives. }
  injection H as <- <- <-. destruct L as [A B C D _ S]. apply lives_step; [done..|].
  cbn. rewrite Es. constructor.
Qed.

Create HintDb lives discriminated.
#[export] Hint Resolve process_connect_lives process_verify_connect_lives : lives.
#[export] Hint Extern 5 (moves lives _) => apply moves_calm_lives; solve [eauto with calm] : lives.
#[export] Hint Extern 5 (lives _ _) => solve [by split | apply calm_lives; calm_done] : lives.
Ltac lives_auto := moves_tac; eauto with lives.

Lemma process_command_lives c t : moves lives (Peer_process_command c t).
Proof.
  unfold Peer_process_command, one_packet, no_packets, Peer_enqueue_pong_command. lives_auto.
  apply lives_step; try done. constructor.
Qed.

(** Only the handshake and [Disconnect] commands touch the connection. *)
Definition is_control (c : ProtocolCommand) : bool :=
  match c with Connect _ _ _ _ _ | VerifyConnect _ _ _ _ _ _ | Disconnect _ => true | _ => false end.

Lemma process_command_calm c t p r a p' r' : is_control c = false ->
  Peer_process_command c t p r = Some (a, p', r') -> calm (set_last_heard t p) p'.
Proof.
  intros Hc. unfold Peer_process_command. erewrite bind_run by reflexivity. intros E.
  refine ((_ : moves calm _) _ _ _ _ _ E). clear - Hc.
  unfold one_packet, no_packets, Peer_enqueue_pong_command. destruct c; try done; calm_auto.
Qed.
#[export] Hint Resolve process_command_lives : lives.

(** Every command is noted as a sign of life. *)
Definition same_heard (p p' : Peer) : Prop := p_last_heard p' = p_last_heard p.
#[export] Instance same_heard_preorder : PreOrder same_heard.
Proof. split; [done|]. intros p p1 p2. unfold same_heard. congruence. Qed.
Lemma moves_calm_heard {A} (m : PeerM A) : moves calm m -> moves same_heard m.
Proof. intros Hm p r a p' r' E. by eapply cm_heard, Hm. Qed.
Lemma process_verify_connect_heard pid i o w : moves same_heard (process_verify_connect pid i o w).
Proof.
  unfold process_verify_connect, no_packets. moves_tac; try done.
  apply moves_calm_heard, set_window_size_calm.
Qed.
Lemma process_command_heard c t p r a p' r' :
  Peer_process_command c t p r = Some (a, p', r') -> p_last_heard p' = t.
Proof.
  destruct (is_control c) eqn:Hc; [|by intros H%process_command_calm; [destruct H|]].
  destruct c; try done; unfold Peer_process_command; erewrite bind_run by reflexivity.
  - rewrite process_connect_run. destruct (decide _); [|by intros [= <- <- <-]].
    unfold random_u16, draw. by intros [= <- <- <-].
  - by intros ->%process_verify_connect_heard.
  - erewrite bind_run by reflexivity. by intros [= <- <- <-].
Qed.

Section Sessions.
Context {X : Externs}.

Lemma process_commands_lives cs t acc : moves lives (process_commands cs t acc).
Proof.
  revert acc. induction cs as [|c cs IH]; intros acc; cbn [process_commands]; lives_auto.
Qed.
Lemma process_command_packet_lives data t : moves lives (Peer_process_command_packet data t).
Proof.
  unfold Peer_process_command_packet, Peer_record_data_received, Peer_record_packet_received.
  lives_auto. apply process_commands_lives.
Qed.

Lemma record_send_lives p : lives p (Peer_record_send p).2.
Proof.
  pose proof (record_send_state p) as Hs. unfold Peer_record_send, Peer_initiate_connect in *.
  destruct (p_state p) eqn:E; try done.
  - apply lives_step.
    1-4: by repeat case_match.
    rewrite Hs, E. constructor.
  - apply lives_step; try done. rewrite Hs, E. constructor.
Qed.
Lemma record_recv_lives p : lives p (Peer_record_recv p).2.
Proof.
  pose proof (record_recv_state p) as Hs. unfold Peer_record_recv in *.
  destruct (p_state p) eqn:E; try done.
  1,2: destruct (use_connection_handshake (p_config p)) eqn:Eh; [done|];
    apply lives_step; try done; rewrite Hs, E, Eh; by constructor.
  apply lives_step; try done. rewrite Hs, E. constructor.
Qed.
Lemma disconnect_lives p : lives p (Peer_disconnect p).
Proof.
  unfold Peer_disconnect. destruct (PeerState_is_disconnecting (p_state p)) eqn:E; [done|].
  apply lives_step; try done. by apply tr_disconnect.
Qed.

Lemma seal_packet_calm packet : moves calm (Peer_seal_packet packet).
Proof. unfold Peer_seal_packet, Peer_record_packet_sent, Peer_record_data_sent. calm_auto. Qed.
Hint Resolve seal_packet_calm : calm.
Lemma encode_bounded_calm n t : moves calm (Peer_encode_queued_commands_bounded n t).
Proof. unfold Peer_encode_queued_commands_bounded, Peer_drain_commands. calm_auto. Qed.
Hint Resolve encode_bounded_calm : calm.
Lemma flush_calm n t acts : moves calm (flush_commands n t acts).
Proof. revert acts. induction n as [|n IH]; intros acts; cbn [flush_commands]; calm_auto. Qed.
Hint Resolve flush_calm : calm.
Lemma enqueue_unsequenced_calm n ch b m off : moves calm (enqueue_unsequenced n ch b m off).
Proof.
  revert off. induction n as [|n IH]; intros off; cbn [enqueue_unsequenced];
    unfold Peer_next_unsequenced_group; calm_auto.
Qed.
Lemma enqueue_reliable_calm ch d o : moves calm (Peer_enqueue_reliable_data ch d o).
Proof. unfold Peer_enqueue_reliable_data. calm_auto. Qed.
Lemma enqueue_unreliable_calm ch d : moves calm (Peer_enqueue_unreliable_data ch d).
Proof. unfold Peer_enqueue_unreliable_data. calm_auto. Qed.
Hint Resolve enqueue_unsequenced_calm enqueue_reliable_calm enqueue_unreliable_calm : calm.

(** A user event is one [record_send] and nothing else that touches the connection. *)
Lemma process_event_state ev t p r a p' r' : Peer_process_event ev t p r = Some (a, p', r') ->
  calm (Peer_record_send p).2 p'.
Proof.
  unfold Peer_process_event. intros (b & p1 & r1 & E & H)%bind_inv.
  assert (p1 = (Peer_record_send p).2) as <-.
  { unfold updating in E. destruct (Peer_record_send p). by injection E as <- <- <-. }
  revert H. clear. intros H.
  refine ((_ : moves calm _) _ _ _ _ _ H). clear. unfold Peer_flush. calm_auto.
Qed.

Lemma update_calm clock t : moves calm (Peer_update clock t).
Proof.
  unfold Peer_update, Peer_flush, Peer_handle_pmtu, Peer_enqueue_ping_command,
    Peer_update_bandwidth_window. calm_auto.
Qed.
Lemma process_packet_lives data t : moves lives (Peer_process_packet data t).
Proof.
  unfold Peer_process_packet, Peer_update_bandwidth_window. lives_auto.
  - apply process_command_packet_lives.
  - apply record_recv_lives.
Qed.
End Sessions.

(* ------------------------------------------------------------------ *)
(** ** Life of a session                                                *)
(* ------------------------------------------------------------------ *)

(** One call of the session manager, or of [Host::disconnect], on a peer. *)
Inductive session_step `{Externs} : Peer -> Peer -> Prop :=
| st_packet data t p r a p' r' : Peer_process_packet data t p r = Some (a, p', r') -> session_step p p'
| st_event ev t p r a p' r' : Peer_process_event ev t p r = Some (a, p', r') -> session_step p p'
| st_update c t p r a p' r' : Peer_update c t p r = Some (a, p', r') -> session_step p p'
| st_disconnect p : session_step p (Peer_disconnect p).

Lemma session_step_lives `{Externs} p p' : session_step p p' -> lives p p'.
Proof.
  intros [?????? ? E|?????? ? E|?????? ? E|].
  - by eapply process_packet_lives.
  - transitivity (Peer_record_send p0).2; [apply record_send_lives|].
    apply calm_lives. by eapply process_event_state.
  - apply calm_lives. by eapply update_calm.
  - apply disconnect_lives.
Qed.

Lemma transitions_disconnecting h s s' : rtc (transition h) s s' ->
  PeerState_is_disconnecting s = true -> PeerState_is_disconnecting s' = true.
Proof. induction 1 as [|x y z Hxy _ IH]; [done|]. intros Hx. apply IH. by destruct Hxy. Qed.

Lemma transitions_established h s s' : rtc (transition h) s s' ->
  PeerState_is_established s = true ->
  PeerState_is_established s' = true \/ PeerState_is_disconnecting s' = true.
Proof.
  induction 1 as [|x y z Hxy Hyz IH]; [by left|]. intros Hx.
  destruct (PeerState_is_established y) eqn:E; [by apply IH|].
  right. eapply transitions_disconnecting; [exact Hyz|]. by destruct Hxy.
Qed.

Lemma transitions_idle h s : rtc (transition h) s Idle -> s = Idle.
Proof.
  intros H. remember Idle as z. induction H as [|x y z Hxy _ IH]; [done|].
  subst. specialize (IH eq_refl). subst. inversion Hxy.
Qed.

(** C13: The life of a session.  Whatever datagrams, user events, timer updates and disconnects
    reach a peer, in any order, its state follows the connection state machine: it never
    returns to [Idle], an established peer stays established until it disconnects,
    disconnecting is final, and the address and the session identifier never change. *)
Theorem session_lifecycle `{Externs} p p' (Hsteps : rtc session_step p p') :
  rtc (transition (use_connection_handshake (p_config p))) (p_state p) (p_state p') /\
  (p_state p' = Idle -> p_state p = Idle) /\
  (Peer_is_established p = true ->
     Peer_is_established p' = true \/ PeerState_is_disconnecting (p_state p') = true) /\
  (PeerState_is_disconnecting (p_state p) = true ->
     PeerState_is_disconnecting (p_state p') = true) /\
  p_remote_address p' = p_remote_address p /\
  p_outgoing_session_id p' = p_outgoing_session_id p.
Proof.
  assert (lives p p') as [HA HB _ _ HD].
  { induction Hsteps as [|x y z Hxy _ IH]; [done|].
    transitivity y; [by apply session_step_lives|done]. }
  split; [done|]. split; [intros E; rewrite E in HD; by eapply transitions_idle|].
  split; [by eapply transitions_established|]. split; [by eapply transitions_disconnecting|done].
Qed.

(* ------------------------------------------------------------------ *)
(** ** The handshake                                                    *)
(* ------------------------------------------------------------------ *)

(** The [Connect] of a client and the [VerifyConnect] a server answers it with. *)
Definition connect_command (c : Peer) : ProtocolCommand :=
  Connect (channel_count (p_config c)) 1400 1 (p_outgoing_session_id c) (p_connect_id c).
Definition verify_command (peer_id : Z) (c s : Peer) : ProtocolCommand :=
  VerifyConnect peer_id (Z.min (channel_count (p_config c)) (channel_count (p_config s))) 1400
    (p_outgoing_session_id c) (p_outgoing_session_id s) (Peer_window_size s).

Lemma set_window_size_run w p r : min_window_size (p_config p) <= max_window_size (p_config p) ->
  exists f, Peer_set_window_size w p r = Some (tt, set_flow_control f p, r).
Proof.
  intros Hm. destruct (set_window_size_in (p_config p) w (p_flow_control p) Hm) as (f & E & _).
  exists f. unfold Peer_set_window_size. erewrite bind_run; [reflexivity|].
  unfold may_panic. by rewrite E.
Qed.

(** What the client makes of a [VerifyConnect]. *)
Lemma process_verify_connect_run pid i o w p r : p_state p = Connecting ->
  (use_window_flow_control (p_config p) = true ->
   min_window_size (p_config p) <= max_window_size (p_config p)) ->
  exists f, let p1 := set_flow_control f (set_incoming_session_id i (set_peer_id pid p)) in
    process_verify_connect pid i o w p r =
      if o =? p_outgoing_session_id p
      then Some (Ok IncomingPackets_zero, set_state ConnectionSucceeded p1, r)
      else Some (Err (CouldNotReadHeader "Session ID mismatch"), p1, r).
Proof.
  intros Hs Hw. unfold process_verify_connect. erewrite bind_run by reflexivity.
  rewrite bool_decide_eq_true_2 by done. do 2 erewrite bind_run by reflexivity.
  set (p0 := set_incoming_session_id i (set_peer_id pid p)).
  assert (exists f, (if use_window_flow_control (p_config p0)
     then own ← gets Peer_window_size; Peer_set_window_size (Z.min w own) else mret tt) p0 r
     = Some (tt, set_flow_control f p0, r)) as [f Ef].
  { change (p_config p0) with (p_config p). destruct (use_window_flow_control (p_config p)).
    - erewrite bind_run by reflexivity. apply set_window_size_run. by apply Hw.
    - exists (p_flow_control p0). by destruct p0. }
  exists f. erewrite bind_run by exact Ef. erewrite bind_run by reflexivity.
  change (p_outgoing_session_id (set_flow_control f p0)) with (p_outgoing_session_id p).
  by destruct (o =? p_outgoing_session_id p).
Qed.

(** C25: The handshake.  A server in [Idle] answers the client's [Connect] by adopting the
    client's identifiers and queueing one [VerifyConnect]; the client accepts that answer only
    if the server happened to draw the same session identifier as the client, and otherwise
    fails with a mismatch and stays [Connecting]. *)
Theorem handshake_outcome c s t r
  (Hc : p_state c = Connecting) (Hs : p_state s = Idle)
  (Hw : use_window_flow_control (p_config c) = true ->
        min_window_size (p_config c) <= max_window_size (p_config c)) :
  exists s' peer_id r' c',
    Peer_process_command (connect_command c) t s r = Some (Ok IncomingPackets_zero, s', r') /\
    p_state s' = AcknowledgingConnect /\
    p_incoming_session_id s' = p_outgoing_session_id c /\ p_connect_id s' = p_connect_id c /\
    queue s' = queue s ++ [verify_command peer_id c s] /\
    Peer_process_command (verify_command peer_id c s) t c r' =
      Some (if p_outgoing_session_id s =? p_outgoing_session_id c then Ok IncomingPackets_zero
            else Err (CouldNotReadHeader "Session ID mismatch"), c', r') /\
    p_state c' = (if p_outgoing_session_id s =? p_outgoing_session_id c
                  then ConnectionSucceeded else Connecting).
Proof.
  unfold Peer_process_command, connect_command, verify_command.
  destruct (random_u16 r) as [peer_id r'] eqn:Er.
  destruct (process_verify_connect_run peer_id (p_outgoing_session_id c)
    (p_outgoing_session_id s) (Peer_window_size s) (set_last_heard t c) r' Hc Hw) as (f & Ef).
  eexists _, peer_id, r', _.
  split; [erewrite bind_run by reflexivity; rewrite process_connect_run, decide_True by done;
    rewrite Er; reflexivity|].
  do 4 (split; [done|]). split.
  - erewrite bind_run by reflexivity. cbv zeta in Ef. rewrite Ef. cbn [p_outgoing_session_id set_last_heard].
    instantiate (1 := if p_outgoing_session_id s =? p_outgoing_session_id c then _ else _).
    by destruct (_ =? _).
  - by destruct (_ =? _).
Qed.

Definition client_peer : Peer := (Peer_record_send sample_peer).2.
Definition server_peer : Peer :=
  (Peer_new (mkSocketAddr (IpV4 2130706433) 9000) Config_default 0 (fun n => Z.of_nat n * 31 + 5)).1.

Lemma session_lifecycle_witness :
  Peer_is_established (Peer_disconnect (set_state Connected sample_peer)) = true \/
  PeerState_is_disconnecting (p_state (Peer_disconnect (set_state Connected sample_peer))) = true.
Proof.
  destruct (@session_lifecycle Sample.externs (set_state Connected sample_peer)
    (Peer_disconnect (set_state Connected sample_peer))) as (_ & _ & H & _).
  - apply rtc_once, st_disconnect.
  - exact (H eq_refl).
Defined.

Lemma handshake_outcome_witness :
  exists s' r' c', Peer_process_command (connect_command client_peer) 3 server_peer sample_rng
    = Some (Ok IncomingPackets_zero, s', r') /\
  (exists peer_id, Peer_process_command (verify_command peer_id client_peer server_peer) 3 client_peer r'
    = Some (Err (CouldNotReadHeader "Session ID mismatch"), c', r')) /\ p_state c' = Connecting.
Proof.
  destruct (handshake_outcome client_peer server_peer 3 sample_rng) as
    (s' & pid & r' & c' & E & _ & _ & _ & _ & E' & Hc).
  - reflexivity.
  - reflexivity.
  - intros H. discriminate H.
  - exists s', r', c'. split; [exact E|]. split; [exists pid; exact E'|exact Hc].
Defined.
