(* ===== verification/Parcels.v ===== *)
(** From peer to peer by way of datagrams: a receiver is handed whatever the network makes of the
    datagrams of a message, and follows an abstract receiver of the message's commands. *)

From S2P Require Import Prelude Core Externs Buffers Packet Command Codec CodecFacts Framing.
From S2P Require Import SequenceBuffer Ack Bandwidth FragmentBuffer PeerParts.
From S2P Require Import Peer PeerFacts Fragmenter FragmenterFacts PeerEncoder CommandProcessor.
From S2P Require Import Session PeerSession EncoderFacts ProcessorFacts.

Section Receive.
Context {X : Externs}.

(** Datagrams handed to [process_packet] one after the other. *)
Fixpoint receive_datagrams (dgs : list (list Z)) (t : Instant) : PeerM Actions :=
  match dgs with
  | [] => mret []
  | dg :: dgs =>
      a ← Peer_process_packet dg t;
      b ← receive_datagrams dgs t;
      mret (a ++ b)
  end.

(** The same, each datagram at a time of its own. *)
Fixpoint receive_arrivals (arrivals : list (Instant * list Z)) : PeerM Actions :=
  match arrivals with
  | [] => mret []
  | (t, dg) :: arrivals =>
      a ← Peer_process_packet dg t;
      b ← receive_arrivals arrivals;
      mret (a ++ b)
  end.

Lemma receive_datagrams_arrivals dgs t : forall q r,
  receive_datagrams dgs t q r = receive_arrivals ((t,.) <$> dgs) q r.
Proof.
  induction dgs as [|dg dgs IH]; intros q r; cbn [receive_datagrams fmap list_fmap receive_arrivals]; [done|].
  unfold mbind, PeerM_bind. destruct (Peer_process_packet dg t q r) as [[[a q1] r1]|]; [|done].
  by rewrite IH.
Qed.

(** The statistics can count [n] more incoming datagrams of up to 1537 bytes, and the incoming limit
    lets them in. *)
Record recv_room (n : Z) (p : Peer) : Prop := {
  rr_packets : 0 <= packets_received (p_statistics p) /\
               packets_received (p_statistics p) + n <= u64_max;
  rr_bytes : 0 <= bytes_received (p_statistics p) /\
             bytes_received (p_statistics p) + n * 1537 <= u64_max;
  rr_window : spare (bt_incoming_bandwidth_limit (p_bandwidth_throttle p))
                (bt_bytes_received_this_window (p_bandwidth_throttle p)) n
}.

Lemma recv_room_weaken k n p : k <= n -> recv_room n p -> recv_room k p.
Proof. intros Hk [H1 H2 H3]. split; [lia|lia|by eapply spare_less]. Qed.

(** The bytes that came in in the current window, when it began, and the books after [k] incoming
    datagrams. *)
Definition window_received (p : Peer) : Z := bt_bytes_received_this_window (p_bandwidth_throttle p).
Definition window_start (p : Peer) : Instant := bt_bandwidth_window_start (p_bandwidth_throttle p).
Record heard (k : Z) (q q' : Peer) : Prop := {
  hd_packets : packets_received (p_statistics q') = packets_received (p_statistics q) + k;
  hd_bytes : bytes_received (p_statistics q) <= bytes_received (p_statistics q')
             <= bytes_received (p_statistics q) + k * 1537;
  hd_sent : packets_sent (p_statistics q') = packets_sent (p_statistics q) /\
            bytes_sent (p_statistics q') = bytes_sent (p_statistics q);
  hd_limits : bt_incoming_bandwidth_limit (p_bandwidth_throttle q')
                = bt_incoming_bandwidth_limit (p_bandwidth_throttle q) /\
              bt_outgoing_bandwidth_limit (p_bandwidth_throttle q')
                = bt_outgoing_bandwidth_limit (p_bandwidth_throttle q);
  hd_window : 0 <= window_received q -> 0 <= window_received q' <= window_received q + k * 1537;
  hd_outgoing : 0 <= window_sent q -> 0 <= window_sent q' <= window_sent q;
  hd_start : window_start q' = window_start q \/
             0 <= window_received q' <= k * 1537 /\ window_sent q' = 0
}.
Lemma heard_none q q' : p_statistics q' = p_statistics q ->
  p_bandwidth_throttle q' = p_bandwidth_throttle q -> heard 0 q q'.
Proof.
  intros E1 E2. split; unfold window_received, window_sent, window_start; rewrite ?E1, ?E2; lia || auto.
Qed.
Lemma heard_trans j k q q1 q2 : heard j q q1 -> heard k q1 q2 -> heard (j + k) q q2.
Proof.
  intros [H1 H2 [H3 H4] [H5 H6] H7 H8 H9] [J1 J2 [J3 J4] [J5 J6] J7 J8 J9].
  split; try lia; split; congruence.
Qed.
Lemma heard_room n k p p' : 0 <= k -> heard k p p' -> recv_room (n + k) p -> recv_room n p'.
Proof.
  intros Hk [Hp Hb _ [El _] Hw _ _] [H1 H2 H3]. split; [lia|lia|]. rewrite El. by eapply spare_after.
Qed.
(** What the statistics can still count, and what the limits of both directions still let through. *)
Definition counters_room (n : Z) (p : Peer) : Prop :=
  (0 <= packets_received (p_statistics p) /\ packets_received (p_statistics p) + n <= u64_max) /\
  (0 <= bytes_received (p_statistics p) /\ bytes_received (p_statistics p) + n * 1537 <= u64_max).
Definition limits (p : Peer) : Z * Z :=
  (bt_outgoing_bandwidth_limit (p_bandwidth_throttle p), bt_incoming_bandwidth_limit (p_bandwidth_throttle p)).
Definition windows (n : Z) (p : Peer) : Prop :=
  outgoing n p /\ spare (limits p).2 (window_received p) n.
(** What a new window lets through under the limits of [c]. *)
Definition allowed (c : Config) (n : Z) : Prop :=
  spare (outgoing_bandwidth_limit c) 0 n /\ spare (incoming_bandwidth_limit c) 0 n.

Lemma counters_less n m p : m <= n -> counters_room n p -> counters_room m p.
Proof. unfold counters_room. lia. Qed.
Lemma windows_less n m p : m <= n -> windows n p -> windows m p.
Proof. intros Hm [H1 H2]. split; by eapply spare_less. Qed.
Lemma allowed_less c n m : m <= n -> allowed c n -> allowed c m.
Proof. intros Hm [H1 H2]. split; by eapply spare_less. Qed.
Lemma room_of n m p : n <= m -> counters_room m p -> windows n p -> recv_room n p.
Proof. intros Hn [H1 H2] [_ H3]. split; [lia|lia|exact H3]. Qed.
Lemma heard_counters n k p p' : heard k p p' -> counters_room (n + k) p -> counters_room n p'.
Proof. intros [Hp Hb _ _ _ _ _]. unfold counters_room. lia. Qed.
Lemma heard_limits k p p' : heard k p p' -> limits p' = limits p.
Proof. intros [_ _ _ [E1 E2] _ _ _]. unfold limits. by rewrite E1, E2. Qed.
Lemma heard_windows n k p p' : 0 <= k -> heard k p p' -> windows (n + k) p -> windows n p'.
Proof.
  intros Hk Hh [H1 H2]. pose proof (heard_limits _ _ _ Hh) as El. pose proof Hh as [_ _ _ _ Hr Hs _].
  unfold windows, outgoing in *. change (bt_outgoing_bandwidth_limit (p_bandwidth_throttle p')) with (limits p').1.
  rewrite El. split; eapply spare_after; try done. intros H0. specialize (Hs H0). lia.
Qed.
(** The current window has seen [n] datagrams at most, in either direction. *)
Definition used (n : Z) (p : Peer) : Prop :=
  0 <= window_sent p <= n * 1537 /\ 0 <= window_received p <= n * 1537.
Lemma used_less n m p : n <= m -> used n p -> used m p.
Proof. unfold used. lia. Qed.
Lemma used_windows c n m p : used n p ->
  limits p = (outgoing_bandwidth_limit c, incoming_bandwidth_limit c) -> allowed c (n + m) -> windows m p.
Proof.
  intros [Hs Hr] [= E1 E2] [[_ H1] [_ H2]]. unfold windows, outgoing, limits. cbn [snd]. rewrite E1, E2.
  split; (split; [lia|]); [destruct H1 as [H|H]|destruct H2 as [H|H]]; (by left) || (right; lia).
Qed.
Lemma heard_used n k p p' : heard k p p' -> used n p -> used (n + k) p'.
Proof.
  intros [_ [Hb Hb'] _ _ Hr Hs _] [H1 H2]. specialize (Hr ltac:(lia)). specialize (Hs ltac:(lia)).
  unfold used. lia.
Qed.
(** A window that was renewed on the way has seen only what came in since. *)
Lemma heard_anew k p p' : heard k p p' -> window_start p' <> window_start p -> used k p'.
Proof. intros [_ [Hb Hb'] _ _ _ _ [E|[Hr Hs]]] Hne; [done|]. unfold used. lia. Qed.
(** Hearing takes nothing from what may still be sent. *)
Lemma heard_outgoing n k p p' : heard k p p' -> outgoing n p -> outgoing n p'.
Proof.
  intros [_ _ _ [_ El] _ Hw _] H. unfold outgoing. rewrite El. eapply (spare_after _ _ _ _ 0); [done| |].
  - rewrite Z.add_0_r. exact H.
  - intros H0. specialize (Hw H0). lia.
Qed.

Lemma open_nonempty b bytes now cp : open_datagram b bytes now = Ok cp -> bytes <> [].
Proof. intros H ->. by destruct b. Qed.

Lemma update_window_shape t q : exists b, (Peer_update_bandwidth_window t q).2 = set_bandwidth_throttle b q /\
  bt_incoming_bandwidth_limit b = bt_incoming_bandwidth_limit (p_bandwidth_throttle q) /\
  bt_outgoing_bandwidth_limit b = bt_outgoing_bandwidth_limit (p_bandwidth_throttle q) /\
  (b = p_bandwidth_throttle q \/ bt_bytes_sent_this_window b = 0 /\ bt_bytes_received_this_window b = 0).
Proof.
  unfold Peer_update_bandwidth_window, BandwidthThrottle_update_bandwidth_window.
  destruct (_ <=? _); eexists; (split; [reflexivity|]); (split; [reflexivity|]);
    (split; [reflexivity|]); [by right|by left].
Qed.
(** The renewal of the window. *)
Lemma update_window_heard t q : heard 0 q (Peer_update_bandwidth_window t q).2.
Proof.
  destruct (update_window_shape t q) as (b & -> & H1 & H2 & [-> | [H3 H4]]);
    split; unfold window_received, window_sent, window_start; cbn; rewrite ?H3, ?H4; lia || auto.
Qed.

(** The window is over at [t]; what may become of its start at [t]. *)
Definition window_over (t : Instant) (p : Peer) : bool :=
  BANDWIDTH_WINDOW <=? duration_since t (window_start p).
Definition renews (t : Instant) (p p' : Peer) : Prop :=
  window_start p' = window_start p \/ window_over t p = true /\ window_start p' = t.
#[export] Instance renews_preorder t : PreOrder (renews t).
Proof.
  split; [by left|]. intros p p1 p2 H1 H2. unfold renews, window_over in *.
  destruct H1 as [E1|[E1 E1']], H2 as [E2|[E2 E2']].
  - left. congruence.
  - right. by rewrite E1 in E2.
  - right. split; [done|congruence].
  - by right.
Qed.
Lemma update_window_start t q : window_start (Peer_update_bandwidth_window t q).2 =
  if window_over t q then t else window_start q.
Proof.
  unfold window_over, window_start, Peer_update_bandwidth_window, BandwidthThrottle_update_bandwidth_window.
  by destruct (_ <=? _).
Qed.
Lemma update_window_renews t q : renews t q (Peer_update_bandwidth_window t q).2.
Proof. unfold renews. rewrite update_window_start. destruct (window_over t q); auto. Qed.

Lemma update_window_used t q : window_over t q = true -> used 0 (Peer_update_bandwidth_window t q).2.
Proof.
  unfold window_over, window_start. intros Ho.
  unfold Peer_update_bandwidth_window, BandwidthThrottle_update_bandwidth_window. by rewrite Ho.
Qed.

(** The statistics after one more datagram. *)
Definition count_datagram (dg : list Z) (s : PeerStatistics) : PeerStatistics :=
  mkPeerStatistics (packets_sent s) (packets_received s + 1) (packets_lost s) (bytes_sent s)
    (bytes_received s + zlen dg).

Lemma process_command_packet_carried size dg cs t q r :
  carries (p_config q) size dg cs -> size <= 1537 ->
  0 <= packets_received (p_statistics q) /\ packets_received (p_statistics q) + 1 <= u64_max ->
  0 <= bytes_received (p_statistics q) /\ bytes_received (p_statistics q) + 1537 <= u64_max ->
  Peer_process_command_packet dg t q r =
    process_commands (command_reown <$> cs) t []
      (set_statistics (count_datagram dg (p_statistics q)) q) r.
Proof.
  intros [Hlen Hopen] Hsize Hp Hb. pose proof (zlen_nonneg dg).
  unfold Peer_process_command_packet. erewrite bind_run.
  2: { unfold Peer_record_data_received. erewrite bind_run; [reflexivity|].
       unfold may_panic, add_u64. rewrite checked_in by lia. done. }
  erewrite bind_run by reflexivity. cbn [p_config set_statistics]. rewrite Hopen.
  erewrite bind_run.
  2: { unfold Peer_record_packet_received. erewrite bind_run; [reflexivity|].
       unfold may_panic, add_u64. cbn [p_statistics set_statistics packets_received].
       rewrite checked_in by lia. done. }
  done.
Qed.

(** [process_packet] on a datagram that carries [cs] is the processing of [cs]. *)
Lemma process_packet_carried size dg cs t q r n :
  carries (p_config q) size dg cs -> size <= 1537 -> p_state q = Connected -> 1 <= n ->
  recv_room n q ->
  exists s b, let q1 := set_statistics s (set_bandwidth_throttle b q) in
    heard 1 q q1 /\ renews t q q1 /\
    forall pk q2 r2, process_commands (command_reown <$> cs) t [] q1 r = Some (Ok pk, q2, r2) ->
      p_state q2 = Connected ->
      Peer_process_packet dg t q r =
        Some ((fun incoming => Emit (EvPacket incoming.1)) <$> ZeroOrMore_collect pk, q2, r2).
Proof.
  intros Hdg Hsize Hst Hn Hroom. pose proof (update_window_heard t q) as H0.
  pose proof (update_window_renews t q) as Hren.
  destruct (update_window_shape t q) as (b0 & E0 & _). rewrite E0 in H0, Hren.
  set (q0 := set_bandwidth_throttle b0 q) in *.
  assert (recv_room n q0) as Hroom0 by (eapply (heard_room _ 0); [done|exact H0|by rewrite Z.add_0_r]).
  set (q1 := Peer_record_bytes_received (as_u32 (zlen dg)) q0).
  exists (count_datagram dg (p_statistics q)), (p_bandwidth_throttle q1). cbv zeta.
  split.
  { pose proof (zlen_nonneg dg). destruct Hdg. change 1 with (0 + 1). eapply heard_trans; [exact H0|].
    split; unfold window_received, window_sent, window_start; cbn; unfold saturating_add32, as_u32, u32_max;
      try done; [zmod..|by left]. }
  split; [exact Hren|]. intros pk q2 r2 Hrun Hst2. unfold Peer_process_packet.
  destruct Hdg as [Hlen Hopen]. pose proof (open_nonempty _ _ _ _ (Hopen t)).
  destruct dg as [|x dg]; [done|].
  erewrite bind_run.
  2: { unfold updating. rewrite (surjective_pairing (Peer_update_bandwidth_window t q)), E0.
       reflexivity. }
  erewrite bind_run by reflexivity.
  assert (Peer_can_receive_within_bandwidth q0 = true) as ->.
  { exact (spare_open _ _ n Hn (rr_window _ _ Hroom0)). }
  cbn [negb]. erewrite bind_run by reflexivity. fold q1.
  erewrite bind_run.
  2: { rewrite (process_command_packet_carried size _ cs t q1 r);
         [exact Hrun|by split|done|destruct Hroom as [H1 H2 _]; cbn; lia..]. }
  cbv beta iota. erewrite bind_run.
  2: { unfold updating, Peer_record_recv, Peer_is_established. rewrite Hst2. reflexivity. }
  by erewrite bind_run by reflexivity.
Qed.

(** What a receiver needs: [a] is the sender's address as it knows it. *)
Record ready (a : SocketAddr) (ck : bool) (q : Peer) : Prop := {
  rd_state : p_state q = Connected;
  rd_address : p_remote_address q = a;
  rd_checksums : use_checksums (p_config q) = ck;
  rd_queue : queue_ok q;
  rd_acks : (0 < length (sq_entry_sequences (ah_received_packets (p_acknowledge_handler q))))%nat
}.

Lemma ready_like a ck q q' : ready a ck q ->
  p_state q' = p_state q ->
  p_remote_address q' = p_remote_address q -> p_config q' = p_config q -> queue_ok q' ->
  p_acknowledge_handler q' = p_acknowledge_handler q -> ready a ck q'.
Proof.
  intros [H1 H3 H4 H5 H6] ??? ? Ha.
  split; [congruence|congruence|congruence|done|by rewrite Ha].
Qed.

Lemma queue_ok_like q q' : queue_ok q -> p_total_waiting_data q' = p_total_waiting_data q ->
  queue q' = queue q -> p_config q' = p_config q -> queue_ok q'.
Proof. intros [H1 H2 H3] E1 E2 E3. split; rewrite ?E1, ?E2, ?E3; done. Qed.

Lemma ready_books a ck q s b : ready a ck q ->
  ready a ck (set_statistics s (set_bandwidth_throttle b q)).
Proof. intros [H1 H3 H4 H5 H6]. split; [done|done|done|by eapply queue_ok_like|done]. Qed.

Lemma ready_heard a ck t q : ready a ck q -> ready a ck (set_last_heard t q).
Proof.
  intros Hr. eapply ready_like; [exact Hr|done..| |done]. eapply queue_ok_like; [apply Hr|done..].
Qed.
Lemma ready_fragments a ck m q : ready a ck q -> ready a ck (set_command_fragments m q).
Proof.
  intros Hr. eapply ready_like; [exact Hr|done..| |done]. eapply queue_ok_like; [apply Hr|done..].
Qed.

(** The payload a receiver reads from a command that carries a whole message. *)
Lemma received_payload data : SharedBytes_to_arc (reown (SharedBytes_from_arc data)) = data.
Proof.
  rewrite to_arc_as_slice. unfold reown. rewrite as_slice_from_vec.
  unfold SharedBytes_as_slice. simpl. by apply take_ge.
Qed.

(** Acknowledging takes a ready receiver to a ready one. *)
Lemma acknowledge_ready a ck s k f t q r : ready a ck q -> exists h,
  acknowledge s k f t q r = Some (tt, set_acknowledge_handler h q, r) /\
  ready a ck (set_acknowledge_handler h q) /\
  AcknowledgmentHandler_process_incoming s k f t (p_acknowledge_handler q) = Some h.
Proof.
  intros [H1 H3 H4 H5 H6].
  destruct (insert_total mkReceivedPacket _ s mkReceivedPacket H6) as (acc & b & Ei & Hl).
  destruct (process_incoming_received s k f t _ H6) as (acc' & b' & h & Ei' & E & Hb).
  rewrite Ei in Ei'. injection Ei' as <- <-. exists h. split.
  - unfold acknowledge. erewrite bind_run; [reflexivity|]. unfold may_panic. by rewrite E.
  - split; [|exact E]. split; [done|done|done|by eapply queue_ok_like|]. cbn. rewrite Hb. lia.
Qed.

Lemma exists_total (b : SequenceBuffer ReceivedPacket) s :
  (0 < length (sq_entry_sequences b))%nat -> exists e, SequenceBuffer_exists b s = Some e.
Proof.
  intros H. unfold SequenceBuffer_exists, SequenceBuffer_index.
  destruct (length (sq_entry_sequences b)); [lia|]. by eexists.
Qed.

Lemma lor_u32 x y : u32_ok x -> u32_ok y -> u32_ok (Z.lor x y).
Proof.
  unfold u32_ok. intros [Hx0 Hx] [Hy0 Hy].
  assert (0 <= Z.lor x y) as H0 by by apply Z.lor_nonneg. split; [done|].
  destruct (decide (Z.lor x y = 0)) as [->|Hne]; [lia|].
  change 4294967296 with (2 ^ 32) in *. apply Z.log2_lt_pow2; [lia|].
  rewrite Z.log2_lor by done. apply Z.max_lub_lt.
  - destruct (decide (x = 0)) as [->|]; [done|]. apply Z.log2_lt_pow2; lia.
  - destruct (decide (y = 0)) as [->|]; [done|]. apply Z.log2_lt_pow2; lia.
Qed.

Lemma ack_bitfield_total h : (0 < length (sq_entry_sequences (ah_received_packets h)))%nat ->
  exists f, AcknowledgmentHandler_ack_bitfield h = Some f /\ u32_ok f.
Proof.
  intros H. unfold AcknowledgmentHandler_ack_bitfield.
  assert (u32_ok 0 /\ u32_ok 1) as Hacc by (unfold u32_ok; lia). revert Hacc.
  generalize (seqZ 1 REDUNDANT_PACKET_ACKS_SIZE) as l. intros l.
  cut (forall bits mask, u32_ok bits /\ u32_ok mask -> exists f, fst <$> foldM
    (ack_bit (ah_received_packets h) (AcknowledgmentHandler_remote_sequence_num h)) (bits, mask) l = Some f /\
    u32_ok f); [by intros Hc; apply Hc|].
  induction l as [|i l IH]; intros bits mask [Hb Hm]; cbn [foldM]; [by eexists|].
  unfold ack_bit at 2. destruct (exists_total (ah_received_packets h)
    (wrapping_sub16 (AcknowledgmentHandler_remote_sequence_num h) i) H) as [e ->].
  cbn [mbind option_bind]. apply IH. split; [|apply as_u32_ok]. destruct e; [by apply lor_u32|done].
Qed.

(** An acknowledgment as the receivers queue it. *)
Definition is_ack (c : ProtocolCommand) : Prop :=
  exists s f, c = Acknowledge s f None /\ u16_ok s /\ u32_ok f.

(** Queueing an acknowledgment always succeeds, for it carries no data. *)
Lemma enqueue_ack_ready a ck q r : ready a ck q -> exists c,
  Peer_enqueue_ack_command None q r = Some (tt, pushed [c] q, r) /\ ready a ck (pushed [c] q) /\ is_ack c.
Proof.
  intros Hq. destruct Hq as [H1 H3 H4 H5 H6]. destruct (ack_bitfield_total _ H6) as (f & E & Hf).
  set (c := Acknowledge (AcknowledgmentHandler_remote_sequence_num (p_acknowledge_handler q)) f None).
  assert (room 0 q) as Hr.
  { destruct H5. split; [lia|]. intros Hm. rewrite Z.add_0_r. auto. }
  destruct (enqueue_fits c q r) as [b Eb]; [by apply queue_ok_nonneg|done|exact Hr|].
  exists c. split.
  - unfold Peer_enqueue_ack_command. erewrite bind_run by (unfold may_panic; by rewrite E).
    erewrite bind_run by reflexivity. fold c. by rewrite (bind_run _ _ _ _ _ _ _ Eb).
  - split; [|by eexists _, _; split; [reflexivity|split; [apply as_u16_ok|]]].
    split; [done|done|done|by apply queue_ok_pushed|done].
Qed.

(* ------------------------------------------------------------------ *)
(** ** Abstract receivers                                               *)
(* ------------------------------------------------------------------ *)

(** An abstract receiver of [n] numbered commands: a state, and for each number what is handed to
    the application and the next state. *)
Definition Receiver (A : Type) : Type := A -> Z -> list Packet * A.

Section Receiver.
Context {A : Type} (step : Receiver A).

Fixpoint receiver_run (s : A) (js : list Z) : list Packet * A :=
  match js with
  | [] => ([], s)
  | j :: js => let x := step s j in let y := receiver_run x.2 js in (x.1 ++ y.1, y.2)
  end.

Lemma receiver_run_app js : forall s ks, receiver_run s (js ++ ks) =
  ((receiver_run s js).1 ++ (receiver_run (receiver_run s js).2 ks).1,
   (receiver_run (receiver_run s js).2 ks).2).
Proof.
  induction js as [|j js IH]; intros s ks; cbn [receiver_run app fst snd]; [by destruct (receiver_run s ks)|].
  rewrite IH. cbn [fst snd]. by rewrite app_assoc.
Qed.

(** What the books of a peer are. *)
Definition tallies (q : Peer) : PeerStatistics * BandwidthThrottle := (p_statistics q, p_bandwidth_throttle q).

(** [P s q]: the peer [q] implements the abstract state [s], where [f] gives the command of a
    number.  Every command takes related states to related states and hands on the same packets. *)
Record simulates (a : SocketAddr) (ck : bool) (f : Z -> ProtocolCommand) (n : Z)
  (P : A -> Peer -> Prop) : Prop := {
  sm_step t s i q r : 0 <= i < n -> P s q -> exists pk q',
    Peer_process_command (command_reown (f i)) t q r = Some (Ok pk, q', r) /\
    (ZeroOrMore_collect pk).*1 = (step s i).1 /\
    P (step s i).2 q' /\ tallies q' = tallies q;
  sm_books s q st b : P s q -> P s (set_statistics st (set_bandwidth_throttle b q));
  sm_ready s q : P s q -> ready a ck q
}.

(** Parcels: a datagram with the numbers of the commands it carries. *)
Definition Parcel : Type := list Z * list Z.
Definition parcel_ok (ck : bool) (f : Z -> ProtocolCommand) (n size : Z) (x : Parcel) : Prop :=
  Forall (fun i => 0 <= i < n) x.2 /\
  forall q, use_checksums (p_config q) = ck -> carries (p_config q) size x.1 (f <$> x.2).

(** Arrivals: parcels with the time they come in at. *)
Definition datagrams (arrivals : list (Instant * Parcel)) : list (Instant * list Z) :=
  (fun x => (x.1, x.2.1)) <$> arrivals.
Definition numbers (arrivals : list (Instant * Parcel)) : list Z :=
  concat ((fun x => x.2.2) <$> arrivals).

Context (a : SocketAddr) (ck : bool) (f : Z -> ProtocolCommand) (n : Z) (P : A -> Peer -> Prop).
Context (HP : simulates a ck f n P).

Lemma commands_simulated t js : forall s acc q r, Forall (fun i => 0 <= i < n) js -> P s q ->
  exists l q', process_commands (command_reown <$> (f <$> js)) t acc q r =
      Some (Ok (IncomingPackets_many (acc ++ l)), q', r) /\
    l.*1 = (receiver_run s js).1 /\ P (receiver_run s js).2 q' /\ tallies q' = tallies q /\
    p_last_heard q' = match js with [] => p_last_heard q | _ => t end.
Proof.
  induction js as [|i js IH]; intros s acc q r Hf Hs; cbn [fmap list_fmap process_commands receiver_run].
  - exists [], q. rewrite !app_nil_r. done.
  - apply Forall_cons in Hf as [Hi Hf].
    destruct (sm_step _ _ _ _ _ HP t s i q r Hi Hs) as (pk & q1 & E & Hpk & Hs1 & Hst1).
    erewrite bind_run by exact E.
    destruct (IH _ (acc ++ ZeroOrMore_collect pk) q1 r Hf Hs1) as (l & q' & E' & Hl & Hs' & Hst' & Hh').
    exists (ZeroOrMore_collect pk ++ l), q'. rewrite app_assoc. split; [exact E'|].
    rewrite fmap_app, Hpk, Hl. split; [done|]. split; [done|]. split; [congruence|].
    rewrite Hh'. destruct js; [|done]. by eapply process_command_heard.
Qed.

(** The receiver follows the abstract one over any arrivals: parcels may be missing, come twice
    and in any order. *)
Lemma arrivals_simulated size arrivals : size <= 1537 -> forall s q r,
  Forall (parcel_ok ck f n size) arrivals.*2 -> P s q -> recv_room (zlen arrivals) q ->
  exists q', receive_arrivals (datagrams arrivals) q r =
      Some ((fun p => Emit (EvPacket p)) <$> (receiver_run s (numbers arrivals)).1, q', r) /\
    P (receiver_run s (numbers arrivals)).2 q' /\
    heard (zlen arrivals) q q' /\
    forall now, Forall (fun x => x.1 = now) arrivals ->
      p_last_heard q' = match numbers arrivals with [] => p_last_heard q | _ => now end /\
      renews now q q'.
Proof.
  intros Hsize. unfold datagrams, numbers.
  induction arrivals as [|[t [dg js]] arrivals IH]; intros s q r Hf Hs Hroom;
    cbn [fmap list_fmap receive_arrivals concat fst snd receiver_run] in *.
  - exists q. repeat (split; [done|]). change (zlen []) with 0. split; [by apply heard_none|done].
  - apply Forall_cons in Hf as [[Hi Hc] Hf]. cbn [fst snd] in *. rewrite zlen_cons in Hroom.
    pose proof (zlen_nonneg arrivals). pose proof (sm_ready _ _ _ _ _ HP _ _ Hs) as Hr.
    destruct (process_packet_carried size dg (f <$> js) t q r (1 + zlen arrivals))
      as (st & b & Hh & Hren & Hpp); [apply Hc, (rd_checksums _ _ _ Hr)|done|apply Hr|lia|done|].
    destruct (commands_simulated t js s [] (set_statistics st (set_bandwidth_throttle b q)) r Hi)
      as (l & q1 & E & Hl & Hs1 & Hst1 & Hh1); [by eapply sm_books|].
    specialize (Hpp _ _ _ E (rd_state _ _ _ (sm_ready _ _ _ _ _ HP _ _ Hs1))).
    injection Hst1 as E1 E2.
    assert (heard 1 q q1) as Hh'.
    { change 1 with (1 + 0). eapply heard_trans; [exact Hh|]. by apply heard_none. }
    assert (renews t q q1) as Hren1 by (etrans; [exact Hren|left; unfold window_start; by rewrite E2]).
    destruct (IH _ q1 r Hf Hs1) as (q' & E' & Hs' & Hh2 & Hnow).
    { apply (heard_room _ 1 q); [lia|done|]. by rewrite Z.add_comm. }
    exists q'. rewrite zlen_cons, receiver_run_app.
    split; [|split; [exact Hs'|split; [by eapply heard_trans|]]].
    + erewrite bind_run by exact Hpp. erewrite bind_run by exact E'.
      cbn [fst snd app]. rewrite fmap_app, <-Hl, <-list_fmap_compose. done.
    + intros now Hall. apply Forall_cons in Hall as [Et Hall]. cbn [fst] in Et. subst now.
      destruct (Hnow t Hall) as [-> Hr2]. split; [|by etrans]. rewrite Hh1. by destruct js, (concat _).
Qed.
End Receiver.

(** A list whose pieces are images splits like the list of arguments. *)
Lemma concat_fmap_split {A B} (f : A -> B) (ls : list (list B)) :
  forall k : list A, concat ls = fmap (M := list) f k ->
  exists ks : list (list A), ls = fmap (M := list) (fmap (M := list) f) ks /\ concat ks = k.
Proof.
  induction ls as [|l ls IH]; intros k; cbn [concat].
  - intros E. exists []. destruct k; done.
  - intros E. symmetry in E. apply fmap_app_inv in E as (k1 & k2 & -> & E2 & ->).
    destruct (IH k2 E2) as (ks & -> & <-). by exists (k1 :: ks).
Qed.

(** The datagrams of a flush as parcels. *)
Lemma parcels_of c f n dsize dgs sent :
  Forall2 (carries c dsize) dgs sent -> concat sent = f <$> seqZ 0 n ->
  exists parcels : list Parcel, dgs = parcels.*1 /\ concat parcels.*2 = seqZ 0 n /\
    Forall (parcel_ok (use_checksums c) f n dsize) parcels.
Proof.
  intros HF Hc. apply concat_fmap_split in Hc as (ks & -> & Hks).
  exists (zip dgs ks). pose proof (Forall2_length _ _ _ HF) as Hl. rewrite length_fmap in Hl.
  rewrite fst_zip, snd_zip by lia. split_and!; [done|done|].
  assert (Forall (Forall (fun i => 0 <= i < n)) ks) as Hin.
  { apply Forall_forall. intros k Hk. apply Forall_forall. intros i Hi.
    assert (i ∈ concat ks) as Hi'.
    { apply list_elem_of_In, in_concat. exists k. by rewrite <-!list_elem_of_In. }
    rewrite Hks in Hi'. apply elem_of_seqZ in Hi'. lia. }
  clear Hks Hl. revert dgs HF. induction ks as [|k ks IH]; intros dgs HF.
  - inversion HF; subst. constructor.
  - apply Forall_cons in Hin as [Hk Hin].
    inversion HF as [|dg ? dgs' ? [H1 H2] HF']; subst. constructor; [|by apply IH].
    split; [done|]. intros q Hq. split; [exact H1|]. intros now. rewrite Hq. apply H2.
Qed.

(** The numbers that arrive are among those that were sent. *)
Lemma numbers_below arrivals (parcels : list Parcel) n :
  Forall (fun x => x ∈ parcels) arrivals.*2 -> concat parcels.*2 = seqZ 0 n ->
  Forall (fun i => 0 <= i < n) (numbers arrivals).
Proof.
  intros Harr Hks. rewrite Forall_fmap in Harr. unfold numbers.
  induction Harr as [|x arrivals Hx _ IH]; cbn [fmap list_fmap concat]; [constructor|].
  apply Forall_app. split; [|exact IH]. apply Forall_forall. intros i Hi.
  assert (i ∈ concat parcels.*2) as Hc.
  { apply list_elem_of_In, in_concat. exists x.2.2. rewrite <-!list_elem_of_In. split; [|done].
    by apply list_elem_of_fmap_2. }
  rewrite Hks, elem_of_seqZ in Hc. lia.
Qed.

(** Arrivals of all the parcels in some order bring every number once. *)
Lemma permuted_concat {A} (l k : list (list A)) : l ≡ₚ k -> concat l ≡ₚ concat k.
Proof.
  induction 1 as [|x l k _ IH|x y l|l k k' _ IH1 _ IH2]; cbn [concat]; [done|by rewrite IH| |by etrans].
  by rewrite !app_assoc, (Permutation_app_comm x y).
Qed.
Lemma numbers_permuted arrivals (parcels : list Parcel) : arrivals.*2 ≡ₚ parcels ->
  numbers arrivals ≡ₚ concat parcels.*2.
Proof.
  intros H. unfold numbers.
  replace ((fun x : Instant * Parcel => x.2.2) <$> arrivals) with (arrivals.*2).*2
    by by rewrite <-list_fmap_compose.
  by apply permuted_concat, fmap_Permutation.
Qed.
(** Datagrams in another order are parcels in another order, here all at one time. *)
Lemma permuted_arrivals t (dgs : list (list Z)) (parcels : list Parcel) : dgs ≡ₚ parcels.*1 ->
  exists arrivals, arrivals.*2 ≡ₚ parcels /\ (t,.) <$> dgs = datagrams arrivals.
Proof.
  intros (parcels' & -> & Hp)%(Permutation_map_inv fst parcels). exists ((t,.) <$> parcels').
  unfold datagrams. rewrite <-!list_fmap_compose. split; [|done].
  transitivity (id <$> parcels'); [done|]. by rewrite list_fmap_id.
Qed.

(** Parcels that come in at one time. *)
Definition arrivals_at (t : Instant) (parcels : list Parcel) : list (Instant * Parcel) := (t,.) <$> parcels.
Lemma datagrams_at t parcels q r :
  receive_arrivals (datagrams (arrivals_at t parcels)) q r = receive_datagrams parcels.*1 t q r.
Proof. rewrite receive_datagrams_arrivals. unfold datagrams, arrivals_at. by rewrite <-!list_fmap_compose. Qed.
Lemma numbers_at t parcels : numbers (arrivals_at t parcels) = concat parcels.*2.
Proof. unfold numbers, arrivals_at. by rewrite <-list_fmap_compose. Qed.
Lemma snd_at t parcels : (arrivals_at t parcels).*2 = parcels.
Proof. unfold arrivals_at. rewrite <-list_fmap_compose. apply list_fmap_id. Qed.
Lemma zlen_at t parcels : zlen (arrivals_at t parcels) = zlen parcels.
Proof. unfold zlen, arrivals_at. by rewrite length_fmap. Qed.
End Receive.
