(* ===== verification/Delivery.v ===== *)
(** End-to-end delivery: from a user packet at one peer, through datagrams, to the event at
    the other. *)

From S2P Require Import Prelude Core Externs Buffers Packet Command Codec CodecFacts Framing.
From S2P Require Import SequenceBuffer Ack Bandwidth FragmentBuffer PeerParts.
From S2P Require Import Peer PeerFacts Fragmenter FragmenterFacts PeerEncoder CommandProcessor.
From S2P Require Import Session PeerSession EncoderFacts ProcessorFacts Parcels.

(* ------------------------------------------------------------------ *)
(** ** The reference assembler                                          *)
(* ------------------------------------------------------------------ *)

(** A message of [n] parts: the numbers that have arrived are collected in a set; when all are
    there the message is handed on and the set is emptied. *)
Definition assembler (out : Packet) (n : Z) : Receiver (gset Z) := fun got i =>
  let got := {[i]} ∪ got in
  if Z.of_nat (size got) =? n then ([out], ∅) else ([], got).

Section Assembler.
Context (out : Packet) (n : Z).
#[local] Abbreviation run := (receiver_run (assembler out n)).

Definition parts : gset Z := list_to_set (seqZ 0 n).
Lemma elem_of_parts i : i ∈ parts <-> 0 <= i < n.
Proof. unfold parts. rewrite elem_of_list_to_set, elem_of_seqZ. lia. Qed.
Lemma size_parts : 0 <= n -> Z.of_nat (size parts) = n.
Proof. intros. unfold parts. rewrite size_list_to_set by apply NoDup_seqZ. rewrite length_seqZ. lia. Qed.
Lemma size_full (got : gset Z) : got ⊆ parts -> Z.of_nat (size got) = n -> got = parts.
Proof.
  intros Hsub Hn. apply set_subseteq_size_eq; [done|].
  pose proof (size_parts ltac:(lia)). lia.
Qed.

Lemma assembler_cons got j js : run got (j :: js) =
  if Z.of_nat (size ({[j]} ∪ got)) =? n then (out :: (run ∅ js).1, (run ∅ js).2)
  else run ({[j]} ∪ got) js.
Proof.
  cbn [receiver_run]. unfold assembler at 1 3 5. destruct (_ =? n); [done|]. cbn [fst snd app].
  by rewrite <-surjective_pairing.
Qed.

(** Each part once, in any order: the message is handed on once, at the end. *)
Lemma assembler_distinct js : forall got, NoDup js -> (forall j, j ∈ js -> j ∉ got) -> js <> [] ->
  Z.of_nat (size got) + zlen js = n -> run got js = ([out], ∅).
Proof.
  induction js as [|j js IH]; intros got Hnd Hdis Hne Hn; [done|].
  apply NoDup_cons in Hnd as [Hj Hnd]. rewrite zlen_cons in Hn. pose proof (zlen_nonneg js).
  rewrite assembler_cons.
  assert (size ({[j]} ∪ got) = S (size got)) as Hs.
  { rewrite size_union, size_singleton; [lia|]. specialize (Hdis j (list_elem_of_here j js)). set_solver. }
  rewrite Hs. destruct js as [|k js].
  - change (zlen []) with 0 in Hn. rewrite (proj2 (Z.eqb_eq _ _)) by lia. done.
  - rewrite zlen_cons in *. pose proof (zlen_nonneg js). rewrite (proj2 (Z.eqb_neq _ _)) by lia.
    rewrite IH; [done|done| |done|rewrite Hs; lia].
    intros i Hi. assert (i <> j) by by intros ->. specialize (Hdis i (list_elem_of_further i j _ Hi)). set_solver.
Qed.
Lemma assembler_complete js : 0 < n -> js ≡ₚ seqZ 0 n -> run ∅ js = ([out], ∅).
Proof.
  intros Hn Hjs. apply assembler_distinct.
  - rewrite Hjs. apply NoDup_seqZ.
  - intros j _. apply not_elem_of_empty.
  - intros ->. apply Permutation_nil_l in Hjs. rewrite seqZ_cons in Hjs by lia. done.
  - unfold zlen. rewrite size_empty, (Permutation_length Hjs), length_seqZ. lia.
Qed.

(** Without some part nothing is handed on, whatever comes in of the others. *)
Lemma assembler_missing i js : 0 <= i < n -> i ∉ js -> forall got : gset Z, i ∉ got -> got ⊆ parts ->
  Forall (fun j => 0 <= j < n) js -> (run got js).1 = [].
Proof.
  intros Hi. induction js as [|j js IH]; intros Hjs got Hg Hsub Hr; [done|].
  apply not_elem_of_cons in Hjs as [Hne Hjs]. apply Forall_cons in Hr as [Hj Hr].
  rewrite assembler_cons.
  assert ({[j]} ∪ got ⊆ parts) as Hsub'.
  { apply union_subseteq. split; [|done]. by apply singleton_subseteq_l, elem_of_parts. }
  assert (i ∉ {[j]} ∪ got) as Hi' by (by rewrite elem_of_union, elem_of_singleton; intros [?|?]).
  destruct (Z.eqb_spec (Z.of_nat (size ({[j]} ∪ got))) n) as [E|_].
  - apply (size_full _ Hsub') in E. apply elem_of_parts in Hi. by rewrite E in Hi'.
  - by apply IH.
Qed.

(** Copies of the message are all that is handed on, and every copy uses up [n] arrivals. *)
Lemma assembler_copies js : forall got : gset Z, 0 < n -> Z.of_nat (size got) < n -> exists k : nat,
  (run got js).1 = replicate k out /\ Z.of_nat k * n <= Z.of_nat (size got) + zlen js.
Proof.
  induction js as [|j js IH]; intros got Hn Hg.
  - exists 0%nat. split; [done|]. change (zlen []) with 0. lia.
  - rewrite assembler_cons, zlen_cons.
    assert (size ({[j]} ∪ got) <= S (size got))%nat as Hs.
    { destruct (decide (j ∈ got)).
      - replace ({[j]} ∪ got) with got by set_solver. lia.
      - rewrite size_union, size_singleton by set_solver. lia. }
    assert (size got <= size ({[j]} ∪ got))%nat by (apply subseteq_size; set_solver).
    destruct (Z.eqb_spec (Z.of_nat (size ({[j]} ∪ got))) n) as [E|Hne].
    + destruct (IH ∅ Hn) as (k & -> & Hk); [rewrite size_empty; lia|]. exists (S k).
      split; [done|]. rewrite size_empty in Hk. lia.
    + destruct (IH ({[j]} ∪ got) Hn) as (k & -> & Hk); [lia|]. exists k. split; [done|]. lia.
Qed.
End Assembler.

Section EndToEnd.
Context {X : Externs}.

(** A message goes out as one command, or in fragments: the commands, and the sizes of their
    headers, by guarantee. *)
Definition whole_command (d : DeliveryGuarantee) (ch seq : Z) : SharedBytes -> ProtocolCommand :=
  match d with Reliable => SendReliable ch seq false | Unreliable => SendUnreliable ch end.
Definition fragment_command (d : DeliveryGuarantee) (ch seq n i : Z) : SharedBytes -> ProtocolCommand :=
  match d with
  | Reliable => SendFragment ch seq false i n
  | Unreliable => SendUnreliableFragment ch seq i n
  end.
Definition whole_header (d : DeliveryGuarantee) : Z :=
  match d with Reliable => 7 | Unreliable => 4 end.
Definition fragment_header (d : DeliveryGuarantee) : Z :=
  match d with Reliable => 9 | Unreliable => 8 end.
(** The sequence number the sender gives its next message. *)
Definition message_sequence (d : DeliveryGuarantee) (p : Peer) : Z :=
  match d with
  | Reliable => AcknowledgmentHandler_local_sequence_num (p_acknowledge_handler p)
  | Unreliable => p_next_unreliable_sequence p
  end.

(** What a peer does for the commands of a message: it notes the time and perhaps a received
    sequence number, changes its fragments and queues at most [n] acknowledgments. *)
Definition answered (t : Instant) (seq : Z) (n : nat) (q q' : Peer) : Prop := exists h m acks,
  q' = pushed acks (set_command_fragments m (set_acknowledge_handler h (set_last_heard t q))) /\
  (h = p_acknowledge_handler q \/
   AcknowledgmentHandler_process_incoming seq seq 0 t (p_acknowledge_handler q) = Some h) /\
  (forall s, s <> seq -> m !! s = p_command_fragments q !! s) /\
  Forall is_ack acks /\ (length acks <= n)%nat.

Lemma answered_plain t seq n m q : (forall s, s <> seq -> m !! s = p_command_fragments q !! s) ->
  answered t seq n q (set_command_fragments m (set_last_heard t q)).
Proof.
  intros Hm. exists (p_acknowledge_handler q), m, []. rewrite pushed_nil.
  split; [by destruct q|]. split; [by left|]. split; [done|]. split; [constructor|simpl; lia].
Qed.
Lemma answered_acked t seq n h m acks q :
  AcknowledgmentHandler_process_incoming seq seq 0 t (p_acknowledge_handler q) = Some h ->
  (forall s, s <> seq -> m !! s = p_command_fragments q !! s) ->
  Forall is_ack acks -> (length acks <= n)%nat ->
  answered t seq n q (pushed acks (set_command_fragments m (set_acknowledge_handler h (set_last_heard t q)))).
Proof. intros Hh Hm Ha Hn. exists h, m, acks. split; [done|]. split; [by right|done]. Qed.

(* ------------------------------------------------------------------ *)
(** ** Receivers of one message                                         *)
(* ------------------------------------------------------------------ *)

Section Message.
(** The message is fragmented when it exceeds [budget], into chunks of [size] bytes. *)
Context (d : DeliveryGuarantee) (a : SocketAddr) (ck : bool) (budget size : Z) (data : list Z)
  (ch seq : Z).
Hypothesis Hsize : 0 < size.

Definition fragment_count : Z := div_ceil (zlen data) size.
Definition whole : bool := zlen data <=? budget.
Definition part_count : Z := if whole then 1 else fragment_count.
Definition part (i : Z) : ProtocolCommand :=
  if whole then whole_command d ch seq (SharedBytes_from_arc data)
  else fragment_command d ch seq fragment_count i (chunk size data i).
Definition message : list ProtocolCommand :=
  message_commands (whole_command d ch seq) (fragment_command d ch seq) budget size data.
Definition received : Packet := Packet_new a data d OrderNone ch.

Lemma message_parts : message = part <$> seqZ 0 part_count.
Proof.
  unfold message, message_commands, part_count, part. fold whole. destruct whole; [done|].
  unfold fragment_commands. done.
Qed.
Lemma part_count_pos : 0 <= budget -> 0 < part_count.
Proof.
  intros Hb. unfold part_count, whole. destruct (Z.leb_spec (zlen data) budget); [lia|].
  destruct (div_ceil_spec (zlen data) size Hsize (zlen_nonneg data)). unfold fragment_count. nia.
Qed.

(** The fragment buffer of the message when the fragments [got] have come in. *)
Record holds (got : gset Z) (b : CommandFragmentBuffer) : Prop := {
  ho_channel : fb_channel_id b = ch;
  ho_count : fb_fragment_count b = fragment_count;
  ho_ordered : fb_ordered b = false;
  ho_fragments i : fb_fragments b !! i =
    if decide (i ∈ got) then Some (SharedBytes_as_slice (chunk size data i)) else None
}.
(** The receiver's entry for the message. *)
Definition entry (got : gset Z) (q : Peer) : Prop :=
  match p_command_fragments q !! seq with
  | Some b => holds got b /\ got <> ∅
  | None => got = ∅
  end.
(** The receiver of the message, which is missing some part still. *)
Definition awaiting (got : gset Z) (q : Peer) : Prop :=
  ready a ck q /\ if whole then got = ∅ else entry got q /\ got ⊆ parts fragment_count.

Lemma holds_new t : holds ∅ (CommandFragmentBuffer_new ch fragment_count false t).
Proof. split; [done..|]. intros i. by rewrite decide_False by apply not_elem_of_empty. Qed.
Lemma holds_add got i b : holds got b ->
  holds ({[i]} ∪ got) (CommandFragmentBuffer_add_fragment i (SharedBytes_as_slice (chunk size data i)) b).
Proof.
  intros [H1 H2 H3 H4]. split; [done..|]. intros j. cbn [CommandFragmentBuffer_add_fragment fb_fragments].
  destruct (decide (j = i)) as [->|Hne].
  - by rewrite lookup_insert_eq, decide_True by set_solver.
  - rewrite lookup_insert_ne, H4 by done. destruct (decide (j ∈ got)).
    + by rewrite decide_True by set_solver.
    + by rewrite decide_False by set_solver.
Qed.
Lemma holds_complete got b : holds got b ->
  CommandFragmentBuffer_is_complete b = (Z.of_nat (base.size got) =? fragment_count).
Proof.
  intros [_ H2 _ H4]. unfold CommandFragmentBuffer_is_complete. rewrite H2, <-size_dom.
  do 3 f_equal. apply set_eq. intros i. rewrite elem_of_dom, H4.
  case_decide; split; by (done || intros [? ?] || eexists).
Qed.
Lemma holds_reassemble b : holds (parts fragment_count) b ->
  CommandFragmentBuffer_reassemble b = Some data.
Proof.
  intros Hb. pose proof (holds_complete _ _ Hb) as Hc.
  assert (0 <= fragment_count) as H0.
  { destruct (div_ceil_spec (zlen data) size Hsize (zlen_nonneg data)). unfold fragment_count. lia. }
  rewrite size_parts, Z.eqb_refl in Hc by done.
  unfold CommandFragmentBuffer_reassemble. rewrite Hc. cbn [negb]. destruct Hb as [_ -> _ H4].
  set (l := SharedBytes_as_slice <$> chunks size data).
  assert (zlen l = fragment_count) as Hl.
  { unfold l, chunks, zlen. rewrite !length_fmap, length_seqZ. fold (zlen data) fragment_count. lia. }
  rewrite <-Hl, reassemble_loop_spec.
  - unfold l. cbn [app]. by rewrite chunks_concat.
  - intros i Hi. assert (Z.of_nat i < fragment_count) as Hi' by (unfold zlen in Hl; lia).
    rewrite H4, decide_True by (apply elem_of_parts; lia). unfold l, chunks.
    rewrite !list_lookup_fmap, lookup_seqZ_lt by (fold fragment_count; lia). done.
Qed.

(** One fragment more, new or not. *)
Lemma add_to_fragments_step got i t q r : 0 <= i < fragment_count -> entry got q ->
  got ⊆ parts fragment_count ->
  let got' := {[i]} ∪ got in
  got' ⊆ parts fragment_count /\
  if Z.of_nat (base.size got') =? fragment_count then
    exists m b, add_to_fragments ch seq false i fragment_count (reown (chunk size data i)) t q r =
        Some (Some b, set_command_fragments m q, r) /\
      (forall s, s <> seq -> m !! s = p_command_fragments q !! s) /\
      fb_channel_id b = ch /\ fb_ordered b = false /\ CommandFragmentBuffer_reassemble b = Some data /\
      entry ∅ (set_command_fragments m q)
  else
    exists m, add_to_fragments ch seq false i fragment_count (reown (chunk size data i)) t q r =
        Some (None, set_command_fragments m q, r) /\
      (forall s, s <> seq -> m !! s = p_command_fragments q !! s) /\
      entry got' (set_command_fragments m q).
Proof.
  intros Hi He Hsub got'. assert (got' ⊆ parts fragment_count) as Hsub'.
  { apply union_subseteq. split; [|done]. by apply singleton_subseteq_l, elem_of_parts. }
  split; [done|]. unfold add_to_fragments, updating.
  set (b := default (CommandFragmentBuffer_new ch fragment_count false t) (p_command_fragments q !! seq)).
  assert (holds got b) as Hb.
  { unfold b. unfold entry in He. destruct (p_command_fragments q !! seq); [apply He|].
    rewrite He. apply holds_new. }
  rewrite to_arc_as_slice. unfold reown. rewrite as_slice_from_vec.
  apply (holds_add _ i) in Hb. fold got' in Hb. rewrite (holds_complete _ _ Hb).
  destruct (Z.eqb_spec (Z.of_nat (base.size got')) fragment_count) as [E|_].
  - eexists _, _. split; [reflexivity|]. split; [intros s Hs; by apply lookup_delete_ne|].
    split; [apply Hb|]. split; [apply Hb|].
    apply (size_full _ _ Hsub') in E. rewrite E in Hb. split; [by apply holds_reassemble|].
    unfold entry. cbn. by rewrite lookup_delete_eq.
  - eexists. split; [reflexivity|]. split; [intros s Hs; by apply lookup_insert_ne|].
    unfold entry. cbn. rewrite lookup_insert_eq. split; [done|]. unfold got'. set_solver.
Qed.

Lemma awaiting_books got q s b : awaiting got q ->
  awaiting got (set_statistics s (set_bandwidth_throttle b q)).
Proof. intros [Hr He]. split; [by apply ready_books|exact He]. Qed.

(** A message in one command is handed on whenever it comes in. *)
Lemma whole_received t q r : whole = true -> ready a ck q -> exists pk q',
  Peer_process_command (command_reown (part 0)) t q r = Some (Ok pk, q', r) /\
  (ZeroOrMore_collect pk).*1 = [received] /\ ready a ck q' /\
  answered t seq 1 q q' /\ p_command_fragments q' = p_command_fragments q.
Proof.
  intros Hw Hr. unfold part. rewrite Hw. pose proof (ready_heard a ck t q Hr) as Hr0.
  set (q0 := set_last_heard t q) in *. unfold whole_command, received. destruct d.
  - exists (IncomingPackets_one (Packet_new a data Unreliable OrderNone ch) TypePacket), q0.
    split; [|split; [done|split; [done|split; [|done]]]].
    2: { replace q0 with (set_command_fragments (p_command_fragments q) q0) by by destruct q.
         by apply answered_plain. }
    unfold Peer_process_command, command_reown.
    erewrite bind_run by reflexivity. fold q0. unfold one_packet, gets, incoming_packet.
    rewrite received_payload. by rewrite <-(rd_address _ _ _ Hr).
  - destruct (acknowledge_ready a ck seq seq 0 t q0 r Hr0) as (h & Ea & Hr1 & Hh).
    set (q1 := set_acknowledge_handler h q0) in *.
    destruct (enqueue_ack_ready a ck q1 r Hr1) as (ack & Eq & Hr2 & Hack).
    exists (IncomingPackets_one (Packet_new a data Reliable OrderNone ch) TypePacket), (pushed [ack] q1).
    split; [|split; [done|split; [done|split; [|done]]]].
    2: { replace q1 with (set_command_fragments (p_command_fragments q) q1) by by destruct q.
         apply answered_acked; [done|done|by constructor|done]. }
    unfold Peer_process_command, command_reown, process_send_reliable.
    erewrite bind_run by reflexivity. fold q0. erewrite bind_run by exact Ea.
    erewrite bind_run by exact Eq. unfold one_packet, gets, incoming_packet.
    rewrite received_payload. by rewrite <-(rd_address _ _ _ Hr).
Qed.

(** The last missing fragment hands the message on, any other is kept. *)
Lemma fragment_received i got t q r : whole = false -> 0 <= i < fragment_count -> awaiting got q ->
  exists pk q', Peer_process_command (command_reown (part i)) t q r = Some (Ok pk, q', r) /\
    (ZeroOrMore_collect pk).*1 = (assembler received fragment_count got i).1 /\
    awaiting (assembler received fragment_count got i).2 q' /\
    answered t seq (length (assembler received fragment_count got i).1) q q'.
Proof.
  intros Hw Hi [Hr He]. rewrite Hw in He. destruct He as [He Hsub].
  unfold part, awaiting. rewrite Hw. pose proof (ready_heard a ck t q Hr) as Hr0.
  set (q0 := set_last_heard t q) in *. unfold fragment_command, received, assembler. destruct d.
  - unfold Peer_process_command, command_reown, process_send_unreliable_fragment.
    destruct (add_to_fragments_step got i t q0 r Hi He Hsub) as [Hsub' H].
    destruct (_ =? _).
    + destruct H as (m & b & E & Hm & Ec & _ & Hre & He'). pose proof (ready_fragments a ck m q0 Hr0) as Hr1.
      exists (IncomingPackets_one (Packet_new a data Unreliable OrderNone ch) TypePacket), (set_command_fragments m q0).
      split; [|split; [done|split; [split; [done|split; [done|apply empty_subseteq]]|by apply answered_plain]]].
      erewrite bind_run by reflexivity. fold q0. erewrite bind_run by exact E. cbv beta iota.
      rewrite Hre. unfold CommandFragmentBuffer_channel_id. rewrite Ec.
      unfold one_packet, gets, incoming_packet. by rewrite (rd_address _ _ _ Hr1).
    + destruct H as (m & E & Hm & He'). pose proof (ready_fragments a ck m q0 Hr0) as Hr1.
      exists IncomingPackets_zero, (set_command_fragments m q0).
      split; [|split; [done|split; [by split|by apply answered_plain]]].
      erewrite bind_run by reflexivity. fold q0. by erewrite bind_run by exact E.
  - destruct (acknowledge_ready a ck seq seq 0 t q0 r Hr0) as (h & Ea & Hr1 & Hh).
    set (q1 := set_acknowledge_handler h q0) in *.
    unfold Peer_process_command, command_reown, process_send_fragment.
    destruct (add_to_fragments_step got i t q1 r Hi He Hsub) as [Hsub' H].
    destruct (_ =? _).
    + destruct H as (m & b & E & Hm & Ec & Eo & Hre & He'). pose proof (ready_fragments a ck m q1 Hr1) as Hr2.
      set (q2 := set_command_fragments m q1) in *.
      destruct (enqueue_ack_ready a ck q2 r Hr2) as (ack & Eq & Hr3 & Hack).
      exists (IncomingPackets_one (Packet_new a data Reliable OrderNone ch) TypePacket), (pushed [ack] q2).
      split; [|split; [done|split; [split; [done|split; [exact He'|apply empty_subseteq]]|]]].
      2: { apply answered_acked; [done|done|by constructor|done]. }
      erewrite bind_run by reflexivity. fold q0. erewrite bind_run by exact Ea.
      erewrite bind_run by exact E. cbv beta iota zeta. rewrite Hre. erewrite bind_run by exact Eq.
      unfold CommandFragmentBuffer_channel_id, CommandFragmentBuffer_is_ordered. rewrite Ec, Eo.
      unfold one_packet, gets, incoming_packet. by rewrite (rd_address _ _ _ Hr3).
    + destruct H as (m & E & Hm & He'). pose proof (ready_fragments a ck m q1 Hr1) as Hr2.
      exists IncomingPackets_zero, (set_command_fragments m q1).
      split; [|split; [done|split; [by split|]]].
      2: { rewrite <-pushed_nil. apply answered_acked; [done|done|constructor|simpl; lia]. }
      erewrite bind_run by reflexivity. fold q0. erewrite bind_run by exact Ea.
      by erewrite bind_run by exact E.
Qed.

Lemma part_received i got t q r : 0 <= i < part_count -> awaiting got q ->
  exists pk q', Peer_process_command (command_reown (part i)) t q r = Some (Ok pk, q', r) /\
    (ZeroOrMore_collect pk).*1 = (assembler received part_count got i).1 /\
    awaiting (assembler received part_count got i).2 q' /\
    answered t seq (length (assembler received part_count got i).1) q q' /\
    (whole = true -> p_command_fragments q' = p_command_fragments q).
Proof.
  intros Hi Hs. unfold part_count in Hi |- *. destruct whole eqn:Hw.
  2: { destruct (fragment_received i got t q r Hw Hi Hs) as (pk & q' & E & H1 & H2 & H3).
       exists pk, q'. done. }
  destruct Hs as [Hr He]. rewrite Hw in He. subst got. assert (i = 0) as -> by lia.
  destruct (whole_received t q r Hw Hr) as (pk & q' & E & Hpk & Hr' & Hs' & Hm).
  exists pk, q'. split; [exact E|]. split; [exact Hpk|]. split; [|done].
  split; [exact Hr'|]. by rewrite Hw.
Qed.

(** A receiver of the parts implements the reference assembler. *)
Lemma message_simulated : simulates (assembler received part_count) a ck part part_count awaiting.
Proof.
  split; [|intros s q st b H1; by apply awaiting_books|by intros s q [Hr _]].
  intros t s i q r Hi Hs. destruct (part_received i s t q r Hi Hs) as (pk & q' & E & Hpk & Hs' & Ha & _).
  exists pk, q'. by destruct Ha as (h & m & acks & -> & _).
Qed.
End Message.

(* ------------------------------------------------------------------ *)
(** ** Senders                                                          *)
(* ------------------------------------------------------------------ *)

Context {L : ByteOrderLaws X} `{!CrcLaws X, !ZlibLaws X, !Lz4Laws X}.

(** An established sender with an empty queue, and no outgoing limit in the way. *)
Record idle_sender (p : Peer) : Prop := {
  is_connected : p_state p = Connected;
  is_empty : queue p = [];
  is_unlimited : outgoing 255 p;
  is_sendable : sendable 255 (receive_buffer_max_size (p_config p)) p;
  is_cap : 1 <= Peer_datagram_cap p
}.

(** A command fits a datagram of its own: a probe may be as long as the receive buffer. *)
Definition fits_alone (p : Peer) (c : ProtocolCommand) : Prop :=
  datagram_size (p_config p) c <=
    if is_pmtu_probe (Some c) then receive_buffer_max_size (p_config p) else Peer_datagram_cap p.

Lemma sent_length {A} (sent : list (list A)) : Forall (fun g => g <> []) sent ->
  (length sent <= length (concat sent))%nat.
Proof.
  induction 1 as [|g l Hg _ IH]; [done|]. cbn [concat length]. rewrite length_app.
  destruct g; [done|]. simpl. lia.
Qed.

(** With no outgoing limit in the way, a queue of commands that fit leaves in one flush. *)
Lemma flush_all t actions p r :
  sendable (zlen (queue p)) (receive_buffer_max_size (p_config p)) p -> 1 <= Peer_datagram_cap p ->
  outgoing (zlen (queue p)) p -> Forall (fits_alone p) (queue p) ->
  exists dgs sent p', Peer_flush t actions p r = Some (actions ++ (Send <$> dgs), p', r) /\
    queue p' = [] /\ queue_ok p' /\ concat sent = queue p /\ zlen dgs <= zlen (queue p) /\
    Forall2 (carries (p_config p) (receive_buffer_max_size (p_config p))) dgs sent /\
    (Forall (fun c => is_pmtu_probe (Some c) = false) (queue p) ->
     Forall (fun dg => zlen dg <= Peer_datagram_cap p) dgs) /\ kept p p' /\
    counted (zlen dgs) p p' (receive_buffer_max_size (p_config p)).
Proof.
  intros Hs Hcap Hu Hfit. unfold Peer_flush. erewrite bind_run by reflexivity. fold (queue p).
  destruct (flush_commands_run (S (length (queue p))) t actions p r)
    as (dgs & sent & p' & E & Hsplit & Hok & Hd & Hk & Hne & HF & Hlen & Hct); [lia|done|done|].
  pose proof Hk as [_ Kc Kcap Kl].
  assert (queue p' = []) as E0.
  { destruct Hd as [?|[Hb|(_ & _ & Hl)]]; [done| |].
    - destruct (queue p') as [|c l] eqn:Eq; [done|]. exfalso.
      assert (1 + zlen dgs <= zlen (queue p)) as Hfew.
      { apply Forall2_length in HF. apply sent_length in Hne. rewrite Hsplit, zlen_app, zlen_cons.
        pose proof (zlen_nonneg l). unfold zlen in *. lia. }
      pose proof (counted_outgoing 1 (zlen dgs) _ p p' (zlen_nonneg dgs) (proj2 (sd_size _ _ _ Hs)) Hct Kl
        (spare_less _ _ _ _ Hfew Hu)) as Hout.
      unfold Peer_can_send_within_bandwidth, BandwidthThrottle_can_send_within_bandwidth in Hb.
      pose proof (spare_open _ _ 1 ltac:(lia) Hout) as Hopen. unfold window_sent in Hopen. congruence.
    - destruct (queue p') as [|c l] eqn:E1; [done|]. exfalso.
      specialize (Hl 1%nat ltac:(simpl; lia)). unfold effective_size in Hl. rewrite E1 in Hl.
      cbn [head take] in Hl. assert (c ∈ queue p) as Hin by (rewrite Hsplit; set_solver).
      pose proof (proj1 (Forall_forall _ _) (sd_frames _ _ _ Hs) c Hin) as [Hck _].
      pose proof (proj1 (Forall_forall _ _) Hfit c Hin) as Hc.
      rewrite Kc, Kcap in Hl. revert Hl Hc. unfold fits_alone, datagram_size, frames. cbn [mbind list_bind].
      rewrite app_nil_r, frame_length, command_bytes_length by done. lia. }
  rewrite E0, app_nil_r in Hsplit. exists dgs, sent, p'.
  split; [exact E|]. split; [done|]. split; [done|]. split; [done|]. split; [|done].
  apply Forall2_length in HF. apply sent_length in Hne. rewrite Hsplit. unfold zlen. lia.
Qed.

(** Commands that fit a datagram each all leave in one flush. *)
Lemma flush_everything cs t actions p r :
  idle_sender p -> (length cs <= 255)%nat -> Forall frame_ok cs -> room (data_sizes cs) p ->
  Forall (fun c => is_pmtu_probe (Some c) = false) cs ->
  Forall (fun c => datagram_size (p_config p) c <= Peer_datagram_cap p) cs ->
  exists dgs sent p', Peer_flush t actions (pushed cs p) r = Some (actions ++ (Send <$> dgs), p', r) /\
    queue p' = [] /\ concat sent = cs /\ zlen dgs <= 255 /\
    Forall2 (carries (p_config p) (receive_buffer_max_size (p_config p))) dgs sent /\
    Forall (fun dg => zlen dg <= Peer_datagram_cap p) dgs.
Proof.
  intros [_ He Hu [Hq Hf Hst Hc Hz] Hcap] Hn Hcs Hr Hnp Hfit.
  assert (queue (pushed cs p) = cs) as Eq by (by rewrite queue_pushed, He).
  destruct (flush_all t actions (pushed cs p) r) as (dgs & sent & p' & E & E0 & _ & Hsent & Hlen & HF & Hb & _).
  - change (p_config (pushed cs p)) with (p_config p). split; [|by rewrite Eq| |done|done].
    + by apply queue_ok_pushed.
    + rewrite Eq. eapply (stats_room_weaken 255); [unfold zlen; lia|split; [apply Hz|reflexivity]|].
      by destruct Hst.
  - done.
  - rewrite Eq. eapply (spare_less _ _ 255); [unfold zlen; lia|exact Hu].
  - rewrite Eq. apply Forall_forall. intros c Hin. unfold fits_alone. rewrite Forall_forall in Hnp, Hfit.
    rewrite (Hnp c Hin). exact (Hfit c Hin).
  - rewrite Eq in Hlen, Hsent, Hb. exists dgs, sent, p'. split; [exact E|].
    split; [done|]. split; [done|]. split; [unfold zlen in *; lia|]. split; [done|by apply Hb].
Qed.

Lemma fragment_commands_length mk size data : 0 < size ->
  Z.of_nat (length (fragment_commands mk size data)) = fragment_count size data.
Proof.
  intros Hs. unfold fragment_commands. rewrite length_fmap, length_seqZ.
  fold (fragment_count size data). unfold fragment_count.
  destruct (div_ceil_spec (zlen data) size Hs (zlen_nonneg data)). lia.
Qed.

(** The commands of a message are well-formed. *)
Lemma message_commands_ok single mk h hf p data :
  receive_buffer_max_size (p_config p) <= 1537 -> bytes_ok data ->
  0 <= h -> 0 <= hf -> 1 <= payload_budget p h -> 1 <= payload_budget p hf ->
  div_ceil (zlen data) (payload_budget p hf) <= 255 ->
  (forall d, payload_ok d -> Z.of_nat (sb_len d) <= payload_budget p h -> frame_ok (single d)) ->
  (forall n i d, 0 <= i < n -> n <= 255 -> payload_ok d -> Z.of_nat (sb_len d) <= payload_budget p hf ->
     frame_ok (mk n i d)) ->
  Forall frame_ok (message_commands single mk (payload_budget p h) (payload_budget p hf) data) /\
  (length (message_commands single mk (payload_budget p h) (payload_budget p hf) data) <= 255)%nat.
Proof.
  intros Hm Hb Hh Hhf Hbu Hbf Hn Hs Hk.
  assert (forall k, 0 <= k -> 1 <= payload_budget p k -> payload_budget p k <= 1537) as Hcap.
  { intros k H0 H1. unfold payload_budget, saturating_sub, Peer_datagram_cap in *.
    pose proof (packet_overhead_min (p_config p)). lia. }
  pose proof (Hcap h Hh Hbu). pose proof (Hcap hf Hhf Hbf).
  unfold message_commands. destruct (Z.leb_spec (zlen data) (payload_budget p h)) as [Hle|Hgt].
  - split; [|simpl; lia]. apply Forall_singleton, Hs; [|exact Hle].
    split; [split; [simpl; lia|done]|]. change (Z.of_nat (sb_len (SharedBytes_from_arc data))) with (zlen data). lia.
  - pose proof (fragment_commands_length (mk (div_ceil (zlen data) (payload_budget p hf)))
      (payload_budget p hf) data ltac:(lia)) as Hl. unfold fragment_count in Hl. split; [|lia].
    unfold fragment_commands. apply Forall_fmap, Forall_forall. intros i Hi%elem_of_seqZ. simpl.
    pose proof (chunk_len (payload_budget p hf) data i ltac:(lia) ltac:(lia)).
    apply Hk; [lia|lia| |done]. split; [apply chunk_ok; [lia|done|lia]|lia].
Qed.

Lemma message_not_probe single mk budget fb data :
  (forall d, is_pmtu_probe (Some (single d)) = false) ->
  (forall n i d, is_pmtu_probe (Some (mk n i d)) = false) ->
  Forall (fun c => is_pmtu_probe (Some c) = false) (message_commands single mk budget fb data).
Proof.
  intros Hs Hm. unfold message_commands. destruct (_ <=? _); [by repeat constructor|].
  unfold fragment_commands. apply Forall_fmap, Forall_forall. intros i _. apply Hm.
Qed.

Lemma record_send_connected p : p_state p = Connected -> Peer_record_send p = (false, p).
Proof. intros E. unfold Peer_record_send, Peer_is_established. by rewrite E. Qed.

(** What a sender and a message need for the message to leave whole. *)
Record fits (p : Peer) (ch : Z) (data : list Z) (hf : Z) : Prop := {
  ft_channel : u8_ok ch;
  ft_bytes : bytes_ok data;
  ft_room : room (zlen data) p;
  ft_budget : 1 <= payload_budget p hf;
  ft_fragments : div_ceil (zlen data) (payload_budget p hf)
                 <= Z.min 255 (max_fragments (p_config p))
}.

Lemma frame_ok_small c : command_ok c -> payload_size c <= 60000 -> frame_ok c.
Proof.
  intros Hc Hp. split; [done|]. rewrite command_bytes_length by done.
  assert (header_size c <= 14) by (destruct c; simpl; try lia; case_match; lia). lia.
Qed.

Lemma budget_small p k : receive_buffer_max_size (p_config p) <= 1537 -> 0 <= k ->
  payload_budget p k <= 1537.
Proof.
  intros. unfold payload_budget, saturating_sub, Peer_datagram_cap in *.
  pose proof (packet_overhead_min (p_config p)). lia.
Qed.

(** The message of a user packet, as the sender cuts it. *)
Definition sent_message (d : DeliveryGuarantee) (p : Peer) (ch : Z) (data : list Z) : list ProtocolCommand :=
  message d (payload_budget p (whole_header d)) (payload_budget p (fragment_header d)) data ch
    (message_sequence d p).
Definition sent_parts (d : DeliveryGuarantee) (p : Peer) (data : list Z) : Z :=
  part_count (payload_budget p (whole_header d)) (payload_budget p (fragment_header d)) data.

Lemma budgets_ordered d p : payload_budget p (fragment_header d) <= payload_budget p (whole_header d).
Proof. destruct d; apply payload_budget_mono; simpl; lia. Qed.

(** Its commands can be encoded, take a datagram each at most, and carry the packet's bytes. *)
Lemma sent_message_ok d p ch data : u16_ok (message_sequence d p) ->
  fits p ch data (fragment_header d) -> receive_buffer_max_size (p_config p) <= 1537 ->
  let cs := sent_message d p ch data in
  Forall frame_ok cs /\ (length cs <= 255)%nat /\ data_sizes cs = zlen data /\
  Forall (fun c => is_pmtu_probe (Some c) = false) cs /\
  Forall (fun c => datagram_size (p_config p) c <= Peer_datagram_cap p) cs.
Proof.
  intros Hseq [Hch Hb _ Hbu Hfr] Hm cs. pose proof (budgets_ordered d p).
  assert (0 <= whole_header d /\ 0 <= fragment_header d) as [Hw Hh] by by destruct d.
  pose proof (budget_small p _ Hm Hw). pose proof (budget_small p _ Hm Hh).
  assert (Forall frame_ok cs /\ (length cs <= 255)%nat) as [Hok Hlen].
  { apply message_commands_ok; try done; try lia.
    - intros x Hx Hl. apply frame_ok_small; destruct d; simpl; (done || lia).
    - intros n i x Hi Hn Hx Hl. apply frame_ok_small; destruct d; simpl in *; try lia;
        split_and!; try done; unfold u8_ok; lia. }
  split; [done|]. split; [done|]. split; [|split].
  - unfold cs, sent_message, message, message_commands. destruct (_ <=? _); [apply single_size; by destruct d|].
    apply fragment_commands_size; [by destruct d|lia].
  - apply message_not_probe; by destruct d.
  - apply message_commands_fit; try lia; by destruct d.
Qed.

(** The event of a user packet queues the message and flushes. *)
Lemma process_event_message d p ch data dest t r : p_state p = Connected -> queue_ok p ->
  fits p ch data (fragment_header d) -> exists next,
  Peer_process_event (Packet_new dest data d OrderNone ch) t p r =
    Peer_flush t [] (pushed (sent_message d p ch data) (set_next_unreliable_sequence next p)) r /\
  (u16_ok (p_next_unreliable_sequence p) -> u16_ok next).
Proof.
  intros Hst Hqok [Hch Hb Hr Hbu Hfr]. destruct d.
  - exists (wrapping_add16 (p_next_unreliable_sequence p) 1). split; [|intros _; apply as_u16_ok].
    unfold Peer_process_event. erewrite bind_run by (unfold updating; by rewrite record_send_connected).
    erewrite bind_run by reflexivity. cbn [pk_delivery pk_ordering pk_channel_id pk_payload Packet_new].
    erewrite bind_run; [reflexivity|].
    by rewrite (bind_run _ _ _ _ _ _ _ (enqueue_unreliable_run ch data p r Hqok Hr Hbu Hfr)).
  - exists (p_next_unreliable_sequence p). split; [|done].
    replace (set_next_unreliable_sequence (p_next_unreliable_sequence p) p) with p by by destruct p.
    unfold Peer_process_event. erewrite bind_run by (unfold updating; by rewrite record_send_connected).
    erewrite bind_run by reflexivity. cbn [pk_delivery pk_ordering pk_channel_id pk_payload Packet_new].
    erewrite bind_run; [reflexivity|].
    by rewrite (bind_run _ _ _ _ _ _ _ (enqueue_reliable_run ch data false p r Hqok Hr Hbu Hfr)).
Qed.

(** The message leaves in parcels. *)
Lemma message_sent d p ch data dest t r : idle_sender p -> u16_ok (message_sequence d p) ->
  fits p ch data (fragment_header d) ->
  exists (parcels : list Parcel) p',
    Peer_process_event (Packet_new dest data d OrderNone ch) t p r = Some (Send <$> parcels.*1, p', r) /\
    queue p' = [] /\ Forall (fun x => zlen x.1 <= Peer_datagram_cap p) parcels /\ zlen parcels <= 255 /\
    concat parcels.*2 = seqZ 0 (sent_parts d p data) /\
    Forall (parcel_ok (use_checksums (p_config p))
      (part d (payload_budget p (whole_header d)) (payload_budget p (fragment_header d)) data ch
         (message_sequence d p)) (sent_parts d p data) (receive_buffer_max_size (p_config p))) parcels.
Proof.
  intros Hp Hseq Hfits. pose proof Hp as [Hst He Hu [Hqok _ Hstat Hc Hz] Hcap].
  destruct (sent_message_ok d p ch data Hseq Hfits) as (Hok & Hlen & Hds & Hpr & Hfit); [lia|].
  destruct (process_event_message d p ch data dest t r Hst Hqok Hfits) as (next & -> & _).
  set (p1 := set_next_unreliable_sequence next p).
  assert (idle_sender p1) as Hp1.
  { split; [done|exact He|done|split; [destruct Hqok; by split|change (queue p1) with (queue p); by rewrite He
      |destruct Hstat; by split|done|done]|done]. }
  destruct (flush_everything (sent_message d p ch data) t [] p1 r Hp1 Hlen Hok)
    as (dgs & sent & p' & -> & He' & Hcs & Hn & HF & Hl);
    [rewrite Hds; destruct (ft_room _ _ _ _ Hfits); by split|exact Hpr|exact Hfit|].
  unfold sent_message in Hcs. rewrite message_parts in Hcs.
  destruct (parcels_of (p_config p) _ (sent_parts d p data) _ dgs sent HF Hcs)
    as (parcels & -> & Hks & Hpar).
  exists parcels, p'. split; [done|]. split; [done|]. split; [rewrite Forall_fmap in Hl; exact Hl|].
  split; [|done]. unfold zlen in *. by rewrite length_fmap in Hn.
Qed.

Lemma message_delivery d p q ch data dest t r r' a
  (Hp : idle_sender p) (Hseq : u16_ok (message_sequence d p))
  (Hfits : fits p ch data (fragment_header d))
  (Hq : ready a (use_checksums (p_config p)) q)
  (Hnew : p_command_fragments q !! message_sequence d p = None) :
  let n := sent_parts d p data in
  let out := Packet_new a data d OrderNone ch in
  exists (parcels : list Parcel) p',
    Peer_process_event (Packet_new dest data d OrderNone ch) t p r = Some (Send <$> parcels.*1, p', r) /\
    queue p' = [] /\ Forall (fun x => zlen x.1 <= Peer_datagram_cap p) parcels /\ zlen parcels <= 255 /\
    0 < n /\ concat parcels.*2 = seqZ 0 n /\
    (forall arrivals, Forall (fun x => x ∈ parcels) arrivals.*2 -> recv_room (zlen arrivals) q ->
       exists q', receive_arrivals (datagrams arrivals) q r' =
         Some ((fun x => Emit (EvPacket x)) <$> (receiver_run (assembler out n) ∅ (numbers arrivals)).1, q', r')).
Proof.
  intros n out. destruct (message_sent d p ch data dest t r Hp Hseq Hfits)
    as (parcels & p' & E & He & Hcap & Hn & Hks & Hpar).
  pose proof Hfits as [_ _ _ Hbu _]. pose proof (budgets_ordered d p).
  pose proof Hp as [_ _ _ [_ _ _ _ Hz] _].
  exists parcels, p'. repeat (split; [done|]). split; [apply part_count_pos; lia|]. split; [done|].
  intros arrivals Harr Hroom.
  destruct (arrivals_simulated _ a (use_checksums (p_config p)) _ n
    (awaiting a (use_checksums (p_config p)) (payload_budget p (whole_header d))
       (payload_budget p (fragment_header d)) data ch (message_sequence d p))
    (message_simulated d a _ _ (payload_budget p (fragment_header d)) data ch _ ltac:(lia))
    (receive_buffer_max_size (p_config p)) arrivals ltac:(lia) ∅ q r') as (q' & E' & _ & _).
  - eapply Forall_impl; [exact Harr|]. intros x Hx. rewrite Forall_forall in Hpar. by apply Hpar.
  - split; [done|]. destruct (whole _ _); [done|]. split; [|apply empty_subseteq].
    unfold entry. by rewrite Hnew.
  - done.
  - by exists q'.
Qed.

(** All the datagrams, in any order: the packet is received once. *)
Lemma message_delivery_complete d p q ch data dest t t' r r' a
  (Hp : idle_sender p) (Hseq : u16_ok (message_sequence d p))
  (Hfits : fits p ch data (fragment_header d))
  (Hq : ready a (use_checksums (p_config p)) q) (Hroom : recv_room 255 q)
  (Hnew : p_command_fragments q !! message_sequence d p = None) :
  exists dgs p',
    Peer_process_event (Packet_new dest data d OrderNone ch) t p r = Some (Send <$> dgs, p', r) /\
    queue p' = [] /\ Forall (fun dg => zlen dg <= Peer_datagram_cap p) dgs /\
    forall arrived, arrived ≡ₚ dgs -> exists q',
      receive_datagrams arrived t' q r' =
        Some ([Emit (EvPacket (Packet_new a data d OrderNone ch))], q', r').
Proof.
  destruct (message_delivery d p q ch data dest t r r' a Hp Hseq Hfits Hq Hnew)
    as (parcels & p' & E & He & Hcap & Hn & H0 & Hks & H).
  exists parcels.*1, p'. split; [done|]. split; [done|]. split; [rewrite Forall_fmap; exact Hcap|].
  intros arrived (arrivals & Harr & Ed)%(permuted_arrivals t').
  destruct (H arrivals) as (q' & E').
  - apply Forall_forall. intros x. by rewrite Harr.
  - assert (zlen arrivals = zlen parcels) as -> by
      (unfold zlen; by rewrite <-(length_fmap snd arrivals), (Permutation_length Harr)).
    eapply recv_room_weaken; [|exact Hroom]. lia.
  - exists q'. rewrite receive_datagrams_arrivals, Ed, E', assembler_complete; [done|done|].
    rewrite <-Hks. by apply numbers_permuted.
Qed.

(** C8: Delivery of unordered messages, end to end.  A connected sender has an empty queue and room
    within its outgoing limit for 255 datagrams.  It is given a packet without ordering, reliable
    or unreliable, that is within the limit of waiting data and needs at most 255 and at most
    [max_fragments] fragments.  The receiver is connected, has room within its incoming limit and
    no unfinished fragments under the sequence number of the packet (fragments of another message
    with this number would collide, [fragment_streams_collide]).  The packet leaves in datagrams
    within the path limit, its parts divided among them.  Whatever of these datagrams the network
    hands the receiver, reordered, dropped and duplicated at will and at any times, the receiver
    emits exactly what the reference assembler does of the parts that arrive, each time the same
    packet: the bytes, the channel and the guarantee, under the sender's address.  If all of them
    arrive once, in any order, that is one packet; if some part never arrives, none; and each
    packet takes as many arrived parts as the message has. *)
Theorem message_delivered_end_to_end d p q ch data dest t t' r r' a
  (Hp : idle_sender p) (Hseq : u16_ok (message_sequence d p))
  (Hfits : fits p ch data (fragment_header d))
  (Hq : ready a (use_checksums (p_config p)) q) (Hroom : recv_room 255 q)
  (Hnew : p_command_fragments q !! message_sequence d p = None) :
  let n := sent_parts d p data in
  let out := Packet_new a data d OrderNone ch in
  exists (parcels : list Parcel) p',
    Peer_process_event (Packet_new dest data d OrderNone ch) t p r = Some (Send <$> parcels.*1, p', r) /\
    queue p' = [] /\ Forall (fun x => zlen x.1 <= Peer_datagram_cap p) parcels /\
    0 < n /\ concat parcels.*2 = seqZ 0 n /\
    (forall arrivals, Forall (fun x => x ∈ parcels) arrivals.*2 -> recv_room (zlen arrivals) q ->
       exists q' k, receive_arrivals (datagrams arrivals) q r' =
           Some ((fun x => Emit (EvPacket x)) <$> (receiver_run (assembler out n) ∅ (numbers arrivals)).1, q', r') /\
         (receiver_run (assembler out n) ∅ (numbers arrivals)).1 = replicate k out /\
         Z.of_nat k * n <= zlen (numbers arrivals) /\
         ((exists i, 0 <= i < n /\ i ∉ numbers arrivals) -> k = 0%nat)) /\
    (forall arrived, arrived ≡ₚ parcels.*1 -> exists q',
       receive_datagrams arrived t' q r' = Some ([Emit (EvPacket out)], q', r')).
Proof.
  intros n out. destruct (message_delivery d p q ch data dest t r r' a Hp Hseq Hfits Hq Hnew)
    as (parcels & p' & E & He & Hcap & Hn & H0 & Hks & H). fold n out in H, H0, Hks.
  exists parcels, p'. repeat (split; [done|]). split.
  - intros arrivals Harr Hr. destruct (H arrivals Harr Hr) as [q' E'].
    destruct (assembler_copies out n (numbers arrivals) ∅ H0) as (k & Ek & Hk); [by rewrite size_empty|].
    exists q', k. split; [exact E'|]. split; [exact Ek|]. split; [by rewrite size_empty in Hk|].
    intros (i & Hi & Hout).
    pose proof (assembler_missing out n i (numbers arrivals) Hi Hout ∅ (not_elem_of_empty i) (empty_subseteq _))
      as Hnone. rewrite Ek in Hnone. destruct k; [done|].
    discriminate (Hnone (numbers_below arrivals parcels n Harr Hks)).
  - destruct (message_delivery_complete d p q ch data dest t t' r r' a Hp Hseq Hfits Hq Hroom Hnew)
      as (dgs & p2 & E2 & _ & _ & H2). rewrite E in E2. injection E2 as E2 _.
    apply (list_fmap_eq_inj Send) in E2; [|by intros ? ? [= ->]]. by rewrite E2.
Qed.

(** The two guarantees by themselves, when nothing is lost. *)
Corollary unreliable_delivered_end_to_end p q ch data dest t t' r r' a
  (Hp : idle_sender p) (Hseq : u16_ok (p_next_unreliable_sequence p)) (Hfits : fits p ch data 8)
  (Hq : ready a (use_checksums (p_config p)) q) (Hroom : recv_room 255 q)
  (Hnew : p_command_fragments q !! p_next_unreliable_sequence p = None) :
  exists dgs p',
    Peer_process_event (Packet_new dest data Unreliable OrderNone ch) t p r =
      Some (Send <$> dgs, p', r) /\
    queue p' = [] /\ Forall (fun dg => zlen dg <= Peer_datagram_cap p) dgs /\
    forall arrived, arrived ≡ₚ dgs -> exists q',
      receive_datagrams arrived t' q r' =
        Some ([Emit (EvPacket (Packet_new a data Unreliable OrderNone ch))], q', r').
Proof. by apply (message_delivery_complete Unreliable). Qed.
Corollary reliable_delivered_end_to_end p q ch data dest t t' r r' a
  (Hp : idle_sender p)
  (Hseq : u16_ok (AcknowledgmentHandler_local_sequence_num (p_acknowledge_handler p)))
  (Hfits : fits p ch data 9)
  (Hq : ready a (use_checksums (p_config p)) q) (Hroom : recv_room 255 q)
  (Hnew : p_command_fragments q !!
    AcknowledgmentHandler_local_sequence_num (p_acknowledge_handler p) = None) :
  exists dgs p',
    Peer_process_event (Packet_new dest data Reliable OrderNone ch) t p r =
      Some (Send <$> dgs, p', r) /\
    queue p' = [] /\ Forall (fun dg => zlen dg <= Peer_datagram_cap p) dgs /\
    forall arrived, arrived ≡ₚ dgs -> exists q',
      receive_datagrams arrived t' q r' =
        Some ([Emit (EvPacket (Packet_new a data Reliable OrderNone ch))], q', r').
Proof. by apply (message_delivery_complete Reliable). Qed.
End EndToEnd.

(* ------------------------------------------------------------------ *)
(** ** A concrete pair of peers                                         *)
(* ------------------------------------------------------------------ *)

Import Sample.

(** A peer with the default configuration, connected. *)
Definition open_peer : Peer := set_state Connected sample_peer.

Lemma open_peer_queue_ok : queue_ok open_peer.
Proof. by split. Qed.

Lemma open_peer_sends : idle_sender open_peer.
Proof.
  split; [done|done|by apply spare_check; vm_compute| |by vm_compute].
  split; [exact open_peer_queue_ok|constructor| |by apply compresses_none|by vm_compute].
  split; vm_compute; split; discriminate.
Qed.

Lemma open_peer_ready : ready sample_addr true open_peer.
Proof. split; [done|done|done|exact open_peer_queue_ok|]. apply Nat.lt_0_succ. Qed.

Lemma open_peer_room : recv_room 255 open_peer.
Proof. split; [vm_compute; split; discriminate..|by apply spare_check; vm_compute]. Qed.

Lemma long_data_fits hf : 1 <= payload_budget open_peer hf ->
  div_ceil 3000 (payload_budget open_peer hf) <= 16 -> fits open_peer 0 long_data hf.
Proof.
  intros H1 H2. split; [by vm_compute| |exact (sample_room long_data eq_refl)|done|].
  - apply Forall_forall. intros x Hx%list_elem_of_In%repeat_spec. by subst.
  - change (zlen long_data) with 3000. change (max_fragments (p_config open_peer)) with 16. lia.
Qed.

(** How many actions a run hands out. *)
Definition action_count (x : option (Actions * Peer * Rng)) : option nat :=
  match x with Some (actions, _, _) => Some (length actions) | None => None end.

Lemma long_message_datagrams : action_count
  (Peer_process_event (Packet_new sample_addr long_data Reliable OrderNone 0) 5 open_peer sample_rng)
  = Some 3%nat.
Proof. vm_compute. reflexivity. Qed.

(** All the datagrams, backwards and then again: the message is received twice, for the assembler starts anew. *)
Lemma message_delivered_end_to_end_witness :
  exists (parcels : list Parcel) p' q' k,
    Peer_process_event (Packet_new sample_addr long_data Reliable OrderNone 0) 5 open_peer sample_rng
      = Some (Send <$> parcels.*1, p', sample_rng) /\
    receive_arrivals (datagrams ((9,.) <$> (rev parcels ++ parcels))) open_peer sample_rng =
      Some (replicate k (Emit (EvPacket (Packet_new sample_addr long_data Reliable OrderNone 0))), q', sample_rng).
Proof.
  destruct (message_delivered_end_to_end Reliable open_peer open_peer 0 long_data sample_addr 5 9
    sample_rng sample_rng sample_addr open_peer_sends) as (parcels & p' & E & _ & _ & _ & _ & Hall & _).
  - by vm_compute.
  - apply long_data_fits; by vm_compute.
  - exact open_peer_ready.
  - exact open_peer_room.
  - done.
  - assert (length parcels = 3%nat) as Hl.
    { pose proof long_message_datagrams as E3. rewrite E in E3. injection E3 as E3.
      by rewrite !length_fmap in E3. }
    destruct (Hall ((9,.) <$> (rev parcels ++ parcels))) as (q' & k & E' & Ek & _).
    + rewrite <-list_fmap_compose. apply Forall_forall. intros x Hx.
      apply list_elem_of_fmap in Hx as (y & -> & Hy). revert Hy.
      rewrite elem_of_app, !list_elem_of_In, <-in_rev. cbn. tauto.
    + eapply recv_room_weaken; [|exact open_peer_room].
      unfold zlen. rewrite length_fmap, length_app, length_rev, Hl. lia.
    + exists parcels, p', q', k. split; [exact E|]. rewrite E', Ek. by rewrite fmap_replicate.
Defined.

(* ------------------------------------------------------------------ *)
(** ** Ordered messages beyond the first                                *)
(* ------------------------------------------------------------------ *)

(** Nothing advances the sequence a reliable message is sent with. *)
Lemma reliable_sequence_stays ch data ordered p r : queue_ok p -> room (zlen data) p ->
  1 <= payload_budget p 9 ->
  div_ceil (zlen data) (payload_budget p 9) <= Z.min 255 (max_fragments (p_config p)) ->
  exists p', Peer_enqueue_reliable_data ch data ordered p r =
      Some (AcknowledgmentHandler_local_sequence_num (p_acknowledge_handler p), p', r) /\
    AcknowledgmentHandler_local_sequence_num (p_acknowledge_handler p') =
    AcknowledgmentHandler_local_sequence_num (p_acknowledge_handler p).
Proof. intros Hq Hr Hb Hf. eexists. split; [by apply enqueue_reliable_run|done]. Qed.

(** So the second ordered message arrives under the sequence of the first: the receiver buffers
    it behind its expectation and delivers nothing. *)
Definition packets_of (c : ProtocolCommand) (p : Peer) : list (list Z) * Peer :=
  match Peer_process_command c 0 p sample_rng with
  | Some (Ok pk, p', _) => ((fun x => pk_payload x.1) <$> ZeroOrMore_collect pk, p')
  | _ => ([], p)
  end.

Example second_ordered_message_is_held :
  let first := packets_of (SendReliable 0 0 true (SharedBytes_from_vec [1; 2])) open_peer in
  let second := packets_of (SendReliable 0 0 true (SharedBytes_from_vec [3; 4])) first.2 in
  first.1 = [[1; 2]] /\ second.1 = [].
Proof. vm_compute. split; reflexivity. Qed.

(** Reliable and unreliable fragments under one sequence number, of any channels, are put
    together into a message nobody sent. *)
Example fragment_streams_collide :
  let first := packets_of (SendFragment 0 0 false 0 2 (SharedBytes_from_vec [1; 2])) open_peer in
  let second := packets_of (SendUnreliableFragment 1 0 1 2 (SharedBytes_from_vec [9])) first.2 in
  first.1 = [] /\ second.1 = [[1; 2; 9]].
Proof. vm_compute. split; reflexivity. Qed.

(** A reliable message in one datagram that comes in twice is received twice. *)
Example duplicate_is_received_again :
  let c := SendReliable 0 0 false (SharedBytes_from_vec [1; 2]) in
  let first := packets_of c open_peer in
  let second := packets_of c first.2 in
  first.1 = [[1; 2]] /\ second.1 = [[1; 2]].
Proof. vm_compute. split; reflexivity. Qed.

(** A fragment waits for the others across any number of updates, here for an hour: no update
    removes it. *)
Definition updated (time : Instant) (p : Peer) : Peer :=
  match Peer_update time time p sample_rng with Some (_, p', _) => p' | None => p end.
Example stale_fragment_is_kept :
  let first := packets_of (SendFragment 0 0 false 0 2 (SharedBytes_from_vec [1; 2])) open_peer in
  let later := updated (from_secs 3600) first.2 in
  let second := packets_of (SendFragment 0 0 false 1 2 (SharedBytes_from_vec [3])) later in
  first.1 = [] /\ FRAGMENT_TIMEOUT < from_secs 3600 /\ second.1 = [[1; 2; 3]].
Proof. vm_compute. repeat split; reflexivity. Qed.
