(* ===== verification/ManagerFacts.v ===== *)
(** The session manager's bookkeeping: the count of sessions per IP address, the limits it
    enforces, and the absence of panics in a poll. *)

From S2P Require Import Prelude Core Buffers Packet Session SessionManager.

(* ------------------------------------------------------------------ *)
(** ** What the manager may rely on                                     *)
(* ------------------------------------------------------------------ *)

(** The contract of a session engine: a session is pending while it can still become
    established; datagrams may establish a pending session, user events establish none, and
    what is no longer pending never is again. *)
Class SessionLaws (S SendEvent ReceiveEvent : Type) `{!Session S SendEvent ReceiveEvent} := {
  pending : S -> bool;
  pending_unestablished s : pending s = true -> is_established s = false;
  packet_establishes data t s r a s' r' : process_packet data t s r = Some (a, s', r') ->
    is_established s = false -> is_established s' = true -> pending s = true;
  packet_settled data t s r a s' r' : process_packet data t s r = Some (a, s', r') ->
    pending s = false -> pending s' = false;
  event_establishes ev t s r a s' r' : process_event ev t s r = Some (a, s', r') ->
    is_established s' = true -> is_established s = true;
  event_settled ev t s r a s' r' : process_event ev t s r = Some (a, s', r') ->
    pending s = false -> pending s' = false
}.

(** Engines whose methods do not panic while a session can pay for them: a session affords a
    number of units, inputs cost some, and a configuration gives new sessions a credit. *)
Class SessionTotal (S SendEvent ReceiveEvent : Type) `{!Session S SendEvent ReceiveEvent} := {
  afford : Z -> S -> Prop;
  credit : Config -> Z;
  packet_ok : list Z -> Prop;
  packet_cost : list Z -> Z;
  event_cost : SendEvent -> Z;
  update_cost : Z;
  packet_cost_pos data : 1 <= packet_cost data;
  event_cost_pos ev : 1 <= event_cost ev;
  update_cost_nonneg : 0 <= update_cost;
  afford_weaken k k' s : k <= k' -> afford k' s -> afford k s;
  create_affords k config a t r : 0 <= k <= credit config ->
    afford k (create_session config a t r).1;
  packet_total k data t s r : 0 <= k -> packet_ok data -> afford (packet_cost data + k) s ->
    exists acts s' r', process_packet data t s r = Some (acts, s', r') /\ afford k s';
  event_total k ev t s r : 0 <= k -> afford (event_cost ev + k) s ->
    exists acts s' r', process_event ev t s r = Some (acts, s', r') /\ afford k s';
  update_total k t s r : 0 <= k -> afford (update_cost + k) s ->
    exists acts s' r', update t s r = Some (acts, s', r') /\ afford k s';
  should_drop_total k t s r : afford k s ->
    exists d acts s' r', should_drop t s r = Some ((d, acts), s', r') /\ afford k s'
}.

(* ------------------------------------------------------------------ *)
(** ** Counting in maps                                                 *)
(* ------------------------------------------------------------------ *)

Section Counting.
Context {K A : Type} `{Countable K} (f : K * A -> bool).

Definition count_map (m : gmap K A) : Z := Z.of_nat (size (filter (fun kv => f kv = true) m)).

Lemma count_map_range m : 0 <= count_map m <= Z.of_nat (size m).
Proof. unfold count_map. pose proof (map_size_filter (fun kv => f kv = true) m). lia. Qed.

Lemma count_map_insert_new m k a : m !! k = None ->
  count_map (<[k := a]> m) = count_map m + (if f (k, a) then 1 else 0).
Proof.
  intros Hk. unfold count_map. destruct (f (k, a)) eqn:Ea.
  - rewrite map_filter_insert_True by done. rewrite map_size_insert_None; [lia|].
    rewrite map_lookup_filter, Hk. done.
  - rewrite map_filter_insert_False by congruence. rewrite delete_id by done. lia.
Qed.

Lemma count_map_delete m k a : m !! k = Some a ->
  count_map (delete k m) = count_map m - (if f (k, a) then 1 else 0).
Proof.
  intros Hk. assert (count_map m = count_map (<[k := a]> (delete k m))) as ->
    by (by rewrite insert_delete_id).
  rewrite count_map_insert_new by apply lookup_delete_eq. lia.
Qed.

Lemma count_map_replace m k a b : m !! k = Some a ->
  count_map (<[k := b]> m) =
    count_map m - (if f (k, a) then 1 else 0) + (if f (k, b) then 1 else 0).
Proof.
  intros Hk. rewrite <-insert_delete_eq, count_map_insert_new by apply lookup_delete_eq.
  by rewrite (count_map_delete m k a).
Qed.
End Counting.

Lemma count_map_le {K A} `{Countable K} (f g : K * A -> bool) m :
  (forall kv, f kv = true -> g kv = true) -> count_map f m <= count_map g m.
Proof.
  intros Hfg. induction m as [|k a m Hk IH] using map_ind; [done|].
  rewrite !count_map_insert_new by done. specialize (Hfg (k, a)).
  destruct (f (k, a)), (g (k, a)); lia.
Qed.

(* ------------------------------------------------------------------ *)
(** ** The count of sessions per address                                *)
(* ------------------------------------------------------------------ *)

Section Books.
Context {S : Type}.

(** How many sessions there are from an IP address. *)
Definition ip_sessions (sessions : gmap SocketAddr S) (ip : IpAddr) : Z :=
  count_map (fun kv => bool_decide (sa_ip kv.1 = ip)) sessions.

(** The counters are exact, with no entry for an address without sessions, and respect the
    configured limit, if there is one. *)
Record books (sessions : gmap SocketAddr S) (counts : gmap IpAddr Z) (max : Z) : Prop := {
  bk_exact ip : counts !! ip =
    if ip_sessions sessions ip =? 0 then None else Some (ip_sessions sessions ip);
  bk_limit ip : max <> 0 -> ip_sessions sessions ip <= max
}.

Lemma books_default sessions counts max ip : books sessions counts max ->
  default 0 (counts !! ip) = ip_sessions sessions ip.
Proof. intros [-> _]. destruct (Z.eqb_spec (ip_sessions sessions ip) 0); simpl; lia. Qed.

Lemma ip_sessions_replace sessions a s0 s ip : sessions !! a = Some s0 ->
  ip_sessions (<[a := s]> sessions) ip = ip_sessions sessions ip.
Proof.
  intros Ha. unfold ip_sessions. rewrite (count_map_replace _ _ _ s0) by done. cbn [fst].
  case_bool_decide; lia.
Qed.
Lemma ip_sessions_new sessions a s ip : sessions !! a = None ->
  ip_sessions (<[a := s]> sessions) ip =
    ip_sessions sessions ip + (if decide (sa_ip a = ip) then 1 else 0).
Proof.
  intros Ha. unfold ip_sessions. rewrite count_map_insert_new by done. cbn [fst].
  by case_bool_decide; case_decide.
Qed.
Lemma ip_sessions_delete sessions a s ip : sessions !! a = Some s ->
  ip_sessions (delete a sessions) ip =
    ip_sessions sessions ip - (if decide (sa_ip a = ip) then 1 else 0).
Proof.
  intros Ha. unfold ip_sessions. rewrite (count_map_delete _ _ _ s) by done. cbn [fst].
  by case_bool_decide; case_decide.
Qed.

Lemma books_empty max : 0 <= max -> books ∅ ∅ max.
Proof. by split. Qed.

Lemma books_replace sessions counts max a s0 s : sessions !! a = Some s0 ->
  books sessions counts max -> books (<[a := s]> sessions) counts max.
Proof.
  intros Ha [He Hl]. split; intros ip; rewrite (ip_sessions_replace _ _ s0) by done; auto.
Qed.

(** A new session and its increment. *)
Lemma books_new sessions counts max a s : sessions !! a = None ->
  books sessions counts max -> (max <> 0 -> ip_sessions sessions (sa_ip a) < max) ->
  books (<[a := s]> sessions)
    (<[sa_ip a := ip_sessions sessions (sa_ip a) + 1]> counts) max.
Proof.
  intros Ha Hb Hlim. pose proof Hb as [He Hl]. split; intros ip; rewrite ip_sessions_new by done.
  - pose proof (count_map_range (fun kv => bool_decide (sa_ip kv.1 = ip)) sessions) as Hr.
    fold (ip_sessions sessions ip) in Hr. case_decide as Hd.
    + subst ip. rewrite lookup_insert_eq.
      destruct (Z.eqb_spec (ip_sessions sessions (sa_ip a) + 1) 0); [lia|done].
    + rewrite lookup_insert_ne by done. by rewrite Z.add_0_r.
  - intros Hm. case_decide as Hd; [subst; specialize (Hlim Hm); lia|].
    specialize (Hl ip Hm). lia.
Qed.

(** A dropped session and its decrement. *)
Lemma books_drop sessions counts max a s n : sessions !! a = Some s ->
  books sessions counts max -> n = ip_sessions sessions (sa_ip a) - 1 ->
  books (delete a sessions)
    (if n =? 0 then delete (sa_ip a) (<[sa_ip a := n]> counts) else <[sa_ip a := n]> counts) max.
Proof.
  intros Ha [He Hl] ->. split; intros ip; rewrite (ip_sessions_delete _ _ s) by done.
  - case_decide as Hd.
    + subst ip. destruct (_ =? 0); [apply lookup_delete_eq|apply lookup_insert_eq].
    + rewrite Z.sub_0_r, <-He. destruct (_ =? 0);
        rewrite ?lookup_delete_ne, lookup_insert_ne by done; done.
  - intros Hm. specialize (Hl ip Hm). case_decide; lia.
Qed.

Lemma ip_sessions_pos sessions a s : sessions !! a = Some s ->
  0 < ip_sessions sessions (sa_ip a) <= Z.of_nat (size sessions).
Proof.
  intros Ha. pose proof (count_map_range (fun kv => bool_decide (sa_ip kv.1 = sa_ip a)) (delete a sessions)) as Hd.
  pose proof (count_map_range (fun kv => bool_decide (sa_ip kv.1 = sa_ip a)) sessions) as Hr.
  fold (ip_sessions sessions (sa_ip a)) in Hr. fold (ip_sessions (delete a sessions) (sa_ip a)) in Hd.
  rewrite (ip_sessions_delete _ _ s), decide_True in Hd by done. lia.
Qed.
End Books.

(* ------------------------------------------------------------------ *)
(** ** The operations keep the books                                    *)
(* ------------------------------------------------------------------ *)

Section Manager.
Context {S SendEvent ReceiveEvent T I : Type}.
Context `{!Session S SendEvent ReceiveEvent, !Transport T, !Interceptor I}.
#[local] Abbreviation SessionManager := (@SessionManager S SendEvent ReceiveEvent T I).
Implicit Types (m : SessionManager) (a : SocketAddr) (t : Instant) (r : Rng).

(** The configured limit per address, which nothing changes. *)
Context (limit : Z).

Definition manager_books m : Prop :=
  books (sm_sessions m) (sm_duplicate_peer_count m) limit /\ sm_max_duplicate_peers m = limit.

Lemma replace_session_books m a s0 s acts : sm_sessions m !! a = Some s0 -> manager_books m ->
  manager_books (with_actions a acts (set_sessions (<[a := s]> (sm_sessions m)) m)).
Proof. intros Ha [Hb Hl]. split; [by eapply books_replace|done]. Qed.

Lemma can_accept_spec m a : manager_books m -> can_accept_duplicate a m = true ->
  sm_max_duplicate_peers m <> 0 -> ip_sessions (sm_sessions m) (sa_ip a) < sm_max_duplicate_peers m.
Proof.
  intros [Hb Hl]. unfold can_accept_duplicate. rewrite (books_default _ _ _ _ Hb).
  destruct (Z.eqb_spec (sm_max_duplicate_peers m) 0); [done|]. intros H%Z.ltb_lt. done.
Qed.

Lemma increment_spec m a m' : increment_duplicate_count a m = Some m' ->
  m' = set_duplicate_peer_count
         (<[sa_ip a := default 0 (sm_duplicate_peer_count m !! sa_ip a) + 1]>
            (sm_duplicate_peer_count m)) m.
Proof.
  unfold increment_duplicate_count, add_usize, add_u64. intros (n & [<- _]%checked_Some & E)%bind_Some.
  by injection E as <-.
Qed.

Lemma new_session_books m m' a s acts : manager_books m -> sm_sessions m !! a = None ->
  can_accept_duplicate a m = true ->
  increment_duplicate_count a (with_actions a acts (set_sessions (<[a := s]> (sm_sessions m)) m)) = Some m' ->
  manager_books m'.
Proof.
  intros [Hb Hl] Ha Hc ->%increment_spec. split; [|done]. cbn.
  rewrite (books_default _ _ _ _ Hb). apply books_new; [done|done|]. rewrite <-Hl.
  by apply can_accept_spec.
Qed.

Lemma deliver_books data a t m u r m' u' r' :
  deliver_datagram data a t (m, u, r) = Some (m', u', r') -> manager_books m -> manager_books m'.
Proof.
  intros H Hb. unfold deliver_datagram in H. destruct (sm_sessions m !! a) as [s|] eqn:Ea.
  - apply bind_Some in H as ([[acts s'] r1] & _ & H).
    apply bind_Some in H as (u1 & _ & H). injection H as <- _ _. by eapply replace_session_books.
  - destruct (create_session _ a t r) as [s r1]. apply bind_Some in H as ([[acts s'] r2] & _ & H).
    destruct ((u <? _) && _) eqn:Ec.
    + apply andb_true_iff in Ec as [_ Ec]. apply bind_Some in H as (m1 & Hi & H).
      apply bind_Some in H as (u1 & _ & H). injection H as <- _ _.
      eapply (new_session_books m m1 a s' acts); [done|done|exact Ec|exact Hi].
    + by injection H as <- _ _.
Qed.

Lemma receive_loop_books fuel t : forall m u r m' u' r',
  receive_loop fuel t (m, u, r) = Some (m', u', r') -> manager_books m -> manager_books m'.
Proof.
  induction fuel as [|fuel IH]; intros m u r m' u' r' H Hb; cbn [receive_loop] in H; [done|].
  destruct (receive_packet _ _) as [[[data a]|e] sock].
  2: { by injection H as <- _ _. }
  destruct (on_receive a data _) as [[pass data'] i].
  destruct (negb pass); [by eapply IH|].
  apply bind_Some in H as ([[m1 u1] r1] & Hd & H). apply deliver_books in Hd; [|done].
  case_match; [by injection H as <- _ _|by eapply IH].
Qed.

Lemma user_event_books t m u r ev m' u' r' :
  handle_user_event t (m, u, r) ev = Some (m', u', r') -> manager_books m -> manager_books m'.
Proof.
  intros H Hb. unfold handle_user_event in H. destruct (sm_sessions m !! event_address ev) as [s|] eqn:Ea.
  - apply bind_Some in H as ([[acts s'] r1] & _ & H).
    apply bind_Some in H as (u1 & _ & H). injection H as <- _ _. by eapply replace_session_books.
  - destruct (can_accept_duplicate _ m) eqn:Ec; cbn [negb] in H; [|by injection H as <- _ _].
    destruct (create_session _ _ t r) as [s r1]. apply bind_Some in H as ([[acts s'] r2] & _ & H).
    apply bind_Some in H as (m1 & Hi & H). injection H as <- _ _. by eapply new_session_books.
Qed.

Lemma update_session_books t st a st' : update_session t st a = Some st' ->
  manager_books st.1.1 -> manager_books st'.1.1.
Proof.
  destruct st as [[m u] r]. unfold update_session. intros H Hb.
  destruct (sm_sessions m !! a) as [s|] eqn:Ea; [|by injection H as <-].
  apply bind_Some in H as ([[acts s'] r1] & _ & H). injection H as <-. by eapply replace_session_books.
Qed.

(** Asking the sessions changes them, and collects some of the addresses asked. *)
Lemma check_drop_books t acc a acc' : check_drop t acc a = Some acc' ->
  manager_books acc.1.1.1 ->
  manager_books acc'.1.1.1 /\ dom (sm_sessions acc'.1.1.1) = dom (sm_sessions acc.1.1.1) /\
  exists l, acc'.2 = acc.2 ++ l /\ sublist l [a].
Proof.
  destruct acc as [[[m u] r] drops]. unfold check_drop. intros H Hb.
  destruct (sm_sessions m !! a) as [s|] eqn:Ea.
  2: { injection H as <-. split; [done|]. split; [done|]. exists []. rewrite app_nil_r.
       split; [done|]. constructor. constructor. }
  apply bind_Some in H as ([[[d acts] s'] r1] & _ & H). injection H as <-. cbn [fst snd].
  split; [by eapply replace_session_books|]. split.
  { cbn. rewrite dom_insert_L. apply elem_of_dom_2 in Ea. set_solver. }
  destruct d; [exists [a]|exists []; rewrite app_nil_r]; (split; [done|]); repeat constructor.
Qed.

Lemma check_drops_books t l : forall acc acc', foldM (check_drop t) acc l = Some acc' ->
  manager_books acc.1.1.1 ->
  manager_books acc'.1.1.1 /\ dom (sm_sessions acc'.1.1.1) = dom (sm_sessions acc.1.1.1) /\
  exists k, acc'.2 = acc.2 ++ k /\ sublist k l.
Proof.
  induction l as [|a l IH]; intros acc acc' H Hb; cbn [foldM] in H.
  - injection H as <-. split; [done|]. split; [done|]. exists []. rewrite app_nil_r. by repeat constructor.
  - apply bind_Some in H as (acc1 & H1 & H). apply check_drop_books in H1 as (Hb1 & Hd1 & k1 & E1 & Hk1); [|done].
    apply IH in H as (Hb' & Hd' & k & E & Hk); [|done]. split; [done|]. split; [congruence|].
    exists (k1 ++ k). rewrite E, E1, app_assoc. split; [done|]. by apply (sublist_app k1 [a] k l).
Qed.

Lemma drop_session_books m a m' : drop_session m a = Some m' -> manager_books m ->
  a ∈ dom (sm_sessions m) ->
  manager_books m' /\ dom (sm_sessions m') = dom (sm_sessions m) ∖ {[a]}.
Proof.
  intros H Hb [s Ha]%elem_of_dom. pose proof (ip_sessions_pos _ _ _ Ha).
  pose proof Hb as [[He Hl] Hm]. unfold drop_session, decrement_duplicate_count in H. cbn in H. rewrite He in H.
  destruct (Z.eqb_spec (ip_sessions (sm_sessions m) (sa_ip a)) 0); [lia|].
  unfold sub_usize, sub_u64 in H. apply bind_Some in H as (n' & [<- _]%checked_Some & H).
  injection H as <-. split; [split; [by eapply books_drop|done]|]. cbn. by rewrite dom_delete_L.
Qed.

Lemma drop_sessions_books l : forall m m', foldM drop_session m l = Some m' -> manager_books m ->
  NoDup l -> (forall a, a ∈ l -> a ∈ dom (sm_sessions m)) -> manager_books m'.
Proof.
  induction l as [|a l IH]; intros m m' H Hb Hnd Hl; cbn [foldM] in H; [by injection H as <-|].
  apply bind_Some in H as (m1 & H1 & H). apply NoDup_cons in Hnd as [Ha Hnd].
  apply drop_session_books in H1 as [Hb1 Hd1]; [|done|apply Hl; by left].
  eapply IH; [exact H|done|done|]. intros b Hin. rewrite Hd1. specialize (Hl b ltac:(by right)).
  assert (b <> a) by (by intros ->). set_solver.
Qed.

Lemma drop_sessions_total l : forall m, manager_books m -> NoDup l ->
  Z.of_nat (size (sm_sessions m)) <= u64_max ->
  (forall a, a ∈ l -> a ∈ dom (sm_sessions m)) -> is_Some (foldM drop_session m l).
Proof.
  induction l as [|a l IH]; intros m Hb Hnd Hs Hl; [by eexists|]. cbn [foldM].
  apply NoDup_cons in Hnd as [Ha Hnd].
  assert (is_Some (drop_session m a)) as [m1 E].
  { pose proof Hb as [[He _] _]. pose proof (Hl a ltac:(by left)) as [s Es]%elem_of_dom. pose proof (ip_sessions_pos _ _ _ Es).
    unfold drop_session, decrement_duplicate_count. cbn. rewrite He.
    destruct (Z.eqb_spec (ip_sessions (sm_sessions m) (sa_ip a)) 0); [lia|].
    unfold sub_usize, sub_u64. rewrite checked_in by lia. by eexists. }
  rewrite E. cbn [mbind option_bind].
  destruct (drop_session_books m a m1 E Hb (Hl a ltac:(by left))) as [Hb1 Hd1].
  apply IH; [done|done| |].
  - rewrite <-!size_dom in *. rewrite Hd1.
    pose proof (subseteq_size (dom (sm_sessions m) ∖ {[a]}) (dom (sm_sessions m)) ltac:(set_solver)). lia.
  - intros b Hin. rewrite Hd1. specialize (Hl b ltac:(by right)).
    assert (b <> a) by (by intros ->). set_solver.
Qed.

Context (iteration_order : list SocketAddr -> list SocketAddr).
(** The iterator of a hash map yields every key once, in some order. *)
Hypothesis iteration_permutes : forall l, iteration_order l ≡ₚ l.

Lemma drop_loop_books t m u r m' u' r' :
  drop_loop iteration_order t (m, u, r) = Some (m', u', r') -> manager_books m -> manager_books m'.
Proof.
  unfold drop_loop. intros ([[[m1 u1] r1] drops] & H1 & H)%bind_Some Hb. cbn [fst] in H1.
  apply check_drops_books in H1 as (Hb1 & Hd1 & k & E & Hk); [|done]. cbn [fst snd app] in *. subst k.
  apply bind_Some in H as (m2 & H2 & H). injection H as <- <- <-.
  assert (iteration_order (map_to_list (sm_sessions m)).*1 ≡ₚ (map_to_list (sm_sessions m)).*1)
    as Hp by apply iteration_permutes.
  eapply drop_sessions_books; [exact H2|done| |].
  - eapply sublist_NoDup; [|exact Hk]. rewrite Hp. apply NoDup_fst_map_to_list.
  - intros a Ha. rewrite Hd1. eapply elem_of_sublist in Ha; [|exact Hk]. rewrite Hp in Ha.
    apply list_elem_of_fmap in Ha as ([a' s] & -> & Hs%elem_of_map_to_list). by eapply elem_of_dom_2.
Qed.

Lemma user_event_loop_books t m u r m' u' r' :
  user_event_loop t (m, u, r) = Some (m', u', r') -> manager_books m -> manager_books m'.
Proof.
  unfold user_event_loop. intros H Hb.
  eapply (foldM_invariant (fun st : Poll => manager_books st.1.1)) in H; [exact H| |exact Hb].
  intros [[m1 u1] r1] ev [[m2 u2] r2] Hb1 _ H1. by eapply user_event_books.
Qed.

Lemma update_loop_books t m u r m' u' r' :
  update_loop iteration_order t (m, u, r) = Some (m', u', r') -> manager_books m -> manager_books m'.
Proof.
  unfold update_loop. intros H Hb.
  eapply (foldM_invariant (fun st : Poll => manager_books st.1.1)) in H; [exact H| |exact Hb].
  intros st a st' Hb1 _ H1. by eapply update_session_books.
Qed.

Lemma manual_poll_books fuel t m r m' r' :
  SessionManager_manual_poll iteration_order fuel t m r = Some (m', r') ->
  manager_books m -> manager_books m'.
Proof.
  unfold SessionManager_manual_poll. intros ([[m1 u1] r1] & H1 & H)%bind_Some Hb.
  apply receive_loop_books in H1; [|done]. apply bind_Some in H as ([[m2 u2] r2] & H2 & H).
  apply user_event_loop_books in H2; [|done]. apply bind_Some in H as ([[m3 u3] r3] & H3 & H).
  apply update_loop_books in H3; [|done]. apply bind_Some in H as ([[m4 u4] r4] & H4 & H).
  apply drop_loop_books in H4; [|done]. by injection H as <- <-.
Qed.

End Manager.

Section Limits.
Context {S SendEvent ReceiveEvent T I : Type}.
Context `{!Session S SendEvent ReceiveEvent, !Transport T, !Interceptor I}.
Context (iteration_order : list SocketAddr -> list SocketAddr).

#[local] Abbreviation SessionManager :=
  (@SessionManager S SendEvent ReceiveEvent T (BoxInterceptor I)).

(** Polls, with sends queued by the application in between. *)
Inductive poll_step : SessionManager -> SessionManager -> Prop :=
| ps_poll fuel t m r m' r' :
    SessionManager_manual_poll iteration_order fuel t m r = Some (m', r') -> poll_step m m'
| ps_send m evs : poll_step m (set_user_events (sm_user_events m ++ evs) m).

(** C18: Sessions per address.  From a new manager on, through any number of polls on any socket,
    interceptor and session engine, the counter of an IP address is the number of its sessions,
    no counter is left behind without sessions, and no address ever has more sessions than the
    configured limit. *)
Theorem sessions_per_address_limited socket config (i : option I) (m : SessionManager)
  (Horder : forall l, iteration_order l ≡ₚ l) (Hlimit : 0 <= max_duplicate_peers config)
  (Hsteps : rtc poll_step (SessionManager_new_with_interceptor socket config i) m) :
  (forall ip, sm_duplicate_peer_count m !! ip =
     if ip_sessions (sm_sessions m) ip =? 0 then None else Some (ip_sessions (sm_sessions m) ip)) /\
  (forall a, duplicate_peer_count a m = ip_sessions (sm_sessions m) (sa_ip a)) /\
  (max_duplicate_peers config <> 0 ->
   forall ip, ip_sessions (sm_sessions m) ip <= max_duplicate_peers config).
Proof.
  assert (manager_books (max_duplicate_peers config) m) as [Hb Hm].
  { set (m0 := SessionManager_new_with_interceptor socket config i) in Hsteps.
    assert (manager_books (max_duplicate_peers config) m0) as H0
      by (split; [by apply books_empty|done]).
    clearbody m0. revert H0. induction Hsteps as [|x y z Hxy _ IH]; [done|]. intros Hx. apply IH.
    destruct Hxy; [by eapply manual_poll_books|exact Hx]. }
  split; [apply Hb|]. split.
  - intros a. unfold duplicate_peer_count. by apply (books_default _ _ (max_duplicate_peers config)).
  - intros Hne ip. by apply (bk_limit _ _ _ Hb).
Qed.
End Limits.

(* ------------------------------------------------------------------ *)
(** ** A poll never panics                                              *)
(* ------------------------------------------------------------------ *)

Section Total.
Context {S SendEvent ReceiveEvent T I : Type}.
Context `{!Session S SendEvent ReceiveEvent, !Transport T, !Interceptor I}.
Context `{!SessionLaws S SendEvent ReceiveEvent, !SessionTotal S SendEvent ReceiveEvent}.
Context (iteration_order : list SocketAddr -> list SocketAddr).
Hypothesis iteration_permutes : forall l, iteration_order l ≡ₚ l.
Context (limit : Z).

#[local] Abbreviation SessionManager := (@SessionManager S SendEvent ReceiveEvent T I).
#[local] Abbreviation Poll := (@Poll S SendEvent ReceiveEvent T I).
Implicit Types (m : SessionManager) (a : SocketAddr) (t : Instant) (r : Rng).

(** The socket has at most [n] datagrams before it reports an error ([WouldBlock]), when it is
    read with a buffer of [len] bytes, and those that the interceptor lets through cost at most
    [c]; in blocking mode only the first of them counts. *)
Fixpoint arrivals (len : Z) (n : nat) (socket : T) (i : I) (c : Z) : Prop :=
  match receive_packet len socket, n with
  | (Err _, _), _ => 0 <= c
  | (Ok _, _), O => False
  | (Ok (data, a), socket), Datatypes.S n =>
      let '((pass, data), i) := on_receive a data i in
      if pass : bool then
        packet_ok data /\
        (if is_blocking_mode socket then 0 <= c - packet_cost data
         else arrivals len n socket i (c - packet_cost data))
      else arrivals len n socket i c
  end.

(** A manager whose sessions can each pay [k], with [k] more sessions to be counted. *)
Record funded (k : Z) m : Prop := {
  fd_books : manager_books limit m;
  fd_size : Z.of_nat (size (sm_sessions m)) + k <= u64_max;
  fd_sessions a s : sm_sessions m !! a = Some s -> afford k s;
  fd_credit : k <= credit (mg_config (sm_messenger m));
  fd_max : sm_max_unestablished_sessions m <= u64_max
}.

Definition pending_count m : Z := count_map (fun kv => pending kv.2) (sm_sessions m).

Lemma filter_sessions_count (sessions : gmap SocketAddr S) :
  Z.of_nat (length (filter (fun s => is_established s.2 = false) (map_to_list sessions))) =
  count_map (fun kv => negb (is_established kv.2)) sessions.
Proof.
  unfold count_map. f_equal. induction sessions as [|k s m Hk IH] using map_ind; [done|].
  rewrite map_to_list_insert by done. rewrite filter_cons. cbn [snd].
  destruct (is_established s) eqn:Es; cbn [negb].
  - rewrite decide_False by done. rewrite map_filter_insert_False, delete_id by (simpl; by rewrite ?Es).
    exact IH.
  - rewrite decide_True by done. rewrite map_filter_insert_True by (simpl; by rewrite Es).
    rewrite map_size_insert_None by (by rewrite map_lookup_filter, Hk). simpl. by rewrite IH.
Qed.

(** The local counter of a poll never runs below the sessions it may be decremented for. *)
Record poll_fine k (st : Poll) : Prop := {
  pf_funded : funded k st.1.1;
  pf_pending : pending_count st.1.1 <= st.1.2;
  pf_bound : st.1.2 <= u64_max
}.

Lemma funded_weaken k k' m : k <= k' -> funded k' m -> funded k m.
Proof.
  intros Hk [H1 H2 H3 H4 H5]. split; [done|lia| |lia|done]. intros a s Ha. by eapply afford_weaken, H3.
Qed.
Lemma poll_fine_weaken k k' st : k <= k' -> poll_fine k' st -> poll_fine k st.
Proof. intros Hk [H1 H2 H3]. split; [by eapply funded_weaken|done..]. Qed.

(** All that handling actions does, and what it leaves alone. *)
Lemma handle_actions_run a acts : forall mg : @Messenger ReceiveEvent T I, handle_actions a acts mg =
  mkMessenger (mg_config mg) (mg_socket mg) (mg_sent_events mg)
    (mg_pending_sends mg ++ ((a,.) <$> sends acts)) (mg_pending_events mg ++ emits acts)
    (mg_interceptor mg) (mg_send_pool mg).
Proof.
  unfold handle_actions. induction acts as [|[b|e] acts IH]; intros mg; cbn [foldl].
  - cbn. rewrite !app_nil_r. by destruct mg.
  - rewrite IH. cbn. by rewrite <-app_assoc.
  - rewrite IH. cbn. by rewrite <-app_assoc.
Qed.
Definition settings (mg : @Messenger ReceiveEvent T I) := (mg_config mg, mg_socket mg, mg_interceptor mg).
Lemma handle_actions_settings a acts mg : settings (handle_actions a acts mg) = settings mg.
Proof. by rewrite handle_actions_run. Qed.
Lemma with_actions_credit k a acts m :
  k <= credit (mg_config (sm_messenger m)) ->
  k <= credit (mg_config (sm_messenger (with_actions a acts m))).
Proof.
  pose proof (handle_actions_settings a acts (sm_messenger m)) as E. injection E as E _ _.
  cbn. by rewrite E.
Qed.

Lemma funded_actions k a acts m : funded k m -> funded k (with_actions a acts m).
Proof. intros [H1 H2 H3 H4 H5]. split; [done..|by apply with_actions_credit|done]. Qed.
Lemma funded_replace k m a s0 s acts : sm_sessions m !! a = Some s0 -> afford k s -> funded k m ->
  funded k (with_actions a acts (set_sessions (<[a := s]> (sm_sessions m)) m)).
Proof.
  intros Ha Hs [H1 H2 H3 H4 H5]. apply funded_actions. split; [|cbn..].
  - destruct H1 as [Hb Hl]. split; [by eapply books_replace|done].
  - by rewrite map_size_insert_Some by (by eexists).
  - intros b s1. destruct (decide (a = b)) as [<-|Hn].
    + rewrite lookup_insert_eq. by intros [= <-].
    + rewrite lookup_insert_ne by done. apply H3.
  - done.
  - done.
Qed.

(** A new session takes its place in the books from the budget. *)
Lemma funded_new k m a s acts : 0 <= k -> sm_sessions m !! a = None -> can_accept_duplicate a m = true ->
  afford k s -> funded (1 + k) m -> exists m',
    increment_duplicate_count a (with_actions a acts (set_sessions (<[a := s]> (sm_sessions m)) m)) = Some m' /\
    funded k m' /\ sm_sessions m' = <[a := s]> (sm_sessions m) /\
    settings (sm_messenger m') = settings (sm_messenger m) /\
    sm_max_unestablished_sessions m' = sm_max_unestablished_sessions m /\
    sm_user_events m' = sm_user_events m /\ sm_receive_buffer m' = sm_receive_buffer m.
Proof.
  intros Hk Ha Hc Haf [Hb Hs Hall Hcr Hmx]. pose proof Hb as [Hbk _].
  pose proof (count_map_range (fun kv => bool_decide (sa_ip kv.1 = sa_ip a)) (sm_sessions m)) as Hr.
  fold (ip_sessions (sm_sessions m) (sa_ip a)) in Hr.
  set (m1 := with_actions a acts (set_sessions (<[a := s]> (sm_sessions m)) m)).
  assert (increment_duplicate_count a m1 = Some (set_duplicate_peer_count
         (<[sa_ip a := default 0 (sm_duplicate_peer_count m !! sa_ip a) + 1]>
            (sm_duplicate_peer_count m)) m1)) as Ei.
  { unfold increment_duplicate_count, add_usize, add_u64.
    change (sm_duplicate_peer_count m1) with (sm_duplicate_peer_count m).
    rewrite (books_default _ _ _ _ Hbk). rewrite checked_in by lia. done. }
  eexists. split; [exact Ei|]. split.
  - split; [by eapply new_session_books|cbn..].
    + rewrite map_size_insert_None by done. lia.
    + intros b s1. destruct (decide (a = b)) as [<-|Hn]; [rewrite lookup_insert_eq; by intros [= <-]|].
      rewrite lookup_insert_ne by done. intros Hb1. eapply afford_weaken; [|by eapply Hall]. lia.
    + apply (with_actions_credit k a acts (set_sessions (<[a := s]> (sm_sessions m)) m)). cbn. lia.
    + done.
  - split; [done|]. split; [|done]. apply handle_actions_settings.
Qed.

(** What a step of a poll leaves alone. *)
Definition same_channels m m' : Prop :=
  settings (sm_messenger m') = settings (sm_messenger m) /\ sm_user_events m' = sm_user_events m /\
  sm_receive_buffer m' = sm_receive_buffer m.

Lemma deliver_total k data a t st : 0 <= k -> packet_ok data -> poll_fine (packet_cost data + k) st ->
  exists st', deliver_datagram data a t st = Some st' /\ poll_fine k st' /\ same_channels st.1.1 st'.1.1.
Proof.
  destruct st as [[m u] r]. intros Hk Hok [Hf Hp Hb]. cbn [fst snd] in *.
  pose proof (packet_cost_pos data) as Hpos.
  pose proof (count_map_range (fun kv => pending kv.2) (sm_sessions m)) as Hr.
  fold (pending_count m) in Hr. unfold deliver_datagram.
  assert (funded k m) as Hfk by (eapply funded_weaken; [|exact Hf]; lia).
  destruct (sm_sessions m !! a) as [s|] eqn:Ea.
  - destruct (packet_total k data t s r Hk Hok (fd_sessions _ _ Hf _ _ Ea)) as (acts & s' & r1 & E & Haf).
    rewrite E. cbn [mbind option_bind].
    set (m1 := with_actions a acts (set_sessions (<[a := s']> (sm_sessions m)) m)).
    assert (funded k m1) as Hf1 by by eapply funded_replace.
    assert (same_channels m m1) as Hch by (split; [apply handle_actions_settings|done]).
    assert (pending_count m1 = pending_count m - (if pending s then 1 else 0) + (if pending s' then 1 else 0)) as Ep
      by (exact (count_map_replace (fun kv => pending kv.2) (sm_sessions m) a s s' Ea)).
    pose proof (packet_settled _ _ _ _ _ _ _ E) as Hset.
    pose proof (packet_establishes _ _ _ _ _ _ _ E) as Hest.
    pose proof (pending_unestablished s') as Hpu.
    pose proof (count_map_range (fun kv => pending kv.2) (sm_sessions m1)) as Hr1.
    fold (pending_count m1) in Hr1.
    destruct (negb (is_established s) && is_established s') eqn:Eb.
    + apply andb_true_iff in Eb as [H1%negb_true_iff H2]. specialize (Hest H1 H2).
      assert (pending s' = false) as Hp' by (destruct (pending s'); [rewrite Hpu in H2 by done|]; done).
      rewrite Hest, Hp' in Ep. unfold sub_usize, sub_u64. rewrite checked_in by lia.
      eexists. split; [reflexivity|]. split; [|done]. split; cbn [fst snd]; [done|lia|lia].
    + eexists. split; [reflexivity|]. split; [|done]. split; cbn [fst snd]; [done| |lia].
      destruct (pending s); [destruct (pending s'); lia|]. rewrite Hset in Ep by done. lia.
  - pose proof (fd_credit _ _ Hf) as Hcr.
    assert (0 <= packet_cost data + k <= credit (mg_config (sm_messenger m))) as Hs0 by lia.
    apply (create_affords _ _ a t r) in Hs0.
    destruct (create_session _ a t r) as [s r0]. cbn [fst] in Hs0.
    destruct (packet_total k data t s r0 Hk Hok Hs0) as (acts & s' & r1 & E & Haf).
    rewrite E. cbn [mbind option_bind].
    destruct ((u <? _) && _) eqn:Ec.
    + apply andb_true_iff in Ec as [Hu%Z.ltb_lt Ec].
      assert (funded (1 + k) m) as Hf1 by (eapply funded_weaken; [|exact Hf]; lia).
      destruct (funded_new k m a s' acts Hk Ea Ec Haf Hf1) as (m1 & Ei & Hf' & Es & Hset & Hmax & Hch).
      change (increment_duplicate_count a (set_sessions (<[a := s']> (sm_sessions (with_actions a acts m))) (with_actions a acts m)))
        with (increment_duplicate_count a (with_actions a acts (set_sessions (<[a := s']> (sm_sessions m)) m))).
      pose proof (fd_max _ _ Hf). rewrite Ei. cbn [mbind option_bind]. cbn in Hu. unfold add_usize, add_u64. rewrite checked_in by lia.
      eexists. split; [reflexivity|]. split; [|done]. split; cbn [fst snd]; [done| |lia].
      unfold pending_count. rewrite Es, count_map_insert_new by done. fold (pending_count m).
      cbn [snd]. case_match; lia.
    + eexists. split; [reflexivity|]. split; [|split; [apply handle_actions_settings|done]].
      split; cbn [fst snd]; [by apply funded_actions|done..].
Qed.

Lemma arrivals_nonneg len n : forall s i c, arrivals len n s i c -> 0 <= c.
Proof.
  induction n as [|n IH]; intros s i c; cbn [arrivals];
    destruct (receive_packet len s) as [[[data a]|e] sock]; try done.
  destruct (on_receive a data i) as [[[] data'] i']; [|apply IH].
  pose proof (packet_cost_pos data'). intros [_ H']. destruct (is_blocking_mode sock); [lia|].
  apply IH in H'. lia.
Qed.

Lemma receive_loop_total k t : 0 <= k -> forall (n fuel : nat) c st, (n < fuel)%nat ->
  arrivals (sm_receive_buffer st.1.1) n (mg_socket (sm_messenger st.1.1))
    (mg_interceptor (sm_messenger st.1.1)) c ->
  poll_fine (c + k) st -> exists st', receive_loop fuel t st = Some st' /\
    funded k st'.1.1 /\ sm_user_events st'.1.1 = sm_user_events st.1.1.
Proof.
  intros Hk n. induction n as [|n IH]; intros [|fuel] c [[m u] r] Hn Ha Hf; try lia;
    cbn [receive_loop arrivals fst snd] in *;
    destruct (receive_packet (sm_receive_buffer m) (mg_socket (sm_messenger m))) as [[[data a]|e] sock]; try done.
  1,3: eexists; split; [reflexivity|]; destruct Hf as [H _ _];
    apply (funded_weaken k) in H; [|lia]; split; [by destruct H|done].
  cbn [mg_interceptor mg_socket].
  destruct (on_receive a data _) as [[pass data'] i].
  set (m1 := set_messenger _ m).
  assert (poll_fine (c + k) (m1, u, r)) as Hf1 by (destruct Hf as [[H1 H2 H3 H4 H5] H6 H7]; by split).
  destruct pass; cbn [negb].
  2: { apply (IH fuel c (m1, u, r)); [lia|exact Ha|exact Hf1]. }
  destruct Ha as [Hok Ha]. pose proof (packet_cost_pos data').
  assert (0 <= c - packet_cost data') as Hc.
  { destruct (is_blocking_mode sock); [done|by eapply arrivals_nonneg]. }
  destruct (deliver_total (c - packet_cost data' + k) data' a t (m1, u, r)) as (st' & E & Hf' & Hs & Hev & Hbuf);
    [lia|done|by replace (packet_cost data' + _) with (c + k) by lia|].
  rewrite E. cbn [mbind option_bind]. injection Hs as Hs1 Hs2 Hs3. rewrite Hs2. cbn [fst snd] in *.
  change (mg_socket (sm_messenger m1)) with sock in *. destruct (is_blocking_mode sock).
  - eexists. split; [reflexivity|]. split; [|exact Hev]. eapply funded_weaken; [|apply Hf']. lia.
  - destruct (IH fuel (c - packet_cost data') st') as (st2 & E2 & Hf2 & Hev2); [lia| |done|].
    { by rewrite Hs2, Hs3, Hbuf. }
    exists st2. rewrite Hev2, Hev. done.
Qed.

Lemma user_event_total_step k t ev st : 0 <= k -> funded (event_cost ev + k) st.1.1 -> exists st',
  handle_user_event t st ev = Some st' /\ funded k st'.1.1.
Proof.
  destruct st as [[m u] r]. intros Hk Hf. cbn [fst] in Hf. unfold handle_user_event.
  set (a := event_address ev). pose proof (event_cost_pos ev) as Hpos.
  assert (funded k m) as Hfk by (eapply funded_weaken; [|exact Hf]; lia).
  destruct (sm_sessions m !! a) as [s|] eqn:Ea.
  - destruct (event_total k ev t s r Hk (fd_sessions _ _ Hf _ _ Ea)) as (acts & s' & r1 & E & Haf).
    rewrite E. cbn [mbind option_bind].
    pose proof (event_establishes _ _ _ _ _ _ _ E) as Hest.
    assert (negb (is_established s) && is_established s' = false) as ->.
    { destruct (is_established s'); [by rewrite Hest|by rewrite andb_false_r]. }
    cbn [mbind option_bind]. eexists. split; [reflexivity|]. by eapply funded_replace.
  - destruct (can_accept_duplicate a m) eqn:Ec; cbn [negb]; [|by eexists].
    pose proof (fd_credit _ _ Hf) as Hcr.
    assert (0 <= event_cost ev + k <= credit (mg_config (sm_messenger m))) as Hs0 by lia.
    apply (create_affords _ _ a t r) in Hs0.
    destruct (create_session _ a t r) as [s r0]. cbn [fst] in Hs0.
    destruct (event_total k ev t s r0 Hk Hs0) as (acts & s' & r1 & E & Haf).
    rewrite E. cbn [mbind option_bind].
    assert (funded (1 + k) m) as Hf1 by (eapply funded_weaken; [|exact Hf]; lia).
    destruct (funded_new k m a s' acts Hk Ea Ec Haf Hf1) as (m1 & Ei & Hf' & _).
    rewrite Ei. cbn [mbind option_bind]. by eexists.
Qed.

Definition events_cost (evs : list SendEvent) : Z := zsum event_cost evs.
Lemma events_cost_nonneg evs : 0 <= events_cost evs.
Proof. apply zsum_nonneg. intros ev. pose proof (event_cost_pos ev). lia. Qed.

Lemma user_events_total k t evs : 0 <= k -> forall st, funded (events_cost evs + k) st.1.1 ->
  exists st', foldM (handle_user_event t) st evs = Some st' /\ funded k st'.1.1.
Proof.
  intros Hk. induction evs as [|ev evs IH]; intros st Hf; [by exists st|]. cbn [foldM].
  unfold events_cost in Hf. rewrite zsum_cons, <-Z.add_assoc in Hf.
  pose proof (events_cost_nonneg evs). fold (events_cost evs) in Hf.
  destruct (user_event_total_step (events_cost evs + k) t ev st) as (st1 & -> & Hf1);
    [lia|done|]. by apply IH.
Qed.

(** Every session pays for its own update. *)
Lemma updates_total k t l : 0 <= k -> forall st : Poll, NoDup l -> funded k st.1.1 ->
  (forall a s, a ∈ l -> sm_sessions st.1.1 !! a = Some s -> afford (update_cost + k) s) ->
  exists st', foldM (update_session t) st l = Some st' /\ funded k st'.1.1.
Proof.
  intros Hk. induction l as [|a l IH]; intros [[m u] r] Hnd Hf Hl; [by eexists|].
  apply NoDup_cons in Hnd as [Ha Hnd]. cbn [foldM update_session fst] in *.
  destruct (sm_sessions m !! a) as [s|] eqn:Ea.
  2: { apply IH; [done|done|]. intros b s Hb. apply Hl. by right. }
  destruct (update_total k t s r Hk) as (acts & s' & r1 & E & Haf); [apply (Hl a); [by left|done]|].
  rewrite E. cbn [mbind option_bind]. apply IH; [done|by eapply funded_replace|].
  cbn [fst sm_sessions with_actions set_messenger set_sessions]. intros b s1 Hb.
  rewrite lookup_insert_ne by congruence. apply Hl. by right.
Qed.

Lemma check_drops_total k t l : forall acc : Poll * list SocketAddr, funded k acc.1.1.1 ->
  exists acc', foldM (check_drop t) acc l = Some acc' /\ funded k acc'.1.1.1.
Proof.
  induction l as [|a l IH]; intros [[[m u] r] drops] Hf; [by eexists|]. cbn [foldM check_drop fst] in *.
  destruct (sm_sessions m !! a) as [s|] eqn:Ea; [|by apply IH].
  destruct (should_drop_total k t s r (fd_sessions _ _ Hf _ _ Ea)) as (d & acts & s' & r1 & E & Haf).
  rewrite E. cbn [mbind option_bind]. apply IH. by eapply funded_replace.
Qed.

Lemma drop_session_funded k m m' a : drop_session m a = Some m' -> manager_books limit m' ->
  funded k m -> funded k m'.
Proof.
  intros H Hb [_ H2 H3 H4 H5].
  assert (sm_sessions m' = delete a (sm_sessions m) /\ sm_messenger m' = sm_messenger m /\
    sm_max_unestablished_sessions m' = sm_max_unestablished_sessions m) as (Es & Em & Ex).
  { unfold drop_session, decrement_duplicate_count in H. destruct (_ !! sa_ip a); [|by injection H as <-].
    apply bind_Some in H as (n & _ & H). by injection H as <-. }
  split; [done|..]; rewrite ?Es, ?Em, ?Ex; [|intros b s [_ Hb']%lookup_delete_Some; by eapply H3|done|done].
  rewrite <-size_dom, dom_delete_L.
  pose proof (subseteq_size (dom (sm_sessions m) ∖ {[a]}) (dom (sm_sessions m)) ltac:(set_solver)).
  rewrite size_dom in *. lia.
Qed.
Lemma drop_sessions_funded k l : forall m m', foldM drop_session m l = Some m' -> funded k m ->
  NoDup l -> (forall a, a ∈ l -> a ∈ dom (sm_sessions m)) -> funded k m'.
Proof.
  induction l as [|a l IH]; intros m m' H Hf Hnd Hl; cbn [foldM] in H; [by injection H as <-|].
  apply bind_Some in H as (m1 & H1 & H). apply NoDup_cons in Hnd as [Ha Hnd].
  destruct (drop_session_books limit m a m1 H1) as [Hb1 Hd1]; [apply Hf|apply Hl; by left|].
  apply (IH m1); [done|by eapply drop_session_funded|done|].
  intros b Hin. rewrite Hd1. specialize (Hl b ltac:(by right)). assert (b <> a) by (by intros ->). set_solver.
Qed.

Lemma drop_loop_total k t (st : Poll) : 0 <= k -> funded k st.1.1 -> exists st',
  drop_loop iteration_order t st = Some st' /\ funded k st'.1.1.
Proof.
  destruct st as [[m u] r]. intros Hk Hf. pose proof Hf as [Hb Hs _ _ _]. cbn [fst] in *. unfold drop_loop. cbn [fst].
  destruct (check_drops_total k t (iteration_order (map_to_list (sm_sessions m)).*1) ((m, u, r), []))
    as ([[[m1 u1] r1] drops] & E & Hf1); [done|].
  unfold Poll in *. rewrite E. cbn [mbind option_bind].
  apply (check_drops_books limit) in E as (Hb1 & Hd1 & l & El & Hl); [|done].
  cbn [fst snd app] in *. subst l.
  assert (iteration_order (map_to_list (sm_sessions m)).*1 ≡ₚ (map_to_list (sm_sessions m)).*1)
    as Hp by apply iteration_permutes.
  assert (NoDup drops) as Hnd.
  { eapply sublist_NoDup; [|exact Hl]. rewrite Hp. apply NoDup_fst_map_to_list. }
  assert (forall a, a ∈ drops -> a ∈ dom (sm_sessions m1)) as Hdom.
  { intros a Ha. rewrite Hd1. eapply elem_of_sublist in Ha; [|exact Hl]. rewrite Hp in Ha.
    apply list_elem_of_fmap in Ha as ([a' s] & -> & Hs'%elem_of_map_to_list). by eapply elem_of_dom_2. }
  destruct (drop_sessions_total limit drops m1) as [m2 E2]; [done|done| |done|].
  - destruct Hf1 as [_ Hs1 _ _ _]. lia.
  - rewrite E2. eexists. split; [reflexivity|]. by eapply drop_sessions_funded.
Qed.

Lemma flush_settings (mg : @Messenger ReceiveEvent T I) :
  mg_config (Messenger_flush mg) = mg_config mg.
Proof.
  unfold Messenger_flush. cbn [mg_config].
  generalize (mg_pending_sends mg) as ds. intros ds.
  assert (forall x, mg_config (foldl flush_send x ds) = mg_config x) as ->; [|done].
  induction ds as [|[a d] ds IH]; intros x; [done|]. cbn [foldl]. rewrite IH. unfold flush_send.
  by destruct (on_send a d _) as [[[] ?] ?].
Qed.

Lemma manual_poll_total (n fuel : nat) c k t m r (Hk : 0 <= k)
  (Hm : funded (c + events_cost (sm_user_events m) + update_cost + k) m)
  (Hin : arrivals (sm_receive_buffer m) n (mg_socket (sm_messenger m))
           (mg_interceptor (sm_messenger m)) c) (Hfuel : (n < fuel)%nat) :
  exists m' r', SessionManager_manual_poll iteration_order fuel t m r = Some (m', r') /\ funded k m'.
Proof.
  pose proof (events_cost_nonneg (sm_user_events m)). pose proof update_cost_nonneg.
  unfold SessionManager_manual_poll.
  assert (pending_count m <= unestablished_session_count m <= Z.of_nat (size (sm_sessions m))) as Hp.
  { unfold unestablished_session_count. rewrite filter_sessions_count. split.
    - apply count_map_le. intros kv Hkv. rewrite (pending_unestablished _ Hkv). done.
    - apply count_map_range. }
  pose proof (arrivals_nonneg _ _ _ _ _ Hin). pose proof (fd_size _ _ Hm).
  assert (0 <= update_cost + k) as Hk1 by lia.
  assert (0 <= events_cost (sm_user_events m) + (update_cost + k)) as Hk2 by lia.
  destruct (receive_loop_total _ t Hk2 n fuel c (m, unestablished_session_count m, r)) as ([[m1 u1] r1] & E1 & Hf1 & Hev); [done|exact Hin| |].
  { split; cbn [fst snd]; [by rewrite !Z.add_assoc|lia|lia]. }
  rewrite E1. cbn [mbind option_bind]. unfold user_event_loop. cbn [fst snd] in *.
  destruct (user_events_total (update_cost + k) t (sm_user_events m1) Hk1 (set_user_events [] m1, u1, r1))
    as (st2 & E2 & Hf2).
  { rewrite Hev. destruct Hf1 as [F1 F2 F3 F4 F5]. by split. }
  rewrite E2. cbn [mbind option_bind]. unfold update_loop.
  destruct (updates_total k t (iteration_order (map_to_list (sm_sessions st2.1.1)).*1) Hk st2)
    as (st3 & E3 & Hf3).
  - rewrite iteration_permutes. apply NoDup_fst_map_to_list.
  - eapply funded_weaken; [|exact Hf2]. lia.
  - intros a s _. apply (fd_sessions _ _ Hf2).
  - rewrite E3. cbn [mbind option_bind]. destruct (drop_loop_total k t st3 Hk Hf3) as ([[m4 u4] r4] & E4 & Hf4).
    rewrite E4. cbn [mbind option_bind]. eexists _, _. split; [reflexivity|].
    destruct Hf4 as [F1 F2 F3 F4 F5]. split; [done..| |done].
    change (k <= credit (mg_config (Messenger_flush (sm_messenger m4)))). by rewrite flush_settings.
Qed.

(** C17: A poll completes.  With an engine that honours the session contract and sessions that
    can pay for what arrives, for the user events and for their update, [manual_poll]
    terminates: none of the manager's own counters overflows or runs below zero, and whatever
    budget is not spent is left. *)
Theorem poll_completes (n fuel : nat) c k t m r (Hk : 0 <= k)
  (Hm : funded (c + events_cost (sm_user_events m) + update_cost + k) m)
  (Hin : arrivals (sm_receive_buffer m) n (mg_socket (sm_messenger m))
           (mg_interceptor (sm_messenger m)) c) (Hfuel : (n < fuel)%nat) :
  exists m' r', SessionManager_manual_poll iteration_order fuel t m r = Some (m', r') /\ funded k m'.
Proof. by eapply manual_poll_total. Qed.
End Total.

(* ------------------------------------------------------------------ *)
(** ** A concrete manager                                               *)
(* ------------------------------------------------------------------ *)

(** A queue of datagrams as the socket, and sessions that the first datagram establishes and
    the datagram [9] ends. *)
Module Toy.
Definition socket := list (list Z * SocketAddr).
#[export] Instance socket_transport : Transport socket := {|
  send_packet addr bytes s := (Ok (zlen bytes), s);
  receive_packet len s :=
    match s with
    | [] => (Err (mkIoError WouldBlock "no datagram"), [])
    | (bytes, from) :: s => (Ok (take (Z.to_nat len) bytes, from), s)
    end;
  local_addr _ := Ok (mkSocketAddr (IpV4 0) 0);
  is_blocking_mode _ := false
|}.

Inductive session : Set := Fresh | Live | Over.
#[export] Instance session_engine : Session session SocketAddr SocketAddr := {|
  event_address a := a;
  create_session _ _ _ r := (Fresh, r);
  is_established s := match s with Live => true | _ => false end;
  should_drop _ s r := Some ((match s with Over => true | _ => false end, []), s, r);
  process_packet data _ s r :=
    Some ([], match s, data with Over, _ => Over | _, [9] => Over | _, _ => Live end, r);
  process_event _ _ s r := Some ([], s, r);
  update _ s r := Some ([], s, r)
|}.

#[export] Instance session_laws : SessionLaws session SocketAddr SocketAddr.
Proof.
  refine {| pending := fun s : session => match s with Fresh => true | _ => false end |}.
  - by intros [].
  - intros data t s r a s' r' H. simpl in H. injection H as <- <- <-. by destruct s.
  - intros data t s r a s' r' H. simpl in H. injection H as <- <- <-.
    destruct s; [done|by repeat case_match|done].
  - intros ev t s r a s' r' H. simpl in H. by injection H as <- <- <-.
  - intros ev t s r a s' r' H. simpl in H. by injection H as <- <- <-.
Defined.

#[export] Instance session_total : SessionTotal session SocketAddr SocketAddr.
Proof.
  refine {| afford := fun _ _ => True; credit := fun _ => u64_max; packet_ok := fun _ => True;
    packet_cost := fun _ => 1; event_cost := fun _ => 1; update_cost := 0 |}; try done.
  all: intros; first [by eexists _, _, _ | by eexists _, _, _, _].
Defined.

Definition addr (port : Z) : SocketAddr := mkSocketAddr (IpV4 1) port.
Definition config : Config := Config_default.
(** Two peers of one address, one of which leaves again. *)
Definition manager : @SessionManager session SocketAddr SocketAddr socket (BoxInterceptor NoOpInterceptor) :=
  SessionManager_new_with_interceptor
    [([1], addr 5); ([2], addr 6); ([9], addr 5)] config None.
Definition polled : @SessionManager session SocketAddr SocketAddr socket (BoxInterceptor NoOpInterceptor) :=
  default manager (fst <$> SessionManager_manual_poll (fun l => l) 4 0 manager (fun _ => 0)).
End Toy.
Import Toy.

Lemma poll_completes_witness :
  exists m' r', SessionManager_manual_poll (fun l => l) 4 0 Toy.manager (fun _ => 0) = Some (m', r').
Proof.
  destruct (poll_completes (fun l => l) (fun l => Permutation_refl l) 0 3 4 3 0 0 Toy.manager (fun _ => 0))
    as (m' & r' & E & _).
  - done.
  - split; [split; [by apply books_empty|reflexivity]|vm_compute; discriminate|done|vm_compute; discriminate|vm_compute; discriminate].
  - cbn. repeat split. lia.
  - lia.
  - exists m', r'. exact E.
Defined.

Lemma toy_poll : SessionManager_manual_poll (fun l => l) 4 0 manager (fun _ => 0)
  = Some (polled, fun _ => 0).
Proof. vm_compute. reflexivity. Qed.

Lemma sessions_per_address_limited_witness :
  sm_sessions polled = {[ addr 6 := Live ]} /\ sm_duplicate_peer_count polled !! IpV4 1 = Some 1.
Proof.
  split; [vm_compute; reflexivity|].
  destruct (sessions_per_address_limited (fun l => l) _ config None polled
    (fun l => Permutation_refl l) (Z.le_refl 0) (rtc_once _ _ (ps_poll _ _ _ _ _ _ _ toy_poll)))
    as (H & _ & _).
  rewrite H. vm_compute. reflexivity.
Defined.
