(* ===== verification/HostFacts.v ===== *)
(** Peers under the session manager: the peer engine honours the session contract, and what a
    disconnect does. *)

From S2P Require Import Prelude Core Externs Buffers Packet Command CommandProcessor PeerParts.
From S2P Require Import Peer PeerFacts Session PeerSession ProcessorFacts SessionManager.
From S2P Require Import ManagerFacts.

Section Contract.
Context {X : Externs} (clock : Instant).

(** A peer can still become established until it is, or disconnects. *)
Definition peer_pending (p : Peer) : bool :=
  negb (Peer_is_established p) && negb (PeerState_is_disconnecting (p_state p)).

Lemma lives_settled p p' : lives p p' -> peer_pending p = false -> peer_pending p' = false.
Proof.
  intros [_ _ _ _ Hs]. unfold peer_pending, Peer_is_established. intros H.
  destruct (PeerState_is_established (p_state p)) eqn:E; cbn [negb andb] in H.
  - destruct (transitions_established _ _ _ Hs E) as [-> | ->]; [done|apply andb_false_r].
  - apply negb_false_iff in H. rewrite (transitions_disconnecting _ _ _ Hs H). apply andb_false_r.
Qed.

Lemma lives_establishes p p' : lives p p' -> Peer_is_established p = false ->
  Peer_is_established p' = true -> peer_pending p = true.
Proof.
  intros HL Hp Hp'. destruct (peer_pending p) eqn:E; [done|]. exfalso.
  unfold peer_pending in E. rewrite Hp in E. apply negb_false_iff in E.
  destruct HL as [_ _ _ _ Hs]. pose proof (transitions_disconnecting _ _ _ Hs E) as H.
  unfold Peer_is_established in Hp'. revert H Hp'. by destruct (p_state p').
Qed.

Lemma send_establishes_nothing p : Peer_is_established (Peer_record_send p).2 = Peer_is_established p.
Proof. unfold Peer_is_established. rewrite record_send_state. by destruct (p_state p). Qed.

Lemma event_establishes_nothing ev t p r a p' r' :
  Peer_process_event ev t p r = Some (a, p', r') -> Peer_is_established p' = Peer_is_established p.
Proof.
  intros H%process_event_state. destruct H as [_ _ _ Hs _ _].
  transitivity (Peer_is_established (Peer_record_send p).2); [|apply send_establishes_nothing].
  unfold Peer_is_established. by rewrite Hs.
Qed.

Lemma event_lives ev t p r a p' r' :
  Peer_process_event ev t p r = Some (a, p', r') -> lives p p'.
Proof.
  intros H%process_event_state. transitivity (Peer_record_send p).2; [apply record_send_lives|].
  by apply calm_lives.
Qed.

#[export] Instance Peer_SessionLaws :
  @SessionLaws Peer Packet SocketEvent (Peer_Session clock).
Proof.
  refine {| pending := peer_pending : Peer -> bool |}.
  - intros p H. unfold peer_pending in H. apply andb_true_iff in H as [H%negb_true_iff _]. exact H.
  - intros data t p r a p' r' H. apply lives_establishes. exact (process_packet_lives data t p r a p' r' H).
  - intros data t p r a p' r' H. apply lives_settled. exact (process_packet_lives data t p r a p' r' H).
  - intros ev t p r a p' r' H. cbn [is_established Peer_Session].
    by rewrite (event_establishes_nothing ev t p r a p' r' H).
  - intros ev t p r a p' r' H. apply lives_settled. exact (event_lives ev t p r a p' r' H).
Defined.

(** Who establishes a connection.  A user event never changes whether a peer is established;
    a datagram may establish it, but only one that is neither established nor disconnecting;
    and a timer update or a flush never does. *)
Theorem establishment p r p' r' :
  (forall ev t a, Peer_process_event ev t p r = Some (a, p', r') ->
     Peer_is_established p' = Peer_is_established p) /\
  (forall data t a, Peer_process_packet data t p r = Some (a, p', r') ->
     Peer_is_established p = false -> Peer_is_established p' = true -> peer_pending p = true) /\
  (forall t a, Peer_update clock t p r = Some (a, p', r') -> p_state p' = p_state p).
Proof.
  split; [intros ev t a; apply event_establishes_nothing|]. split.
  - intros data t a H. apply lives_establishes. exact (process_packet_lives data t p r a p' r' H).
  - intros t a H. apply (update_calm clock t) in H. by destruct H.
Qed.

(* ------------------------------------------------------------------ *)
(** ** Disconnecting                                                    *)
(* ------------------------------------------------------------------ *)

(** C32: Disconnecting.  A local disconnect queues exactly one [Disconnect] behind what already
    waits, and a second call does nothing; the receiver of that command becomes a zombie,
    whatever its state, and is dropped with exactly one disconnect event at its address. *)
Theorem disconnect_protocol p q t t' r (Hp : PeerState_is_disconnecting (p_state p) = false) :
  let p' := Peer_disconnect p in
  queue p' = queue p ++ [Disconnect 0] /\ p_state p' = Disconnecting /\
  Peer_disconnect p' = p' /\ Peer_is_established p' = false /\
  exists q', Peer_process_command (Disconnect 0) t q r = Some (Ok IncomingPackets_zero, q', r) /\
    p_state q' = Zombie /\
    Peer_should_drop t' q' = (true, [Emit (EvDisconnect (p_remote_address q))]).
Proof.
  cbv zeta. unfold Peer_disconnect. rewrite Hp. cbn [negb].
  split; [done|]. split; [done|]. split; [done|]. split; [done|].
  eexists. split; [reflexivity|]. by split.
Qed.
End Contract.

Lemma disconnect_protocol_witness :
  exists q', Peer_process_command (Disconnect 0) 1 sample_peer sample_rng
      = Some (Ok IncomingPackets_zero, q', sample_rng) /\
    Peer_should_drop 2 q' = (true, [Emit (EvDisconnect sample_addr)]).
Proof.
  destruct (disconnect_protocol sample_peer sample_peer 1 2 sample_rng)
    as (_ & _ & _ & _ & q' & E & _ & E').
  - reflexivity.
  - exists q'. split; [exact E|exact E'].
Defined.

Lemma establishment_witness :
  Peer_is_established sample_peer = false /\
  exists a p' r', @Peer_process_event Sample.externs (Packet_new sample_addr [1; 2] Unreliable OrderNone 0)
      3 sample_peer sample_rng = Some (a, p', r') /\
    Peer_is_established p' = Peer_is_established sample_peer.
Proof.
  split; [reflexivity|].
  destruct (@Peer_process_event Sample.externs (Packet_new sample_addr [1; 2] Unreliable OrderNone 0)
      3 sample_peer sample_rng) as [[[a p'] r']|] eqn:E; [|vm_compute in E; discriminate E].
  exists a, p', r'. split; [reflexivity|].
  destruct (@establishment Sample.externs 0 sample_peer sample_rng p' r') as (H & _ & _).
  exact (H _ _ _ E).
Defined.
