(* ===== verification/SessionEvents.v ===== *)
(** What a session tells the application: whose events it emits, and when it reports a
    connection. *)

From S2P Require Import Prelude Core Externs Buffers Packet Command CommandProcessor PeerParts.
From S2P Require Import Peer PeerFacts Fragmenter Session PeerSession ProcessorFacts HostFacts.

(* ------------------------------------------------------------------ *)
(** ** Postconditions                                                   *)
(* ------------------------------------------------------------------ *)

(** From a peer at address [a], every run of [m] that does not panic ends with a peer at [a]
    and a result that satisfies [Q]. *)
Definition yields {A} (a : SocketAddr) (Q : A -> Prop) (m : PeerM A) : Prop :=
  forall p r x p' r', m p r = Some (x, p', r') -> p_remote_address p = a ->
    p_remote_address p' = a /\ Q x.

(** Nothing ever changes the address. *)
Definition same_address (p p' : Peer) : Prop := p_remote_address p' = p_remote_address p.
#[export] Instance same_address_preorder : PreOrder same_address.
Proof. split; [by intros p|]. intros p p1 p2. unfold same_address. congruence. Qed.

Lemma moves_lives_same {A} (m : PeerM A) : moves lives m -> moves same_address m.
Proof. intros H p r x p' r' E. exact (lv_address _ _ (H _ _ _ _ _ E)). Qed.
Lemma moves_calm_same {A} (m : PeerM A) : moves calm m -> moves same_address m.
Proof. intros H. by apply moves_lives_same, moves_calm_lives. Qed.

Ltac same_auto :=
  first [ apply moves_calm_same; solve [eauto with calm]
        | apply moves_lives_same; solve [eauto with lives]
        | moves_tac; first [done | by repeat case_match
            | apply moves_calm_same; solve [eauto with calm]] ].

Section Yields.
Context (a : SocketAddr).

Lemma yields_ret {A} (Q : A -> Prop) x : Q x -> yields a Q (mret x).
Proof. by intros H p r y p' r' [= <- <- <-]. Qed.
Lemma yields_bind {A B} (Q : A -> Prop) (R : B -> Prop) (m : PeerM A) (f : A -> PeerM B) :
  yields a Q m -> (forall x, Q x -> yields a R (f x)) -> yields a R (m ≫= f).
Proof.
  intros Hm Hf p r y p' r' (x & p1 & r1 & E & E')%bind_inv Hp.
  destruct (Hm _ _ _ _ _ E Hp) as [Hp1 HQ]. exact (Hf x HQ _ _ _ _ _ E' Hp1).
Qed.
Lemma yields_gets {A} (Q : A -> Prop) (f : Peer -> A) :
  (forall p, p_remote_address p = a -> Q (f p)) -> yields a Q (gets f).
Proof. intros H p r y p' r' [= <- <- <-] Hp. split; [done|by apply H]. Qed.
Lemma yields_same {A} (m : PeerM A) : moves same_address m -> yields a (fun _ => True) m.
Proof. intros H p r x p' r' E <-. split; [exact (H _ _ _ _ _ E)|done]. Qed.
Lemma yields_weaken {A} (Q R : A -> Prop) (m : PeerM A) :
  (forall x, Q x -> R x) -> yields a Q m -> yields a R m.
Proof. intros HQ H p r x p' r' E Hp. destruct (H _ _ _ _ _ E Hp). auto. Qed.
(** A step whose result does not matter. *)
Lemma yields_then {A B} (R : B -> Prop) (m : PeerM A) (f : A -> PeerM B) :
  moves same_address m -> (forall x, yields a R (f x)) -> yields a R (m ≫= f).
Proof. intros Hm Hf. eapply yields_bind; [by apply yields_same|]. intros x _. apply Hf. Qed.
End Yields.

Section Events.
Context {X : Externs} (a : SocketAddr).

(** The packets of a result come from [a]. *)
Definition from_address (res : result ErrorKind IncomingPackets) : Prop :=
  match res with
  | Ok pk => Forall (fun x => pk_addr x.1 = a) (ZeroOrMore_collect pk)
  | Err _ => True
  end.

Lemma no_packets_from : yields a from_address no_packets.
Proof. apply yields_ret. constructor. Qed.
Lemma one_packet_from d g o ch : yields a from_address (one_packet d g o ch).
Proof. apply yields_gets. intros p Hp. by apply Forall_singleton. Qed.
Lemma many_packets_from {B} (f : B -> list Z) g o ch (l : list B) :
  yields a from_address (gets (fun p => Ok (IncomingPackets_many
    ((fun x => (incoming_packet p (f x) g o ch, TypePacket)) <$> l)))).
Proof.
  apply yields_gets. intros p Hp. cbn [from_address]. apply Forall_fmap, Forall_forall.
  intros x _. exact Hp.
Qed.
#[local] Hint Resolve no_packets_from one_packet_from many_packets_from : core.

(** Walks to the results of a computation. *)
Ltac yields_tac :=
  repeat lazymatch goal with
  | |- yields _ _ (mbind _ _) => apply yields_then; [same_auto|intros ?]
  | |- yields _ _ (if ?b then _ else _) => destruct b
  | |- yields _ _ (match ?x with _ => _ end) => destruct x
  | _ => solve [auto | by apply yields_ret]
  end.

Lemma process_command_from c t : yields a from_address (Peer_process_command c t).
Proof.
  unfold Peer_process_command, process_send_reliable, process_send_unreliable_sequenced,
    process_send_unsequenced, process_send_fragment, process_send_unreliable_fragment,
    process_connect, process_verify_connect, Peer_enqueue_pong_command.
  cbv zeta. yields_tac.
Qed.

Lemma process_commands_from cs t : forall acc,
  Forall (fun x => pk_addr x.1 = a) acc -> yields a from_address (process_commands cs t acc).
Proof.
  induction cs as [|c cs IH]; intros acc Hacc; cbn [process_commands]; [by apply yields_ret|].
  eapply yields_bind; [apply process_command_from|]. intros [pk|e] Hpk; [|by apply yields_ret].
  apply IH, Forall_app. by split.
Qed.

Lemma process_command_packet_from data t :
  yields a from_address (Peer_process_command_packet data t).
Proof.
  unfold Peer_process_command_packet, Peer_record_data_received, Peer_record_packet_received.
  yields_tac. by apply process_commands_from.
Qed.

(** The events among the actions of a handler. *)
Definition events (acts : Actions) : list SocketEvent :=
  omap (fun act => match act with Send _ => None | Emit e => Some e end) acts.
Definition is_connect (e : SocketEvent) : bool :=
  match e with EvConnect _ => true | _ => false end.
Definition is_packet (e : SocketEvent) : bool :=
  match e with EvPacket _ => true | _ => false end.

Lemma events_app l k : events (l ++ k) = events l ++ events k.
Proof. apply omap_app. Qed.
Lemma events_packets (l : list (Packet * PacketType)) :
  events ((fun incoming => Emit (EvPacket incoming.1)) <$> l)
  = (fun incoming => EvPacket incoming.1) <$> l.
Proof. unfold events. induction l as [|x l IH]; [done|]. cbn. by rewrite IH. Qed.

Lemma update_window_calm t : moves calm (updating (Peer_update_bandwidth_window t)).
Proof. unfold Peer_update_bandwidth_window. calm_auto. Qed.
#[local] Hint Resolve update_window_calm encode_bounded_calm : calm.

(** A datagram reports packets of its sender, after at most one connection, which is this
    datagram's doing. *)
Lemma process_packet_events data t p r acts p' r' :
  Peer_process_packet data t p r = Some (acts, p', r') -> p_remote_address p = a ->
  exists connected pks, events acts = (if connected : bool then [EvConnect a] else [])
      ++ (EvPacket <$> pks) /\
    Forall (fun pk => pk_addr pk = a) pks /\
    (connected = true -> peer_pending p = true /\ Peer_is_established p' = true).
Proof.
  intros H Hp. unfold Peer_process_packet in H.
  destruct data as [|x data]; [injection H as <- <- <-; by exists false, []|].
  apply bind_inv in H as (w & p1 & r1 & E1 & H).
  assert (lives p p1) as L1.
  { apply calm_lives. exact (update_window_calm t _ _ _ _ _ E1). }
  apply bind_inv in H as (allowed & p1' & r1' & [= <- <- <-] & H).
  destruct (negb _); [injection H as <- <- <-; by exists false, []|].
  apply bind_inv in H as ([] & p2 & r2 & [= <- <-] & H).
  set (p2 := Peer_record_bytes_received _ p1) in H.
  assert (lives p p2) as L2 by (transitivity p1; [done|apply calm_lives; by constructor]).
  apply bind_inv in H as (res & p3 & r3 & E3 & H).
  pose proof (process_command_packet_lives _ _ _ _ _ _ _ E3) as L3.
  destruct (process_command_packet_from _ _ _ _ _ _ _ E3) as [Ha Hres];
    [rewrite <-Hp; apply L2|].
  destruct res as [pk|e]; [|injection H as <- <- <-; by exists false, []].
  apply bind_inv in H as (connected & p4 & r4 & E4 & H).
  apply bind_inv in H as (addr & p5 & r5 & [= <- <- <-] & H). injection H as <- <- <-.
  unfold updating in E4. destruct (Peer_record_recv p3) as [c p3'] eqn:Erecv.
  injection E4 as <- <- <-. pose proof (record_recv_lives p3) as L4. rewrite Erecv in L4. cbn in L4.
  exists c, (fst <$> ZeroOrMore_collect pk). rewrite events_app, events_packets.
  split; [|split].
  - rewrite <-list_fmap_compose. f_equal. destruct c; [|done].
    cbn. by rewrite (lv_address _ _ L4), Ha.
  - by apply Forall_fmap.
  - intros ->. unfold Peer_record_recv in Erecv. injection Erecv as Ec Ep.
    rewrite Ep in Ec. apply andb_true_iff in Ec as [Hne%negb_true_iff He]. split; [|done].
    pose proof (lives_establishes _ _ L4 Hne He) as Hp3.
    destruct (peer_pending p) eqn:Epe; [done|]. rewrite <-Hp3. symmetry.
    eapply lives_settled; [|exact Epe]. by transitivity p2.
Qed.

(** Sending and timers report nothing. *)
Lemma flush_commands_silent n t acts :
  events acts = [] -> yields a (fun acts => events acts = []) (flush_commands n t acts).
Proof.
  revert acts. induction n as [|n IH]; intros acts Hacts; cbn [flush_commands]; [by apply yields_ret|].
  yields_tac. apply IH. by rewrite events_app, Hacts.
Qed.
Lemma flush_silent t acts :
  events acts = [] -> yields a (fun acts => events acts = []) (Peer_flush t acts).
Proof. intros H. unfold Peer_flush. yields_tac. by apply flush_commands_silent. Qed.

Lemma update_silent clock t : yields a (fun acts => events acts = []) (Peer_update clock t).
Proof.
  unfold Peer_update, Peer_enqueue_ping_command, Peer_handle_pmtu. yields_tac.
  eapply yields_bind; [by apply flush_silent|].
  intros acts Hacts. yields_tac.
Qed.
End Events.

Lemma process_event_silent `{Externs} ev t p r acts p' r' :
  Peer_process_event ev t p r = Some (acts, p', r') -> events acts = [].
Proof.
  intros E. unfold Peer_process_event in E.
  apply bind_inv in E as (c & p1 & r1 & E1 & E). unfold updating in E1.
  pose proof (record_send_never_connects p) as Hc.
  destruct (Peer_record_send p) as [b p0]. injection E1 as <- <- <-. cbn in Hc. subst b.
  apply bind_inv in E as (addr & p2 & r2 & [= <- <- <-] & E).
  apply bind_inv in E as (x & p3 & r3 & E3 & E).
  by destruct (flush_silent _ t [] eq_refl _ _ _ _ _ E eq_refl) as [_ ?].
Qed.

(* ------------------------------------------------------------------ *)
(** ** The reports of a whole session                                   *)
(* ------------------------------------------------------------------ *)

(** Everything that happens to a session, with what it reports, until it is dropped. *)
Inductive session_run `{Externs} : Peer -> list SocketEvent -> Peer -> Prop :=
| sr_done p : session_run p [] p
| sr_packet data t p r acts p1 r1 es p' :
    Peer_process_packet data t p r = Some (acts, p1, r1) -> session_run p1 es p' ->
    session_run p (events acts ++ es) p'
| sr_event ev t p r acts p1 r1 es p' :
    Peer_process_event ev t p r = Some (acts, p1, r1) -> session_run p1 es p' ->
    session_run p (events acts ++ es) p'
| sr_update c t p r acts p1 r1 es p' :
    Peer_update c t p r = Some (acts, p1, r1) -> session_run p1 es p' ->
    session_run p (events acts ++ es) p'
| sr_disconnect p es p' : session_run (Peer_disconnect p) es p' -> session_run p es p'.

(** What a session may still report: packets of its own, and a connection if it is pending. *)
Record reports (a : SocketAddr) (may_connect : bool) (es : list SocketEvent) : Prop := {
  rp_address : Forall (fun e => SocketEvent_address e = a) es;
  rp_kinds : Forall (fun e => is_connect e = true \/ is_packet e = true) es;
  rp_connects : (length (filter (fun e => is_connect e = true) es)
                 <= if may_connect then 1 else 0)%nat
}.

Lemma reports_none a b : reports a b [].
Proof. split; [constructor..|]. apply Nat.le_0_l. Qed.
Lemma reports_weaken a b es : reports a false es -> reports a b es.
Proof. intros [H1 H2 H3]. split; [done..|]. cbn in H3. destruct b; lia. Qed.
Lemma reports_app a b c l k : reports a b l -> reports a c k ->
  b && c = false -> reports a (b || c) (l ++ k).
Proof.
  intros [H1 H2 H3] [H4 H5 H6] Hbc. split; [by apply Forall_app..|].
  rewrite filter_app, length_app. destruct b, c; cbn in *; try done; lia.
Qed.

Lemma packet_reports `{Externs} data t p r acts p' r' :
  Peer_process_packet data t p r = Some (acts, p', r') ->
  exists connected : bool, reports (p_remote_address p) connected (events acts) /\
    (connected = true -> peer_pending p = true /\ peer_pending p' = false).
Proof.
  intros E. destruct (process_packet_events _ _ _ _ _ _ _ _ E eq_refl) as (c & pks & -> & Ha & Hc).
  exists c. split.
  - assert (reports (p_remote_address p) false (EvPacket <$> pks)) as Hk.
    { split.
      - apply Forall_fmap. eapply Forall_impl; [exact Ha|]. done.
      - apply Forall_fmap, Forall_forall. intros x _. by right.
      - clear. induction pks; done. }
    destruct c; [|exact Hk]. replace true with (true || false) by done.
    apply reports_app; [|done|done]. split; [by apply Forall_singleton|apply Forall_singleton; by left|done].
  - intros ->. destruct (Hc eq_refl) as [Hp He]. split; [done|]. unfold peer_pending. by rewrite He.
Qed.

Lemma silent_reports a es : es = [] -> reports a false es.
Proof. intros ->. apply reports_none. Qed.

Lemma disconnect_settles p : peer_pending (Peer_disconnect p) = false.
Proof.
  unfold Peer_disconnect. destruct (PeerState_is_disconnecting (p_state p)) eqn:E; [|done].
  cbn [negb]. unfold peer_pending. rewrite E. apply andb_false_r.
Qed.

(** One step's reports in front of those of the rest. *)
Lemma session_reports_step a p p1 (b : bool) es1 es2 :
  lives p p1 -> p_remote_address p = a -> reports a b es1 ->
  (b = true -> peer_pending p = true /\ peer_pending p1 = false) ->
  reports a (peer_pending p1) es2 -> reports a (peer_pending p) (es1 ++ es2).
Proof.
  intros HL Ha H1 Hb H2. destruct b.
  - destruct Hb as [Hp Hp1]; [done|]. rewrite Hp1 in H2. rewrite Hp.
    by apply (reports_app a true false).
  - destruct (peer_pending p) eqn:Hp.
    + apply (reports_app a false true); [done| |done].
      destruct (peer_pending p1); [done|by apply reports_weaken].
    + rewrite (lives_settled _ _ HL Hp) in H2. by apply (reports_app a false false).
Qed.

Lemma session_run_reports `{Externs} p es p' : session_run p es p' ->
  lives p p' /\ reports (p_remote_address p) (peer_pending p) es.
Proof.
  induction 1 as [p|data t p r acts p1 r1 es p' E _ [IHL IH]|ev t p r acts p1 r1 es p' E _ [IHL IH]
    |c t p r acts p1 r1 es p' E _ [IHL IH]|p es p' _ [IHL IH]].
  - split; [done|apply reports_none].
  - pose proof (process_packet_lives _ _ _ _ _ _ _ E) as HL. split; [by transitivity p1|].
    destruct (packet_reports _ _ _ _ _ _ _ E) as (b & Hr & Hb).
    eapply session_reports_step; [exact HL|done|exact Hr|exact Hb|].
    by rewrite <-(lv_address _ _ HL).
  - pose proof (event_lives _ _ _ _ _ _ _ E) as HL. split; [by transitivity p1|].
    eapply session_reports_step; [exact HL|done|eapply silent_reports, process_event_silent, E|done|].
    by rewrite <-(lv_address _ _ HL).
  - assert (lives p p1) as HL by (apply calm_lives; exact (update_calm c t _ _ _ _ _ E)).
    split; [by transitivity p1|].
    destruct (update_silent _ c t _ _ _ _ _ E eq_refl) as [_ Hs].
    eapply session_reports_step; [exact HL|done|by apply silent_reports, Hs|done|].
    by rewrite <-(lv_address _ _ HL).
  - pose proof (disconnect_lives p) as HL. split; [by transitivity (Peer_disconnect p)|].
    change es with ([] ++ es). eapply (session_reports_step _ _ _ false);
      [exact HL|done|apply reports_none|done|].
    by rewrite <-(lv_address _ _ HL).
Qed.

(** C14: What a session reports.  Through the whole life of a session, whatever datagrams, user
    events, timers and disconnects it sees, it reports only packets that carry its own address
    and at most one connection, none at all once it was established or disconnecting; and when
    it is dropped it reports its end exactly once: a zombie as disconnected, an idle session as
    timed out, followed by disconnected if it was established. *)
Theorem session_reports `{Externs} p es p' t drop acts (Hrun : session_run p es p')
  (Hdrop : Peer_should_drop t p' = (drop, acts)) :
  Forall (fun e => SocketEvent_address e = p_remote_address p) (es ++ events acts) /\
  Forall (fun e => is_connect e = true \/ is_packet e = true) es /\
  (length (filter (fun e => is_connect e = true) es) <= if peer_pending p then 1 else 0)%nat /\
  events acts =
    (if negb drop then []
     else if bool_decide (p_state p' = Zombie) then [EvDisconnect (p_remote_address p)]
     else EvTimeout (p_remote_address p) ::
       (if Peer_is_established p' then [EvDisconnect (p_remote_address p)] else [])).
Proof.
  destruct (session_run_reports p es p' Hrun) as [HL [Ha Hk Hc]].
  pose proof (lv_address _ _ HL) as Hp'.
  assert (events acts =
    (if negb drop then []
     else if bool_decide (p_state p' = Zombie) then [EvDisconnect (p_remote_address p)]
     else EvTimeout (p_remote_address p) ::
       (if Peer_is_established p' then [EvDisconnect (p_remote_address p)] else []))) as He.
  { unfold Peer_should_drop in Hdrop. rewrite Hp' in Hdrop. cbv zeta in Hdrop.
    case_bool_decide; [by injection Hdrop as <- <-|].
    destruct (_ || _); injection Hdrop as <- <-; [|done]. by destruct (Peer_is_established p'). }
  split; [|done]. apply Forall_app. split; [done|]. rewrite He.
  destruct drop; cbn [negb]; [|constructor].
  case_bool_decide; [by apply Forall_singleton|]. constructor; [done|].
  destruct (Peer_is_established p'); by repeat constructor.
Qed.

Import Sample.

(** A server hears the client's [Connect], reports the connection, and times out. *)
Definition connect_datagram : list Z :=
  match Peer_flush 0 [] client_peer sample_rng with Some ([Send bytes], _, _) => bytes | _ => [] end.
Definition served_peer : Peer :=
  default server_peer ((fun x => x.1.2) <$> Peer_process_packet connect_datagram 1 server_peer sample_rng).

Lemma served_run : session_run server_peer [EvConnect (p_remote_address server_peer)] served_peer.
Proof.
  change [EvConnect (p_remote_address server_peer)]
    with (events [Emit (EvConnect (p_remote_address server_peer))] ++ []).
  apply (sr_packet connect_datagram 1 server_peer sample_rng _ served_peer (fun n => sample_rng (S n)));
    [vm_compute; reflexivity|constructor].
Qed.

Lemma session_reports_witness :
  let '(drop, acts) := Peer_should_drop 9000000000 served_peer in
  events acts = [EvTimeout (p_remote_address server_peer); EvDisconnect (p_remote_address server_peer)].
Proof.
  destruct (Peer_should_drop 9000000000 served_peer) as [drop acts] eqn:E.
  destruct (session_reports server_peer _ served_peer 9000000000 drop acts served_run E)
    as (_ & _ & _ & He).
  rewrite He. vm_compute in E. injection E as <- _. vm_compute. reflexivity.
Defined.
