(* ===== verification/PollFacts.v ===== *)
(** What a poll does for any session engine: a predicate on sessions that the engine keeps holds
    throughout, the drop loop removes exactly the sessions it should, and the
    flush hands everything over in order. *)

From S2P Require Import Prelude Core Buffers Packet Session SessionManager ManagerFacts.

(* ------------------------------------------------------------------ *)
(** ** Flushing                                                         *)
(* ------------------------------------------------------------------ *)

Section Flush.
Context {ReceiveEvent T I : Type} `{!Transport T, !Interceptor I}.
Implicit Types (i : I) (s : T) (mg : @Messenger ReceiveEvent T I).

(** What the interceptor lets through of a list of datagrams, each possibly rewritten. *)
Fixpoint intercepted i (l : list (SocketAddr * list Z)) : list (SocketAddr * list Z) * I :=
  match l with
  | [] => ([], i)
  | (addr, payload) :: l =>
      let '((pass, payload), i) := on_send addr payload i in
      let '(out, i) := intercepted i l in
      (if pass : bool then (addr, payload) :: out else out, i)
  end.
Definition send_all s (l : list (SocketAddr * list Z)) : T :=
  foldl (fun s x => (send_packet x.1 x.2 s).2) s l.

Lemma flush_sends l : forall mg,
  let mg' := foldl flush_send mg l in
  let '(out, i) := intercepted (mg_interceptor mg) l in
  mg_socket mg' = send_all (mg_socket mg) out /\ mg_interceptor mg' = i /\
  mg_config mg' = mg_config mg /\ mg_sent_events mg' = mg_sent_events mg /\
  mg_pending_events mg' = mg_pending_events mg /\ mg_pending_sends mg' = mg_pending_sends mg /\
  (PacketAllocator_ok (mg_send_pool mg) -> PacketAllocator_ok (mg_send_pool mg')).
Proof.
  induction l as [|[addr payload] l IH]; intros mg; cbn [foldl intercepted]; [done|].
  destruct (on_send addr payload (mg_interceptor mg)) as [[pass data] i] eqn:E.
  assert (flush_send mg (addr, payload) = mkMessenger (mg_config mg)
    (if pass then (send_packet addr data (mg_socket mg)).2 else mg_socket mg)
    (mg_sent_events mg) (mg_pending_sends mg) (mg_pending_events mg) i
    (PacketAllocator_deallocate (mg_send_pool mg) data)) as ->
    by (unfold flush_send; by rewrite E).
  match goal with |- context [foldl flush_send ?x l] => specialize (IH x) end.
  cbv zeta in IH. cbn [mg_interceptor mg_socket mg_config mg_sent_events mg_pending_events
    mg_pending_sends mg_send_pool] in IH.
  destruct (intercepted i l) as [out i']. destruct IH as (H1 & H2 & H3 & H4 & H5 & H6 & H7).
  split; [by rewrite H1; destruct pass|]. split; [done|]. split; [done|]. split; [done|].
  split; [done|]. split; [done|]. intros Hp. apply H7. by apply PacketAllocator_deallocate_ok.
Qed.

Lemma sink_all {E} (l : list E) : forall c : ChannelSink E,
  foldl (fun sink event => sink_send event sink) c l = c ++ l.
Proof.
  induction l as [|e l IH]; intros c; cbn [foldl]; [by rewrite app_nil_r|].
  rewrite IH. unfold sink_send, ChannelSink_EventSink, ChannelSink_send. by rewrite <-app_assoc.
Qed.

(** All of what a flush does.  Every datagram a session asked for is shown to the interceptor
    once, in order; those it lets through go to the socket in that order, rewritten as it left
    them; the events follow in order; nothing is left pending. *)
Lemma flush_run mg :
  let mg' := Messenger_flush mg in
  let '(out, i) := intercepted (mg_interceptor mg) (mg_pending_sends mg) in
  mg_socket mg' = send_all (mg_socket mg) out /\ mg_interceptor mg' = i /\
  mg_sent_events mg' = mg_sent_events mg ++ mg_pending_events mg /\
  mg_pending_sends mg' = [] /\ mg_pending_events mg' = [] /\ mg_config mg' = mg_config mg /\
  (PacketAllocator_ok (mg_send_pool mg) -> PacketAllocator_ok (mg_send_pool mg')).
Proof.
  cbv zeta. unfold Messenger_flush.
  pose proof (flush_sends (mg_pending_sends mg) (mkMessenger (mg_config mg) (mg_socket mg)
    (mg_sent_events mg) [] (mg_pending_events mg) (mg_interceptor mg) (mg_send_pool mg))) as H.
  cbv zeta in H. cbn [mg_interceptor mg_socket mg_config mg_sent_events mg_pending_events
    mg_pending_sends mg_send_pool] in *.
  destruct (intercepted (mg_interceptor mg) (mg_pending_sends mg)) as [out i].
  destruct H as (H1 & H2 & H3 & H4 & H5 & H6 & H7).
  rewrite sink_all, H4, H5. done.
Qed.
Lemma flush_books mg :
  mg_sent_events (Messenger_flush mg) = mg_sent_events mg ++ mg_pending_events mg /\
  mg_pending_sends (Messenger_flush mg) = [] /\ mg_pending_events (Messenger_flush mg) = [] /\
  mg_config (Messenger_flush mg) = mg_config mg.
Proof.
  pose proof (flush_run mg) as H. cbv zeta in H. destruct (intercepted _ _). tauto.
Qed.
End Flush.

(* ------------------------------------------------------------------ *)
(** ** Invariants of the sessions                                       *)
(* ------------------------------------------------------------------ *)

Section Invariant.
Context {S SendEvent ReceiveEvent T I : Type}.
Context `{!Session S SendEvent ReceiveEvent, !Transport T, !Interceptor I}.
#[local] Abbreviation SessionManager := (@SessionManager S SendEvent ReceiveEvent T I).
#[local] Abbreviation Poll := (@Poll S SendEvent ReceiveEvent T I).
Implicit Types (m : SessionManager) (a : SocketAddr) (t : Instant) (r : Rng).

(** [P] holds of the session at an address. *)
Context (P : SocketAddr -> S -> Prop) (config : Config).

(** The engine keeps [P]. *)
Record engine_keeps : Prop := {
  ek_create a t r : P a (create_session config a t r).1;
  ek_packet data t a s r acts s' r' :
    process_packet data t s r = Some (acts, s', r') -> P a s -> P a s';
  ek_event ev t a s r acts s' r' :
    process_event ev t s r = Some (acts, s', r') -> P a s -> P a s';
  ek_update t a s r acts s' r' :
    update t s r = Some (acts, s', r') -> P a s -> P a s';
  ek_drop t a s r d acts s' r' :
    should_drop t s r = Some ((d, acts), s', r') -> P a s -> P a s'
}.

Record manager_keeps m : Prop := {
  mk_config : mg_config (sm_messenger m) = config;
  mk_sessions a s : sm_sessions m !! a = Some s -> P a s
}.

Lemma keeps_actions a acts m : manager_keeps m -> manager_keeps (with_actions a acts m).
Proof.
  intros [H1 H2]. split; [|done]. cbn. unfold handle_actions. rewrite <-H1. clear H1.
  generalize (sm_messenger m) as mg. induction acts as [|act acts IH]; intros mg; [done|].
  cbn [foldl]. rewrite IH. by destruct act.
Qed.
Lemma keeps_insert a s m : P a s -> manager_keeps m ->
  manager_keeps (set_sessions (<[a := s]> (sm_sessions m)) m).
Proof.
  intros Hs [H1 H2]. split; [done|]. cbn. intros b s'.
  destruct (decide (a = b)) as [<-|Hn].
  - rewrite lookup_insert_eq. by intros [= <-].
  - rewrite lookup_insert_ne by done. apply H2.
Qed.
(** The usual step: a session acts and is put back. *)
Lemma keeps_step a s acts m : P a s -> manager_keeps m ->
  manager_keeps (with_actions a acts (set_sessions (<[a := s]> (sm_sessions m)) m)).
Proof. intros. by apply keeps_actions, keeps_insert. Qed.
Lemma keeps_count a m m' : increment_duplicate_count a m = Some m' ->
  manager_keeps m -> manager_keeps m'.
Proof. intros ->%increment_spec [H1 H2]. by split. Qed.

(** The engine keeps the predicates, so every loop of a poll does. *)
Context (HE : engine_keeps).

Lemma create_keeps a t r s r' : create_session config a t r = (s, r') -> P a s.
Proof. intros E. pose proof (ek_create HE a t r) as H. by rewrite E in H. Qed.

Lemma deliver_keeps data a t (st st' : Poll) : deliver_datagram data a t st = Some st' ->
  manager_keeps st.1.1 -> manager_keeps st'.1.1.
Proof.
  destruct st as [[m u] r]. intros H Hm; cbn [fst snd] in Hm. unfold deliver_datagram in H.
  destruct (sm_sessions m !! a) as [s|] eqn:Ea.
  - apply bind_Some in H as ([[acts s'] r1] & E & H). apply bind_Some in H as (u1 & _ & H).
    injection H as <-. apply keeps_step; [|done]. by eapply (ek_packet HE), (mk_sessions _ Hm).
  - rewrite (mk_config _ Hm) in H. destruct (create_session config a t r) as [s r1] eqn:Ec.
    apply create_keeps in Ec. apply bind_Some in H as ([[acts s'] r2] & E & H).
    pose proof (ek_packet HE _ _ _ _ _ _ _ _ E Ec) as HP.
    assert (manager_keeps (with_actions a acts m)) as Hm1 by by apply keeps_actions.
    destruct (_ && _); [|by injection H as <-].
    apply bind_Some in H as (m1 & Hi & H). apply bind_Some in H as (u1 & _ & H). injection H as <-.
    eapply keeps_count; [exact Hi|]. by apply (keeps_insert a s' (with_actions a acts m)).
Qed.

Lemma receive_loop_keeps fuel t : forall (st st' : Poll), receive_loop fuel t st = Some st' ->
  manager_keeps st.1.1 -> manager_keeps st'.1.1.
Proof.
  induction fuel as [|fuel IH]; intros [[m u] r] st' H Hm; cbn [receive_loop] in H; [done|].
  destruct (receive_packet _ _) as [[[data a]|e] sock].
  2: { injection H as <-. by destruct Hm. }
  destruct (on_receive a data _) as [[pass data'] i].
  match goal with H : context [set_messenger ?mg m] |- _ =>
    assert (manager_keeps (set_messenger mg m)) as Hm1 by (by destruct Hm) end.
  destruct (negb pass); [by eapply IH|].
  apply bind_Some in H as (st1 & Hd & H). apply deliver_keeps in Hd; [|done].
  case_match; [by injection H as <-|by eapply IH].
Qed.

Lemma user_event_keeps t (st st' : Poll) ev : handle_user_event t st ev = Some st' ->
  manager_keeps st.1.1 -> manager_keeps st'.1.1.
Proof.
  destruct st as [[m u] r]. intros H Hm; cbn [fst snd] in Hm. unfold handle_user_event in H.
  destruct (sm_sessions m !! event_address ev) as [s|] eqn:Ea.
  - apply bind_Some in H as ([[acts s'] r1] & E & H). apply bind_Some in H as (u1 & _ & H).
    injection H as <-. apply keeps_step; [|done]. by eapply (ek_event HE), (mk_sessions _ Hm).
  - destruct (can_accept_duplicate _ m); cbn [negb] in H; [|by injection H as <-].
    rewrite (mk_config _ Hm) in H. destruct (create_session config _ t r) as [s r1] eqn:Ec.
    apply create_keeps in Ec. apply bind_Some in H as ([[acts s'] r2] & E & H).
    pose proof (ek_event HE _ _ _ _ _ _ _ _ E Ec) as HP.
    apply bind_Some in H as (m1 & Hi & H). injection H as <-.
    eapply keeps_count; [exact Hi|]. by apply keeps_step.
Qed.

Lemma update_session_keeps t (st st' : Poll) a : update_session t st a = Some st' ->
  manager_keeps st.1.1 -> manager_keeps st'.1.1.
Proof.
  destruct st as [[m u] r]. intros H Hm; cbn [fst snd] in Hm. unfold update_session in H.
  destruct (sm_sessions m !! a) as [s|] eqn:Ea; [|by injection H as <-].
  apply bind_Some in H as ([[acts s'] r1] & E & H). injection H as <-.
  apply keeps_step; [|done]. by eapply (ek_update HE), (mk_sessions _ Hm).
Qed.

Lemma check_drop_keeps t (acc acc' : Poll * list SocketAddr) a : check_drop t acc a = Some acc' ->
  manager_keeps acc.1.1.1 -> manager_keeps acc'.1.1.1.
Proof.
  destruct acc as [[[m u] r] l]. intros H Hm; cbn [fst snd] in Hm. unfold check_drop in H.
  destruct (sm_sessions m !! a) as [s|] eqn:Ea; [|by injection H as <-].
  apply bind_Some in H as ([[[d acts] s'] r1] & E & H). injection H as <-.
  apply keeps_step; [|done]. by eapply (ek_drop HE), (mk_sessions _ Hm).
Qed.

Lemma drop_session_keeps m m' a : drop_session m a = Some m' -> manager_keeps m -> manager_keeps m'.
Proof.
  intros H [H1 H2].
  assert (manager_keeps (set_sessions (delete a (sm_sessions m)) m)) as Hd.
  { split; [done|]. intros b s. cbn. intros [_ ?]%lookup_delete_Some. by apply H2. }
  unfold drop_session, decrement_duplicate_count in H. destruct (_ !! sa_ip a); [|by injection H as <-].
  apply bind_Some in H as (n & _ & H). injection H as <-. by destruct Hd.
Qed.

Lemma foldM_keeps {A} (f : Poll -> A -> option Poll) (l : list A) (st st' : Poll) :
  (forall st x st', f st x = Some st' -> manager_keeps st.1.1 -> manager_keeps st'.1.1) ->
  foldM f st l = Some st' -> manager_keeps st.1.1 -> manager_keeps st'.1.1.
Proof.
  intros Hf H Hm. eapply (foldM_invariant (fun st : Poll => manager_keeps st.1.1)); [|exact Hm|exact H].
  intros st1 x st2 H1 _ E. by eapply Hf.
Qed.

Lemma drop_loop_keeps order t (st st' : Poll) : drop_loop order t st = Some st' ->
  manager_keeps st.1.1 -> manager_keeps st'.1.1.
Proof.
  unfold drop_loop. intros ([[[m1 u1] r1] drops] & H1 & H)%bind_Some Hm.
  apply bind_Some in H as (m2 & H2 & H). injection H as <-.
  apply (foldM_invariant manager_keeps) in H2; [exact H2| |].
  - intros x a y Hx _ E. by eapply drop_session_keeps.
  - apply (foldM_invariant (fun acc : Poll * list SocketAddr => manager_keeps acc.1.1.1)) in H1;
      [exact H1| |exact Hm].
    intros acc a acc' Hacc _ E. by eapply check_drop_keeps.
Qed.

(** After a poll the predicate still holds, and nothing is pending. *)
Lemma manual_poll_keeps order fuel t m r m' r' :
  SessionManager_manual_poll order fuel t m r = Some (m', r') -> manager_keeps m ->
  manager_keeps m' /\ mg_pending_sends (sm_messenger m') = [] /\
  mg_pending_events (sm_messenger m') = [].
Proof.
  unfold SessionManager_manual_poll. intros (st1 & H1 & H)%bind_Some Hm.
  apply receive_loop_keeps in H1; [|exact Hm]. apply bind_Some in H as (st2 & H2 & H).
  unfold user_event_loop in H2. destruct st1 as [[m1 u1] r1].
  apply foldM_keeps in H2; [|intros; by eapply user_event_keeps|by destruct H1].
  apply bind_Some in H as (st3 & H3 & H). apply foldM_keeps in H3; [|intros; by eapply update_session_keeps|done].
  apply bind_Some in H as ([[m4 u4] r4] & H4 & H). apply drop_loop_keeps in H4; [|done].
  injection H as <- <-. destruct H4 as [E1 E2]. cbn [fst] in *.
  destruct (flush_books (sm_messenger m4)) as (F1 & F2 & F3 & F4). split; [|done].
  split; [|exact E2]. cbn [sm_messenger set_messenger]. by rewrite F4.
Qed.
End Invariant.

(* ------------------------------------------------------------------ *)
(** ** The queue of the application                                     *)
(* ------------------------------------------------------------------ *)

Section Events.
Context {S SendEvent ReceiveEvent T I : Type}.
Context `{!Session S SendEvent ReceiveEvent, !Transport T, !Interceptor I}.
#[local] Abbreviation Poll := (@Poll S SendEvent ReceiveEvent T I).

Lemma user_event_queue t (st st' : Poll) ev : handle_user_event t st ev = Some st' ->
  sm_user_events st'.1.1 = sm_user_events st.1.1.
Proof.
  destruct st as [[m u] r]. unfold handle_user_event. intros H. destruct (sm_sessions m !! _) as [s|].
  - apply bind_Some in H as ([[acts s'] r1] & _ & H). apply bind_Some in H as (u1 & _ & H).
    by injection H as <-.
  - destruct (negb _); [by injection H as <-|]. destruct (create_session _ _ t r) as [s r1].
    apply bind_Some in H as ([[acts s'] r2] & _ & H).
    apply bind_Some in H as (m1 & ->%increment_spec & H). by injection H as <-.
Qed.
Lemma update_session_queue t (st st' : Poll) a : update_session t st a = Some st' ->
  sm_user_events st'.1.1 = sm_user_events st.1.1.
Proof.
  destruct st as [[m u] r]. unfold update_session. intros H.
  destruct (sm_sessions m !! a) as [s|]; [|by injection H as <-].
  apply bind_Some in H as ([[acts s'] r1] & _ & H). by injection H as <-.
Qed.
Lemma drop_loop_queue order t (st st' : Poll) : drop_loop order t st = Some st' ->
  sm_user_events st'.1.1 = sm_user_events st.1.1.
Proof.
  unfold drop_loop. intros ([[[m1 u1] r1] drops] & H1 & H)%bind_Some.
  apply bind_Some in H as (m2 & H2 & H). injection H as <-. cbn [fst].
  apply (foldM_invariant (fun m => sm_user_events m = sm_user_events m1)) in H2; [| |done].
  2: { intros x a y <- _ E. unfold drop_session, decrement_duplicate_count in E.
       destruct (_ !! sa_ip a); [|by injection E as <-].
       apply bind_Some in E as (n & _ & E). by injection E as <-. }
  rewrite H2. apply (foldM_invariant (fun acc : Poll * list SocketAddr =>
    sm_user_events acc.1.1.1 = sm_user_events st.1.1)) in H1; [exact H1| |done].
  intros [[[m u] r] l] a acc' <- _ E. unfold check_drop in E.
  destruct (sm_sessions m !! a) as [s|]; [|by injection E as <-].
  apply bind_Some in E as ([[[d acts] s'] r2] & _ & E). by injection E as <-.
Qed.

(** A poll takes every event that was queued. *)
Lemma manual_poll_events order fuel t (m m' : @SessionManager S SendEvent ReceiveEvent T I) r r' :
  SessionManager_manual_poll order fuel t m r = Some (m', r') -> sm_user_events m' = [].
Proof.
  unfold SessionManager_manual_poll. intros ([[m1 u1] r1] & _ & H)%bind_Some.
  apply bind_Some in H as (st2 & H2 & H). apply bind_Some in H as (st3 & H3 & H).
  apply bind_Some in H as ([[m4 u4] r4] & H4 & H). injection H as <- <-. cbn [sm_user_events set_messenger].
  apply drop_loop_queue in H4. cbn [fst] in H4. rewrite H4.
  unfold update_loop in H3. apply (foldM_invariant (fun st : Poll => sm_user_events st.1.1 = [])) in H3;
    [exact H3|intros x a y Hx _ E; by rewrite (update_session_queue _ _ _ _ E)|].
  unfold user_event_loop in H2. cbn [fst] in H2. apply (foldM_invariant (fun st : Poll => sm_user_events st.1.1 = [])) in H2;
    [exact H2|intros x a y Hx _ E; by rewrite (user_event_queue _ _ _ _ E)|reflexivity].
Qed.
End Events.

(* ------------------------------------------------------------------ *)
(** ** Dropping                                                         *)
(* ------------------------------------------------------------------ *)

(** Engines whose [should_drop] is a test, as that of peers is. *)
Section Dropping.
Context {S SendEvent ReceiveEvent T I : Type}.
Context `{!Session S SendEvent ReceiveEvent, !Transport T, !Interceptor I}.
#[local] Abbreviation SessionManager := (@SessionManager S SendEvent ReceiveEvent T I).
Implicit Types (m : SessionManager) (a : SocketAddr) (t : Instant) (r : Rng).
Context (verdict : Instant -> S -> bool * list (Action ReceiveEvent)).
Hypothesis should_drop_is : forall t s r, should_drop t s r = Some (verdict t s, s, r).

Definition doomed t (sessions : gmap SocketAddr S) a : bool :=
  default false ((fun s => (verdict t s).1) <$> sessions !! a).
Definition last_actions t (sessions : gmap SocketAddr S) a : list (Action ReceiveEvent) :=
  default [] ((fun s => (verdict t s).2) <$> sessions !! a).
(** What the asked sessions say, in order. *)
Definition last_words t (sessions : gmap SocketAddr S) (l : list SocketAddr)
  (mg : @Messenger ReceiveEvent T I) : Messenger :=
  foldl (fun mg a => handle_actions a (last_actions t sessions a) mg) mg l.

Lemma check_drop_run t u r m drops a :
  check_drop t ((m, u, r), drops) a =
  Some ((with_actions a (last_actions t (sm_sessions m) a) m, u, r),
        if doomed t (sm_sessions m) a then drops ++ [a] else drops).
Proof.
  unfold check_drop, last_actions, doomed. destruct (sm_sessions m !! a) as [s|] eqn:Ea; [|by destruct m].
  rewrite should_drop_is. cbn. rewrite insert_id by done. destruct (verdict t s) as [d acts]. by destruct m.
Qed.
Lemma check_drops_run t u r l : forall m drops,
  foldM (check_drop t) ((m, u, r), drops) l =
  Some ((set_messenger (last_words t (sm_sessions m) l (sm_messenger m)) m, u, r),
        drops ++ filter (fun a => doomed t (sm_sessions m) a = true) l).
Proof.
  induction l as [|a l IH]; intros m drops; cbn [foldM last_words foldl].
  - rewrite app_nil_r. by destruct m.
  - rewrite check_drop_run. cbn [mbind option_bind]. rewrite IH.
    cbn [sm_sessions with_actions set_messenger sm_messenger]. do 2 f_equal.
    rewrite filter_cons. destruct (doomed t (sm_sessions m) a); [|done].
    by rewrite decide_True, <-app_assoc by done.
Qed.

Lemma drop_sessions_run l : forall m m', foldM drop_session m l = Some m' ->
  sm_messenger m' = sm_messenger m /\ sm_user_events m' = sm_user_events m /\
  forall a, sm_sessions m' !! a = if decide (a ∈ l) then None else sm_sessions m !! a.
Proof.
  induction l as [|b l IH]; intros m m' H; cbn [foldM] in H.
  - injection H as <-. split; [done|]. split; [done|]. intros a. by rewrite decide_False by apply not_elem_of_nil.
  - apply bind_Some in H as (m1 & H1 & H).
    assert (sm_messenger m1 = sm_messenger m /\ sm_user_events m1 = sm_user_events m /\
      sm_sessions m1 = delete b (sm_sessions m)) as (E1 & E2 & E3).
    { unfold drop_session, decrement_duplicate_count in H1. destruct (_ !! sa_ip b); [|by injection H1 as <-].
      apply bind_Some in H1 as (n & _ & H1). by injection H1 as <-. }
    destruct (IH m1 m' H) as (-> & -> & Hs). split; [done|]. split; [done|]. intros a. rewrite Hs, E3.
    destruct (decide (a ∈ l)) as [Hin|Hin]; [by rewrite decide_True by by right|].
    destruct (decide (a = b)) as [->|Hn]; [by rewrite decide_True, lookup_delete_eq by left|].
    rewrite decide_False, lookup_delete_ne by done || (intros [?|?]%elem_of_cons; done). done.
Qed.

Context (order : list SocketAddr -> list SocketAddr).
Hypothesis order_permutes : forall l, order l ≡ₚ l.

Definition keys (sessions : gmap SocketAddr S) : list SocketAddr :=
  order (map_to_list sessions).*1.

Lemma keys_NoDup sessions : NoDup (keys sessions).
Proof. unfold keys. rewrite order_permutes. apply NoDup_fst_map_to_list. Qed.
Lemma elem_of_keys sessions a : a ∈ keys sessions <-> is_Some (sessions !! a).
Proof.
  unfold keys. rewrite order_permutes, list_elem_of_fmap. split.
  - intros ([b s] & -> & H%elem_of_map_to_list). by eexists.
  - intros [s Hs]. exists (a, s). split; [done|]. by apply elem_of_map_to_list.
Qed.

(** What the drop loop leaves: the sessions that are not to be dropped, unchanged. *)
Lemma drop_loop_run t m u r m' u' r' : drop_loop order t (m, u, r) = Some (m', u', r') ->
  u' = u /\ r' = r /\ sm_user_events m' = sm_user_events m /\
  sm_sessions m' = filter (fun kv => (verdict t kv.2).1 = false) (sm_sessions m) /\
  sm_messenger m' = last_words t (sm_sessions m) (keys (sm_sessions m)) (sm_messenger m).
Proof.
  unfold drop_loop. cbn [fst]. fold (keys (sm_sessions m)). rewrite check_drops_run.
  cbn [mbind option_bind app]. intros (m2 & H & E)%bind_Some. injection E as <- <- <-.
  apply drop_sessions_run in H as (-> & -> & Hs). split; [done|]. split; [done|]. split; [done|].
  split; [|done]. apply map_eq. intros a. rewrite Hs.
  cbn [sm_sessions set_messenger].
  destruct (sm_sessions m !! a) as [s|] eqn:Ea.
  - assert (a ∈ filter (fun a => doomed t (sm_sessions m) a = true) (keys (sm_sessions m)) <->
      (verdict t s).1 = true) as Hd.
    { rewrite list_elem_of_filter, elem_of_keys, Ea. unfold doomed. rewrite Ea. cbn.
      split; [by intros [? _]|]. intros ?. split; [done|by eexists]. }
    destruct (verdict t s).1 eqn:Ev.
    + rewrite decide_True by by apply Hd. symmetry. apply map_lookup_filter_None_2. right.
      intros s' Hs'. rewrite Ea in Hs'. injection Hs' as <-. cbn [snd]. congruence.
    + rewrite decide_False by (rewrite Hd; done). symmetry. by apply map_lookup_filter_Some_2.
  - assert (filter (fun kv => (verdict t kv.2).1 = false) (sm_sessions m) !! a = None) as ->
      by (apply map_lookup_filter_None_2; by left).
    by destruct (decide _).
Qed.
End Dropping.
