(* ===== verification/Isolation.v ===== *)
(** The sessions of a manager do not disturb each other: for any session engine, socket and
    interceptor, a poll is an interleaving of separate lives.  The session at an address is
    what its own datagrams, its own user events, one update and one question whether it is
    over make of it; what the others do decides only which random numbers it draws and whether
    a newcomer still finds room. *)

From S2P Require Import Prelude Core Buffers Packet Session SessionManager ManagerFacts.
From S2P Require Import PollFacts.

(* ------------------------------------------------------------------ *)
(** ** Lists of addressed things                                        *)
(* ------------------------------------------------------------------ *)

(** What of a list is addressed to [a]. *)
Definition addressed {A} (a : SocketAddr) (l : list (SocketAddr * A)) : list A :=
  (filter (fun x => x.1 = a) l).*2.

Lemma addressed_app {A} a (l1 l2 : list (SocketAddr * A)) : addressed a (l1 ++ l2) = addressed a l1 ++ addressed a l2.
Proof. unfold addressed. by rewrite filter_app, fmap_app. Qed.
Lemma addressed_cons {A} a b (x : A) l :
  addressed a ((b, x) :: l) = if decide (b = a) then x :: addressed a l else addressed a l.
Proof. unfold addressed. rewrite filter_cons. cbn [fst]. by destruct (decide (b = a)). Qed.
Lemma addressed_fmap {A B} (f : B -> A) a (l : list (SocketAddr * B)) :
  addressed a ((fun p => (p.1, f p.2)) <$> l) = f <$> addressed a l.
Proof.
  induction l as [|[b x] l IH]; [done|]. rewrite fmap_cons, !addressed_cons, IH. cbn [fst snd].
  by destruct (decide (b = a)).
Qed.
(** Things that all go to one address. *)
Lemma addressed_to {A} a b (xs : list A) :
  addressed a ((b,.) <$> xs) = if decide (b = a) then xs else [].
Proof.
  induction xs as [|x xs IH]; [by destruct (decide (b = a))|].
  rewrite fmap_cons, addressed_cons, IH. by destruct (decide (b = a)).
Qed.
(** The same thing for everyone in a list. *)
Lemma addressed_each {A} a (x : A) (l : list SocketAddr) : NoDup l ->
  addressed a ((fun b => (b, x)) <$> l) = if decide (a ∈ l) then [x] else [].
Proof.
  induction l as [|b l IH]; [done|]. intros [Hb Hl]%NoDup_cons. rewrite fmap_cons, addressed_cons, IH by done.
  destruct (decide (b = a)) as [->|Hn].
  - by rewrite decide_False, decide_True by done || by left.
  - destruct (decide (a ∈ l)); [by rewrite decide_True by by right|].
    rewrite decide_False; [done|]. intros [->|?]%elem_of_cons; done.
Qed.

(* ------------------------------------------------------------------ *)
(** ** The life of one session                                          *)
(* ------------------------------------------------------------------ *)

Section Isolation.
Context {S SendEvent ReceiveEvent T I : Type}.
Context `{!Session S SendEvent ReceiveEvent, !Transport T, !Interceptor I}.
#[local] Abbreviation SessionManager := (@SessionManager S SendEvent ReceiveEvent T I).
#[local] Abbreviation Messenger := (@Messenger ReceiveEvent T I).
#[local] Abbreviation Poll := (@Poll S SendEvent ReceiveEvent T I).
#[local] Abbreviation Log := (list (SocketAddr * Action ReceiveEvent)).
Implicit Types (m : SessionManager) (mg : Messenger) (a b : SocketAddr) (t : Instant) (r : Rng)
  (acts : list (Action ReceiveEvent)) (log : Log).

(** What happens to an address during a poll: a datagram from it that passed the interceptor,
    a user event for it, the update, and the question whether its session is over. *)
Inductive Input : Type :=
| Heard (data : list Z)
| Told (ev : SendEvent)
| Updated
| Asked.

Section Life.
Context (config : Config) (t : Instant) (a : SocketAddr).

(** What the address makes of an input on its own, whatever the generator has to offer: the
    session it has or has not, what the session asks for, and the session it has afterwards.
    A stranger whose datagram finds no room is answered all the same, and forgotten. *)
Inductive meets : option S -> Input -> list (Action ReceiveEvent) -> option S -> Prop :=
| meets_datagram data s r acts s' r' : process_packet data t s r = Some (acts, s', r') ->
    meets (Some s) (Heard data) acts (Some s')
| meets_newcomer data r s r1 acts s' r2 (room : bool) : create_session config a t r = (s, r1) ->
    process_packet data t s r1 = Some (acts, s', r2) ->
    meets None (Heard data) acts (if room then Some s' else None)
| meets_request ev s r acts s' r' : process_event ev t s r = Some (acts, s', r') ->
    meets (Some s) (Told ev) acts (Some s')
| meets_opened ev r s r1 acts s' r2 : create_session config a t r = (s, r1) ->
    process_event ev t s r1 = Some (acts, s', r2) ->
    meets None (Told ev) acts (Some s')
| meets_refused ev : meets None (Told ev) [] None
| meets_update s r acts s' r' : update t s r = Some (acts, s', r') ->
    meets (Some s) Updated acts (Some s')
| meets_asked s r (over : bool) acts s' r' : should_drop t s r = Some ((over, acts), s', r') ->
    meets (Some s) Asked acts (if over then None else Some s')
| meets_absent i : i = Updated \/ i = Asked -> meets None i [] None.

(** Inputs one after the other. *)
Inductive lifetime (s : option S) : list Input -> list (Action ReceiveEvent) -> option S -> Prop :=
| lifetime_start : lifetime s [] [] s
| lifetime_then ins acts s1 i acts' s2 : lifetime s ins acts s1 -> meets s1 i acts' s2 ->
    lifetime s (ins ++ [i]) (acts ++ acts') s2.

(** A life in two parts. *)
Lemma lifetime_split s ins2 : forall ins1 acts s2, lifetime s (ins1 ++ ins2) acts s2 ->
  exists acts1 s1 acts2, lifetime s ins1 acts1 s1 /\ lifetime s1 ins2 acts2 s2 /\ acts = acts1 ++ acts2.
Proof.
  induction ins2 as [|i ins2 IH] using rev_ind; intros ins1 acts s2 H.
  - rewrite app_nil_r in H. exists acts, s2, []. rewrite app_nil_r. repeat split; [done|constructor].
  - rewrite app_assoc in H. inversion H as [E|ins acts0 s1 i' acts' s' H1 H2 E]; [by destruct (_ ++ ins2)|].
    apply app_inj_tail in E as [-> ->]. destruct (IH _ _ _ H1) as (a1 & x & a2 & L1 & L2 & ->).
    exists a1, x, (a2 ++ acts'). rewrite app_assoc. repeat split; [done|]. by eapply lifetime_then.
Qed.
(** A life of one input. *)
Lemma lifetime_one s i acts s' : lifetime s [i] acts s' -> meets s i acts s'.
Proof.
  intros H. inversion H as [|ins acts0 s1 i' acts' s2 H1 H2 E]. destruct ins as [|x [|]]; try done.
  injection E as <-. inversion H1 as [|ins' ? ? ? ? ? ? ? E']; [by subst|by destruct ins'].
Qed.

(** What the engine keeps holds through a life. *)
Lemma meets_keeps (P : SocketAddr -> S -> Prop) s i acts s' : engine_keeps P config ->
  meets s i acts s' -> (forall x, s = Some x -> P a x) -> forall x, s' = Some x -> P a x.
Proof.
  intros K H Hs x ->. pose proof (create_keeps P config K) as Hc. destruct K as [_ Kp Ke Ku Kd].
  inversion H; subst; try done; repeat case_match; simplify_eq; eauto.
Qed.
Lemma lifetime_keeps (P : SocketAddr -> S -> Prop) s ins acts s' : engine_keeps P config ->
  lifetime s ins acts s' -> (forall x, s = Some x -> P a x) -> forall x, s' = Some x -> P a x.
Proof. intros K H Hs. induction H as [|? ? ? ? ? ? _ IH H]; [done|]. by eapply meets_keeps. Qed.
End Life.

(* ------------------------------------------------------------------ *)
(** ** A poll as an interleaving of lives                               *)
(* ------------------------------------------------------------------ *)

(** The datagrams and the events that a log of actions asks for, in order. *)
Definition log_sends log : list (SocketAddr * list Z) :=
  omap (fun x => match x.2 with Send bytes => Some (x.1, bytes) | Emit _ => None end) log.
Definition log_emits log : list ReceiveEvent := emits log.*2.

Lemma log_sends_app l1 l2 : log_sends (l1 ++ l2) = log_sends l1 ++ log_sends l2.
Proof. apply omap_app. Qed.
Lemma log_emits_app l1 l2 : log_emits (l1 ++ l2) = log_emits l1 ++ log_emits l2.
Proof. unfold log_emits. by rewrite fmap_app, emits_app. Qed.
Lemma log_sends_one a acts : log_sends ((a,.) <$> acts) = (a,.) <$> sends acts.
Proof. induction acts as [|[bytes|ev] acts IH]; [done|cbn; f_equal; exact IH|exact IH]. Qed.
Lemma log_emits_one a acts : log_emits ((a,.) <$> acts) = emits acts.
Proof. unfold log_emits. by rewrite <-list_fmap_compose, list_fmap_id. Qed.
(** What an address sends is what it says. *)
Lemma addressed_sends a log : addressed a (log_sends log) = sends (addressed a log).
Proof.
  induction log as [|[b [bytes|ev]] log IH]; [done|..].
  - change (log_sends ((b, Send bytes) :: log)) with ((b, bytes) :: log_sends log).
    rewrite !addressed_cons, IH. by destruct (decide (b = a)).
  - change (log_sends ((b, Emit ev) :: log)) with (log_sends log).
    rewrite addressed_cons, IH. by destruct (decide (b = a)).
Qed.

Context (config : Config) (t : Instant) (begin : gmap SocketAddr S).

(** A messenger and a view of the sessions that come from [begin] by the inputs [tr] and the
    actions [log]: every address has lived its own inputs and said its own part of the log. *)
Record apart (tr : SocketAddr -> list Input) log (mg : Messenger) (view : SocketAddr -> option S)
  : Prop := {
  ap_config : mg_config mg = config;
  ap_sends : mg_pending_sends mg = log_sends log;
  ap_events : mg_pending_events mg = log_emits log;
  ap_lives a : lifetime config t a (begin !! a) (tr a) (addressed a log) (view a)
}.

Lemma apart_ext tr tr' log mg view view' : (forall a, tr' a = tr a) -> (forall a, view' a = view a) ->
  apart tr log mg view -> apart tr' log mg view'.
Proof. intros Et Ev [H1 H2 H3 H4]. split; [done..|]. intros a. rewrite Et, Ev. apply H4. Qed.

(** One address lives on, the others stay as they are. *)
Lemma apart_step tr log mg view view' b i acts : apart tr log mg view ->
  meets config t b (view b) i acts (view' b) -> (forall a, a <> b -> view' a = view a) ->
  apart (fun a => tr a ++ addressed a [(b, i)]) (log ++ ((b,.) <$> acts)) (handle_actions b acts mg) view'.
Proof.
  intros [H1 H2 H3 H4] Hb Hn. rewrite handle_actions_run.
  split; cbn [mg_config mg_pending_sends mg_pending_events].
  - done.
  - by rewrite H2, log_sends_app, log_sends_one.
  - by rewrite H3, log_emits_app, log_emits_one.
  - intros a. rewrite addressed_app, addressed_cons, addressed_to.
    destruct (decide (b = a)) as [<-|Hne]; [by apply (lifetime_then _ _ _ _ _ _ (view b))|].
    change (addressed a []) with (@nil Input). rewrite !app_nil_r, Hn by congruence. apply H4.
Qed.
(** The manager has come that far. *)
Definition stands tr log m : Prop := apart tr log (sm_messenger m) (fun a => sm_sessions m !! a).

(** What no session can change of a manager. *)
Definition still m m' : Prop :=
  same_channels m m' /\ mg_sent_events (sm_messenger m') = mg_sent_events (sm_messenger m).
#[local] Instance still_preorder : PreOrder still.
Proof.
  split; [done|]. intros x y z [(H1 & H2 & H3) H4] [(H5 & H6 & H7) H8].
  split; [split; [|split]|]; congruence.
Qed.

(** From one manager to the next by the inputs [new]. *)
Record reaches (new : list (SocketAddr * Input)) m m' : Prop := {
  rc_still : still m m';
  rc_others a : a ∉ new.*1 -> sm_sessions m' !! a = sm_sessions m !! a;
  rc_stands tr log : stands tr log m -> exists log', stands (fun a => tr a ++ addressed a new) log' m'
}.

Lemma reaches_nothing m : reaches [] m m.
Proof.
  split; [done..|]. intros tr log H. exists log. eapply apart_ext; [|done|exact H].
  intros a. apply app_nil_r.
Qed.
Lemma reaches_app l1 l2 m1 m2 m3 : reaches l1 m1 m2 -> reaches l2 m2 m3 -> reaches (l1 ++ l2) m1 m3.
Proof.
  intros [S1 N1 H1] [S2 N2 H2]. split; [by etrans| |].
  { intros a. rewrite fmap_app, elem_of_app. intros Ha. rewrite N2, N1; tauto. }
  intros tr log H.
  apply H1 in H as [log1 H]. apply H2 in H as [log2 H]. exists log2. eapply apart_ext; [|done|exact H].
  intros a. by rewrite addressed_app, app_assoc.
Qed.
(** The usual step: one address acts. *)
Lemma reaches_step b i acts m m' :
  sm_messenger m' = handle_actions b acts (sm_messenger m) ->
  sm_user_events m' = sm_user_events m -> sm_receive_buffer m' = sm_receive_buffer m ->
  (forall a, a <> b -> sm_sessions m' !! a = sm_sessions m !! a) ->
  (mg_config (sm_messenger m) = config ->
    meets config t b (sm_sessions m !! b) i acts (sm_sessions m' !! b)) ->
  reaches [(b, i)] m m'.
Proof.
  intros E1 E2 E3 Hn Hl. split.
  - split; [split; [|done]|]; rewrite E1; [apply handle_actions_settings|by rewrite handle_actions_run].
  - intros a. cbn. rewrite list_elem_of_singleton. apply Hn.
  - intros tr log H. eexists. unfold stands. rewrite E1. eapply apart_step; [exact H| |exact Hn].
    apply Hl, (ap_config _ _ _ _ H).
Qed.
Lemma reaches_fold {A} (f : Poll -> A -> option Poll) (g : A -> SocketAddr * Input) (l : list A) :
  (forall st x st', f st x = Some st' -> reaches [g x] st.1.1 st'.1.1) ->
  forall st st', foldM f st l = Some st' -> reaches (g <$> l) st.1.1 st'.1.1.
Proof.
  intros Hf. induction l as [|x l IH]; intros st st' H; cbn [foldM] in H.
  - injection H as <-. apply reaches_nothing.
  - apply bind_Some in H as (st1 & H1 & H). rewrite fmap_cons.
    apply (reaches_app [g x] _ _ st1.1.1); [by apply Hf|by apply IH].
Qed.

(* ------------------------------------------------------------------ *)
(** ** The loops of a poll                                              *)
(* ------------------------------------------------------------------ *)

Lemma deliver_reaches data a (st st' : Poll) : deliver_datagram data a t st = Some st' ->
  reaches [(a, Heard data)] st.1.1 st'.1.1.
Proof.
  destruct st as [[m u] r]. intros H. unfold deliver_datagram in H.
  destruct (sm_sessions m !! a) as [s|] eqn:Ea.
  - apply bind_Some in H as ([[acts s'] r1] & E & H). apply bind_Some in H as (u1 & _ & H).
    injection H as <-. apply (reaches_step a _ acts); cbn; [done..|intros; by apply lookup_insert_ne|].
    intros _. rewrite Ea, lookup_insert_eq. by eapply meets_datagram.
  - destruct (create_session _ a t r) as [s r1] eqn:Ec. apply bind_Some in H as ([[acts s'] r2] & E & H).
    destruct (_ && _).
    + apply bind_Some in H as (m1 & ->%increment_spec & H). apply bind_Some in H as (u1 & _ & H).
      injection H as <-. apply (reaches_step a _ acts); cbn; [done..|intros; by apply lookup_insert_ne|].
      intros <-. rewrite Ea, lookup_insert_eq. exact (meets_newcomer _ _ _ _ _ _ _ _ _ _ true Ec E).
    + injection H as <-. apply (reaches_step a _ acts); cbn; [done..|].
      intros <-. rewrite Ea. exact (meets_newcomer _ _ _ _ _ _ _ _ _ _ false Ec E).
Qed.

Lemma user_event_reaches (st st' : Poll) ev : handle_user_event t st ev = Some st' ->
  reaches [(event_address ev, Told ev)] st.1.1 st'.1.1.
Proof.
  destruct st as [[m u] r]. intros H. unfold handle_user_event in H.
  set (a := event_address ev) in *. destruct (sm_sessions m !! a) as [s|] eqn:Ea.
  - apply bind_Some in H as ([[acts s'] r1] & E & H). apply bind_Some in H as (u1 & _ & H).
    injection H as <-. apply (reaches_step a _ acts); cbn; [done..|intros; by apply lookup_insert_ne|].
    intros _. rewrite Ea, lookup_insert_eq. by eapply meets_request.
  - destruct (negb _).
    { injection H as <-. apply (reaches_step a _ []); cbn; [done..|]. intros _. rewrite Ea. apply meets_refused. }
    destruct (create_session _ a t r) as [s r1] eqn:Ec. apply bind_Some in H as ([[acts s'] r2] & E & H).
    apply bind_Some in H as (m1 & ->%increment_spec & H). injection H as <-.
    apply (reaches_step a _ acts); cbn; [done..|intros; by apply lookup_insert_ne|].
    intros <-. rewrite Ea, lookup_insert_eq. by eapply meets_opened.
Qed.

Lemma update_reaches (st st' : Poll) a : update_session t st a = Some st' ->
  reaches [(a, Updated)] st.1.1 st'.1.1.
Proof.
  destruct st as [[m u] r]. intros H. unfold update_session in H.
  destruct (sm_sessions m !! a) as [s|] eqn:Ea.
  - apply bind_Some in H as ([[acts s'] r1] & E & H). injection H as <-.
    apply (reaches_step a _ acts); cbn; [done..|intros; by apply lookup_insert_ne|].
    intros _. rewrite Ea, lookup_insert_eq. by eapply meets_update.
  - injection H as <-. apply (reaches_step a _ []); cbn; [done..|].
    intros _. rewrite Ea. apply meets_absent. by left.
Qed.

(** What the receive loop takes from the socket and the interceptor lets through, with what
    both are afterwards. *)
Fixpoint intake (len : Z) (fuel : nat) (socket : T) (i : I)
  : list (SocketAddr * list Z) * T * I :=
  match fuel with
  | O => ([], socket, i)
  | Datatypes.S fuel =>
      match receive_packet len socket with
      | (Err _, socket) => ([], socket, i)
      | (Ok (data, a), socket) =>
          let '((pass, data), i) := on_receive a data i in
          if pass : bool then
            if is_blocking_mode socket then ([(a, data)], socket, i)
            else let '(l, socket, i) := intake len fuel socket i in ((a, data) :: l, socket, i)
          else intake len fuel socket i
      end
  end.


Lemma receive_loop_reaches fuel : forall (st st' : Poll) tr log,
  receive_loop fuel t st = Some st' -> stands tr log st.1.1 ->
  let '(arrived, socket, i) := intake (sm_receive_buffer st.1.1) fuel
    (mg_socket (sm_messenger st.1.1)) (mg_interceptor (sm_messenger st.1.1)) in
  mg_socket (sm_messenger st'.1.1) = socket /\ mg_interceptor (sm_messenger st'.1.1) = i /\
  mg_sent_events (sm_messenger st'.1.1) = mg_sent_events (sm_messenger st.1.1) /\
  sm_user_events st'.1.1 = sm_user_events st.1.1 /\
  exists log', stands (fun a => tr a ++ (Heard <$> addressed a arrived)) log' st'.1.1.
Proof.
  induction fuel as [|fuel IH]; intros [[m u] r] st' tr log H Hm; cbn [receive_loop] in H; [done|].
  cbn [intake fst]. destruct (receive_packet _ _) as [[[data a]|e] sock].
  2: { injection H as <-. do 4 (split; [done|]). exists log.
       apply (apart_ext tr _ _ _ (fun a => sm_sessions m !! a)); [|done|by destruct Hm].
       intros a. apply app_nil_r. }
  destruct (on_receive a data _) as [[pass data'] i].
  match goal with H : context [(set_messenger ?mg m, u, r)] |- _ =>
    set (m1 := set_messenger mg m) in *; assert (stands tr log m1) as Hm1 by by destruct Hm end.
  destruct pass; cbn [negb] in H; [|exact (IH (m1, u, r) st' tr log H Hm1)].
  apply bind_Some in H as (st1 & Hd & H).
  destruct (deliver_reaches _ _ _ _ Hd) as [[(Hs & Hu & Hb) He] _ Hst].
  apply Hst in Hm1 as [log1 Hm1]. injection Hs as Hs1 Hs2 Hs3. cbn [fst snd] in *.
  rewrite Hs2 in H. change (mg_socket (sm_messenger m1)) with sock in *.
  destruct (is_blocking_mode sock).
  - injection H as <-. do 4 (split; [done|]). exists log1. eapply apart_ext; [|done|exact Hm1].
    intros b. rewrite !addressed_cons. by destruct (decide (a = b)).
  - pose proof (IH st1 st' _ log1 H Hm1) as Hrest. rewrite Hb, Hs2, Hs3 in Hrest.
    change (sm_receive_buffer m1) with (sm_receive_buffer m) in Hrest.
    change (mg_interceptor (sm_messenger m1)) with i in Hrest.
    destruct (intake (sm_receive_buffer m) fuel sock i) as [[l socket'] i'].
    destruct Hrest as (E1 & E2 & E3 & E4 & log2 & Hl). do 2 (split; [done|]).
    split; [by rewrite E3, He|]. split; [by rewrite E4, Hu|]. exists log2.
    eapply apart_ext; [|done|exact Hl]. intros b. rewrite !addressed_cons.
    destruct (decide (a = b)); [by rewrite <-app_assoc|by rewrite app_nil_r].
Qed.

(** The sessions without those that are to go. *)
Definition but (gone : list SocketAddr) m (a : SocketAddr) : option S :=
  if decide (a ∈ gone) then None else sm_sessions m !! a.

Lemma check_drop_reaches (st st' : Poll) gone gone' b : check_drop t (st, gone) b = Some (st', gone') ->
  b ∉ gone ->
  (gone' = gone \/ gone' = gone ++ [b]) /\ still st.1.1 st'.1.1 /\
  (forall a, a <> b -> but gone' st'.1.1 a = but gone st.1.1 a) /\
  forall tr log, apart tr log (sm_messenger st.1.1) (but gone st.1.1) ->
  exists log', apart (fun a => tr a ++ addressed a [(b, Asked)]) log' (sm_messenger st'.1.1) (but gone' st'.1.1).
Proof.
  destruct st as [[m u] r]. intros H Hb. unfold check_drop in H.
  destruct (sm_sessions m !! b) as [s|] eqn:Eb.
  - apply bind_Some in H as ([[[over acts] s'] r1] & E & H). injection H as <- <-. cbn [fst].
    assert (forall a, a <> b -> but (if over then gone ++ [b] else gone)
      (with_actions b acts (set_sessions (<[b:=s']> (sm_sessions m)) m)) a = but gone m a) as Hn.
    { intros a Hne. unfold but. cbn. rewrite lookup_insert_ne by done.
      destruct over; [|done]. destruct (decide (a ∈ gone)); [by rewrite decide_True by (apply elem_of_app; by left)|].
      rewrite decide_False; [done|]. rewrite elem_of_app, list_elem_of_singleton. tauto. }
    split; [destruct over; tauto|].
    split; [split; [split; [apply handle_actions_settings|done]|by cbn; rewrite handle_actions_run]|].
    split; [exact Hn|].
    intros tr log Hap. eexists. eapply apart_step; [exact Hap| |exact Hn].
    unfold but. rewrite (decide_False (P := b ∈ gone)) by done. cbn. rewrite Eb, lookup_insert_eq.
    assert ((if decide (b ∈ (if over then gone ++ [b] else gone)) then None else Some s') =
      if over then None else Some s') as ->; [|by eapply meets_asked].
    destruct over; [by rewrite decide_True by (apply elem_of_app; right; by apply list_elem_of_singleton)|].
    by rewrite decide_False.
  - injection H as <- <-. split; [tauto|]. split; [done|]. split; [done|]. intros tr log Hap.
    exists (log ++ ((b,.) <$> [])). cbn [fst] in *.
    change (sm_messenger m) with (handle_actions b [] (sm_messenger m)).
    eapply apart_step; [exact Hap| |done]. unfold but. rewrite decide_False, Eb by done.
    apply meets_absent. by right.
Qed.

Lemma check_drops_reach l : NoDup l -> forall (st st' : Poll) gone gone', (forall a, a ∈ l -> a ∉ gone) ->
  foldM (check_drop t) (st, gone) l = Some (st', gone') ->
  still st.1.1 st'.1.1 /\
  (forall a, a ∉ l -> but gone' st'.1.1 a = but gone st.1.1 a) /\
  forall tr log, apart tr log (sm_messenger st.1.1) (but gone st.1.1) ->
  exists log',
    apart (fun a => tr a ++ addressed a ((fun a => (a, Asked)) <$> l)) log' (sm_messenger st'.1.1) (but gone' st'.1.1).
Proof.
  induction l as [|b l IH]; intros Hl st st' gone gone' Hg H; cbn [foldM] in H.
  - injection H as <- <-. split; [done|]. split; [done|]. intros tr log Hap. exists log.
    eapply apart_ext; [|done|exact Hap]. intros a. apply app_nil_r.
  - apply NoDup_cons in Hl as [Hb Hl]. apply bind_Some in H as ([st1 gone1] & H1 & H).
    destruct (check_drop_reaches _ _ _ _ _ H1 (Hg b ltac:(by left))) as (Hg1 & S1 & N1 & A1).
    assert (forall a, a ∈ l -> a ∉ gone1) as Hg2.
    { intros a Ha. assert (a ∉ gone) by (apply Hg; by right). destruct Hg1 as [->| ->]; [done|].
      rewrite elem_of_app, list_elem_of_singleton. intros [?| ->]; done. }
    destruct (IH Hl _ _ _ _ Hg2 H) as (S2 & N2 & A2).
    split; [by etrans|]. split.
    + intros a. rewrite not_elem_of_cons. intros [Ha1 Ha2]. by rewrite N2, N1.
    + intros tr log [log1 Hap]%A1. apply A2 in Hap as [log2 Hap]. exists log2.
      eapply apart_ext; [|done|exact Hap]. intros a. rewrite fmap_cons, !addressed_cons.
      destruct (decide (b = a)); [by rewrite <-app_assoc|by rewrite app_nil_r].
Qed.

(** The last two loops reach whoever has a session; the others do not miss them. *)
Context (order : list SocketAddr -> list SocketAddr).
Hypothesis order_permutes : forall l, order l ≡ₚ l.

Lemma no_key (sessions : gmap SocketAddr S) a : a ∉ keys order sessions -> sessions !! a = None.
Proof using order_permutes. intros Ha. apply eq_None_not_Some. by rewrite <-(elem_of_keys order). Qed.

Lemma update_loop_reaches tr log (st st' : Poll) : stands tr log st.1.1 ->
  update_loop order t st = Some st' ->
  still st.1.1 st'.1.1 /\ exists log', stands (fun a => tr a ++ [Updated]) log' st'.1.1.
Proof using order_permutes.
  intros Hst Hu. unfold update_loop in Hu. fold (keys order (sm_sessions st.1.1)) in Hu.
  apply (reaches_fold _ (fun a => (a, Updated))) in Hu; [|intros; by apply update_reaches].
  destruct Hu as [Hs Hn Ha]. apply Ha in Hst as [log' [H1 H2 H3 H4]]. split; [done|]. exists log'.
  split; [done..|]. intros a. specialize (H4 a). rewrite addressed_each in H4 by by apply keys_NoDup.
  destruct (decide (a ∈ keys order (sm_sessions st.1.1))) as [|Hk]; [done|]. rewrite app_nil_r in H4.
  rewrite Hn in H4 |- *. 2,3: by rewrite <-list_fmap_compose, list_fmap_id.
  rewrite (no_key _ _ Hk) in H4 |- *. rewrite <-(app_nil_r (addressed a log')).
  eapply lifetime_then; [exact H4|]. apply meets_absent. by left.
Qed.

Lemma drop_loop_reaches tr log (st st' : Poll) : stands tr log st.1.1 ->
  drop_loop order t st = Some st' ->
  mg_sent_events (sm_messenger st'.1.1) = mg_sent_events (sm_messenger st.1.1) /\
  settings (sm_messenger st'.1.1) = settings (sm_messenger st.1.1) /\
  exists log', stands (fun a => tr a ++ [Asked]) log' st'.1.1.
Proof using order_permutes.
  intros Hst Hd. unfold drop_loop in Hd. fold (keys order (sm_sessions st.1.1)) in Hd.
  apply bind_Some in Hd as ([[[m u] r] gone] & Hc & Hd). apply bind_Some in Hd as (m' & Hg & Hd).
  injection Hd as <-. destruct (drop_sessions_run _ _ _ Hg) as (Em & _ & Es).
  apply check_drops_reach in Hc as ([(Hset & _) He] & Hn & Ha);
    [|by apply keys_NoDup|intros; apply not_elem_of_nil].
  cbn [fst] in *. rewrite Em. split; [done|]. split; [done|].
  assert (apart tr log (sm_messenger st.1.1) (but [] st.1.1)) as Hst0.
  { eapply apart_ext; [done| |exact Hst]. intros a. unfold but. by rewrite decide_False by apply not_elem_of_nil. }
  apply Ha in Hst0 as [log' [H1 H2 H3 H4]]. exists log'. split; [by rewrite Em..|]. intros a.
  specialize (H4 a). rewrite Es. fold (but gone m a). rewrite addressed_each in H4 by by apply keys_NoDup.
  destruct (decide (a ∈ keys order (sm_sessions st.1.1))) as [|Hk]; [done|]. rewrite app_nil_r in H4.
  rewrite (Hn _ Hk) in H4 |- *. unfold but in H4 |- *.
  rewrite decide_False, (no_key _ _ Hk) in H4 |- * by apply not_elem_of_nil.
  rewrite <-(app_nil_r (addressed a log')). eapply lifetime_then; [exact H4|]. apply meets_absent. by right.
Qed.
End Isolation.

(* ------------------------------------------------------------------ *)
(** ** The whole poll                                                   *)
(* ------------------------------------------------------------------ *)

Section Poll.
Context {S SendEvent ReceiveEvent T I : Type}.
Context `{!Session S SendEvent ReceiveEvent, !Transport T, !Interceptor I}.
#[local] Abbreviation SessionManager := (@SessionManager S SendEvent ReceiveEvent T I).
Implicit Types (m : SessionManager) (a : SocketAddr) (t : Instant) (r : Rng).
Context (order : list SocketAddr -> list SocketAddr).
Hypothesis order_permutes : forall l, order l ≡ₚ l.

(** The user events of an address. *)
Definition requests a (evs : list SendEvent) : list SendEvent :=
  filter (fun ev => event_address ev = a) evs.

Lemma addressed_requests a (evs : list SendEvent) :
  addressed a ((fun ev => (event_address ev, Told ev)) <$> evs) = Told <$> requests a evs.
Proof.
  unfold requests. induction evs as [|ev evs IH]; [done|].
  rewrite fmap_cons, addressed_cons, IH, filter_cons. cbn beta.
  destruct (decide (event_address ev = a)); done.
Qed.

Lemma poll_apart fuel t m r m' r'
  (Hidle : mg_pending_sends (sm_messenger m) = [] /\ mg_pending_events (sm_messenger m) = [])
  (Hpoll : SessionManager_manual_poll order fuel t m r = Some (m', r')) :
  let mg := sm_messenger m in
  let '(arrived, socket, i) :=
    intake (sm_receive_buffer m) fuel (mg_socket mg) (mg_interceptor mg) in
  exists log : list (SocketAddr * Action ReceiveEvent),
    mg_socket (sm_messenger m') = send_all socket (intercepted i (log_sends log)).1 /\
    mg_interceptor (sm_messenger m') = (intercepted i (log_sends log)).2 /\
    mg_sent_events (sm_messenger m') = mg_sent_events mg ++ log_emits log /\
    forall a, lifetime (mg_config mg) t a (sm_sessions m !! a)
      ((Heard <$> addressed a arrived) ++ (Told <$> requests a (sm_user_events m)) ++
       [Updated; Asked]) (addressed a log) (sm_sessions m' !! a).
Proof using order_permutes.
  intros mg. subst mg. destruct Hidle as [I1 I2]. unfold SessionManager_manual_poll in Hpoll.
  apply bind_Some in Hpoll as (st1 & H1 & H). apply bind_Some in H as (st2 & H2 & H).
  apply bind_Some in H as (st3 & H3 & H). apply bind_Some in H as ([[m4 u4] r4] & H4 & H).
  injection H as <- <-. set (config := mg_config (sm_messenger m)).
  assert (stands config t (sm_sessions m) (fun _ => []) [] m) as B0 by (split; [done..|constructor]).
  pose proof (receive_loop_reaches config t _ _ _ _ _ _ H1 B0) as B1. cbn [fst] in B1.
  destruct (intake _ _ _ _) as [[arrived socket] i]. destruct B1 as (Es & Ei & Ee & Eu & log1 & B1).
  unfold user_event_loop in H2. destruct st1 as [[m1 u1] r1]. cbn [fst] in *.
  apply (reaches_fold config t (sm_sessions m) _ (fun ev => (event_address ev, Told ev))) in H2;
    [|intros; by apply user_event_reaches].
  destruct H2 as [[[Hset2 _] He2] _ B2]. cbn [fst] in B2.
  destruct (B2 (fun a => [] ++ (Heard <$> addressed a arrived)) log1 B1) as [log2 B3].
  destruct (update_loop_reaches config t _ order order_permutes _ _ _ _ B3 H3) as ([[Hset3 _] He3] & log3 & B4).
  destruct (drop_loop_reaches config t _ order order_permutes _ _ _ _ B4 H4) as (He4 & Hset4 & log4 & [_ P1 P2 L]).
  cbn [fst sm_messenger sm_sessions set_messenger set_user_events] in *. exists log4.
  rewrite Hset3, Hset2 in Hset4. injection Hset4 as _ Hs4 Hi4.
  pose proof (flush_run (sm_messenger m4)) as F. cbv zeta in F.
  rewrite Hs4, Hi4, P1, P2, Es, Ei, He4, He3, He2, Ee in F.
  destruct (intercepted i (log_sends log4)) as [out i'] eqn:Eo. destruct F as (F1 & F2 & F3 & _).
  split; [done|]. split; [done|]. split; [done|]. intros a. specialize (L a).
  rewrite addressed_requests, Eu, <-!app_assoc in L. exact L.
Qed.

(** C16: Sessions do not disturb each other.  For any session engine, socket and interceptor, a
    poll is a log of actions of the addresses: the events it reports and, through the
    interceptor, the datagrams it sends are those of the log, in order; and for every address,
    what it says in the log and the session it has in the end are a life of its own: its
    session before the poll meets its own datagrams that the interceptor let through, its own
    user events, one update and one question whether it is over, in this order and nothing
    else.  The others decide only the draws of the generator and whether a stranger is kept. *)
Theorem sessions_apart fuel t m r m' r'
  (Hidle : mg_pending_sends (sm_messenger m) = [] /\ mg_pending_events (sm_messenger m) = [])
  (Hpoll : SessionManager_manual_poll order fuel t m r = Some (m', r')) :
  let mg := sm_messenger m in
  let '(arrived, socket, i) :=
    intake (sm_receive_buffer m) fuel (mg_socket mg) (mg_interceptor mg) in
  exists log : list (SocketAddr * Action ReceiveEvent),
    mg_socket (sm_messenger m') = send_all socket (intercepted i (log_sends log)).1 /\
    mg_interceptor (sm_messenger m') = (intercepted i (log_sends log)).2 /\
    mg_sent_events (sm_messenger m') = mg_sent_events mg ++ log_emits log /\
    forall a, lifetime (mg_config mg) t a (sm_sessions m !! a)
      ((Heard <$> addressed a arrived) ++ (Told <$> requests a (sm_user_events m)) ++
       [Updated; Asked]) (addressed a log) (sm_sessions m' !! a).
Proof using order_permutes. by eapply poll_apart. Qed.
End Poll.

#[local] Existing Instances Toy.socket_transport Toy.session_engine.

(** Two strangers: the one at port 5 comes and goes, the one at port 6 lives as if it were
    alone. *)
Lemma sessions_apart_witness :
  exists acts : list (Action SocketAddr),
    lifetime Toy.config 0 (Toy.addr 6) None [Heard [2]; Updated; Asked] acts (Some Toy.Live).
Proof.
  assert (SessionManager_manual_poll (fun l => l) 4 0 Toy.manager (fun _ => 0) =
    Some (Toy.polled, fun _ => 0)) as E by (vm_compute; reflexivity).
  pose proof (sessions_apart (fun l => l) (fun l => Permutation_refl l) 4 0 Toy.manager (fun _ => 0)
    Toy.polled (fun _ => 0) (conj eq_refl eq_refl) E) as H.
  destruct H as (log & _ & _ & _ & L). exists (addressed (Toy.addr 6) log). exact (L (Toy.addr 6)).
Defined.
