(* ===== verification/HostSystem.v ===== *)
(** The host as a whole: what holds of every host that the application can reach, and what
    a poll does to its peers. *)

From S2P Require Import Prelude Core Externs Buffers Packet Command CommandProcessor PeerParts.
From S2P Require Import Peer PeerFacts Session PeerSession ProcessorFacts HostFacts.
From S2P Require Import SessionEvents Ack.
From S2P Require Import SessionManager Sockets Host ManagerFacts PollFacts.

(* ------------------------------------------------------------------ *)
(** ** Peers as an engine                                               *)
(* ------------------------------------------------------------------ *)

(** The peer at an address has that address. *)
Definition keyed (a : SocketAddr) (p : Peer) : Prop := p_remote_address p = a.

Lemma peer_create_keyed `{Externs} c config a t r :
  keyed a (@create_session _ _ _ (Peer_Session c) config a t r).1.
Proof. cbn. unfold Peer_new. by destruct (random_u16 r) as [x r1]; destruct (random_u32 r1). Qed.

Lemma peer_should_drop_is `{Externs} c t p r :
  @should_drop _ _ _ (Peer_Session c) t p r = Some (Peer_should_drop t p, p, r).
Proof. done. Qed.

Lemma peer_engine_keeps `{Externs} c config :
  @engine_keeps Peer Packet SocketEvent (Peer_Session c) keyed config.
Proof.
  split.
  - intros a t r. apply peer_create_keyed.
  - intros data t a p r acts p' r' E <-. exact (lv_address _ _ (process_packet_lives _ _ _ _ _ _ _ E)).
  - intros ev t a p r acts p' r' E <-. exact (lv_address _ _ (event_lives _ _ _ _ _ _ _ E)).
  - intros t a p r acts p' r' E <-. exact (cm_address _ _ (update_calm c t _ _ _ _ _ E)).
  - intros t a p r d acts p' r' E Hp. cbn in E. by injection E as _ <- <-.
Qed.

(* ------------------------------------------------------------------ *)
(** ** Reachable hosts                                                  *)
(* ------------------------------------------------------------------ *)

Section Reachable.
Context {X : Externs} {U C I : Type} `{!UdpSocket U, !Clock C, !Interceptor I}.
#[local] Abbreviation Host := (Host U C I).
Implicit Types (h : Host) (a : SocketAddr).

(** A call of the application on its host.  The readings of the clock, the order in which the
    hash map is iterated and the random draws may differ from poll to poll. *)
Inductive host_step : Host -> Host -> Prop :=
| hs_send packet h : host_step h (Host_send packet h)
| hs_recv h : host_step h (Host_recv h).2
| hs_disconnect a h : host_step h (Host_disconnect a h)
| hs_broadcast c order ch data d o h : host_step h (Host_broadcast c order ch data d o h).2
| hs_poll c order fuel t h r h' r' : (forall l, order l ≡ₚ l) ->
    Host_manual_poll c order fuel t h r = Some (h', r') -> host_step h h'.

(** The invariant of a host. *)
Record host_ok (config : Config) h : Prop := {
  ho_keyed a p : sm_sessions (h_handler h) !! a = Some p -> p_remote_address p = a;
  ho_alive a p : sm_sessions (h_handler h) !! a = Some p -> p_state p <> Zombie;
  ho_sends : mg_pending_sends (sm_messenger (h_handler h)) = [];
  ho_events : mg_pending_events (sm_messenger (h_handler h)) = [];
  ho_config : mg_config (sm_messenger (h_handler h)) = config;
  ho_books : manager_books (max_duplicate_peers config) (h_handler h)
}.

(** A survivor of a poll is not to be dropped. *)
Lemma poll_survivors c order fuel t h r h' r' a p :
  Host_manual_poll c order fuel t h r = Some (h', r') ->
  (forall l, order l ≡ₚ l) -> sm_sessions (h_handler h') !! a = Some p ->
  (Peer_should_drop t p).1 = false.
Proof.
  unfold Host_manual_poll. intros ([m r1] & H & E)%bind_Some Ho Hp. injection E as <- <-.
  cbn in Hp. unfold SessionManager_manual_poll in H. apply bind_Some in H as (st1 & _ & H).
  apply bind_Some in H as (st2 & _ & H). apply bind_Some in H as ([[m3 u3] r3] & _ & H).
  apply bind_Some in H as ([[m4 u4] r4] & H4 & H). injection H as <- <-. cbn in Hp.
  apply (drop_loop_run Peer_should_drop (peer_should_drop_is c) order Ho) in H4 as (_ & _ & _ & Hs & _).
  rewrite Hs in Hp. by apply map_lookup_filter_Some in Hp as [_ Hp].
Qed.

Lemma not_dropped_alive t p : (Peer_should_drop t p).1 = false -> p_state p <> Zombie.
Proof. unfold Peer_should_drop. intros H E. by rewrite E in H. Qed.

Lemma sends_ok config h evs : host_ok config h ->
  host_ok config (set_handler (set_user_events evs (h_handler h)) h).
Proof. intros [H1 H2 H3 H4 H5 H6]. by split. Qed.

Lemma broadcast_ok config ch data d o addrs : forall h, host_ok config h ->
  host_ok config (foldl (fun h addr => Host_send (Packet_new addr data d o ch) h) h addrs).
Proof.
  induction addrs as [|a addrs IH]; intros h Hh; cbn [foldl]; [done|]. apply IH. by apply sends_ok.
Qed.

Lemma disconnect_alive p : p_state p <> Zombie -> p_state (Peer_disconnect p) <> Zombie.
Proof. unfold Peer_disconnect. intros H. by destruct (negb _). Qed.

Lemma host_step_ok config h h' : host_step h h' -> host_ok config h -> host_ok config h'.
Proof.
  intros [packet h0|h0|a h0|c order ch data d o h0|c order fuel t h0 r h1 r' Ho E] Hok.
  - by apply sends_ok.
  - destruct Hok as [H1 H2 H3 H4 H5 H6]. unfold Host_recv. destruct (mg_sent_events _); by split.
  - unfold Host_disconnect, session_mut. destruct (sm_sessions (h_handler h0) !! a) as [p|] eqn:Ea; [|done].
    cbn. destruct Hok as [H1 H2 H3 H4 H5 [Hb Hm]]. split; cbn; try done.
    + intros b q. destruct (decide (a = b)) as [<-|Hn]; [|rewrite lookup_insert_ne by done; apply H1].
      rewrite lookup_insert_eq. intros [= <-]. rewrite <-(H1 a p Ea).
      apply (lv_address _ _ (disconnect_lives p)).
    + intros b q. destruct (decide (a = b)) as [<-|Hn]; [|rewrite lookup_insert_ne by done; apply H2].
      rewrite lookup_insert_eq. intros [= <-]. by apply disconnect_alive, (H2 a p).
    + split; [by eapply books_replace|done].
  - unfold Host_broadcast. cbn [snd]. by apply broadcast_ok.
  - pose proof (fun a p => poll_survivors c order fuel t h0 r h1 r' a p E Ho) as Hs.
    unfold Host_manual_poll in E. apply bind_Some in E as ([m r1] & E & E1). injection E1 as <- <-.
    destruct Hok as [H1 H2 H3 H4 H5 H6]. cbn in *.
    pose proof (manual_poll_books (max_duplicate_peers config) order Ho fuel t _ _ _ _ E H6) as Hb.
    apply (manual_poll_keeps keyed config (peer_engine_keeps c config)) in E; [|by split].
    destruct E as ([K1 K2] & K6 & K7). split; try done.
    intros a p Hp. by eapply not_dropped_alive, Hs.
Qed.

Lemma bound_ok u config clk i h : 0 <= max_duplicate_peers config ->
  bind_with_config_clock_and_interceptor u config clk i = Ok h -> host_ok config h.
Proof.
  intros Hl. unfold bind_with_config_clock_and_interceptor, SocketWithConditioner_new.
  destruct (apply_socket_options config u) as [[[]|e] u1]; [|done]. cbn [map_err mbind result_bind].
  destruct (set_nonblocking _ u1) as [[[]|e] u2]; [|done]. intros [= <-].
  split; cbn; [done|done|done|done|done|]. split; [by apply books_empty|done].
Qed.

(** C15: The invariant of a host.  Whatever the application does with a host that was opened with
    any socket, configuration, clock and interceptor, and whatever arrives: the session under an
    address is the peer of that address; no session has been disconnected by its remote side and
    kept; nothing that a session asked for is left undone between polls; the configuration stays
    the one given; and no IP address has more sessions than allowed. *)
Theorem host_invariant u config clk i h0 h (Hlimit : 0 <= max_duplicate_peers config)
  (Hbind : bind_with_config_clock_and_interceptor u config clk i = Ok h0)
  (Hsteps : rtc host_step h0 h) :
  (forall a p, sm_sessions (h_handler h) !! a = Some p ->
     p_remote_address p = a /\ p_state p <> Zombie) /\
  mg_pending_sends (sm_messenger (h_handler h)) = [] /\
  mg_pending_events (sm_messenger (h_handler h)) = [] /\
  mg_config (sm_messenger (h_handler h)) = config /\
  (max_duplicate_peers config <> 0 -> forall ip,
     ip_sessions (sm_sessions (h_handler h)) ip <= max_duplicate_peers config).
Proof.
  assert (host_ok config h) as [H1 H2 H3 H4 H5 [Hb _]].
  { apply bound_ok in Hbind; [|done]. clear clk i u. induction Hsteps as [|x y z Hxy _ IH]; [done|].
    by apply IH, (host_step_ok config x y). }
  split; [by intros a p Hp; split; [apply H1|apply (H2 a)]|]. split; [done|]. split; [done|].
  split; [done|]. intros Hne ip. by apply (bk_limit _ _ _ Hb).
Qed.

(* ------------------------------------------------------------------ *)
(** ** Dropping peers                                                   *)
(* ------------------------------------------------------------------ *)

Lemma handle_actions_pending a acts : forall mg : @Messenger SocketEvent (SocketWithConditioner U) (BoxInterceptor I),
  Forall (fun act => match act with Send _ => False | Emit _ => True end) acts ->
  mg_pending_events (handle_actions a acts mg) = mg_pending_events mg ++ events acts /\
  mg_pending_sends (handle_actions a acts mg) = mg_pending_sends mg.
Proof.
  unfold handle_actions. induction acts as [|[b|e] acts IH]; intros mg H; cbn [foldl];
    [by rewrite app_nil_r|by inversion H|]. apply Forall_cons in H as [_ H].
  destruct (IH (handle_action a mg (Emit e)) H) as [-> ->]. cbn. by rewrite <-app_assoc.
Qed.

Lemma drop_verdict_emits t p :
  Forall (fun act => match act with Send _ => False | Emit _ => True end) (Peer_should_drop t p).2.
Proof.
  unfold Peer_should_drop. case_bool_decide; [by apply Forall_singleton|]. cbn [snd].
  destruct (_ || _); [|constructor]. constructor; [done|].
  destruct (Peer_is_established p); [by apply Forall_singleton|constructor].
Qed.

(** When a session is over at time [t]: the other side has disconnected, more packets are in
    flight than the limit, or nothing was heard for the idle timeout.  The count of packets in
    flight is a [u16]. *)
Definition over (t : Instant) (p : Peer) : Prop :=
  p_state p = Zombie \/
  max_packets_in_flight (p_config p) < Z.of_nat (size (ah_sent_packets (p_acknowledge_handler p))) mod 65536 \/
  idle_connection_timeout (p_config p) <= Z.max 0 (t - p_last_heard p).
#[export] Instance over_dec t p : Decision (over t p).
Proof. unfold over. apply _. Defined.

(** What a session that is over says at its end. *)
Definition farewell (t : Instant) (p : Peer) : list SocketEvent :=
  if decide (p_state p = Zombie) then [EvDisconnect (p_remote_address p)]
  else if decide (over t p) then
    EvTimeout (p_remote_address p) ::
      (if decide (p_state p = Connected \/ p_state p = ConnectionSucceeded) then [EvDisconnect (p_remote_address p)] else [])
  else [].
(** The events with which the sessions at the addresses [l] end, in that order. *)
Definition farewells t (sessions : gmap SocketAddr Peer) (l : list SocketAddr) : list SocketEvent :=
  mjoin ((fun a => default [] (farewell t <$> sessions !! a)) <$> l).

Lemma should_drop_over t p :
  Peer_should_drop t p = (bool_decide (over t p), Emit <$> farewell t p).
Proof.
  unfold Peer_should_drop, farewell. destruct (decide (p_state p = Zombie)) as [Hz|Hz].
  { rewrite !bool_decide_eq_true_2; [done|by left|done]. }
  rewrite (bool_decide_eq_false_2 (p_state p = Zombie)) by done. cbv zeta.
  assert ((max_packets_in_flight (p_config p) <? Peer_packets_in_flight p)
    || (idle_connection_timeout (p_config p) <=? Peer_last_heard t p) = bool_decide (over t p)) as ->.
  { unfold over, Peer_packets_in_flight, AcknowledgmentHandler_packets_in_flight, as_u16, Peer_last_heard,
      duration_since, saturating_sub. apply eq_true_iff_eq. 
    rewrite bool_decide_eq_true, orb_true_iff, Z.ltb_lt, Z.leb_le. tauto. }
  case_bool_decide as Ho; [rewrite decide_True by done|by rewrite decide_False].
  f_equal. unfold Peer_is_established. by destruct (p_state p).
Qed.
Lemma standing_over t (sessions : gmap SocketAddr Peer) :
  filter (fun kv => (Peer_should_drop t kv.2).1 = false) sessions = filter (fun kv => ~ over t kv.2) sessions.
Proof.
  apply map_filter_ext. intros a p _. rewrite should_drop_over. cbn [fst snd]. apply bool_decide_eq_false.
Qed.
Lemma last_actions_over t (sessions : gmap SocketAddr Peer) a :
  events (last_actions Peer_should_drop t sessions a) = default [] (farewell t <$> sessions !! a).
Proof.
  unfold last_actions. destruct (sessions !! a) as [p|]; [|done]. cbn [fmap option_fmap option_map default from_option id].
  rewrite should_drop_over. apply (emits_all (farewell t p)).
Qed.

Lemma last_words_peers t sessions l :
  forall mg : @Messenger SocketEvent (SocketWithConditioner U) (BoxInterceptor I),
  mg_pending_events (last_words Peer_should_drop t sessions l mg) =
    mg_pending_events mg ++ farewells t sessions l /\
  mg_pending_sends (last_words Peer_should_drop t sessions l mg) = mg_pending_sends mg.
Proof.
  unfold last_words, farewells. induction l as [|a l IH]; intros mg; [by cbn; rewrite app_nil_r|].
  cbn [foldl fmap list_fmap mjoin list_join]. destruct (IH (handle_actions a
    (last_actions Peer_should_drop t sessions a) mg)) as [-> ->].
  destruct (handle_actions_pending a (last_actions Peer_should_drop t sessions a) mg) as [-> ->].
  - unfold last_actions. destruct (sessions !! a); [apply drop_verdict_emits|constructor].
  - by rewrite last_actions_over, <-app_assoc.
Qed.

(** C19: Dropping.  From books that agree with the sessions, the drop loop always succeeds.  It
    removes exactly the sessions of which one of these holds: the other side disconnected (the
    state is [Zombie]); the packets in flight, counted as a [u16], exceed the limit; nothing was
    heard for the idle timeout or longer.  It leaves the others as they were, in agreement with
    the counters per IP address.  It reports, in the order of iteration and for no other session, a
    disconnect of a zombie, and of the others a timeout, followed by a disconnect if the session
    was established; and it sends nothing. *)
Theorem peers_dropped_exactly c order limit t u r
  (m : HostManager U I) (Horder : forall l, order l ≡ₚ l) (Hbooks : manager_books limit m)
  (Hsize : Z.of_nat (size (sm_sessions m)) <= u64_max) :
  exists m', @drop_loop _ _ _ _ _ (Peer_Session c) order t (m, u, r) = Some (m', u, r) /\
    sm_sessions m' = filter (fun kv => ~ over t kv.2) (sm_sessions m) /\
    manager_books limit m' /\
    mg_pending_events (sm_messenger m') =
      mg_pending_events (sm_messenger m) ++ farewells t (sm_sessions m) (keys order (sm_sessions m)) /\
    mg_pending_sends (sm_messenger m') = mg_pending_sends (sm_messenger m) /\
    forall a p, sm_sessions m' !! a = Some p -> p_state p <> Zombie /\
      Peer_packets_in_flight p <= max_packets_in_flight (p_config p) /\
      Peer_last_heard t p < idle_connection_timeout (p_config p).
Proof.
  destruct (@drop_loop _ _ _ _ _ (Peer_Session c) order t (m, u, r)) as [[[m' u'] r']|] eqn:E.
  - pose proof (drop_loop_books limit order Horder t m u r m' u' r' E Hbooks) as Hb.
    apply (drop_loop_run Peer_should_drop (peer_should_drop_is c) order Horder) in E
      as (-> & -> & _ & Hs & Hm).
    exists m'. rewrite Hm, Hs, standing_over.
    destruct (last_words_peers t (sm_sessions m) (keys order (sm_sessions m)) (sm_messenger m)) as [-> ->].
    split; [done|]. split; [done|]. split; [done|]. split; [done|]. split; [done|].
    intros a p [_ Hp]%map_lookup_filter_Some. cbn [snd] in Hp. unfold over in Hp.
    unfold Peer_packets_in_flight, AcknowledgmentHandler_packets_in_flight, as_u16, Peer_last_heard,
      duration_since, saturating_sub. split; [tauto|]. lia.
  - exfalso. revert E. unfold drop_loop. cbn [fst]. fold (keys order (sm_sessions m)).
    pose proof (check_drops_run Peer_should_drop (peer_should_drop_is c) t u r
      (keys order (sm_sessions m)) m []) as Hc.
    unfold HostManager, Poll in *. rewrite Hc. cbn [mbind option_bind app].
    match goal with |- context [foldM drop_session ?m1 ?l] =>
      destruct (drop_sessions_total limit l m1) as [m2 E2] end; [exact Hbooks| |exact Hsize| |by rewrite E2].
    + by apply NoDup_filter, keys_NoDup.
    + intros a [_ Ha]%list_elem_of_filter. apply elem_of_dom. by apply (elem_of_keys order Horder).
Qed.
End Reachable.

(* ------------------------------------------------------------------ *)
(** ** A concrete host                                                  *)
(* ------------------------------------------------------------------ *)

(** Sockets that are a list of waiting datagrams and a list of sent ones. *)
Module Loopback.
Record sock : Type := mkSock {
  sk_addr : SocketAddr;
  sk_waiting : list (list Z * SocketAddr);
  sk_sent : list (list Z * SocketAddr)
}.
#[export] Instance sock_UdpSocket : UdpSocket sock := {|
  udp_bind addrs :=
    match addrs with
    | a :: _ => Ok (mkSock a [] [])
    | [] => Err (mkIoError InvalidInput "no addresses")
    end;
  try_clone := mret tt;
  set_recv_buffer_size _ := mret tt;
  set_send_buffer_size _ := mret tt;
  set_ttl _ := mret tt;
  set_broadcast _ := mret tt;
  set_nonblocking _ := mret tt;
  send_to bytes addr s :=
    (Ok (zlen bytes), mkSock (sk_addr s) (sk_waiting s) (sk_sent s ++ [(bytes, addr)]));
  recv_from len s :=
    match sk_waiting s with
    | [] => (Err (mkIoError WouldBlock "nothing there"), s)
    | (bytes, from) :: rest =>
        let got := take (Z.to_nat len) bytes in
        (Ok (zlen got, from, got ++ replicate (Z.to_nat len - length got) 0),
         mkSock (sk_addr s) rest (sk_sent s))
    end;
  udp_local_addr s := Ok (sk_addr s)
|}.

Definition system : SystemClock := fun n => Z.of_nat n * 1000000.
Definition host : Host sock SystemClock NoOpInterceptor :=
  match bind_any_with_config system Config_default with
  | Ok h => h
  | Err _ => mkHost (SessionManager_new (mkSocketWithConditioner false (mkSock sample_addr [] []))
               Config_default) system
  end.
Definition identity (l : list SocketAddr) : list SocketAddr := l.
End Loopback.
Import Loopback Sample.

(** The host sends a packet to a peer it does not know, which opens a session. *)
Definition sent_host : Host sock SystemClock NoOpInterceptor :=
  Host_send (Packet_new sample_addr [1; 2] Unreliable OrderNone 0) host.
Definition polled_host : Host sock SystemClock NoOpInterceptor :=
  default host (fst <$> Host_manual_poll 5 identity 1 5 sent_host sample_rng).

Lemma polled_host_run : exists r', Host_manual_poll 5 identity 1 5 sent_host sample_rng = Some (polled_host, r').
Proof.
  unfold polled_host. destruct (Host_manual_poll 5 identity 1 5 sent_host sample_rng) as [[h r]|] eqn:E;
    [by exists r|vm_compute in E; discriminate E].
Qed.

Lemma polled_host_reached : rtc host_step host polled_host.
Proof.
  destruct polled_host_run as [r' E].
  eapply rtc_l; [apply (hs_send (Packet_new sample_addr [1; 2] Unreliable OrderNone 0))|].
  apply rtc_once. exact (hs_poll _ _ _ _ _ _ _ _ (fun l => Permutation_refl l) E).
Qed.

Definition any_port : sock := mkSock (mkSocketAddr (IpV4 2130706433) 0) [] [].
Lemma host_bound : bind_with_config_clock_and_interceptor any_port Config_default system None = Ok host.
Proof. reflexivity. Qed.

Lemma host_invariant_witness :
  size (sm_sessions (h_handler polled_host)) = 1%nat /\
  (forall a p, sm_sessions (h_handler polled_host) !! a = Some p -> p_remote_address p = a).
Proof.
  split; [vm_compute; reflexivity|].
  destruct (host_invariant any_port Config_default system None host polled_host (Z.le_refl 0)
    host_bound polled_host_reached) as (H & _).
  intros a p Hp. exact (proj1 (H a p Hp)).
Defined.

Lemma peers_dropped_exactly_witness :
  exists m', @drop_loop _ _ _ _ _ (Peer_Session 0) identity 9000000000 (h_handler polled_host, 0, sample_rng)
      = Some (m', 0, sample_rng) /\
    sm_sessions m' = ∅ /\ mg_pending_events (sm_messenger m') = [EvTimeout sample_addr].
Proof.
  destruct (peers_dropped_exactly 0 identity 0 9000000000 0 sample_rng (h_handler polled_host)
    (fun l => Permutation_refl l)) as (m' & E & Hs & _ & H & _).
  - apply (host_step_ok Config_default sent_host polled_host).
    + destruct polled_host_run as [r' E]. exact (hs_poll _ _ _ _ _ _ _ _ (fun l => Permutation_refl l) E).
    + exact (sends_ok _ _ _ (bound_ok any_port Config_default system None host (Z.le_refl 0) host_bound)).
  - vm_compute. discriminate.
  - exists m'. split; [exact E|]. rewrite Hs, H. split; vm_compute; reflexivity.
Defined.

(** A session that the limits refuse has been heard all the same: a host that accepts no sessions
    reports the peer's connection and its packet, and keeps no session. *)
Definition refusing_host : Host sock SystemClock NoOpInterceptor :=
  let socket := mkSock sample_addr (sk_sent (sc_socket (SessionManager_socket (h_handler polled_host)))) [] in
  mkHost (mkSessionManager ∅ 1452 []
    (Messenger_new Config_default (mkSocketWithConditioner false socket) [] (boxed None)) 0 ∅ 0) system.

Example refused_session_is_heard :
  match Host_manual_poll 5 identity 3 5 refusing_host sample_rng with
  | Some (h, _) =>
      sm_sessions (h_handler h) = ∅ /\
      Host_get_event_receiver h =
        [EvConnect sample_addr; EvPacket (Packet_new sample_addr [1; 2] Unreliable OrderNone 0)]
  | None => False
  end.
Proof. vm_compute. split; reflexivity. Qed.
