(* ===== verification/BindFacts.v ===== *)
(** Opening a host: which operations are carried out on the socket, what each failure gives,
    and what a host is like that has just been opened. *)

From S2P Require Import Prelude Core Externs Buffers Packet PeerParts Peer PeerSession Session.
From S2P Require Import SessionManager Sockets Host HostFacts HostSystem.

Section Bind.
Context {X : Externs} {U I : Type} `{!UdpSocket U, !Interceptor I}.

(** What a configuration asks of the socket, in order. *)
Definition socket_setup (config : Config) : list (IoM U unit) :=
  [try_clone]
  ++ (set_recv_buffer_size <$> option_list (socket_recv_buffer_size config))
  ++ (set_send_buffer_size <$> option_list (socket_send_buffer_size config))
  ++ (set_ttl <$> option_list (socket_ttl config))
  ++ (if socket_broadcast config then [set_broadcast true] else [])
  ++ [set_nonblocking (negb (blocking_mode config))].

(** The operations up to the first that fails. *)
Fixpoint run_setup (ops : list (IoM U unit)) : IoM U unit :=
  match ops with
  | [] => mret tt
  | op :: ops => _ ← op; run_setup ops
  end.

Lemma run_setup_app ops ops' u :
  run_setup (ops ++ ops') u =
    match run_setup ops u with
    | (Ok _, u) => run_setup ops' u
    | (Err e, u) => (Err e, u)
    end.
Proof.
  revert u. induction ops as [|op ops IH]; intros u; [done|]. cbn [app run_setup].
  unfold mbind, IoM_bind. destruct (op u) as [[[]|e] u1]; [apply IH|done].
Qed.
Lemma run_setup_if_some {A} (f : A -> IoM U unit) o u :
  run_setup (f <$> option_list o) u = if_some o f u.
Proof.
  destruct o as [x|]; [|done]. cbn. unfold mbind, IoM_bind. by destruct (f x u) as [[[]|e] u1].
Qed.

(** A host over [u] to which nothing has happened. *)
Record fresh_host {C} (u : U) (config : Config) (clk : C) (i : option I) (h : Host U C I) : Prop := {
  fr_socket : SessionManager_socket (h_handler h) = mkSocketWithConditioner (blocking_mode config) u;
  fr_clock : h_clock h = clk;
  fr_config : mg_config (sm_messenger (h_handler h)) = config;
  fr_interceptor : mg_interceptor (sm_messenger (h_handler h)) = boxed i;
  fr_quiet : SessionManager_event_sender (h_handler h) = [] /\
             SessionManager_event_receiver (h_handler h) = [] /\
             mg_pending_sends (sm_messenger (h_handler h)) = [] /\
             mg_pending_events (sm_messenger (h_handler h)) = [];
  fr_sessions : sm_sessions (h_handler h) = ∅ /\ sm_duplicate_peer_count (h_handler h) = ∅
}.

(** Configuring a socket is the run of its setup. *)
Lemma configure_run config (u : U) :
  run_setup (socket_setup config) u =
    match apply_socket_options config u with
    | (Ok _, u) => set_nonblocking (negb (blocking_mode config)) u
    | (Err e, u) => (Err e, u)
    end.
Proof.
  unfold socket_setup, apply_socket_options. cbn [app run_setup].
  unfold mbind, IoM_bind, mret, IoM_ret. destruct (try_clone u) as [[[]|e] u1]; [|done].
  rewrite run_setup_app, run_setup_if_some. destruct (if_some (socket_recv_buffer_size _) _ u1) as [[[]|e] u2]; [|done].
  rewrite run_setup_app, run_setup_if_some. destruct (if_some (socket_send_buffer_size _) _ u2) as [[[]|e] u3]; [|done].
  rewrite run_setup_app, run_setup_if_some. destruct (if_some (socket_ttl _) _ u3) as [[[]|e] u4]; [|done].
  rewrite run_setup_app. destruct (socket_broadcast config); cbn [run_setup];
    unfold mbind, IoM_bind, mret, IoM_ret.
  - destruct (set_broadcast true u4) as [[[]|e] u5]; [|done]. by destruct (set_nonblocking _ u5) as [[[]|e] u6].
  - by destruct (set_nonblocking _ u4) as [[[]|e] u6].
Qed.

Lemma opening_run {C} config (clk : C) i (u : U) :
  match run_setup (socket_setup config) u with
  | (Ok _, u') => exists h, bind_with_config_clock_and_interceptor u config clk i = Ok h /\
      fresh_host u' config clk i h
  | (Err e, _) => bind_with_config_clock_and_interceptor u config clk i = Err (IOError e)
  end.
Proof.
  rewrite configure_run.
  unfold bind_with_config_clock_and_interceptor, SocketWithConditioner_new.
  destruct (apply_socket_options config u) as [[[]|e] u1]; [|done]. cbn [map_err mbind result_bind].
  destruct (set_nonblocking _ u1) as [[[]|e] u2]; [|done]. eexists. by repeat split.
Qed.

(** C39: Opening a host.  The address is resolved and bound, and then the operations that the
    configuration asks for are carried out on the socket, each option only if it is set, in
    order; the first of all these that fails ends the attempt, and its error is returned as an
    I/O error.  Otherwise the host is a fresh one over that socket, with the configuration, the
    system clock and the interceptor it was given: no session, nothing queued, nothing reported.
    [bind] is this with the default configuration and [bind_any] with the loopback address. *)
Theorem bind_outcome {A} `{!ToSocketAddrs A} (addresses : A) config (i : option I)
  (system : SystemClock) :
  let opened : result ErrorKind (Host U SystemClock I) := match i with
    | Some i => bind_with_interceptor system addresses config i
    | None => bind_with_config system addresses config
    end in
  match UdpSocket_bind addresses with
  | Ok u =>
      match run_setup (socket_setup config) u with
      | (Ok _, u) => exists h, opened = Ok h /\ fresh_host u config system i h
      | (Err e, _) => opened = Err (IOError e)
      end
  | Err e => opened = Err (IOError e)
  end /\
  bind (I := I) system addresses = bind_with_config system addresses Config_default /\
  bind_any_with_config (I := I) system config =
    bind_with_config system (mkSocketAddr (IpV4 2130706433) 0) config.
Proof.
  split; [|by split].
  destruct i as [i|]; unfold bind_with_interceptor, bind_with_config, bind_with_config_and_clock;
    destruct (UdpSocket_bind addresses) as [u|e]; try done; cbn [map_err mbind result_bind].
  - pose proof (opening_run config system (Some i) u). by case_match.
  - pose proof (opening_run config system None u). by case_match.
Qed.
End Bind.
