(* ===== verification/Budget.v ===== *)
(** What inputs cost a peer: every counter that grows is paid from a budget, and as long as the
    budget lasts no datagram, whatever its bytes, makes the peer panic. *)

From S2P Require Import Prelude Float32 Core Externs Buffers Packet Command Codec CodecFacts.
From S2P Require Import Framing SequenceBuffer Congestion Ack Bandwidth ChannelState.
From S2P Require Import FragmentBuffer FlowControl Pmtu PeerParts Peer PeerFacts Fragmenter.
From S2P Require Import CommandProcessor Session PeerSession ProcessorFacts Parcels Delivery.

(* ------------------------------------------------------------------ *)
(** ** Solvent peers                                                    *)
(* ------------------------------------------------------------------ *)

(** A peer with a budget of [k]: its counters can grow by [k] within their types, the bytes it
    may have to send included; its tables are sound and its window bounds make sense if it uses
    them.  Nothing the program does fills the table of sent packets, so the round-trip estimate
    stays what it was. *)
Record solvent (k : Z) (p : Peer) : Prop := {
  sv_slots : (0 < length (sq_entry_sequences (ah_received_packets (p_acknowledge_handler p))))%nat;
  sv_sent : ah_sent_packets (p_acknowledge_handler p) = ∅;
  sv_rto : is_Some (Peer_rto p);
  sv_window : use_window_flow_control (p_config p) = true ->
              min_window_size (p_config p) <= max_window_size (p_config p);
  sv_queue : queue_ok p;
  sv_waiting : p_total_waiting_data p + k <= u64_max;
  sv_packets_in : 0 <= packets_received (p_statistics p) /\
                  packets_received (p_statistics p) + k <= u64_max;
  sv_bytes_in : 0 <= bytes_received (p_statistics p) /\
                bytes_received (p_statistics p) + k <= u64_max;
  sv_packets_out : 0 <= packets_sent (p_statistics p) /\
                   packets_sent (p_statistics p) + zlen (queue p) + k <= u64_max;
  sv_bytes_out : 0 <= bytes_sent (p_statistics p) /\
                 bytes_sent (p_statistics p) +
                   (zlen (queue p) + k) * receive_buffer_max_size (p_config p) <= u64_max;
  sv_size : 0 <= receive_buffer_max_size (p_config p)
}.

Lemma solvent_weaken k k' p : k <= k' -> solvent k' p -> solvent k p.
Proof. intros Hk []. split; try done; try lia. split; [lia|nia]. Qed.

(** All that [solvent] looks at. *)
Definition ledger (p : Peer) :=
  let h := p_acknowledge_handler p in
  let c := p_config p in
  (length (sq_entry_sequences (ah_received_packets h)), ah_sent_packets h,
   (cc_rtt (ah_congestion h), cc_rtt_variance (ah_congestion h)),
   (use_window_flow_control c, min_window_size c, max_window_size c),
   (max_waiting_data c, receive_buffer_max_size c), p_statistics p,
   p_total_waiting_data p, queue p).

Lemma solvent_like k p p' : ledger p' = ledger p -> solvent k p -> solvent k p'.
Proof.
  unfold ledger. cbv zeta. intros E. injection E as E1 E2 E3 E4 E5 E6 E7 E8 E9 E10 E11 E12.
  intros [H1 H2 H3 H4 [Q1 Q2 Q3] H6 H7 H8 H9 H10 H11].
  split; rewrite ?E1, ?E2, ?E5, ?E6, ?E7, ?E9, ?E10, ?E11, ?E12; try done.
  - unfold Peer_rto, AcknowledgmentHandler_rto, CongestionControl_rto. by rewrite E3, E4.
  - split; rewrite ?E8, ?E11, ?E12; done.
Qed.

(* ------------------------------------------------------------------ *)
(** ** The cost of a computation                                        *)
(* ------------------------------------------------------------------ *)

(** [m] runs on any peer that can pay [c], and takes no more. *)
Definition costs {A} (c : Z) (m : PeerM A) : Prop := forall k p r, 0 <= k -> solvent (c + k) p ->
  exists x p' r', m p r = Some (x, p', r') /\ solvent k p'.

Lemma costs_weaken {A} c c' (m : PeerM A) : c <= c' -> costs c m -> costs c' m.
Proof.
  intros Hc Hm k p r Hk Hp. destruct (Hm (c' - c + k) p r) as (x & p' & r' & E & H); [lia| |].
  { by replace (c + (c' - c + k)) with (c' + k) by lia. }
  exists x, p', r'. split; [done|]. eapply solvent_weaken; [|exact H]. lia.
Qed.
Lemma costs_bind {A B} c c' (m : PeerM A) (f : A -> PeerM B) : 0 <= c' ->
  costs c m -> (forall x, costs c' (f x)) -> costs (c + c') (m ≫= f).
Proof.
  intros Hc Hm Hf k p r Hk Hp. destruct (Hm (c' + k) p r) as (x & p1 & r1 & E & H1); [lia| |].
  { by rewrite Z.add_assoc. }
  destruct (Hf x k p1 r1 Hk H1) as (y & p2 & r2 & E2 & H2). exists y, p2, r2.
  by erewrite bind_run by exact E.
Qed.
(** A free step, and a step that takes all there is. *)
Lemma costs_free {A B} c (m : PeerM A) (f : A -> PeerM B) : 0 <= c ->
  costs 0 m -> (forall x, costs c (f x)) -> costs c (m ≫= f).
Proof. apply (costs_bind 0 c). Qed.
Lemma costs_pay {A B} c (m : PeerM A) (f : A -> PeerM B) :
  costs c m -> (forall x, costs 0 (f x)) -> costs c (m ≫= f).
Proof. intros. replace c with (c + 0) by lia. by apply costs_bind. Qed.

Lemma costs_ret {A} c (x : A) : 0 <= c -> costs c (mret x).
Proof. intros Hc. eapply costs_weaken; [exact Hc|]. intros k p r Hk Hp. by exists x, p, r. Qed.
Lemma costs_gets {A} c (f : Peer -> A) : 0 <= c -> costs c (gets f).
Proof. intros Hc. eapply costs_weaken; [exact Hc|]. intros k p r Hk Hp. by eexists _, _, _. Qed.
Lemma costs_drawing {A} c (f : Rng -> A * Rng) : 0 <= c -> costs c (drawing f).
Proof.
  intros Hc. eapply costs_weaken; [exact Hc|]. intros k p r Hk Hp.
  unfold drawing. destruct (f r). by eexists _, _, _.
Qed.
(** A step that depends on what was drawn. *)
Lemma costs_drawn {A B} c (f : Rng -> A * Rng) (g : A -> PeerM B) :
  (forall r, costs c (g (f r).1)) -> costs c (drawing f ≫= g).
Proof.
  intros Hg k p r Hk Hp. destruct (Hg r k p (f r).2 Hk Hp) as (y & p' & r' & E & H).
  exists y, p', r'. split; [|done]. erewrite bind_run; [exact E|].
  unfold drawing. by destruct (f r).
Qed.
Lemma costs_modify c f : 0 <= c -> (forall p, ledger (f p) = ledger p) -> costs c (modify f).
Proof.
  intros Hc H. eapply costs_weaken; [exact Hc|]. intros k p r Hk Hp.
  eexists _, _, _. split; [done|]. eapply solvent_like; [apply H|exact Hp].
Qed.
Lemma costs_updating {A} c (f : Peer -> A * Peer) : 0 <= c ->
  (forall p, ledger (f p).2 = ledger p) -> costs c (updating f).
Proof.
  intros Hc H. eapply costs_weaken; [exact Hc|]. intros k p r Hk Hp. unfold updating.
  specialize (H p). destruct (f p) as [x p']. exists x, p', r. split; [done|].
  eapply solvent_like; [exact H|exact Hp].
Qed.
(** A partial operation that is defined on solvent peers. *)
Lemma costs_may_panic {A B} c (f : Peer -> option A) (g : A -> PeerM B) : 0 <= c ->
  (forall k p, solvent k p -> 0 <= k -> is_Some (f p)) -> (forall x, costs c (g x)) ->
  costs c (may_panic f ≫= g).
Proof.
  intros Hc Hf Hg k p r Hk Hp. destruct (Hf (c + k) p Hp) as [x E]; [lia|].
  destruct (Hg x k p r Hk Hp) as (y & p' & r' & E' & H). exists y, p', r'.
  by erewrite bind_run by (unfold may_panic; by rewrite E).
Qed.

Create HintDb costs discriminated.
Ltac same_ledger := intros; first [done | by repeat case_match].
(** Walks through a computation; free steps first, known costs from the hint database. *)
Ltac costs_step :=
  lazymatch goal with
  | |- costs _ (mbind _ (may_panic _)) => fail
  | |- costs _ (mbind _ _) =>
      first [ apply costs_free; [lia|solve [eauto with costs]|intros ?]
            | apply costs_pay; [solve [eauto with costs]|intros ?]
            | apply costs_free; [lia| |intros ?] ]
  | |- costs _ (mret _) => apply costs_ret; lia
  | |- costs _ (gets _) => apply costs_gets; lia
  | |- costs _ (drawing _) => apply costs_drawing; lia
  | |- costs _ (modify _) => apply costs_modify; [lia|same_ledger]
  | |- costs _ (updating _) => apply costs_updating; [lia|same_ledger]
  | |- costs _ (if ?c then _ else _) => destruct c
  | |- costs _ (match ?x with _ => _ end) => destruct x
  end.
Ltac costs_tac := cbv zeta; repeat (first [solve [eauto with costs] | costs_step]; cbv zeta).

(* ------------------------------------------------------------------ *)
(** ** Commands                                                         *)
(* ------------------------------------------------------------------ *)

Lemma solvent_room k n p : 0 <= n -> solvent (n + k) p -> 0 <= k ->
  p_total_waiting_data p + n <= u64_max.
Proof. intros Hn Hp Hk. pose proof (sv_waiting _ _ Hp). lia. Qed.

Lemma solvent_pushed k c p : 0 <= k -> room (command_data_size c) p ->
  solvent (1 + command_data_size c + k) p -> solvent k (pushed [c] p).
Proof.
  intros Hk Hr [H1 H2 H3 H4 H5 H6 H7 H8 [H9 H9'] [H10 H10'] H11].
  pose proof (command_data_size_nonneg c).
  assert (data_sizes [c] = command_data_size c) as Ed by (unfold data_sizes; simpl; lia).
  split; try done; cbn [pushed p_total_waiting_data p_statistics p_config set_command_queue
    set_total_waiting_data] in *; rewrite ?queue_pushed, ?zlen_app, ?Ed; try lia.
  - apply queue_ok_pushed; [done|by rewrite Ed].
  - change (zlen [c]) with 1. lia.
  - change (zlen [c]) with 1. split; [done|nia].
Qed.

(** Queueing a command takes its data and one place. *)
Lemma enqueue_command_costs c : costs (1 + command_data_size c) (Peer_enqueue_command c).
Proof.
  intros k p r Hk Hp. pose proof (command_data_size_nonneg c).
  rewrite enqueue_command_run; [|apply queue_ok_nonneg, Hp|apply Hp|
    pose proof (sv_waiting _ _ Hp); lia].
  case_decide.
  - eexists _, _, _. split; [done|]. by apply solvent_pushed.
  - eexists _, _, _. split; [done|]. eapply solvent_weaken; [|exact Hp]. lia.
Qed.
Lemma enqueue_free_command_costs c : command_data_size c = 0 -> costs 1 (Peer_enqueue_command c).
Proof. intros E. pose proof (enqueue_command_costs c) as H. by rewrite E in H. Qed.
(** So does a push that bypasses the accounting, if there is no data. *)
Lemma solvent_queue_push k c p : command_data_size c = 0 -> 0 <= k -> solvent (1 + k) p ->
  solvent k (queue_push c p).
Proof.
  intros Hc Hk [H1 H2 H3 H4 [Q1 Q2 Q3] H6 H7 H8 [H9 H9'] [H10 H10'] H11].
  assert (queue (queue_push c p) = queue p ++ [c]) as Eq by done.
  split; try done; rewrite ?Eq, ?zlen_app; try (change (zlen [c]) with 1; cbn; lia).
  split; [|done|done]. rewrite Eq, data_sizes_app, data_sizes_cons, Hc. cbn. rewrite Q1. lia.
Qed.
Lemma queue_push_costs (g : Peer -> ProtocolCommand) :
  (forall p, command_data_size (g p) = 0) -> costs 1 (modify (fun p => queue_push (g p) p)).
Proof. intros Hg k p r Hk Hp. eexists _, _, _. split; [done|]. by apply solvent_queue_push. Qed.

Lemma ack_sent_none now c s : ack_sent now (∅, c) s = (∅, c).
Proof. unfold ack_sent. cbn [fst]. by rewrite lookup_empty. Qed.
Lemma ack_field_none now ack c l : forall f, exists f',
  foldl (ack_field_step now ack) ((∅, c), f) l = ((∅, c), f').
Proof.
  induction l as [|i l IH]; intros f; cbn [foldl]; [by eexists|].
  unfold ack_field_step at 2. rewrite ack_sent_none. destruct (_ =? 1); apply IH.
Qed.

(** An acknowledgment has nothing to take from the table of sent packets. *)
Lemma process_incoming_unsent s k f t h :
  (0 < length (sq_entry_sequences (ah_received_packets h)))%nat -> ah_sent_packets h = ∅ ->
  exists h', AcknowledgmentHandler_process_incoming s k f t h = Some h' /\
    ah_sent_packets h' = ∅ /\ ah_congestion h' = ah_congestion h /\
    length (sq_entry_sequences (ah_received_packets h')) =
      length (sq_entry_sequences (ah_received_packets h)).
Proof.
  intros Hn Hs. unfold AcknowledgmentHandler_process_incoming.
  destruct (insert_total mkReceivedPacket (ah_received_packets h) s mkReceivedPacket Hn)
    as (acc & b & -> & Hl).
  cbn [mbind option_bind]. rewrite Hs, ack_sent_none.
  destruct (ack_field_none t k (ah_congestion h) (seqZ 1 REDUNDANT_PACKET_ACKS_SIZE) f) as [f' ->].
  eexists. split; [done|]. cbn. done.
Qed.
Lemma acknowledge_costs s k f t : costs 0 (acknowledge s k f t).
Proof.
  intros n p r Hn Hp. rewrite Z.add_0_l in Hp. unfold acknowledge.
  destruct (process_incoming_unsent s k f t (p_acknowledge_handler p)) as (h & E & E1 & E2 & E3);
    [apply Hp|apply Hp|].
  eexists _, _, _. erewrite bind_run by (unfold may_panic; by rewrite E). split; [reflexivity|].
  eapply solvent_like; [|exact Hp]. unfold ledger. cbn.
  rewrite E1, E2, E3, (sv_sent _ _ Hp). done.
Qed.

#[export] Hint Resolve enqueue_free_command_costs acknowledge_costs : costs.
#[export] Hint Extern 1 (command_data_size _ = 0) => reflexivity : costs.

Lemma enqueue_ack_costs st : costs 1 (Peer_enqueue_ack_command st).
Proof.
  unfold Peer_enqueue_ack_command. apply costs_may_panic; [lia| |intros m; costs_tac].
  intros k p Hp _. destruct (ack_bitfield_total _ (sv_slots _ _ Hp)) as (f & -> & _). by eexists.
Qed.
Lemma enqueue_ping_costs t : costs 1 (Peer_enqueue_ping_command t).
Proof. unfold Peer_enqueue_ping_command. costs_tac. Qed.
Lemma enqueue_pong_costs t : costs 1 (Peer_enqueue_pong_command t).
Proof. unfold Peer_enqueue_pong_command. costs_tac. Qed.
Lemma with_channel_costs {A} ch (f : ChannelState -> A * ChannelState) :
  costs 0 (with_channel ch f).
Proof. unfold with_channel. apply costs_updating; [lia|]. intros p. by destruct (f _). Qed.
Lemma add_to_fragments_costs ch s o i m d t : costs 0 (add_to_fragments ch s o i m d t).
Proof. unfold add_to_fragments. apply costs_updating; [lia|]. same_ledger. Qed.
#[export] Hint Resolve enqueue_ack_costs enqueue_ping_costs enqueue_pong_costs
  with_channel_costs add_to_fragments_costs : costs.

Lemma process_connect_costs ch o i : costs 1 (process_connect ch o i).
Proof.
  unfold process_connect, no_packets. apply costs_free; [lia|costs_tac|]. intros st.
  case_bool_decide; [|costs_tac]. do 3 (apply costs_free; [lia|costs_tac|]; intros ?).
  apply costs_pay; [|intros; costs_tac]. by apply queue_push_costs.
Qed.
Lemma set_window_size_costs : forall k p r w, 0 <= k -> solvent k p ->
  use_window_flow_control (p_config p) = true ->
  exists p', Peer_set_window_size w p r = Some (tt, p', r) /\ solvent k p' .
Proof.
  intros k p r w Hk Hp Hu. destruct (set_window_size_run w p r) as [f E]; [by apply (sv_window _ _ Hp)|].
  exists (set_flow_control f p). split; [exact E|]. by eapply solvent_like; [|exact Hp].
Qed.
Lemma process_verify_connect_costs pid i o w : costs 0 (process_verify_connect pid i o w).
Proof.
  intros k p r Hk Hp. rewrite Z.add_0_l in Hp. unfold process_verify_connect.
  erewrite bind_run by reflexivity. case_bool_decide; [|by eexists _, _, _].
  erewrite bind_run by reflexivity. set (p1 := set_incoming_session_id i (set_peer_id pid p)).
  assert (solvent k p1) as Hp1 by (by eapply solvent_like; [|exact Hp]).
  erewrite bind_run by reflexivity.
  assert (exists p2, (if use_window_flow_control (p_config p1) then
      gets Peer_window_size ≫= (fun own => Peer_set_window_size (Z.min w own)) else mret tt) p1 r
      = Some (tt, p2, r) /\ solvent k p2) as (p2 & E2 & Hp2).
  { destruct (use_window_flow_control (p_config p1)) eqn:Hu; [|by exists p1].
    destruct (set_window_size_costs k p1 r (Z.min w (Peer_window_size p1))) as (p2 & E & Hp2); [done..|].
    exists p2. split; [|done]. by erewrite bind_run by reflexivity. }
  erewrite bind_run by exact E2. erewrite bind_run by reflexivity. destruct (negb _).
  - by eexists _, _, _.
  - eexists _, _, _. split; [reflexivity|]. by eapply solvent_like; [|exact Hp2].
Qed.
#[export] Hint Resolve process_connect_costs process_verify_connect_costs : costs.

(** A command leaves at most one answer in the queue. *)
Lemma process_command_costs c t : costs 1 (Peer_process_command c t).
Proof.
  unfold Peer_process_command. apply costs_free; [lia|costs_tac|]. intros _.
  destruct c; unfold process_send_reliable, process_send_unreliable_sequenced,
    process_send_unsequenced, process_send_fragment, process_send_unreliable_fragment,
    one_packet, no_packets; try solve [costs_tac].
  all: apply (costs_weaken 0); [lia|]; costs_tac.
Qed.

Lemma process_commands_costs `{Externs} cs t : forall acc,
  costs (zlen cs) (process_commands cs t acc).
Proof.
  induction cs as [|c cs IH]; intros acc; cbn [process_commands]; [by apply costs_ret|].
  rewrite zlen_cons. pose proof (zlen_nonneg cs).
  apply costs_bind; [done|apply process_command_costs|]. intros [pk|e]; [apply IH|by apply costs_ret].
Qed.
