(* ===== verification/Robustness.v ===== *)
(** Hostile input: no sequence of datagrams, user packets, timers and disconnects, whatever
    the bytes, makes a peer panic. *)

From S2P Require Import Prelude Float32 Core Externs Buffers Packet Command Codec CodecFacts.
From S2P Require Import Framing Ack Bandwidth FlowControl Unsequenced Pmtu PeerParts Peer.
From S2P Require Import PeerFacts.
From S2P Require Import Fragmenter FragmenterFacts PeerEncoder EncoderFacts CommandProcessor.
From S2P Require Import Session PeerSession Budget.

(* ------------------------------------------------------------------ *)
(** ** Datagrams                                                        *)
(* ------------------------------------------------------------------ *)

Section Datagrams.
Context {X : Externs} {L : ByteOrderLaws X} {B : ByteStreamLaws X}.

Lemma decompress_bytes data l : bytes_ok data -> decompress data = Ok l -> bytes_ok l.
Proof.
  unfold decompress. destruct data as [|a payload]; [done|]. intros [_ Hd]%bytes_ok_cons.
  destruct a as [|[a|[a|a|]|]|a]; try done.
  - by intros [= <-].
  - destruct payload as [|b [|c [|d [|e compressed]]]]; try done. apply lz4_bytes.
    by repeat (apply bytes_ok_cons in Hd as [_ Hd]).
  - by apply zlib_bytes.
Qed.

(** A datagram holds at most 255 commands. *)
Lemma open_datagram_count ck data now cp : bytes_ok data ->
  open_datagram ck data now = Ok cp -> zlen (commands cp) <= 255.
Proof.
  intros Hd. unfold open_datagram, to_header_error.
  intros (payload & Hp & (bytes & Hb & H)%bind_Ok)%bind_Ok.
  apply map_err_Ok in Hb, H. apply decompress_bytes in Hb.
  - destruct (decode_packet_ok bytes now cp Hb H) as [_ Hh]. destruct bytes as [|x bytes]; [done|].
    apply bytes_ok_cons in Hb as [Hx _]. injection Hh as <-. unfold_ints. lia.
  - destruct ck; [apply map_err_Ok in Hp|by injection Hp as <-].
    unfold validate_and_strip_checksum in Hp. destruct (_ <? _)%nat; [done|].
    destruct (negb _); [done|]. injection Hp as <-. by apply bytes_ok_take.
Qed.

Lemma queue_set_statistics s p : queue (set_statistics s p) = queue p.
Proof. done. Qed.

(** The incoming statistics are paid for. *)
Lemma record_data_received_costs n : 0 <= n -> costs n (Peer_record_data_received n).
Proof.
  intros Hn k p r Hk [H1 H2 H3 H4 [Q1 Q2 Q3] H6 H7 H8 H9 H10 H11].
  unfold Peer_record_data_received. eexists _, _, _. split.
  - erewrite bind_run; [reflexivity|]. unfold may_panic, add_u64. rewrite checked_in by lia. done.
  - split; try done; cbn; rewrite ?queue_set_statistics; nia.
Qed.
Lemma record_packet_received_costs : costs 1 Peer_record_packet_received.
Proof.
  intros k p r Hk [H1 H2 H3 H4 [Q1 Q2 Q3] H6 H7 H8 H9 H10 H11].
  unfold Peer_record_packet_received. eexists _, _, _. split.
  - erewrite bind_run; [reflexivity|]. unfold may_panic, add_u64. rewrite checked_in by lia. done.
  - split; try done; cbn; rewrite ?queue_set_statistics; nia.
Qed.

Definition datagram_cost (data : list Z) : Z := 256 + zlen data.

Lemma process_command_packet_costs data t : bytes_ok data ->
  costs (datagram_cost data) (Peer_process_command_packet data t).
Proof.
  intros Hd. pose proof (zlen_nonneg data). unfold Peer_process_command_packet, datagram_cost.
  rewrite Z.add_comm. apply costs_bind; [lia|by apply record_data_received_costs|]. intros _.
  apply costs_free; [lia|by apply costs_gets|]. intros c.
  destruct (open_datagram _ data t) as [cp|e] eqn:E; [|by apply costs_ret].
  apply (costs_bind 1 255); [lia|apply record_packet_received_costs|]. intros _.
  eapply costs_weaken; [|apply process_commands_costs]. by eapply open_datagram_count.
Qed.

Lemma update_window_costs t : costs 0 (updating (Peer_update_bandwidth_window t)).
Proof.
  apply costs_updating; [lia|]. intros p. unfold Peer_update_bandwidth_window. by destruct (BandwidthThrottle_update_bandwidth_window _ _).
Qed.
Lemma record_recv_costs : costs 0 (updating Peer_record_recv).
Proof.
  apply costs_updating; [lia|]. intros p. unfold Peer_record_recv. cbn [snd]. same_ledger.
Qed.

Lemma process_packet_costs data t : bytes_ok data ->
  costs (datagram_cost data) (Peer_process_packet data t).
Proof.
  intros Hd. unfold Peer_process_packet. pose proof (zlen_nonneg data).
  assert (0 <= datagram_cost data) by (unfold datagram_cost; lia).
  destruct data as [|x data]; [by apply costs_ret|]. set (d := x :: data) in *.
  apply costs_free; [done|apply update_window_costs|]. intros _.
  apply costs_free; [done|by apply costs_gets|]. intros allowed.
  destruct (negb allowed); [by apply costs_ret|].
  apply costs_free; [done|by apply costs_modify|]. intros _.
  apply costs_pay; [by apply process_command_packet_costs|]. intros [pk|e]; [|by apply costs_ret].
  apply costs_free; [done|apply record_recv_costs|]. intros connected.
  apply costs_free; [done|by apply costs_gets|]. intros addr. by apply costs_ret.
Qed.

(* ------------------------------------------------------------------ *)
(** ** Flushing and timers                                              *)
(* ------------------------------------------------------------------ *)

(** A peer that has taken [m] commands off its queue, and possibly counted a datagram. *)
Lemma solvent_rest m k p p1 : solvent k p -> 0 <= k -> (S m <= length (queue p))%nat ->
  rest_like (S m) p p1 ->
  (p_statistics p1 = p_statistics p \/ exists n, 0 <= n <= receive_buffer_max_size (p_config p) /\
     p_statistics p1 = count_sent n (p_statistics p)) -> solvent k p1.
Proof.
  intros [H1 H2 H3 H4 H5 H6 H7 H8 [H9 H9'] [H10 H10'] H11] Hk Hm Hrest Hst.
  pose proof (queue_ok_rest _ _ _ H5 Hrest) as Hok1. destruct Hrest as (s & cp & tx & E1).
  assert (zlen (queue p1) <= zlen (queue p) - 1) as Hq1.
  { rewrite E1. change (zlen (drop (S m) (queue p)) <= zlen (queue p) - 1). unfold zlen.
    rewrite length_drop. lia. }
  assert (p_total_waiting_data p1 <= p_total_waiting_data p) as Hw.
  { rewrite E1. cbn. rewrite (qo_exact _ H5). apply data_sizes_drop. }
  pose proof (zlen_nonneg (queue p1)).
  assert (p_config p1 = p_config p) as Ec by by rewrite E1.
  assert (p_acknowledge_handler p1 = p_acknowledge_handler p) as Eh by by rewrite E1.
  split; rewrite ?Ec, ?Eh; try done; [by unfold Peer_rto; rewrite Eh|lia|..];
    destruct Hst as [->|(n & Hn & ->)]; cbn [count_sent packets_sent bytes_sent packets_received
      bytes_received]; nia.
Qed.

(** Sending is free: every datagram takes a command off the queue, which has paid. *)
Lemma flush_commands_costs n t : forall actions, costs 0 (flush_commands n t actions).
Proof.
  induction n as [|n IH]; intros actions; cbn [flush_commands]; [by apply costs_ret|].
  intros k p r Hk Hp. rewrite Z.add_0_l in Hp. erewrite bind_run by reflexivity.
  unfold Peer_has_queued_commands, CommandQueue_is_empty. fold (queue p).
  destruct (queue p) as [|c0 q0] eqn:Eq; [by eexists _, _, _|]. cbn [negb].
  destruct (Peer_can_send_within_bandwidth p); cbn [negb andb]; [|by eexists _, _, _].
  assert (1 <= zlen (queue p)) as Hq by (rewrite Eq, zlen_cons; pose proof (zlen_nonneg q0); lia).
  clear Eq. erewrite bind_run by reflexivity.
  pose proof Hp as [_ _ _ _ H5 _ _ _ [H9 H9'] [H10 H10'] H11]. pose proof (effective_cap p) as Hcap.
  destruct (encode_bounded_run (Peer_datagram_cap p) t p r H5) as (m & Hm & Hrun);
    [split; nia|].
  destruct m as [|m]; [erewrite bind_run by exact Hrun; by eexists _, _, _|].
  destruct Hrun as (p1 & Hrun & Hrest & Hstat). erewrite bind_run by exact Hrun.
  destruct Hm as (Hml & _ & _). pose proof (solvent_rest m k p p1) as Hrest1.
  destruct (compressed (p_config p) (take (S m) (queue p))) as [b|e]; cbn [fmap result_fmap].
  - destruct Hstat as [Hb Hstat].
    erewrite bind_run by reflexivity. apply IH; [done|]. rewrite Z.add_0_l.
    apply (solvent_like _ p1); [done|]. apply Hrest1; try done. right. exists (zlen (trailer (p_config p) b)).
    split; [|done]. pose proof (zlen_nonneg (trailer (p_config p) b)). lia.
  - exists actions, p1, r. split; [done|]. apply Hrest1; try done. by left.
Qed.
Lemma flush_costs t actions : costs 0 (Peer_flush t actions).
Proof.
  unfold Peer_flush. apply costs_free; [done|by apply costs_gets|]. intros n. apply flush_commands_costs.
Qed.

Lemma handle_pmtu_probe t rto r m :
  match (PmtuDiscovery_handle_pmtu t rto r m).1.1 with
  | Some c => command_data_size c = 0
  | None => True
  end.
Proof.
  unfold PmtuDiscovery_handle_pmtu. destruct (negb _); [done|].
  destruct (pm_outstanding m) as [[[size tok] sent]|]; [by destruct (_ <? _)|].
  cbv zeta. destruct (_ <=? _); [done|]. destruct (_ <? from_millis _); [done|].
  destruct (random_u32 r) as [token r1], (fill_bytes _ r1) as [payload r2]. done.
Qed.
Lemma handle_pmtu_costs t : costs 1 (Peer_handle_pmtu t).
Proof.
  unfold Peer_handle_pmtu. apply costs_may_panic; [lia|intros k p Hp _; apply Hp|]. intros rto.
  apply costs_free; [lia|by apply costs_gets|]. intros m. apply costs_drawn. intros r.
  pose proof (handle_pmtu_probe t rto r m) as Hc.
  destruct (PmtuDiscovery_handle_pmtu t rto r m) as [[probe m'] r']. cbn [fst] in Hc |- *.
  apply costs_free; [lia|by apply costs_modify|]. intros _.
  destruct probe as [c|]; [|by apply costs_ret].
  apply costs_pay; [by apply enqueue_free_command_costs|]. intros _. by apply costs_ret.
Qed.

Lemma update_costs clock t : costs 2 (Peer_update clock t).
Proof.
  unfold Peer_update. apply costs_free; [lia|apply update_window_costs|]. intros _.
  apply costs_free; [lia|by apply costs_gets|]. intros idle.
  apply (costs_bind 1 1); [lia|destruct idle; [apply enqueue_ping_costs|by apply costs_ret]|]. intros _.
  apply costs_free; [lia|apply flush_costs|]. intros actions.
  apply costs_pay; [apply handle_pmtu_costs|]. intros _. by apply costs_ret.
Qed.
End Datagrams.

(* ------------------------------------------------------------------ *)
(** ** User packets                                                     *)
(* ------------------------------------------------------------------ *)

Lemma for_each_costs {A} (g : A -> Z) (f : A -> PeerM unit) l : (forall x, 0 <= g x) ->
  (forall x, x ∈ l -> costs (g x) (f x)) -> costs (zsum g l) (for_each f l).
Proof.
  intros Hg. induction l as [|x l IH]; intros Hf; cbn [for_each]; [by apply costs_ret|].
  rewrite zsum_cons. apply costs_bind; [by apply zsum_nonneg|apply Hf; by left|]. intros _.
  apply IH. intros y Hy. apply Hf. by right.
Qed.

Section Sending.
Context {X : Externs} {L : ByteOrderLaws X} {B : ByteStreamLaws X}.

(** The pieces of a message and their number. *)
Lemma chunks_cost size data : 0 < size -> forall l,
  zsum (fun i => 1 + Z.of_nat (sb_len (chunk size data i))) l =
  zlen l + zsum (fun d => Z.of_nat (sb_len d)) (chunk size data <$> l).
Proof.
  intros Hs. induction l as [|i l IH]; [done|].
  rewrite fmap_cons, !zsum_cons, IH, zlen_cons. lia.
Qed.
Lemma fragment_loop_costs mk size data :
  (forall i d, command_data_size (mk i d) = Z.of_nat (sb_len d)) -> 0 < size ->
  costs (div_ceil (zlen data) size + zlen data) (for_each (fun fragment_id =>
      let start := fragment_id * size in
      let fin := Z.min ((fragment_id + 1) * size) (zlen data) in
      let base := SharedBytes_from_arc data in
      fragment_data ← may_panic (fun _ => slice base start (fin - start));
      _ ← Peer_enqueue_command (mk fragment_id fragment_data);
      mret tt) (seqZ 0 (div_ceil (zlen data) size))).
Proof.
  intros Hmk Hs. set (n := div_ceil (zlen data) size).
  destruct (div_ceil_spec (zlen data) size Hs (zlen_nonneg data)) as (Hn & _). fold n in Hn.
  pose proof (chunks_cost size data Hs (seqZ 0 n)) as Hc. fold (chunks size data) in Hc.
  pose proof (chunks_total size data Hs) as Ht. unfold chunks in Ht. fold n in Ht. rewrite Ht in Hc.
  replace (zlen (seqZ 0 n)) with n in Hc by (unfold zlen; rewrite length_seqZ; lia).
  rewrite <-Hc. apply for_each_costs; [lia|]. intros i Hi%elem_of_seqZ. cbv zeta.
  intros k p r Hk Hp. erewrite bind_run by (unfold may_panic; by rewrite chunk_slice by lia).
  revert k p r Hk Hp.
  change (costs (1 + Z.of_nat (sb_len (chunk size data i)))
    (_ ← Peer_enqueue_command (mk i (chunk size data i)); mret tt)).
  rewrite <-Hmk with (i := i). apply costs_pay; [apply enqueue_command_costs|].
  intros _. by apply costs_ret.
Qed.

(** The branches that both kinds of data share: nothing, one command, one cut fragment, or the
    fragments. *)
Lemma cut_costs (mk : SharedBytes -> ProtocolCommand) len data (s : Z) :
  (forall d, command_data_size (mk d) = Z.of_nat (sb_len d)) -> 0 <= len ->
  costs (255 + zlen data)
    (fragment_data ← may_panic (fun _ => slice (SharedBytes_from_arc data) 0 (Z.min len (zlen data)));
     _ ← Peer_enqueue_command (mk fragment_data); mret s).
Proof.
  intros Hmk Hl k p r Hk Hp. pose proof (zlen_nonneg data).
  erewrite bind_run.
  2: { unfold may_panic, slice, SharedBytes_slice. cbn [sb_len SharedBytes_from_arc].
       rewrite (proj2 (andb_true_iff _ _)); [reflexivity|]. unfold zlen. lia. }
  revert k p r Hk Hp. match goal with |- context [mk ?d] =>
    change (costs (255 + zlen data) (_ ← Peer_enqueue_command (mk d); mret s)) end.
  apply costs_pay; [|intros _; by apply costs_ret].
  eapply costs_weaken; [|apply enqueue_command_costs]. rewrite Hmk. cbn [sb_len]. unfold zlen. lia.
Qed.
Lemma whole_costs c (data : list Z) (s : Z) : command_data_size c = zlen data ->
  costs (255 + zlen data) (_ ← Peer_enqueue_command c; mret s).
Proof.
  intros Hc. pose proof (zlen_nonneg data). apply costs_pay; [|intros _; by apply costs_ret].
  eapply costs_weaken; [|apply enqueue_command_costs]. lia.
Qed.

Lemma enqueue_reliable_costs ch data o : costs (255 + zlen data) (Peer_enqueue_reliable_data ch data o).
Proof.
  pose proof (zlen_nonneg data). unfold Peer_enqueue_reliable_data.
  do 4 (apply costs_free; [lia|by apply costs_gets|]; intros ?).
  destruct (x0 <? 1); [apply costs_ret; lia|]. destruct (_ <=? _); [by apply whole_costs|].
  destruct (Z.ltb_spec x1 1); [apply costs_ret; lia|]. cbv zeta. unfold u8_max.
  destruct (Z.ltb_spec 255 (div_ceil (zlen data) x1)); [apply costs_ret; lia|].
  destruct (x2 <? _); [apply cut_costs; [done|lia]|].
  apply costs_pay; [|intros _; by apply costs_ret].
  eapply costs_weaken; [|apply (fragment_loop_costs (fun i => SendFragment ch x o i _)); [done|lia]]. lia.
Qed.
Lemma enqueue_unreliable_costs ch data : costs (255 + zlen data) (Peer_enqueue_unreliable_data ch data).
Proof.
  pose proof (zlen_nonneg data). unfold Peer_enqueue_unreliable_data.
  apply costs_free; [lia|by apply costs_gets|]. intros s.
  apply costs_free; [lia|by apply costs_modify|]. intros _.
  do 3 (apply costs_free; [lia|by apply costs_gets|]; intros ?).
  destruct (x <? 1); [apply costs_ret; lia|]. destruct (_ <=? _); [by apply whole_costs|].
  destruct (Z.ltb_spec x0 1); [apply costs_ret; lia|]. cbv zeta. unfold u8_max.
  destruct (Z.ltb_spec 255 (div_ceil (zlen data) x0)); [apply costs_ret; lia|].
  destruct (x1 <? _); [apply cut_costs; [done|lia]|].
  apply costs_pay; [|intros _; by apply costs_ret].
  eapply costs_weaken; [|apply (fragment_loop_costs (fun i => SendUnreliableFragment ch s i _)); [done|lia]]. lia.
Qed.

(** Unsequenced data goes out in pieces of at least one byte. *)
Lemma enqueue_unsequenced_costs n ch data m : 1 <= m -> forall off, 0 <= off <= zlen data ->
  costs (2 * (zlen data - off)) (enqueue_unsequenced n ch (SharedBytes_from_arc data) m off).
Proof.
  intros Hm. induction n as [|n IH]; intros off Hoff; cbn [enqueue_unsequenced]; [apply costs_ret; lia|].
  change (Z.of_nat (sb_len (SharedBytes_from_arc data))) with (zlen data).
  destruct (Z.ltb_spec off (zlen data)); [|apply costs_ret; lia]. cbv zeta.
  set (len := Z.min m (zlen data - off)). intros k p r Hk Hp. erewrite bind_run.
  2: { unfold may_panic, slice, SharedBytes_slice. cbn [sb_len SharedBytes_from_arc].
       rewrite (proj2 (andb_true_iff _ _)); [reflexivity|]. unfold zlen in *. lia. }
  set (c := mkSharedBytes _ _ _). assert (Z.of_nat (sb_len c) = len) as Hc by (cbn; lia).
  clearbody c. revert k p r Hk Hp.
  change (costs (2 * (zlen data - off)) (g ← Peer_next_unsequenced_group;
    _ ← Peer_enqueue_command (SendUnsequenced ch g c);
    enqueue_unsequenced n ch (SharedBytes_from_arc data) m (off + len))).
  apply costs_free; [lia|apply costs_updating; [done|]|intros g].
  { intros p. by destruct (UnsequencedState_next_outgoing_group _). }
  replace (2 * (zlen data - off)) with ((1 + len + (len - 1)) + 2 * (zlen data - (off + len))) by lia.
  apply costs_bind; [lia| |intros _; apply IH; lia].
  eapply costs_weaken; [|apply enqueue_command_costs]. cbn [command_data_size]. lia.
Qed.

Lemma record_send_costs : costs 1 (updating Peer_record_send).
Proof.
  intros k p r Hk Hp. unfold updating. rewrite (surjective_pairing (Peer_record_send p)).
  eexists _, _, _. split; [reflexivity|]. unfold Peer_record_send. cbn [snd].
  assert (forall st, solvent k (set_state st p)) as Hst.
  { intros st. apply (solvent_weaken _ (1 + k)); [lia|]. by eapply solvent_like; [|exact Hp]. }
  assert (solvent k p) by (apply (solvent_weaken _ (1 + k)); [lia|done]).
  destruct (p_state p) eqn:Es; try done.
  destruct (use_connection_handshake _); [|done]. unfold Peer_initiate_connect.
  rewrite Es, bool_decide_eq_true_2 by done. apply solvent_queue_push; [done|done|].
  by eapply solvent_like; [|exact Hp].
Qed.

Definition user_packet_cost (packet : Packet) : Z := 256 + 2 * zlen (pk_payload packet).

Lemma process_event_costs packet t : costs (user_packet_cost packet) (Peer_process_event packet t).
Proof.
  unfold Peer_process_event, user_packet_cost. set (data := pk_payload packet). pose proof (zlen_nonneg data).
  replace (256 + 2 * zlen data) with (1 + (255 + 2 * zlen data)) by lia.
  apply costs_bind; [lia|apply record_send_costs|]. intros connected.
  apply costs_free; [lia|by apply costs_gets|]. intros addr. cbv zeta.
  apply costs_pay; [|intros _; apply flush_costs].
  assert (forall m : PeerM Z, costs (255 + zlen data) m ->
    costs (255 + 2 * zlen data) (_ ← m; mret tt)) as Hthen.
  { intros m Hm. apply costs_pay; [|intros _; by apply costs_ret].
    eapply costs_weaken; [|exact Hm]. lia. }
  destruct (pk_delivery packet); [|apply Hthen, enqueue_reliable_costs].
  destruct (pk_ordering packet); try apply Hthen, enqueue_unreliable_costs.
  apply costs_free; [lia|by apply costs_gets|]. intros budget.
  eapply costs_weaken; [|apply enqueue_unsequenced_costs; lia]. lia.
Qed.

Lemma disconnect_costs : costs 1 (modify Peer_disconnect).
Proof.
  intros k p r Hk Hp. eexists _, _, _. split; [done|]. unfold Peer_disconnect.
  destruct (negb _); [|eapply solvent_weaken; [|exact Hp]; lia].
  apply solvent_queue_push; [done|done|]. by eapply solvent_like; [|exact Hp].
Qed.
End Sending.

(* ------------------------------------------------------------------ *)
(** ** A peer's whole life                                              *)
(* ------------------------------------------------------------------ *)

(** What can happen to a peer: a datagram arrives, the application sends, the host updates it
    ([clock] is read within), the application disconnects it. *)
Inductive input : Type :=
| Datagram (data : list Z)
| UserPacket (packet : Packet)
| Timer (clock : Instant)
| Goodbye.
Definition input_cost (i : input) : Z :=
  match i with
  | Datagram data => datagram_cost data
  | UserPacket packet => user_packet_cost packet
  | Timer _ => 2
  | Goodbye => 1
  end.
(** The payload of a datagram consists of bytes. *)
Definition input_ok (i : input) : Prop :=
  match i with Datagram data => bytes_ok data | _ => True end.

(** What one more unit of budget may need: a count, or a whole datagram in the bytes sent. *)
Definition unit_price (config : Config) : Z := Z.max 1 (receive_buffer_max_size config).
Record config_sound (config : Config) : Prop := {
  cs_size : 0 <= receive_buffer_max_size config;
  cs_window : use_window_flow_control config = true ->
              min_window_size config <= max_window_size config
}.

Lemma new_peer_solvent k addr config t r : config_sound config -> 0 <= k ->
  k * unit_price config <= u64_max -> solvent k (Peer_new addr config t r).1.
Proof.
  unfold unit_price. intros [Hs Hw] Hk Hb. unfold Peer_new.
  destruct (random_u16 r) as [x r1], (random_u32 r1) as [y r2]. cbn [fst].
  split; try done; unfold queue; cbn [p_command_queue p_statistics p_total_waiting_data p_config
    p_acknowledge_handler cq_commands CommandQueue_default packets_received bytes_received
    packets_sent bytes_sent PeerStatistics_default];
    change (zlen (cq_commands CommandQueue_default)) with 0; try nia.
  - destruct (use_advanced_throttling config); apply Nat.lt_0_succ.
  - by destruct (use_advanced_throttling config).
  - destruct (use_advanced_throttling config); vm_compute; by eexists.
  - split; cbn; lia || done.
Qed.

Section Life.
Context {X : Externs} {L : ByteOrderLaws X} {B : ByteStreamLaws X}.

Definition serve_input (t : Instant) (i : input) : PeerM Actions :=
  match i with
  | Datagram data => Peer_process_packet data t
  | UserPacket packet => Peer_process_event packet t
  | Timer clock => Peer_update clock t
  | Goodbye => _ ← modify Peer_disconnect; mret []
  end.
(** Inputs in any order, each at its time. *)
Fixpoint serve (l : list (Instant * input)) : PeerM Actions :=
  match l with
  | [] => mret []
  | (t, i) :: l =>
      acts ← serve_input t i;
      rest ← serve l;
      mret (acts ++ rest)
  end.

Lemma serve_costs l : Forall (fun x => input_ok x.2) l ->
  costs (zsum (fun x => input_cost x.2) l) (serve l).
Proof.
  assert (forall x : Instant * input, 0 <= input_cost x.2) as Hpos.
  { intros [t []]; cbn; unfold datagram_cost, user_packet_cost; try lia.
    - pose proof (zlen_nonneg data). lia.
    - pose proof (zlen_nonneg (pk_payload packet)). lia. }
  induction 1 as [|[t i] l Hi Hl IH]; cbn [serve]; [by apply costs_ret|].
  rewrite zsum_cons. cbn [snd]. apply costs_bind; [by apply zsum_nonneg| |].
  - destruct i; cbn in Hi |- *; [by apply process_packet_costs|apply process_event_costs
      |apply update_costs|]. apply costs_pay; [apply disconnect_costs|]. intros _. by apply costs_ret.
  - intros acts. apply costs_pay; [done|]. intros rest. by apply costs_ret.
Qed.

(** C10: Hostile input.  A new peer survives whatever happens to it: datagrams of any bytes -
    checksum, decompression, decoding and every command in every state -, user packets of any
    size and guarantee, updates and disconnects, in any order and at any times, never make it
    panic, as long as the 64-bit counters can pay for them and the window bounds are not
    inverted. *)
Theorem hostile_inputs_survived addr config t0 r0 r l (Hc : config_sound config)
  (Hl : Forall (fun x => input_ok x.2) l)
  (Hpay : zsum (fun x => input_cost x.2) l * unit_price config <= u64_max) :
  exists acts p' r', serve l (Peer_new addr config t0 r0).1 r = Some (acts, p', r').
Proof.
  destruct (serve_costs l Hl 0 (Peer_new addr config t0 r0).1 r) as (acts & p' & r' & E & _);
    [done| |by exists acts, p', r'].
  rewrite Z.add_0_r. apply new_peer_solvent; [done| |done].
  apply zsum_nonneg. intros [t i]. destruct i; cbn; unfold datagram_cost, user_packet_cost; try done.
  - pose proof (zlen_nonneg data). lia.
  - pose proof (zlen_nonneg (pk_payload packet)). lia.
Qed.
End Life.

Import Sample.

(** A session that sends a long message, is answered with nonsense, and
    idles through a few updates. *)
Definition rough_life : list (Instant * input) :=
  [(1, UserPacket (Packet_new sample_addr long_data Unreliable Unsequenced 0));
   (2, Datagram [0; 0; 0; 0; 0]); (3, Datagram [255; 7]); (4, Timer 9000); (5, Datagram []);
   (6, Goodbye); (3000000000, Timer 3000000000)].

Lemma hostile_inputs_survived_witness :
  exists acts p' r', @serve Sample.externs rough_life
    (Peer_new sample_addr Config_default 0 sample_rng).1 sample_rng = Some (acts, p', r').
Proof.
  apply (@hostile_inputs_survived Sample.externs _ _).
  - split; [vm_compute; discriminate|done].
  - repeat constructor; unfold u8_ok; lia.
  - vm_compute. discriminate.
Defined.
