(* ===== verification/HostSurvival.v ===== *)
(** A host never panics: the peer's budgets discharge what the session manager asks of its
    engine, and a host pays for whatever its network and its application do from the credit of
    its configuration. *)

From S2P Require Import Prelude Core Externs Buffers Packet Command CommandProcessor PeerParts.
From S2P Require Import Peer PeerFacts Session PeerSession ProcessorFacts HostFacts Budget.
From S2P Require Import Robustness SessionManager Sockets Host ManagerFacts PollFacts.
From S2P Require Import HostSystem.

(* ------------------------------------------------------------------ *)
(** ** The peer's side of the contract                                  *)
(* ------------------------------------------------------------------ *)

(** What a new session of this configuration can pay: nothing if the configuration itself leads
    to panics, and otherwise what the 64-bit counters leave room for. *)
Definition peer_credit (config : Config) : Z :=
  if (0 <=? receive_buffer_max_size config) &&
     (negb (use_window_flow_control config) || (min_window_size config <=? max_window_size config))
  then u64_max / unit_price config else -1.

Lemma peer_credit_sound k config : 0 <= k <= peer_credit config ->
  config_sound config /\ k * unit_price config <= u64_max.
Proof.
  unfold peer_credit. destruct (_ && _) eqn:E; [|lia]. intros Hk.
  apply andb_true_iff in E as [Hs%Z.leb_le Hw]. split.
  - split; [done|]. intros Hu. rewrite Hu in Hw. cbn in Hw. by apply Z.leb_le.
  - assert (0 < unit_price config) by (unfold unit_price; lia).
    pose proof (Z.mul_div_le u64_max (unit_price config) ltac:(lia)). nia.
Qed.

Section PeerEngine.
Context {X : Externs} {L : ByteOrderLaws X} {B : ByteStreamLaws X} (clock : Instant).
#[local] Existing Instance Peer_Session.

#[export] Instance Peer_SessionTotal : @SessionTotal Peer Packet SocketEvent (Peer_Session clock).
Proof.
  refine {| afford := solvent; credit := peer_credit; packet_ok := bytes_ok;
    packet_cost := datagram_cost; event_cost := user_packet_cost; update_cost := 2 |}.
  - intros data. unfold datagram_cost. pose proof (zlen_nonneg data). lia.
  - intros ev. unfold user_packet_cost. pose proof (zlen_nonneg (pk_payload ev)). lia.
  - done.
  - intros k k' p. apply solvent_weaken.
  - intros k config a t r Hk. pose proof (peer_credit_sound k config Hk) as [Hs Hb].
    apply new_peer_solvent; [done|lia|done].
  - intros k data t p r Hk Hok. exact (process_packet_costs data t Hok k p r Hk).
  - intros k ev t p r Hk. exact (process_event_costs ev t k p r Hk).
  - intros k t p r Hk. exact (update_costs clock t k p r Hk).
  - intros k t p r Hp. cbn. destruct (Peer_should_drop t p) as [d acts]. by eexists _, _, _, _.
Defined.
End PeerEngine.

(* ------------------------------------------------------------------ *)
(** ** Hosts                                                            *)
(* ------------------------------------------------------------------ *)

Section Survival.
Context {X : Externs} {L : ByteOrderLaws X} {B : ByteStreamLaws X}.
Context {U C I : Type} `{!UdpSocket U, !Clock C, !Interceptor I}.
#[local] Abbreviation Host := (Host U C I).
Implicit Types (h : Host) (a : SocketAddr) (k c : Z).

(** At most [n] datagrams of bytes are waiting for the host, which cost at most [c]. *)
Definition incoming (n : nat) c h : Prop :=
  @arrivals _ _ _ _ _ (Peer_Session 0) _ _ (Peer_SessionTotal 0)
    (sm_receive_buffer (h_handler h)) n (mg_socket (sm_messenger (h_handler h)))
    (mg_interceptor (sm_messenger (h_handler h))) c.

(** A life of a host, and what it costs: 256 and its bytes for a datagram, as much and its
    bytes again for a packet of the application, 2 for a poll and 1 for a disconnect. *)
Inductive host_life : Z -> Host -> Host -> Prop :=
| hl_start h : host_life 0 h h
| hl_send c packet h h' : host_life c h h' ->
    host_life (user_packet_cost packet + c) h (Host_send packet h')
| hl_recv c h h' : host_life c h h' -> host_life c h (Host_recv h').2
| hl_disconnect c a h h' : host_life c h h' -> host_life (1 + c) h (Host_disconnect a h')
| hl_poll c clock order (n fuel : nat) arrived t h h' r h'' r' : host_life c h h' ->
    (forall l, order l ≡ₚ l) -> incoming n arrived h' -> (n < fuel)%nat ->
    Host_manual_poll clock order fuel t h' r = Some (h'', r') ->
    host_life (arrived + 2 + c) h h''.

(** A host that has [k] left once the packets that wait for the next poll are paid. *)
Definition host_funded limit k h : Prop :=
  @funded _ _ _ _ _ (Peer_Session 0) (Peer_SessionTotal 0) limit
    (zsum user_packet_cost (sm_user_events (h_handler h)) + k) (h_handler h).

Lemma host_funded_weaken limit k k' h : k <= k' -> host_funded limit k' h -> host_funded limit k h.
Proof. unfold host_funded. intros Hk Hf. eapply funded_weaken; [|exact Hf]. lia. Qed.

Lemma bound_funded k u config clk i h : 0 <= k <= peer_credit config ->
  0 <= max_duplicate_peers config -> max_unestablished_connections config <= u64_max ->
  bind_with_config_clock_and_interceptor u config clk i = Ok h ->
  host_funded (max_duplicate_peers config) k h.
Proof.
  intros Hk Hl Hm. unfold bind_with_config_clock_and_interceptor, SocketWithConditioner_new.
  destruct (apply_socket_options config u) as [[[]|e] u1]; [|done]. cbn [map_err mbind result_bind].
  destruct (set_nonblocking _ u1) as [[[]|e] u2]; [|done]. intros [= <-].
  pose proof (peer_credit_sound k config Hk) as [_ Hb].
  assert (1 <= unit_price config) by (unfold unit_price; lia).
  assert (k <= u64_max) by nia.
  split; [split; [by apply books_empty|done]| |done| |done].
  - change (Z.of_nat (size (∅ : gmap SocketAddr Peer)) + (0 + k) <= u64_max).
    rewrite map_size_empty. lia.
  - change (0 + k <= peer_credit config). lia.
Qed.

Lemma send_funded limit k packet h : host_funded limit (user_packet_cost packet + k) h ->
  host_funded limit k (Host_send packet h).
Proof.
  unfold host_funded. cbn [Host_send h_handler set_handler sm_user_events set_user_events].
  rewrite zsum_app, zsum_cons. cbn [zsum foldr]. rewrite Z.add_0_r, <-Z.add_assoc.
  intros [H1 H2 H3 H4 H5]. by split.
Qed.

Lemma disconnect_funded limit k a h : 0 <= k -> host_funded limit (1 + k) h ->
  host_funded limit k (Host_disconnect a h).
Proof.
  intros Hk Hf. unfold Host_disconnect, session_mut.
  assert (forall evs, 0 <= zsum user_packet_cost evs) as Hev.
  { intros evs. apply zsum_nonneg. intros ev. unfold user_packet_cost. pose proof (zlen_nonneg (pk_payload ev)). lia. }
  specialize (Hev (sm_user_events (h_handler h))).
  destruct (sm_sessions (h_handler h) !! a) as [p|] eqn:Ea; cbn [fmap option_fmap option_map];
    [|by eapply host_funded_weaken; [|exact Hf]; lia].
  unfold host_funded in *. cbn [h_handler set_handler sm_user_events set_sessions].
  set (e := zsum user_packet_cost (sm_user_events (h_handler h))) in *.
  assert (solvent (e + k) (Peer_disconnect p)) as Hp.
  { pose proof (fd_sessions _ _ _ Hf a p Ea) as Hp. cbn in Hp.
    destruct (disconnect_costs (e + k) p (fun _ => 0)) as (x & p' & r' & E & Hp'); [lia| |by injection E as _ <- _].
    by replace (1 + (e + k)) with (e + (1 + k)) by lia. }
  destruct (funded_weaken limit (e + k) (e + (1 + k)) _ ltac:(lia) Hf) as [H1 H2 H3 H4 H5].
  split; cbn; [|by rewrite map_size_insert_Some by (by eexists)| |done|done].
  - destruct H1 as [Hb Hl]. split; [by eapply books_replace|done].
  - intros b q. destruct (decide (a = b)) as [<-|Hn]; [rewrite lookup_insert_eq; by intros [= <-]|].
    rewrite lookup_insert_ne by done. apply H3.
Qed.

Lemma poll_funded limit k clock order (n fuel : nat) arrived t h r : 0 <= k ->
  (forall l, order l ≡ₚ l) -> incoming n arrived h -> (n < fuel)%nat ->
  host_funded limit (arrived + 2 + k) h ->
  exists h' r', Host_manual_poll clock order fuel t h r = Some (h', r') /\ host_funded limit k h'.
Proof.
  intros Hk Ho Hin Hn Hf.
  destruct (@manual_poll_total _ _ _ _ _ (Peer_Session clock) _ _ (Peer_SessionLaws clock)
    (Peer_SessionTotal clock) order Ho limit n fuel arrived k t (h_handler h) r Hk) as (m' & r' & E & Hm').
  - unfold events_cost. cbn [event_cost update_cost Peer_SessionTotal].
    replace (arrived + _ + 2 + k) with
      (zsum user_packet_cost (sm_user_events (h_handler h)) + (arrived + 2 + k)) by lia.
    destruct Hf as [H1 H2 H3 H4 H5]. by split.
  - exact Hin.
  - exact Hn.
  - exists (set_handler m' h), r'.
    split; [unfold Host_manual_poll; apply bind_Some; by exists (m', r')|].
    unfold host_funded. cbn [h_handler set_handler].
    assert (sm_user_events m' = []) as -> by by eapply manual_poll_events.
    destruct Hm' as [H1 H2 H3 H4 H5]. by split.
Qed.
Lemma life_funded limit c h0 h : host_life c h0 h -> forall k, 0 <= k ->
  host_funded limit (c + k) h0 -> 0 <= c /\ host_funded limit k h.
Proof.
  induction 1 as [h|c packet h h' _ IH|c h h' _ IH|c a h h' _ IH
    |c clock order n fuel arrived t h h' r h'' r' _ IH Ho Hin Hn E]; intros k Hk Hf.
  - split; [done|]. exact Hf.
  - assert (0 <= user_packet_cost packet) as Hp
      by (unfold user_packet_cost; pose proof (zlen_nonneg (pk_payload packet)); lia).
    destruct (IH (user_packet_cost packet + k)) as [Hc Hf']; [lia| |split; [lia|by apply send_funded]].
    by replace (c + (user_packet_cost packet + k)) with (user_packet_cost packet + c + k) by lia.
  - destruct (IH k Hk Hf) as [Hc Hf']. split; [done|]. unfold Host_recv.
    destruct (mg_sent_events _); [done|]. destruct Hf' as [H1 H2 H3 H4 H5]. by split.
  - destruct (IH (1 + k)) as [Hc Hf']; [lia|by replace (c + (1 + k)) with (1 + c + k) by lia|].
    split; [lia|by apply disconnect_funded].
  - pose proof (arrivals_nonneg _ _ _ _ _ Hin) as Ha.
    destruct (IH (arrived + 2 + k)) as [Hc Hf']; [lia|by replace (c + (arrived + 2 + k)) with (arrived + 2 + c + k) by lia|].
    split; [lia|]. destruct (poll_funded limit k clock order n fuel arrived t h' r Hk Ho Hin Hn Hf')
      as (h2 & r2 & E2 & Hf2). rewrite E in E2. by injection E2 as <- <-.
Qed.

(** A broadcast is a packet to every established session. *)
Lemma broadcast_life c h h' clock order ch data d o : host_life c h h' ->
  host_life ((Host_broadcast clock order ch data d o h').1 * (256 + 2 * zlen data) + c) h
    (Host_broadcast clock order ch data d o h').2.
Proof.
  intros H. unfold Host_broadcast. cbn [fst snd].
  match goal with |- context [foldl _ _ ?l] => generalize l end. intros addrs.
  revert c h' H. induction addrs as [|a addrs IH]; intros c h' H; cbn [foldl]; [exact H|].
  rewrite zlen_cons.
  replace ((1 + zlen addrs) * (256 + 2 * zlen data) + c)
    with (zlen addrs * (256 + 2 * zlen data) + ((256 + 2 * zlen data) + c)) by lia.
  apply IH. exact (hl_send c (Packet_new a data d o ch) h h' H).
Qed.

(** C7: A host never panics.  Take a host opened with any socket, configuration, clock and
    interceptor, and any life of it: packets sent and received, disconnects and polls, any
    datagrams of bytes from anywhere at each poll, any clock, iteration order and random
    numbers.  As long as the credit of the configuration - in essence 2^64 over the size of a
    datagram - pays for that life and for what is waiting now, the next poll completes. *)
Theorem host_never_panics u config clk i h0 h c clock order (n fuel : nat) arrived t r
  (Hbind : bind_with_config_clock_and_interceptor u config clk i = Ok h0)
  (Hlimit : 0 <= max_duplicate_peers config)
  (Hmax : max_unestablished_connections config <= u64_max)
  (Hlife : host_life c h0 h) (Hin : incoming n arrived h) (Hfuel : (n < fuel)%nat)
  (Horder : forall l, order l ≡ₚ l) (Hpay : c + arrived + 2 <= peer_credit config) :
  exists h' r', Host_manual_poll clock order fuel t h r = Some (h', r').
Proof.
  pose proof (arrivals_nonneg _ _ _ _ _ Hin) as Ha.
  destruct (Z.le_gt_cases 0 c) as [Hc|Hc].
  - destruct (life_funded (max_duplicate_peers config) c h0 h Hlife (arrived + 2)) as [_ Hf];
      [lia|eapply bound_funded; [lia|done..|exact Hbind]|].
    destruct (poll_funded (max_duplicate_peers config) 0 clock order n fuel arrived t h r)
      as (h' & r' & E & _); [done..|by rewrite Z.add_0_r|by exists h', r'].
  - exfalso. clear -Hlife Hc. induction Hlife; try lia.
    + unfold user_packet_cost in *. pose proof (zlen_nonneg (pk_payload packet)). lia.
    + pose proof (arrivals_nonneg _ _ _ _ _ H0). lia.
Qed.
End Survival.

(* ------------------------------------------------------------------ *)
(** ** A host under fire                                                *)
(* ------------------------------------------------------------------ *)

Import Loopback Sample.

(** A socket at which garbage is waiting, and the host that opens it and sends a packet. *)
Definition siege : sock := mkSock sample_addr [([255; 0; 9], sample_addr); ([], sample_addr)] [].
Definition besieged : Host sock SystemClock NoOpInterceptor :=
  match bind_with_config_clock_and_interceptor siege Config_default system None with
  | Ok h => h
  | Err _ => host
  end.
Definition besieged_sending : Host sock SystemClock NoOpInterceptor :=
  Host_send (Packet_new sample_addr [1; 2] Reliable OrderNone 0) besieged.

Lemma besieged_life : host_life 260 besieged besieged_sending.
Proof.
  exact (hl_send 0 (Packet_new sample_addr [1; 2] Reliable OrderNone 0) _ _ (hl_start besieged)).
Qed.
Lemma besieged_incoming : incoming 2 515 besieged_sending.
Proof.
  split; [repeat constructor; unfold u8_ok; lia|]. split; [constructor|]. vm_compute. discriminate.
Qed.

Lemma host_never_panics_witness :
  exists h' r', Host_manual_poll 7 identity 3 5 besieged_sending sample_rng = Some (h', r').
Proof.
  refine (host_never_panics siege Config_default system None besieged besieged_sending 260 7
    identity 2 3 515 5 sample_rng eq_refl (Z.le_refl 0) _ besieged_life besieged_incoming _
    (fun l => Permutation_refl l) _).
  - vm_compute. discriminate.
  - lia.
  - vm_compute. discriminate.
Defined.
