(* ===== verification/HostDelivery.v ===== *)
(** From host to host: a packet that one application sends is received by the other. *)

From S2P Require Import Prelude Core Externs Buffers Packet Command Framing Ack PeerParts Peer.
From S2P Require Import PeerFacts Fragmenter FragmenterFacts CommandProcessor Session.
From S2P Require Import PeerSession EncoderFacts.
From S2P Require Import ProcessorFacts Parcels Delivery HostFacts SessionEvents Budget.
From S2P Require Import Robustness.
From S2P Require Import SessionManager Sockets Host ManagerFacts PollFacts HostSystem.
From S2P Require Import HostSurvival.

(* ------------------------------------------------------------------ *)
(** ** What a poll hands on                                             *)
(* ------------------------------------------------------------------ *)

Section Poll.
Context {S SendEvent ReceiveEvent T I : Type}.
Context `{!Session S SendEvent ReceiveEvent, !Transport T, !Interceptor I}.
#[local] Abbreviation Poll := (@Poll S SendEvent ReceiveEvent T I).
#[local] Abbreviation SessionManager := (@SessionManager S SendEvent ReceiveEvent T I).
#[local] Abbreviation Messenger := (@Messenger ReceiveEvent T I).
Implicit Types (m : SessionManager) (mg : Messenger) (a : SocketAddr) (t : Instant) (r : Rng).

(** Work is only ever appended; the interceptor and what was sent before stay. *)
Record grows mg mg' : Prop := {
  gr_sends : exists l, mg_pending_sends mg' = mg_pending_sends mg ++ l;
  gr_events : exists l, mg_pending_events mg' = mg_pending_events mg ++ l;
  gr_sent : mg_sent_events mg' = mg_sent_events mg;
  gr_socket : mg_socket mg' = mg_socket mg;
  gr_interceptor : mg_interceptor mg' = mg_interceptor mg
}.
#[export] Instance grows_preorder : PreOrder grows.
Proof.
  split; [intros mg; split; [exists []|exists []|..]; by rewrite ?app_nil_r|].
  intros x y z [[l1 E1] [l2 E2] E3 E4 E5] [[k1 F1] [k2 F2] F3 F4 F5].
  split; [exists (l1 ++ k1)|exists (l2 ++ k2)|..]; rewrite ?F1, ?F2, ?app_assoc; congruence.
Qed.

Lemma handle_actions_grows a acts mg : grows mg (handle_actions a acts mg).
Proof. rewrite handle_actions_run. split; cbn; by try eexists. Qed.

Lemma user_event_grows t (st st' : Poll) ev : handle_user_event t st ev = Some st' ->
  grows (sm_messenger st.1.1) (sm_messenger st'.1.1).
Proof.
  destruct st as [[m u] r]. unfold handle_user_event. intros H. destruct (sm_sessions m !! _) as [s|].
  - apply bind_Some in H as ([[acts s'] r1] & _ & H). apply bind_Some in H as (u1 & _ & H).
    injection H as <-. apply handle_actions_grows.
  - destruct (negb _); [by injection H as <-|]. destruct (create_session _ _ t r) as [s r1].
    apply bind_Some in H as ([[acts s'] r2] & _ & H).
    apply bind_Some in H as (m1 & ->%increment_spec & H). injection H as <-. apply handle_actions_grows.
Qed.
Lemma update_session_grows t (st st' : Poll) a : update_session t st a = Some st' ->
  grows (sm_messenger st.1.1) (sm_messenger st'.1.1).
Proof.
  destruct st as [[m u] r]. unfold update_session. intros H.
  destruct (sm_sessions m !! a) as [s|]; [|by injection H as <-].
  apply bind_Some in H as ([[acts s'] r1] & _ & H). injection H as <-. apply handle_actions_grows.
Qed.
Lemma foldM_grows {A} (f : Poll -> A -> option Poll) l (st st' : Poll) :
  (forall st x st', f st x = Some st' -> grows (sm_messenger st.1.1) (sm_messenger st'.1.1)) ->
  foldM f st l = Some st' -> grows (sm_messenger st.1.1) (sm_messenger st'.1.1).
Proof.
  intros Hf H. apply (foldM_invariant (fun x : Poll => grows (sm_messenger st.1.1) (sm_messenger x.1.1))) in H;
    [done| |done]. intros x a y Hx _ E. etrans; [exact Hx|by eapply Hf].
Qed.
Lemma drop_loop_grows order t (st st' : Poll) : drop_loop order t st = Some st' ->
  grows (sm_messenger st.1.1) (sm_messenger st'.1.1).
Proof.
  unfold drop_loop. intros ([[[m1 u1] r1] drops] & H1 & H)%bind_Some.
  apply bind_Some in H as (m2 & H2 & H). injection H as <-. cbn [fst].
  apply drop_sessions_run in H2 as (-> & _ & _).
  apply (foldM_invariant (fun acc : Poll * list SocketAddr =>
    grows (sm_messenger st.1.1) (sm_messenger acc.1.1.1))) in H1; [exact H1| |done].
  intros [[[m u] r] l] a acc' Hm _ E. etrans; [exact Hm|]. unfold check_drop in E.
  destruct (sm_sessions m !! a) as [s|]; [|by injection E as <-].
  apply bind_Some in E as ([[[d acts] s'] r2] & _ & E). injection E as <-. apply handle_actions_grows.
Qed.

(** A poll, seen from its two ends: what stands after the receive loop and what the users sent is
    all carried on to the flush. *)
Lemma manual_poll_hands_on order fuel t m r m' r' :
  SessionManager_manual_poll order fuel t m r = Some (m', r') ->
  exists (st1 st2 : Poll) mg, receive_loop fuel t (m, unestablished_session_count m, r) = Some st1 /\
    user_event_loop t st1 = Some st2 /\ grows (sm_messenger st1.1.1) (sm_messenger st2.1.1) /\
    grows (sm_messenger st2.1.1) mg /\ sm_messenger m' = Messenger_flush mg.
Proof.
  unfold SessionManager_manual_poll. intros (st1 & H1 & H)%bind_Some.
  apply bind_Some in H as (st2 & H2 & H). apply bind_Some in H as (st3 & H3 & H).
  apply bind_Some in H as ([[m4 u4] r4] & H4 & H). injection H as <- <-.
  exists st1, st2, (sm_messenger m4). split; [done|]. split; [done|]. split; [|split; [|done]].
  - unfold user_event_loop in H2. destruct st1 as [[m1 u1] r1].
    apply foldM_grows in H2; [exact H2|]. intros; by eapply user_event_grows.
  - unfold update_loop in H3. apply foldM_grows in H3; [|intros; by eapply update_session_grows].
    etrans; [exact H3|]. by apply drop_loop_grows in H4.
Qed.

(* ------------------------------------------------------------------ *)
(** ** Datagrams of one sender                                          *)
(* ------------------------------------------------------------------ *)

(** The socket hands over exactly [dgs], all from [a], and is then empty. *)
Fixpoint hands_over (len : Z) a (dgs : list (list Z)) (s : T) : Prop :=
  match dgs with
  | [] => exists e s', receive_packet len s = (Err e, s')
  | dg :: dgs => exists s', receive_packet len s = (Ok (dg, a), s') /\
      is_blocking_mode s' = false /\ hands_over len a dgs s'
  end.
(** The interceptor lets everything pass as it is. *)
Definition transparent (i : I) : Prop :=
  (forall a data, on_receive a data i = ((true, data), i)) /\
  (forall a data, on_send a data i = ((true, data), i)).

(** What the socket hands over is among what arrives. *)
Lemma arrivals_hands_over `{!SessionTotal S SendEvent ReceiveEvent} len a dgs :
  forall n (s : T) (i : I) c, transparent i -> arrivals len n s i c -> hands_over len a dgs s ->
  (length dgs <= n)%nat.
Proof.
  induction dgs as [|dg dgs IH]; intros n s i c Hi; cbn [length hands_over]; [lia|].
  destruct n as [|n]; cbn [arrivals]; intros Ha (s' & E & Hb & Hd); rewrite E in Ha; [done|].
  rewrite (proj1 Hi), Hb in Ha. destruct Ha as [_ Ha]. specialize (IH n s' i _ Hi Ha Hd). lia.
Qed.

(** The session is handed the datagrams one after the other. *)
Fixpoint feed (dgs : list (list Z)) t (s : S) r : option (list (Action ReceiveEvent) * S * Rng) :=
  match dgs with
  | [] => Some ([], s, r)
  | dg :: dgs =>
      '(acts, s, r) ← process_packet dg t s r;
      '(rest, s, r) ← feed dgs t s r;
      Some (acts ++ rest, s, r)
  end.

Context `{!SessionLaws S SendEvent ReceiveEvent}.

(** The manager after the session at [a] became [s], the socket [k], and the session's [acts] were
    taken over by the messenger. *)
Definition stepped a (s : S) (k : T) (acts : list (Action ReceiveEvent)) m : SessionManager :=
  let mg := sm_messenger m in
  set_messenger (mkMessenger (mg_config mg) k (mg_sent_events mg)
    (mg_pending_sends mg ++ ((a,.) <$> sends acts)) (mg_pending_events mg ++ emits acts)
    (mg_interceptor mg) (mg_send_pool mg)) (set_sessions (<[a := s]> (sm_sessions m)) m).

Lemma stepped_nil a s m : sm_sessions m !! a = Some s ->
  stepped a s (mg_socket (sm_messenger m)) [] m = m.
Proof.
  intros H. unfold stepped, set_messenger, set_sessions. cbn. rewrite insert_id, !app_nil_r by done.
  by destruct m as [? ? ? [] ? ? ?].
Qed.
Lemma stepped_twice a s1 s2 k1 k2 acts1 acts2 m :
  stepped a s2 k2 acts2 (stepped a s1 k1 acts1 m) = stepped a s2 k2 (acts1 ++ acts2) m.
Proof.
  unfold stepped, set_messenger, set_sessions, sends. cbn.
  by rewrite insert_insert_eq, omap_app, emits_app, fmap_app, !app_assoc.
Qed.
Lemma with_actions_stepped a s acts m :
  with_actions a acts (set_sessions (<[a := s]> (sm_sessions m)) m) =
  stepped a s (mg_socket (sm_messenger m)) acts m.
Proof. unfold with_actions. by rewrite handle_actions_run. Qed.

(** The socket after [n] datagrams and the failed receive that ends the loop. *)
Fixpoint emptied (len : Z) (n : nat) (s : T) : T :=
  let s := (receive_packet len s).2 in match n with O => s | Datatypes.S n => emptied len n s end.

(** An established session takes its datagrams, and what it emits is pending. *)
Lemma receive_loop_feed a t dgs : forall fuel m u r s acts s' r', (length dgs < fuel)%nat ->
  sm_sessions m !! a = Some s -> pending s = false ->
  transparent (mg_interceptor (sm_messenger m)) ->
  hands_over (sm_receive_buffer m) a dgs (mg_socket (sm_messenger m)) ->
  feed dgs t s r = Some (acts, s', r') ->
  receive_loop fuel t (m, u, r) = Some (stepped a s'
    (emptied (sm_receive_buffer m) (length dgs) (mg_socket (sm_messenger m))) acts m, u, r').
Proof.
  induction dgs as [|dg dgs IH]; intros [|fuel] m u r s acts s' r' Hn Hs Hp Hi Hd Hf; try (cbn in Hn; lia);
    cbn [receive_loop feed hands_over length emptied] in *.
  - destruct Hd as (e & sock & ->). injection Hf as <- <- <-. cbn [snd]. do 3 f_equal.
    unfold stepped, set_messenger, set_sessions. cbn. by rewrite insert_id, !app_nil_r.
  - destruct Hd as (sock & -> & Hb & Hd). cbn [mg_interceptor mg_socket snd].
    rewrite (proj1 Hi). cbn [negb].
    apply bind_Some in Hf as ([[acts1 s1] r1] & E & Hf). apply bind_Some in Hf as ([[rest s2] r2] & E2 & Hf).
    injection Hf as <- <- <-.
    assert (negb (is_established s) && is_established s1 = false) as Hest.
    { destruct (is_established s) eqn:E0, (is_established s1) eqn:E1; try done. exfalso.
      rewrite (packet_establishes _ _ _ _ _ _ _ E) in Hp; done. }
    set (m0 := set_messenger _ m). unfold deliver_datagram.
    rewrite (Hs : sm_sessions m0 !! a = Some s), E. cbn [mbind option_bind].
    rewrite Hest. cbn [mbind option_bind fst]. rewrite with_actions_stepped.
    change (mg_socket (sm_messenger (stepped a s1 (mg_socket (sm_messenger m0)) acts1 m0))) with sock. rewrite Hb.
    rewrite (IH fuel _ u r1 s1 rest s2 r2);
      [|lia|by cbn; rewrite lookup_insert_eq|by eapply packet_settled|exact Hi|exact Hd|exact E2].
    do 3 f_equal. rewrite stepped_twice. done.
Qed.
End Poll.

(* ------------------------------------------------------------------ *)
(** ** Two hosts                                                        *)
(* ------------------------------------------------------------------ *)

Section Hosts.
Context {X : Externs} {L : ByteOrderLaws X} {B : ByteStreamLaws X}.
Context `{!CrcLaws X, !ZlibLaws X, !Lz4Laws X}.
Context {U C I : Type} `{!UdpSocket U, !Clock C, !Interceptor I}.
#[local] Abbreviation Host := (Host U C I).
Implicit Types (h : Host) (a b : SocketAddr).

Lemma feed_peer clock dgs t : forall q r,
  @feed _ _ _ (Peer_Session clock) dgs t q r = receive_datagrams dgs t q r.
Proof.
  induction dgs as [|dg dgs IH]; intros q r; cbn [feed receive_datagrams]; [done|].
  unfold mbind, option_bind, PeerM_bind. cbn [process_packet Peer_Session].
  destruct (Peer_process_packet dg t q r) as [[[acts q1] r1]|]; [|done]. rewrite IH.
  by destruct (receive_datagrams dgs t q1 r1) as [[[rest q2] r2]|].
Qed.

Lemma intercepted_all `{!Interceptor J} (i : J) l : transparent i -> intercepted i l = (l, i).
Proof.
  intros [_ Hi]. induction l as [|[a d] l IH]; [done|]. cbn [intercepted]. by rewrite Hi, IH.
Qed.

(** A host with an established session and nothing pending. *)
Record connected h a (p : Peer) : Prop := {
  cn_session : sm_sessions (h_handler h) !! a = Some p;
  cn_sends : mg_pending_sends (sm_messenger (h_handler h)) = [];
  cn_events : mg_pending_events (sm_messenger (h_handler h)) = [];
  cn_transparent : transparent (mg_interceptor (sm_messenger (h_handler h)))
}.

(** The sending poll: the packet's datagrams are the first to leave. *)
Lemma sending_poll clock order fuel t h packet b p r dgs p' r' h' rng' e s' :
  connected h b p -> sm_user_events (h_handler h) = [] -> pk_addr packet = b ->
  Peer_is_established p = true ->
  receive_packet (sm_receive_buffer (h_handler h)) (mg_socket (sm_messenger (h_handler h))) = (Err e, s') ->
  Peer_process_event packet t p r = Some (Send <$> dgs, p', r') ->
  Host_manual_poll clock order fuel t (Host_send packet h) r = Some (h', rng') ->
  exists rest, mg_socket (sm_messenger (h_handler h')) = send_all s' (((b,.) <$> dgs) ++ rest).
Proof.
  intros [Hs Hps Hpe Hi] Hev Ha Hest Hrecv Hrun Hpoll.
  unfold Host_manual_poll, host_session in Hpoll. apply bind_Some in Hpoll as ([m r1] & Hpoll & E).
  injection E as <- <-. cbn [h_handler set_handler].
  apply manual_poll_hands_on in Hpoll as (st1 & st2 & mg & H1 & H2 & _ & Hg & ->).
  destruct fuel as [|fuel]; [done|]. cbn [receive_loop Host_send h_handler set_handler
    sm_messenger set_user_events sm_receive_buffer] in H1.
  rewrite Hrecv in H1. injection H1 as <-.
  unfold user_event_loop in H2. cbn [sm_user_events set_messenger set_user_events] in H2.
  rewrite Hev in H2. cbn [app foldM] in H2. apply bind_Some in H2 as (st & H2 & E). injection E as <-.
  unfold handle_user_event in H2. cbn [sm_sessions set_user_events set_messenger] in H2.
  change (event_address packet) with (pk_addr packet) in H2. rewrite Ha, Hs in H2.
  cbn [is_established process_event Peer_Session] in H2. rewrite Hrun in H2.
  cbn [mbind option_bind] in H2. rewrite Hest in H2. cbn [negb andb mbind option_bind] in H2.
  injection H2 as <-. cbn [fst] in Hg. unfold with_actions in Hg. rewrite handle_actions_run in Hg.
  destruct Hg as [[rest Hsends] _ _ Hsock Hint]. cbn in Hsends, Hsock, Hint. exists rest.
  pose proof (flush_run mg) as Hf. cbv zeta in Hf.
  rewrite Hint, intercepted_all in Hf by exact Hi. destruct Hf as [-> _]. rewrite Hsock, Hsends, Hps.
  do 3 f_equal. cbn [app]. clear. unfold sends. induction dgs as [|dg dgs IH]; [done|]. cbn. by rewrite IH.
Qed.

(** The receiving poll: what the session emits are the first events the application gets. *)
Lemma receiving_poll clock order fuel t h a q r dgs evs q' r' h' rng' :
  connected h a q -> mg_sent_events (sm_messenger (h_handler h)) = [] ->
  Peer_is_established q = true -> (length dgs < fuel)%nat ->
  hands_over (sm_receive_buffer (h_handler h)) a dgs (mg_socket (sm_messenger (h_handler h))) ->
  receive_datagrams dgs t q r = Some (Emit <$> evs, q', r') ->
  Host_manual_poll clock order fuel t h r = Some (h', rng') ->
  exists rest, mg_sent_events (sm_messenger (h_handler h')) = evs ++ rest.
Proof.
  intros [Hs Hps Hpe Hi] Hev Hest Hn Hd Hrun Hpoll.
  unfold Host_manual_poll, host_session in Hpoll. apply bind_Some in Hpoll as ([m r1] & Hpoll & E).
  injection E as <- <-. cbn [h_handler set_handler].
  apply manual_poll_hands_on in Hpoll as (st1 & st2 & mg & H1 & _ & Hg1 & Hg2 & Em).
  pose proof (@receive_loop_feed _ _ _ _ _ (Peer_Session clock) _ _ (Peer_SessionLaws clock) a t dgs
    fuel (h_handler h) (unestablished_session_count (Session0 := Peer_Session clock) (h_handler h))
    r q (Emit <$> evs) q' r' Hn Hs) as E1.
  rewrite feed_peer in E1. specialize (fun Hp => E1 Hp Hi Hd Hrun).
  assert (@pending _ _ _ _ (Peer_SessionLaws clock) q = false) as Hp.
  { destruct (pending q) eqn:Ep; [|done].
    apply (@pending_unestablished _ _ _ _ (Peer_SessionLaws clock)) in Ep. cbn in Ep. congruence. }
  pose proof (eq_trans (eq_sym H1) (E1 Hp)) as Est. injection Est as ->.
  cbn [fst] in Hg1. pose proof (transitivity Hg1 Hg2) as [_ [l Hl] Hse _ _]. cbn in Hl, Hse.
  rewrite Hpe, emits_all in Hl. exists l. rewrite Em.
  destruct (flush_books mg) as (-> & _). by rewrite Hse, Hev, Hl.
Qed.

(** C2: From host to host.  The host that sends has a connected session with an empty queue and finds
    nothing at its socket; the one that receives has a connected session with no unfinished
    fragments under the sequence number of the packet; interceptors are transparent.  The
    application sends a packet without ordering, reliable or not, that is within the limit of
    waiting data and needs at most 255 and at most [max_fragments] fragments.  The next poll
    completes, and the datagrams of the packet are the first the socket is given.  Whatever of
    these the socket of the other host hands over, in any order, with losses and duplicates, the
    next poll there completes too, and the first events its application is given are those of the
    reference assembler, each of them the packet that was sent: the same bytes, channel and
    guarantee, under the sender's address.  When all the datagrams come in once, that is one
    packet, the first thing the application receives. *)
Theorem hosts_deliver d ch data a b hA hB p q limitA limitB clockA clockB orderA orderB
  tA tB rA rB (nB fuelA fuelB : nat) cB e sA
  (HoA : forall l, orderA l ≡ₚ l) (HoB : forall l, orderB l ≡ₚ l)
  (HA : connected hA b p) (HeA : sm_user_events (h_handler hA) = [])
  (HquietA : receive_packet (sm_receive_buffer (h_handler hA))
               (mg_socket (sm_messenger (h_handler hA))) = (Err e, sA))
  (HfA : host_funded limitA (user_packet_cost (Packet_new b data d OrderNone ch) + 2) hA)
  (HfuelA : (0 < fuelA)%nat)
  (HB : connected hB a q) (HeB : mg_sent_events (sm_messenger (h_handler hB)) = [])
  (HinB : incoming nB cB hB) (HfuelB : (nB < fuelB)%nat) (HfB : host_funded limitB (cB + 2) hB)
  (Hp : idle_sender p) (Hseq : u16_ok (message_sequence d p))
  (Hfits : fits p ch data (fragment_header d))
  (Hq : ready a (use_checksums (p_config p)) q) (Hroom : recv_room (Z.of_nat nB) q)
  (Hnew : p_command_fragments q !! message_sequence d p = None) :
  let n := sent_parts d p data in
  let out := Packet_new a data d OrderNone ch in
  exists (parcels : list Parcel) rest hA' rA', 0 < n /\ concat parcels.*2 = seqZ 0 n /\
    Host_manual_poll clockA orderA fuelA tA (Host_send (Packet_new b data d OrderNone ch) hA) rA
      = Some (hA', rA') /\
    mg_socket (sm_messenger (h_handler hA')) = send_all sA (((b,.) <$> parcels.*1) ++ rest) /\
    (forall arrived, Forall (fun x => x ∈ parcels) arrived ->
     hands_over (sm_receive_buffer (h_handler hB)) a arrived.*1 (mg_socket (sm_messenger (h_handler hB))) ->
     exists hB' rB' more, Host_manual_poll clockB orderB fuelB tB hB rB = Some (hB', rB') /\
       mg_sent_events (sm_messenger (h_handler hB')) =
         (EvPacket <$> (receiver_run (assembler out n) ∅ (concat arrived.*2)).1) ++ more /\
       (arrived ≡ₚ parcels -> (Host_recv hB').1 = Some (EvPacket out))).
Proof.
  intros n out. set (packet := Packet_new b data d OrderNone ch) in *.
  destruct (message_delivery d p q ch data b tA rA rB a Hp Hseq Hfits Hq Hnew)
    as (parcels & p' & Erun & _ & _ & _ & Hn & Hks & Hrecv). fold n out in Hn, Hks, Hrecv.
  destruct (poll_funded limitA 0 clockA orderA 0 fuelA 0 tA (Host_send packet hA) rA)
    as (hA' & rA' & EA & _); [done|done| |done|by apply send_funded|].
  { unfold incoming. cbn [arrivals h_handler Host_send set_handler sm_receive_buffer sm_messenger
      set_user_events]. by rewrite HquietA. }
  destruct (sending_poll clockA orderA fuelA tA hA packet b p rA parcels.*1 p' rA hA' rA' e sA HA HeA)
    as [rest Hrest]; [done| |done|exact Erun|exact EA|].
  { unfold Peer_is_established. by rewrite (is_connected _ Hp). }
  exists parcels, rest, hA', rA'. repeat (split; [done|]). intros arrived Harr Hd.
  pose proof (arrivals_hands_over _ a arrived.*1 nB _ _ cB (cn_transparent _ _ _ HB) HinB Hd) as Hlen.
  destruct (Hrecv (arrivals_at tB arrived)) as (q' & Erecv).
  { by rewrite snd_at. }
  { rewrite length_fmap in Hlen. apply Nat2Z.inj_le in Hlen. rewrite zlen_at.
    eapply recv_room_weaken; [exact Hlen|exact Hroom]. }
  rewrite datagrams_at, numbers_at in Erecv.
  destruct (poll_funded limitB 0 clockB orderB nB fuelB cB tB hB rB)
    as (hB' & rB' & EB & _); [done|done|done|done|by rewrite Z.add_0_r|].
  destruct (receiving_poll clockB orderB fuelB tB hB a q rB arrived.*1
    (EvPacket <$> (receiver_run (assembler out n) ∅ (concat arrived.*2)).1) q' rB hB' rB' HB HeB)
    as [more Hmore]; [|lia|exact Hd|by rewrite <-list_fmap_compose|exact EB|].
  { unfold Peer_is_established. by rewrite (rd_state _ _ _ Hq). }
  exists hB', rB', more. split; [exact EB|]. split; [exact Hmore|]. intros Hall.
  rewrite assembler_complete in Hmore; [|done|by rewrite <-Hks; apply permuted_concat, fmap_Permutation].
  unfold Host_recv. by rewrite Hmore.
Qed.
End Hosts.

(* ------------------------------------------------------------------ *)
(** ** A concrete pair of hosts                                         *)
(* ------------------------------------------------------------------ *)

Import Loopback Sample.

(** A host with one connected session and the given datagrams at its socket. *)
Definition paired_host (waiting : list (list Z * SocketAddr)) : Host sock SystemClock NoOpInterceptor :=
  mkHost (mkSessionManager {[ sample_addr := open_peer ]} 1452 []
    (Messenger_new Config_default
       (mkSocketWithConditioner false (mkSock sample_addr waiting [])) [] (NoOp tt))
    (max_unestablished_connections Config_default) {[ sa_ip sample_addr := 1 ]} 0) system.

Lemma noop_transparent : transparent (NoOp tt : BoxInterceptor NoOpInterceptor).
Proof. by split. Qed.
Lemma paired_connected waiting : connected (paired_host waiting) sample_addr open_peer.
Proof. split; [apply lookup_singleton_eq|done|done|exact noop_transparent]. Qed.

Lemma paired_books waiting : manager_books 0 (h_handler (paired_host waiting)).
Proof.
  split; [|done]. change (books (<[sample_addr := open_peer]> (∅ : gmap SocketAddr Peer))
    (<[sa_ip sample_addr := ip_sessions (∅ : gmap SocketAddr Peer) (sa_ip sample_addr) + 1]> ∅) 0).
  by apply books_new; [|apply books_empty|].
Qed.
Lemma paired_funded waiting k : (0 <=? k) && (k <=? 1000000) = true ->
  host_funded 0 k (paired_host waiting).
Proof.
  intros Hk. unfold host_funded. cbn [h_handler paired_host sm_user_events zsum foldr].
  split; [apply paired_books| | |change (0 + k <= peer_credit Config_default)|done].
  - change (Z.of_nat (size ({[ sample_addr := open_peer ]} : gmap SocketAddr Peer)) + (0 + k) <= u64_max).
    rewrite map_size_singleton. unfold u64_max. lia.
  - intros a s Ha. cbn [sm_sessions] in Ha. apply lookup_singleton_Some in Ha as [_ <-].
    assert (solvent 1000000 open_peer) as Hs.
    { assert (solvent 1000000 sample_peer) as Hs by
        (apply new_peer_solvent; [split; [vm_compute; discriminate|done]|lia|vm_compute; discriminate]).
      eapply solvent_like; [|exact Hs]. done. }
    cbn. eapply solvent_weaken; [|exact Hs]. lia.
  - assert (1000000 <= peer_credit Config_default) by (vm_compute; discriminate). lia.
Qed.

(** The datagrams the first host sends are brought to the second. *)
Definition carried : list (list Z) :=
  match Host_manual_poll 0 identity 1 5
    (Host_send (Packet_new sample_addr [4; 5; 6] Reliable OrderNone 0) (paired_host [])) sample_rng with
  | Some (h, _) => (sk_sent (sc_socket (mg_socket (sm_messenger (h_handler h))))).*1
  | None => []
  end.

Lemma send_all_sent l : forall s : SocketWithConditioner sock,
  sk_sent (sc_socket (send_all s l)) = sk_sent (sc_socket s) ++ ((fun x => (x.2, x.1)) <$> l).
Proof.
  induction l as [|[a d] l IH]; intros s; [by cbn; rewrite app_nil_r|].
  change (send_all s ((a, d) :: l)) with (send_all (send_packet a d s).2 l). rewrite IH. cbn. by rewrite <-app_assoc.
Qed.

Lemma sent_bytes (b : SocketAddr) (dgs : list (list Z)) rest :
  ((fun x => (x.2, x.1)) <$> (((b,.) <$> dgs) ++ rest)).*1 = dgs ++ rest.*2.
Proof.
  rewrite !fmap_app, <-!list_fmap_compose. f_equal.
  induction dgs as [|dg dgs IH]; [done|]. cbn. by rewrite IH.
Qed.
Lemma carried_is h r : Host_manual_poll 0 identity 1 5
    (Host_send (Packet_new sample_addr [4; 5; 6] Reliable OrderNone 0) (paired_host [])) sample_rng = Some (h, r) ->
  carried = (sk_sent (sc_socket (mg_socket (sm_messenger (h_handler h))))).*1.
Proof. unfold carried. by intros ->. Qed.
Definition on_the_wire : list Z :=
  [0; 1; 0; 10; 1; 0; 0; 0; 0; 0; 3; 4; 5; 6; 188; 204; 160; 147].
Lemma carried_bytes : carried = [on_the_wire].
Proof. vm_compute. reflexivity. Qed.
Lemma on_the_wire_bytes : bytes_ok on_the_wire.
Proof. repeat (apply Forall_cons_2; [unfold u8_ok; lia|]). constructor. Qed.

Lemma only_datagram (dgs rest : list (list Z)) dg : dgs <> [] -> [dg] = dgs ++ rest -> dgs = [dg].
Proof. destruct dgs as [|x [|y dgs]]; [done| |done]. by intros _ [= -> _]. Qed.

Definition receiving_host : Host sock SystemClock NoOpInterceptor :=
  paired_host [(on_the_wire, sample_addr)].

Lemma hosts_deliver_witness :
  exists hB' rB', Host_manual_poll 9 identity 5 9 receiving_host sample_rng = Some (hB', rB') /\
    (Host_recv hB').1 = Some (EvPacket (Packet_new sample_addr [4; 5; 6] Reliable OrderNone 0)).
Proof.
  destruct (hosts_deliver Reliable 0 [4; 5; 6] sample_addr sample_addr (paired_host []) receiving_host
    open_peer open_peer 0 0 0 9 identity identity 5 9 sample_rng sample_rng 4 1 5 2000
    (mkIoError WouldBlock "nothing there") (mkSocketWithConditioner false (mkSock sample_addr [] [])))
    as (parcels & rest & hA' & rA' & Hn & Hks & EA & Hsock & Hrecv).
  - intros l. reflexivity.
  - intros l. reflexivity.
  - apply paired_connected.
  - reflexivity.
  - reflexivity.
  - exact (paired_funded [] 264 eq_refl).
  - lia.
  - apply paired_connected.
  - reflexivity.
  - split; [exact on_the_wire_bytes|]. vm_compute. discriminate.
  - lia.
  - apply paired_funded. reflexivity.
  - exact open_peer_sends.
  - vm_compute. split; [discriminate|reflexivity].
  - split; [by vm_compute|by repeat (apply Forall_cons_2; [unfold u8_ok; lia|])|exact (sample_room [4; 5; 6] eq_refl)|by vm_compute|by vm_compute].
  - exact open_peer_ready.
  - eapply recv_room_weaken; [|exact open_peer_room]. lia.
  - reflexivity.
  - assert (parcels.*1 = [on_the_wire]) as Hdgs.
    { pose proof (carried_is _ _ EA) as E. rewrite Hsock, send_all_sent, carried_bytes in E.
      cbn [sk_sent sc_socket app] in E. rewrite sent_bytes in E.
      refine (only_datagram _ _ _ _ E). intros Hnil. apply fmap_nil_inv in Hnil. rewrite Hnil in Hks.
      rewrite seqZ_cons in Hks by exact Hn. discriminate Hks. }
    destruct (Hrecv parcels) as (hB' & rB' & more & EB & _ & Hone).
    + by apply Forall_forall.
    + rewrite Hdgs. eexists. split; [reflexivity|]. split; [reflexivity|]. eexists _, _. reflexivity.
    + exists hB', rB'. split; [exact EB|]. by apply Hone.
Defined.
