(* ===== verification/Crowds.v ===== *)
(** Delivery between two hosts that have other business: sessions with others, whose datagrams
    arrive in between, and whose applications' packets are sent by the same polls. *)

From S2P Require Import Prelude Core Externs Buffers Packet Command CommandProcessor PeerParts.
From S2P Require Import Peer PeerFacts Fragmenter FragmenterFacts PeerEncoder EncoderFacts.
From S2P Require Import Session PeerSession ProcessorFacts HostFacts SessionEvents Parcels.
From S2P Require Import Delivery.
From S2P Require Import SessionManager Sockets Host ManagerFacts PollFacts Isolation.
From S2P Require Import HostSystem.
From S2P Require Import Budget Robustness HostSurvival HostDelivery.

Section Crowd.
Context {X : Externs} {L : ByteOrderLaws X} {B : ByteStreamLaws X}.
Context `{!CrcLaws X, !ZlibLaws X, !Lz4Laws X}.
Context (clock : Instant).
#[local] Instance this_session : Session Peer Packet SocketEvent := Peer_Session clock.
Implicit Types (config : Config) (a b : SocketAddr) (t : Instant).

(* ------------------------------------------------------------------ *)
(** ** Whose events they are                                            *)
(* ------------------------------------------------------------------ *)

(** A session reports under its own address. *)
Lemma meets_reports config t a (s s' : option Peer) i acts : meets config t a s i acts s' ->
  (forall p, s = Some p -> keyed a p) -> Forall (fun e => SocketEvent_address e = a) (emits acts).
Proof.
  intros H Hs. change (emits acts) with (events acts).
  assert (forall data p r acts p' r', Peer_process_packet data t p r = Some (acts, p', r') -> keyed a p ->
    Forall (fun e => SocketEvent_address e = a) (events acts)) as Hpacket.
  { clear. intros data p r acts p' r' E Hp.
    destruct (process_packet_events a _ _ _ _ _ _ _ E Hp) as (c & pks & -> & Hpk & _).
    apply Forall_app. split; [by destruct c; repeat constructor|]. by apply Forall_fmap. }
  destruct H as [data p r acts p' r' E|data r p r1 acts p' r2 room Ec E|ev p r acts p' r' E
    |ev r p r1 acts p' r2 Ec E|ev|p r acts p' r' E|p r over acts p' r' E|i _]; try constructor.
  - eapply Hpacket; [exact E|by apply Hs].
  - eapply Hpacket; [exact E|]. apply (f_equal fst) in Ec. cbn [fst] in Ec. rewrite <-Ec.
    exact (peer_create_keyed clock config a t r).
  - by rewrite (process_event_silent _ _ _ _ _ _ _ E).
  - by rewrite (process_event_silent _ _ _ _ _ _ _ E).
  - destruct (update_silent (p_remote_address p) clock t _ _ _ _ _ E eq_refl) as [_ ->]. constructor.
  - injection E as E <- <-. specialize (Hs p eq_refl). unfold Peer_should_drop in E. unfold keyed in Hs.
    rewrite Hs in E. cbv zeta in E. repeat case_match; simplify_eq; repeat constructor.
Qed.
Lemma lifetime_reports config t a (s s' : option Peer) ins acts : lifetime config t a s ins acts s' ->
  (forall p, s = Some p -> keyed a p) -> Forall (fun e => SocketEvent_address e = a) (emits acts).
Proof.
  intros H Hs. induction H as [|ins acts s1 i acts' s2 H1 IH H2]; [constructor|].
  rewrite emits_app. apply Forall_app. split; [done|]. eapply meets_reports; [exact H2|].
  eapply lifetime_keeps; [apply peer_engine_keeps|exact H1|exact Hs].
Qed.

(** The events of a log that carry an address are those of the session there. *)
Lemma reported_by (log : list (SocketAddr * Action SocketEvent)) a :
  (forall b, Forall (fun e => SocketEvent_address e = b) (emits (addressed b log))) ->
  filter (fun e => SocketEvent_address e = a) (log_emits log) = emits (addressed a log).
Proof.
  induction log as [|[b act] log IH]; [done|]. intros H.
  assert (forall c, Forall (fun e => SocketEvent_address e = c) (emits (addressed c log))) as Hl.
  { intros c. specialize (H c). rewrite addressed_cons in H. destruct (decide (b = c)); [|done].
    destruct act; [done|]. by apply Forall_cons in H as [_ H]. }
  specialize (IH Hl). specialize (H b). rewrite addressed_cons, decide_True in H by done.
  rewrite addressed_cons. destruct act as [bytes|e].
  - change (log_emits ((b, Send bytes) :: log)) with (log_emits log). rewrite IH.
    by destruct (decide (b = a)).
  - change (log_emits ((b, Emit e) :: log)) with (e :: log_emits log).
    apply Forall_cons in H as [He _]. rewrite filter_cons, He, IH.
    by destruct (decide (b = a)).
Qed.

(* ------------------------------------------------------------------ *)
(** ** The two sessions                                                 *)
(* ------------------------------------------------------------------ *)

(** A session that is told to send, first of all. *)
Lemma lifetime_sending config t b p packet ins acts x :
  lifetime config t b (Some p) (Told packet :: ins) acts x ->
  exists r acts1 p' r' more, Peer_process_event packet t p r = Some (acts1, p', r') /\
    acts = acts1 ++ more.
Proof.
  intros H. apply (lifetime_split config t b _ ins [Told packet]) in H as (acts1 & s1 & more & H1 & _ & ->).
  apply lifetime_one in H1. inversion H1 as [| |ev q r acts' q' r' E| | | | |]; subst.
  by exists r, acts1, q', r', more.
Qed.

(** A receiver that follows an abstract one does so whatever the others do to the generator. *)
Lemma lifetime_arrivals {A} (step : A -> Z -> list Packet * A) config t a ck f n P size arrived :
  simulates step a ck f n P -> size <= 1537 -> forall s q acts x,
  Forall (parcel_ok ck f n size) arrived -> P s q -> recv_room (zlen arrived) q ->
  lifetime config t a (Some q) (Heard <$> arrived.*1) acts x ->
  let run := receiver_run step s (concat arrived.*2) in
  exists q', x = Some q' /\ acts = (fun out => Emit (EvPacket out)) <$> run.1 /\
    P run.2 q' /\ heard (zlen arrived) q q'.
Proof.
  intros HP Hsize. induction arrived as [|[dg js] arrived IH] using rev_ind; intros s q acts x Hf Hs Hroom H.
  - inversion H as [|ins ? ? ? ? ? ? ? E]; [|by destruct ins]. subst. exists q. by split_and!; [..|apply heard_none].
  - apply Forall_app in Hf as [Hf Hone]. pose proof (zlen_nonneg arrived).
    rewrite zlen_app in Hroom |- *. change (zlen [(dg, js)]) with 1 in *.
    do 2 rewrite fmap_app in H. rewrite fmap_app. apply lifetime_split in H as (acts1 & s1 & acts2 & H1 & H2 & ->).
    destruct (IH s q acts1 s1 Hf Hs) as (q1 & -> & -> & Hs1 & Hh1); [|exact H1|].
    { eapply recv_room_weaken; [|exact Hroom]. lia. }
    apply lifetime_one in H2. inversion H2 as [data q0 r acts' q2 r' E| | | | | | |]; subst.
    destruct (arrivals_simulated step a ck f n P HP size [(t, (dg, js))] Hsize _ q1 r ltac:(exact Hone) Hs1)
      as (q3 & E3 & Hs3 & Hh3 & _).
    { change (zlen _) with 1. apply (heard_room 1 (zlen arrived) q q1); [lia|done|by rewrite Z.add_comm]. }
    change (numbers [(t, (dg, js))]) with (js ++ []) in E3, Hs3. rewrite app_nil_r in E3, Hs3.
    cbn [datagrams fmap list_fmap receive_arrivals fst snd] in E3.
    unfold mbind, PeerM_bind in E3. cbn [process_packet] in E.
    change (Peer_process_packet dg t q1 r = Some (acts2, q2, r')) in E. rewrite E in E3.
    cbn in E3. injection E3 as Ea <- <-. rewrite app_nil_r in Ea. subst acts2.
    exists q2. rewrite concat_app. change (concat [(dg, js)].*2) with (js ++ []).
    rewrite app_nil_r, receiver_run_app. cbn [fst snd].
    split; [done|]. split; [by rewrite fmap_app|]. split; [exact Hs3|]. by eapply heard_trans.
Qed.
End Crowd.

(* ------------------------------------------------------------------ *)
(** ** Two hosts                                                        *)
(* ------------------------------------------------------------------ *)

Section Hosts.
Context {X : Externs} {L : ByteOrderLaws X} {B : ByteStreamLaws X}.
Context `{!CrcLaws X, !ZlibLaws X, !Lz4Laws X}.
Context {U C I : Type} `{!UdpSocket U, !Clock C, !Interceptor I}.
#[local] Abbreviation Host := (Host U C I).
Implicit Types (h : Host) (a b : SocketAddr).

(** What the next poll of a host takes from its socket, from anyone, and what the socket and the
    interceptor are then. *)
Definition taken (fuel : nat) h
  : list (SocketAddr * list Z) * SocketWithConditioner U * BoxInterceptor I :=
  let m := h_handler h in
  intake (sm_receive_buffer m) fuel (mg_socket (sm_messenger m)) (mg_interceptor (sm_messenger m)).

(** A poll of a host, as the lives of its sessions. *)
Lemma host_apart config clock order fuel t h r h' r' : host_ok config h ->
  (forall l, order l ≡ₚ l) -> Host_manual_poll clock order fuel t h r = Some (h', r') ->
  let '(arrived, socket, i) := taken fuel h in
  exists log : list (SocketAddr * Action SocketEvent),
    mg_socket (sm_messenger (h_handler h')) = send_all socket (intercepted i (log_sends log)).1 /\
    mg_sent_events (sm_messenger (h_handler h')) =
      mg_sent_events (sm_messenger (h_handler h)) ++ log_emits log /\
    (forall a, filter (fun e => SocketEvent_address e = a) (log_emits log) = emits (addressed a log)) /\
    forall a, @lifetime _ _ _ (Peer_Session clock) config t a (sm_sessions (h_handler h) !! a)
      ((Heard <$> addressed a arrived) ++
       (Told <$> filter (fun ev => pk_addr ev = a) (sm_user_events (h_handler h))) ++ [Updated; Asked])
      (addressed a log) (sm_sessions (h_handler h') !! a).
Proof.
  intros Hok Ho Hpoll. unfold Host_manual_poll, host_session in Hpoll.
  apply bind_Some in Hpoll as ([m r1] & Hpoll & E). injection E as <- <-. cbn [h_handler set_handler].
  pose proof (@poll_apart _ _ _ _ _ (Peer_Session clock) _ _ order Ho fuel t (h_handler h) r m r1
    (conj (ho_sends _ _ Hok) (ho_events _ _ Hok)) Hpoll) as H. cbv zeta in H.
  unfold taken. destruct (intake _ _ _ _) as [[arrived socket] i].
  destruct H as (log & H1 & _ & H3 & H4). rewrite (ho_config _ _ Hok) in H4.
  exists log. split; [done|]. split; [done|]. split; [|exact H4].
  intros a. apply reported_by. intros b. eapply lifetime_reports; [exact (H4 b)|].
  intros p. apply (ho_keyed _ _ Hok).
Qed.

(** The sending poll: among all that it sends, what goes to [b] begins with the message. *)
Lemma crowd_sends d ch data b h p config limit clock order t r (n fuel : nat) c
  (Ho : forall l, order l ≡ₚ l) (Hok : host_ok config h) (Hs : sm_sessions (h_handler h) !! b = Some p)
  (Hev : filter (fun ev => pk_addr ev = b) (sm_user_events (h_handler h)) = [])
  (Hquiet : addressed b (taken fuel h).1.1 = [])
  (Hin : incoming n c h) (Hfuel : (n < fuel)%nat)
  (Hf : host_funded limit (user_packet_cost (Packet_new b data d OrderNone ch) + (c + 2)) h)
  (Hp : idle_sender p) (Hseq : u16_ok (message_sequence d p))
  (Hfits : fits p ch data (fragment_header d)) :
  exists (parcels : list Parcel) out more h' r',
    Host_manual_poll clock order fuel t (Host_send (Packet_new b data d OrderNone ch) h) r = Some (h', r') /\
    mg_socket (sm_messenger (h_handler h')) =
      send_all (taken fuel h).1.2 (intercepted (taken fuel h).2 out).1 /\
    addressed b out = parcels.*1 ++ more /\
    concat parcels.*2 = seqZ 0 (sent_parts d p data) /\
    Forall (parcel_ok (use_checksums (p_config p))
      (part d (payload_budget p (whole_header d)) (payload_budget p (fragment_header d)) data ch
         (message_sequence d p)) (sent_parts d p data) (receive_buffer_max_size (p_config p))) parcels.
Proof.
  set (packet := Packet_new b data d OrderNone ch) in *.
  destruct (poll_funded limit 0 clock order n fuel c t (Host_send packet h) r)
    as (h' & r' & E & _); [done|done|exact Hin|done|by apply send_funded; rewrite Z.add_0_r|].
  pose proof (host_apart config clock order fuel t (Host_send packet h) r h' r'
    (sends_ok config h (sm_user_events (h_handler h) ++ [packet]) Hok) Ho E) as H.
  change (taken fuel (Host_send packet h)) with (taken fuel h) in H.
  destruct (taken fuel h) as [[arrived socket] i]. cbn [fst snd] in *.
  destruct H as (log & H1 & _ & _ & H4). specialize (H4 b).
  cbn [Host_send h_handler set_handler sm_user_events set_user_events sm_sessions] in H4.
  rewrite filter_app, Hev, Hquiet, Hs in H4. cbn [fmap list_fmap app] in H4.
  rewrite filter_cons, decide_True in H4 by done. cbn [filter list_filter fmap list_fmap app] in H4.
  apply lifetime_sending in H4 as (r1 & acts & p' & r2 & more & Erun & Elog).
  destruct (message_sent d p ch data b t r1 Hp Hseq Hfits) as (parcels & p1 & E1 & _ & _ & _ & Hks & Hpar).
  pose proof (eq_trans (eq_sym Erun) E1) as Eq. injection Eq as -> _ _.
  exists parcels, (log_sends log), (sends more), h', r'. split; [done|]. split; [done|].
  split; [|done]. by rewrite addressed_sends, Elog, sends_app, sends_all.
Qed.

(** The receiving poll: among all that it reports, what carries the address [a] begins with what
    the abstract receiver makes of the parcels that came from there. *)
Lemma crowd_receives {A} (step : A -> Z -> list Packet * A) a ck f np P size s h q config limit clock order t r
  (n fuel : nat) c (arrived : list Parcel)
  (Ho : forall l, order l ≡ₚ l) (Hok : host_ok config h) (Hs : sm_sessions (h_handler h) !! a = Some q)
  (Hin : incoming n c h) (Hfuel : (n < fuel)%nat) (Hf : host_funded limit (c + 2) h)
  (HP : simulates step a ck f np P) (Hsize : size <= 1537) (Hq : P s q)
  (Hpar : Forall (parcel_ok ck f np size) arrived) (Hroom : recv_room (zlen arrived) q)
  (Harr : addressed a (taken fuel h).1.1 = arrived.*1) :
  exists h' r' reports more,
    Host_manual_poll clock order fuel t h r = Some (h', r') /\
    mg_sent_events (sm_messenger (h_handler h')) =
      mg_sent_events (sm_messenger (h_handler h)) ++ reports /\
    filter (fun e => SocketEvent_address e = a) reports =
      (EvPacket <$> (receiver_run step s (concat arrived.*2)).1) ++ more.
Proof.
  destruct (poll_funded limit 0 clock order n fuel c t h r) as (h' & r' & E & _);
    [done..|by rewrite Z.add_0_r|].
  pose proof (host_apart config clock order fuel t h r h' r' Hok Ho E) as H.
  destruct (taken fuel h) as [[taken0 socket] i]. cbn [fst snd] in *.
  destruct H as (log & _ & H2 & H3 & H4). specialize (H4 a). rewrite Harr, Hs in H4.
  apply lifetime_split in H4 as (acts & s1 & more & L1 & _ & Elog).
  destruct (lifetime_arrivals clock step config t a ck f np P size arrived HP Hsize s q acts s1 Hpar Hq Hroom L1)
    as (q' & _ & -> & _).
  exists h', r', (log_emits log), (emits more). split; [done|]. split; [done|].
  rewrite H3, Elog, emits_app. f_equal. rewrite <-emits_all. f_equal. by rewrite <-list_fmap_compose.
Qed.

(** C3: Delivery in company.  Two hosts have a connected session with each other among any number of
    others; the sender's queue for it is empty, nothing else is to be sent to the other host and
    nothing has come from there, and the receiver has no unfinished fragments under the sequence
    number of the packet.  An application sends a packet without ordering, reliable or not, that
    is within the limit of waiting data and needs at most 255 and at most [max_fragments]
    fragments.  The next poll of its host completes, and of all that this poll sends, through the
    interceptor and for all its sessions, what goes to the other host begins with the datagrams
    of the packet.  If these arrive there, reordered, lost and repeated, in between datagrams of
    anybody else and of any content, and as many as the incoming limit of the session lets in, the
    next poll there completes as well, and of all that it reports, what carries the sender's
    address begins with what the reference assembler makes of the parts: the packet, the same
    bytes, as often as all parts have come in; once, when each arrived once. *)
Theorem hosts_deliver_among_others d ch data a b hA hB p q configA configB limitA limitB clockA clockB
  orderA orderB tA tB rA rB (nA nB fuelA fuelB : nat) cA cB
  (HoA : forall l, orderA l ≡ₚ l) (HoB : forall l, orderB l ≡ₚ l)
  (HA : host_ok configA hA) (HsA : sm_sessions (h_handler hA) !! b = Some p)
  (HuA : filter (fun ev => pk_addr ev = b) (sm_user_events (h_handler hA)) = [])
  (HquietA : addressed b (taken fuelA hA).1.1 = [])
  (HinA : incoming nA cA hA) (HfuelA : (nA < fuelA)%nat)
  (HfA : host_funded limitA (user_packet_cost (Packet_new b data d OrderNone ch) + (cA + 2)) hA)
  (HB : host_ok configB hB) (HsB : sm_sessions (h_handler hB) !! a = Some q)
  (HinB : incoming nB cB hB) (HfuelB : (nB < fuelB)%nat) (HfB : host_funded limitB (cB + 2) hB)
  (Hp : idle_sender p) (Hseq : u16_ok (message_sequence d p))
  (Hfits : fits p ch data (fragment_header d))
  (Hq : ready a (use_checksums (p_config p)) q)
  (Hnew : p_command_fragments q !! message_sequence d p = None) :
  let n := sent_parts d p data in
  let packet := Packet_new a data d OrderNone ch in
  exists (parcels : list Parcel) out more hA' rA', 0 < n /\ concat parcels.*2 = seqZ 0 n /\
    Host_manual_poll clockA orderA fuelA tA (Host_send (Packet_new b data d OrderNone ch) hA) rA
      = Some (hA', rA') /\
    mg_socket (sm_messenger (h_handler hA')) =
      send_all (taken fuelA hA).1.2 (intercepted (taken fuelA hA).2 out).1 /\
    addressed b out = parcels.*1 ++ more /\
    (forall arrived, Forall (fun x => x ∈ parcels) arrived ->
     addressed a (taken fuelB hB).1.1 = arrived.*1 -> recv_room (zlen arrived) q ->
     exists hB' rB' reports others, Host_manual_poll clockB orderB fuelB tB hB rB = Some (hB', rB') /\
       mg_sent_events (sm_messenger (h_handler hB')) =
         mg_sent_events (sm_messenger (h_handler hB)) ++ reports /\
       filter (fun e => SocketEvent_address e = a) reports =
         (EvPacket <$> (receiver_run (assembler packet n) ∅ (concat arrived.*2)).1) ++ others /\
       (arrived ≡ₚ parcels ->
        filter (fun e => SocketEvent_address e = a) reports = EvPacket packet :: others)).
Proof.
  intros n packet.
  destruct (crowd_sends d ch data b hA p configA limitA clockA orderA tA rA nA fuelA cA HoA HA HsA HuA
    HquietA HinA HfuelA HfA Hp Hseq Hfits) as (parcels & out & more & hA' & rA' & EA & E1 & E2 & Hks & Hpar).
  pose proof Hfits as [_ _ _ Hbu _]. pose proof (budgets_ordered d p). pose proof Hp as [_ _ _ [_ _ _ _ Hz] _].
  assert (0 < n) as Hn by (apply part_count_pos; lia).
  exists parcels, out, more, hA', rA'. repeat (split; [done|]). intros arrived Harr Htaken Hroom.
  destruct (crowd_receives _ a (use_checksums (p_config p)) _ n
    (awaiting a (use_checksums (p_config p)) (payload_budget p (whole_header d))
       (payload_budget p (fragment_header d)) data ch (message_sequence d p))
    (receive_buffer_max_size (p_config p)) ∅ hB q configB limitB clockB orderB tB rB nB fuelB cB arrived
    HoB HB HsB HinB HfuelB HfB
    (message_simulated d a _ _ (payload_budget p (fragment_header d)) data ch _ ltac:(lia)) ltac:(lia))
    as (hB' & rB' & reports & others & EB & H1 & H2).
  - split; [done|]. destruct (whole _ _); [done|]. split; [|apply empty_subseteq].
    unfold entry. by rewrite Hnew.
  - eapply Forall_impl; [exact Harr|]. intros x Hx. rewrite Forall_forall in Hpar. by apply Hpar.
  - done.
  - done.
  - exists hB', rB', reports, others. repeat (split; [done|]). intros Hall. rewrite H2.
    rewrite (assembler_complete packet n); [done|done|].
    unfold n. rewrite <-Hks. by apply permuted_concat, fmap_Permutation.
Qed.
End Hosts.

(* ------------------------------------------------------------------ *)
(** ** Two hosts and a stranger                                         *)
(* ------------------------------------------------------------------ *)

Import Loopback Sample.

Definition stranger : SocketAddr := mkSocketAddr (IpV4 7) 7.
Definition disturbed (waiting : list (list Z * SocketAddr)) : Host sock SystemClock NoOpInterceptor :=
  paired_host (([7; 7], stranger) :: waiting).
Definition busy_receiver : Host sock SystemClock NoOpInterceptor :=
  disturbed [(on_the_wire, sample_addr); ([], stranger)].

Lemma paired_ok waiting : host_ok Config_default (paired_host waiting).
Proof.
  split; [..|exact (paired_books waiting)]; try done; cbn; intros a p [<- <-]%lookup_singleton_Some; done.
Qed.
Lemma disturbed_incoming : incoming 1 1000 (disturbed []).
Proof. split; [by repeat (apply Forall_cons_2; [unfold u8_ok; lia|])|vm_compute; discriminate]. Qed.
Lemma busy_incoming : incoming 3 2000 busy_receiver.
Proof.
  split; [by repeat (apply Forall_cons_2; [unfold u8_ok; lia|])|]. split; [exact on_the_wire_bytes|].
  split; [constructor|]. vm_compute. discriminate.
Qed.

(** All that the disturbed host sends when it is told to. *)
Definition leaving : list (list Z * SocketAddr) :=
  match Host_manual_poll 0 identity 5 5
    (Host_send (Packet_new sample_addr [4; 5; 6] Reliable OrderNone 0) (disturbed [])) sample_rng with
  | Some (h, _) => sk_sent (sc_socket (mg_socket (sm_messenger (h_handler h))))
  | None => []
  end.
Lemma leaving_is h r : Host_manual_poll 0 identity 5 5
    (Host_send (Packet_new sample_addr [4; 5; 6] Reliable OrderNone 0) (disturbed [])) sample_rng = Some (h, r) ->
  leaving = sk_sent (sc_socket (mg_socket (sm_messenger (h_handler h)))).
Proof. unfold leaving. by intros ->. Qed.
Lemma leaving_bytes : leaving = [(on_the_wire, sample_addr)].
Proof. vm_compute. reflexivity. Qed.

Lemma hosts_deliver_among_others_witness :
  exists h r reports others, Host_manual_poll 9 identity 5 9 busy_receiver sample_rng = Some (h, r) /\
    mg_sent_events (sm_messenger (h_handler h)) = reports /\
    filter (fun e => SocketEvent_address e = sample_addr) reports =
      EvPacket (Packet_new sample_addr [4; 5; 6] Reliable OrderNone 0) :: others.
Proof.
  destruct (hosts_deliver_among_others Reliable 0 [4; 5; 6] sample_addr sample_addr (disturbed [])
    busy_receiver open_peer open_peer Config_default Config_default 0 0 0 9 identity identity 5 9
    sample_rng sample_rng 1 3 5 5 1000 2000)
    as (parcels & out & more & hA' & rA' & Hn & Hks & EA & Hsock & Hout & Hrecv).
  - intros l. reflexivity.
  - intros l. reflexivity.
  - apply paired_ok.
  - reflexivity.
  - reflexivity.
  - vm_compute. reflexivity.
  - exact disturbed_incoming.
  - lia.
  - apply paired_funded. reflexivity.
  - apply paired_ok.
  - reflexivity.
  - exact busy_incoming.
  - lia.
  - apply paired_funded. reflexivity.
  - exact open_peer_sends.
  - vm_compute. split; [discriminate|reflexivity].
  - split; [by vm_compute|by repeat (apply Forall_cons_2; [unfold u8_ok; lia|])|exact (sample_room [4; 5; 6] eq_refl)|by vm_compute|by vm_compute].
  - exact open_peer_ready.
  - reflexivity.
  - assert (parcels.*1 = [on_the_wire]) as Hdgs.
    { pose proof (leaving_is _ _ EA) as E. rewrite Hsock, send_all_sent, leaving_bytes in E.
      change (taken 5 (disturbed [])).2 with (NoOp tt : BoxInterceptor NoOpInterceptor) in E.
      rewrite (intercepted_all _ _ noop_transparent) in E. cbn [fst] in E.
      destruct out as [|[b dg] [|]]; try discriminate E. injection E as <- <-.
      change (addressed sample_addr _) with [on_the_wire] in Hout.
      refine (only_datagram _ _ _ _ Hout). intros Hnil. apply fmap_nil_inv in Hnil. rewrite Hnil in Hks.
      rewrite seqZ_cons in Hks by exact Hn. discriminate Hks. }
    destruct (Hrecv parcels) as (h & r & reports & others & EB & Hr & _ & Hone).
    + by apply Forall_forall.
    + rewrite Hdgs. vm_compute. reflexivity.
    + eapply recv_room_weaken; [|exact open_peer_room].
      unfold zlen. rewrite <-(length_fmap fst), Hdgs. vm_compute. discriminate.
    + exists h, r, reports, others. split; [exact EB|]. split; [exact Hr|]. by apply Hone.
Defined.
