(* ===== verification/UnsequencedDelivery.v ===== *)
(** Unsequenced delivery, end to end: the pieces of a message reach the application once each,
    however the network reorders, drops and duplicates their datagrams. *)

From S2P Require Import Prelude Core Externs Buffers Packet Command Codec CodecFacts Framing.
From S2P Require Import Unsequenced Bandwidth PeerParts Peer PeerFacts Fragmenter.
From S2P Require Import FragmenterFacts.
From S2P Require Import PeerEncoder CommandProcessor Session PeerSession EncoderFacts.
From S2P Require Import ProcessorFacts Parcels Delivery.

(* ------------------------------------------------------------------ *)
(** ** First occurrences                                                *)
(* ------------------------------------------------------------------ *)

(** The elements of [l] that are new, each where it first occurs. *)
Fixpoint news (seen l : list Z) : list Z :=
  match l with
  | [] => []
  | i :: l => if decide (i ∈ seen) then news seen l else i :: news (seen ++ [i]) l
  end.

Lemma elem_of_news l : forall seen i, i ∈ news seen l <-> i ∈ l /\ i ∉ seen.
Proof.
  induction l as [|j l IH]; intros seen i; cbn [news].
  - split; [by intros ?%not_elem_of_nil|by intros [?%not_elem_of_nil _]].
  - case_decide as Hj; rewrite ?elem_of_cons, IH, ?elem_of_app, ?list_elem_of_singleton;
      destruct (decide (i = j)) as [->|]; tauto.
Qed.
Lemma news_NoDup l : forall seen, NoDup (news seen l).
Proof.
  induction l as [|j l IH]; intros seen; cbn [news]; [constructor|].
  case_decide; [apply IH|]. constructor; [|apply IH].
  rewrite elem_of_news, elem_of_app, list_elem_of_singleton. tauto.
Qed.
Lemma news_app l : forall seen k, news seen (l ++ k) = news seen l ++ news (seen ++ news seen l) k.
Proof.
  induction l as [|j l IH]; intros seen k; cbn [news app]; [by rewrite app_nil_r|].
  case_decide; [apply IH|]. by rewrite IH, <-app_assoc.
Qed.

(* ------------------------------------------------------------------ *)
(** ** The receiver                                                     *)
(* ------------------------------------------------------------------ *)

Section Receiver.
Context {X : Externs}.
(** The message, cut into pieces of [size], numbered from [g] on; the receiver knows the sender
    as [a], has the window base [w] and has accepted the groups [R]. *)
Context (a : SocketAddr) (ck : bool) (ch : Z) (data : list Z) (size g w n : Z) (R : list Z).
Hypothesis Hg : 0 <= g.
Hypothesis Hw : w <= g /\ g + n <= w + 1024.
Hypothesis HR : forall i, i ∈ R -> i < g.

Definition piece (i : Z) : Packet :=
  Packet_new a (SharedBytes_as_slice (chunk size data i)) Unreliable Unsequenced ch.
Definition piece_command (i : Z) : ProtocolCommand :=
  SendUnsequenced ch (as_u16 (g + i)) (chunk size data i).

(** The receiver has delivered the pieces [D]. *)
Definition took (D : list Z) (q : Peer) : Prop :=
  ready a ck q /\ sees (p_unsequenced_state q) w (R ++ (Z.add g <$> D)).

Lemma take_piece t i D q r : 0 <= i < n -> took D q -> exists pk q',
  Peer_process_command (command_reown (piece_command i)) t q r = Some (Ok pk, q', r) /\
  (ZeroOrMore_collect pk).*1 = piece <$> news D [i] /\ took (D ++ news D [i]) q' /\
  tallies q' = tallies q.
Proof.
  intros Hi [Hr Hs]. set (q0 := set_last_heard t q). pose proof (ready_heard a ck t q Hr) as Hr0.
  fold q0 in Hr0. unfold Peer_process_command, command_reown, piece_command, process_send_unsequenced.
  erewrite bind_run by reflexivity. fold q0. erewrite bind_run by reflexivity.
  unfold Peer_is_unsequenced_duplicate. change (p_unsequenced_state q0) with (p_unsequenced_state q).
  rewrite (sees_is_duplicate _ _ _ (g + i) Hs) by lia. unfold is_new.
  destruct (Z.leb_spec w (g + i)); [|lia]. cbn [andb news].
  assert (g + i ∈ R ++ (Z.add g <$> D) <-> i ∈ D) as Hin.
  { rewrite elem_of_app, list_elem_of_fmap. split.
    - intros [Hc%HR|(j & E & Hj)]; [lia|]. by replace i with j by lia.
    - intros Hd. right. by exists i. }
  case_decide as Hd.
  - rewrite bool_decide_eq_false_2 by (rewrite Hin; intros Hc; by apply Hc).
    cbn [negb]. exists IncomingPackets_zero, q0. rewrite app_nil_r.
    split; [reflexivity|]. by split; [|split].
  - rewrite bool_decide_eq_true_2 by by rewrite Hin.
    cbn [negb]. erewrite bind_run by reflexivity.
    exists (IncomingPackets_one (piece i) TypePacket), (Peer_mark_unsequenced_received (as_u16 (g + i)) q0).
    split; [|split; [done|split; [|done]]].
    + unfold one_packet, gets, incoming_packet, piece. rewrite to_arc_as_slice. unfold reown.
      rewrite as_slice_from_vec. cbn [p_remote_address Peer_mark_unsequenced_received set_unsequenced_state].
      by rewrite (rd_address _ _ _ Hr0).
    + split.
      * eapply ready_like; [exact Hr0|done..| |done]. eapply queue_ok_like; [apply Hr0|done..].
      * rewrite fmap_app, app_assoc. cbn [fmap list_fmap].
        replace w with (next_base w (g + i)) by
          (unfold next_base; destruct (Z.leb_spec (w + 1024) (g + i)); lia).
        apply sees_mark; [exact Hs|lia].
Qed.

(** The abstract receiver: each piece is handed on when it is new. *)
Definition once : Receiver (list Z) := fun D i => (piece <$> news D [i], D ++ news D [i]).

Lemma once_run js : forall D, receiver_run once D js = (piece <$> news D js, D ++ news D js).
Proof.
  induction js as [|i js IH]; intros D; cbn [receiver_run]; [by rewrite app_nil_r|].
  rewrite IH. unfold once. cbn [fst snd]. change (i :: js) with ([i] ++ js).
  by rewrite (news_app [i] D js), fmap_app, app_assoc.
Qed.

Lemma pieces_simulated : simulates once a ck piece_command n took.
Proof.
  split; [|intros s q st b [Hr Hs]; split; [by apply ready_books|exact Hs]|by intros s q [Hr _]].
  intros t D i q r Hi HD. by apply take_piece.
Qed.
End Receiver.

(* ------------------------------------------------------------------ *)
(** ** The sender                                                       *)
(* ------------------------------------------------------------------ *)

Section Sender.
Context {X : Externs}.
Context (ch : Z) (data : list Z) (size g : Z).
Hypothesis Hsize : 0 < size.

(** How many pieces the message makes. *)
Definition pieces : Z := div_ceil (zlen data) size.
Definition piece_commands (k : Z) : list ProtocolCommand :=
  piece_command ch data size g <$> seqZ k (pieces - k).

Lemma piece_commands_cons k : k < pieces ->
  piece_commands k = piece_command ch data size g k :: piece_commands (k + 1).
Proof.
  intros Hk. unfold piece_commands. rewrite seqZ_cons by lia. cbn [fmap list_fmap].
  do 2 f_equal. f_equal; lia.
Qed.

(** Where the loop stands after [k] rounds. *)
Definition offset_at (k : Z) : Z := Z.min (k * size) (zlen data).

Lemma offset_step k : 0 <= k < pieces ->
  offset_at k < zlen data /\ offset_at k = k * size /\
  Z.min size (zlen data - offset_at k) = Z.min ((k + 1) * size) (zlen data) - k * size /\
  offset_at k + Z.min size (zlen data - offset_at k) = offset_at (k + 1).
Proof.
  unfold pieces, offset_at. intros Hk. pose proof (zlen_nonneg data) as H0.
  destruct (div_ceil_spec (zlen data) size Hsize H0) as (H1 & H2 & H3).
  assert (0 < zlen data) as Hlen.
  { destruct (decide (zlen data = 0)) as [E|]; [|lia]. rewrite E in Hk.
    unfold div_ceil in Hk. rewrite Z.div_small in Hk; lia. }
  specialize (H3 Hlen). assert (k * size < zlen data) by nia. lia.
Qed.

Lemma offset_end : offset_at pieces = zlen data.
Proof.
  unfold offset_at, pieces. pose proof (zlen_nonneg data) as H0.
  destruct (div_ceil_spec (zlen data) size Hsize H0). nia.
Qed.

(** The loop queues the pieces in order, under consecutive groups. *)
Lemma enqueue_unsequenced_run fuel : forall k p r, 0 <= k <= pieces -> pieces - k < Z.of_nat fuel ->
  us_outgoing_unsequenced_group (p_unsequenced_state p) = as_u16 (g + k) ->
  queue_ok p -> room (data_sizes (piece_commands k)) p ->
  exists s, enqueue_unsequenced fuel ch (SharedBytes_from_arc data) size (offset_at k) p r =
    Some (tt, pushed (piece_commands k) (set_unsequenced_state s p), r).
Proof.
  induction fuel as [|fuel IH]; intros k p r Hk Hf Hg Hok Hr; [lia|]. cbn [enqueue_unsequenced].
  change (Z.of_nat (sb_len (SharedBytes_from_arc data))) with (zlen data).
  destruct (decide (k = pieces)) as [->|Hne].
  - rewrite offset_end, Z.ltb_irrefl. unfold piece_commands. rewrite Z.sub_diag.
    exists (p_unsequenced_state p). change (seqZ pieces 0) with (@nil Z). rewrite pushed_nil.
    by destruct p.
  - destruct (offset_step k) as (Hlt & Ho & Hl & Hn); [lia|]. rewrite (proj2 (Z.ltb_lt _ _) Hlt), Hn, Hl, Ho.
    erewrite bind_run by (unfold may_panic; rewrite chunk_slice by (fold pieces; lia); reflexivity).
    set (p1 := set_unsequenced_state (UnsequencedState_next_outgoing_group (p_unsequenced_state p)).2 p).
    assert (Peer_next_unsequenced_group p r = Some (as_u16 (g + k), p1, r)) as E0 by by rewrite <-Hg.
    erewrite bind_run by exact E0. fold (piece_command ch data size g k).
    rewrite piece_commands_cons in Hr |- * by lia. rewrite data_sizes_cons in Hr.
    pose proof (data_sizes_nonneg (piece_commands (k + 1))) as Hd.
    set (c := piece_command ch data size g k) in *. pose proof (command_data_size_nonneg c).
    assert (data_sizes [c] = command_data_size c) as E1 by (unfold data_sizes; simpl; lia).
    assert (queue_ok p1) as Hok1 by (by eapply queue_ok_like).
    assert (room (data_sizes [c] + data_sizes (piece_commands (k + 1))) p1) as Hr1 by (by rewrite E1).
    destruct (enqueue_fits c p1 r) as [b E]; [by apply queue_ok_nonneg|done
      |by eapply room_weaken; [|exact Hr1]; lia|]. erewrite bind_run by exact E.
    destruct (IH (k + 1) (pushed [c] p1) r) as [s E']; [lia|lia| | | |].
    + unfold p1. cbn. rewrite Hg. unfold wrapping_add16, as_u16. zmod.
    + apply queue_ok_pushed; [done|]. by eapply room_weaken; [|exact Hr1]; lia.
    + by apply room_pushed.
    + exists s. rewrite E'. f_equal. f_equal. f_equal. exact (pushed_app [c] _ (set_unsequenced_state s p)).
Qed.
End Sender.

(* ------------------------------------------------------------------ *)
(** ** From sender to receiver                                          *)
(* ------------------------------------------------------------------ *)

Section EndToEnd.
Context {X : Externs} {L : ByteOrderLaws X} `{!CrcLaws X, !ZlibLaws X, !Lz4Laws X}.

(** What the sender and the message need; [g] is the sender's next group, unwrapped. *)
Record unsequenced_fits (p : Peer) (ch : Z) (data : list Z) (g : Z) : Prop := {
  uf_channel : u8_ok ch;
  uf_bytes : bytes_ok data;
  uf_room : room (zlen data) p;
  uf_budget : 1 <= payload_budget p 6;
  uf_pieces : pieces data (payload_budget p 6) <= 255;
  uf_group : 0 <= g /\ us_outgoing_unsequenced_group (p_unsequenced_state p) = as_u16 g
}.

Lemma piece_commands_ok p ch data g : unsequenced_fits p ch data g ->
  receive_buffer_max_size (p_config p) <= 1537 ->
  let cs := piece_commands ch data (payload_budget p 6) g 0 in
  Forall frame_ok cs /\ Forall (fun c => is_pmtu_probe (Some c) = false) cs /\
  Forall (fun c => datagram_size (p_config p) c <= Peer_datagram_cap p) cs /\
  (length cs <= 255)%nat /\ data_sizes cs = zlen data.
Proof.
  intros [Hch Hb _ Hbu Hn _] Hm cs. set (size := payload_budget p 6) in *.
  pose proof (budget_small p 6 Hm ltac:(lia)) as Hsm. fold size in Hsm.
  assert (forall c, c ∈ cs -> exists i, c = piece_command ch data size g i /\
    0 <= i < div_ceil (zlen data) size) as Hcs.
  { intros c (i & -> & Hi%elem_of_seqZ)%list_elem_of_fmap. exists i. split; [done|].
    unfold pieces in Hi. lia. }
  split_and!.
  - apply Forall_forall. intros c (i & -> & Hi)%Hcs.
    pose proof (chunk_len size data i ltac:(lia) ltac:(lia)).
    apply frame_ok_small; simpl; [|lia]. split_and!; [done|apply as_u16_ok|].
    split; [apply chunk_ok; [lia|done|lia]|lia].
  - apply Forall_forall. by intros c (i & -> & Hi)%Hcs.
  - apply Forall_forall. intros c (i & -> & Hi)%Hcs. unfold datagram_size. simpl.
    exact (payload_budget_fits p 6 _ ltac:(lia) Hbu (chunk_len size data i ltac:(lia) ltac:(lia))).
  - unfold cs, piece_commands. rewrite length_fmap, length_seqZ. lia.
  - unfold cs, piece_commands, pieces. rewrite Z.sub_0_r.
    apply (fragment_commands_size (fun i d => SendUnsequenced ch (as_u16 (g + i)) d)); [done|lia].
Qed.

Lemma unsequenced_delivery p q ch data dest t r r' a g w R
  (Hp : idle_sender p) (Hfits : unsequenced_fits p ch data g)
  (Hq : ready a (use_checksums (p_config p)) q) (Hs : sees (p_unsequenced_state q) w R)
  (Hw : w <= g /\ g + pieces data (payload_budget p 6) <= w + 1024)
  (HR : forall i, i ∈ R -> i < g) :
  let size := payload_budget p 6 in
  exists (parcels : list Parcel) p',
    Peer_process_event (Packet_new dest data Unreliable Unsequenced ch) t p r =
      Some (Send <$> parcels.*1, p', r) /\
    queue p' = [] /\ concat parcels.*2 = seqZ 0 (pieces data size) /\
    concat (pk_payload ∘ piece a ch data size <$> seqZ 0 (pieces data size)) = data /\
    forall arrivals, Forall (fun x => x ∈ parcels) arrivals.*2 -> recv_room (zlen arrivals) q ->
      exists js q',
        receive_arrivals (datagrams arrivals) q r' =
          Some ((fun i => Emit (EvPacket (piece a ch data size i))) <$> js, q', r') /\
        NoDup js /\ forall i, i ∈ js <-> i ∈ numbers arrivals.
Proof.
  intros size. pose proof Hp as [Hst He Hu [Hqok _ Hstat Hc Hz] Hcap].
  destruct (piece_commands_ok p ch data g Hfits ltac:(lia)) as (Hok & Hpr & Hfit & Hlen & Hds).
  destruct Hfits as [Hch Hb Hr Hbu Hn [Hg0 Hg]]. fold size in Hok, Hpr, Hfit, Hlen, Hds, Hw, Hbu, Hn.
  destruct (enqueue_unsequenced_run ch data size g ltac:(lia) (S (sb_len (SharedBytes_from_arc data))) 0 p r)
    as [s E].
  - unfold pieces. destruct (div_ceil_spec (zlen data) size ltac:(lia) (zlen_nonneg data)). lia.
  - unfold pieces. destruct (div_ceil_spec (zlen data) size ltac:(lia) (zlen_nonneg data)) as (? & ? & H3).
    change (Z.of_nat (S (sb_len (SharedBytes_from_arc data)))) with (Z.of_nat (S (length data))).
    unfold zlen in *. destruct (decide (length data = 0%nat)) as [E0|]; [|nia].
    rewrite E0. unfold div_ceil. rewrite Z.div_small; lia.
  - by rewrite Z.add_0_r.
  - done.
  - by rewrite Hds.
  - set (cs := piece_commands ch data size g 0) in *. set (p1 := set_unsequenced_state s p) in *.
    destruct (flush_everything cs t [] p1 r) as (dgs & sent & p' & Ef & He' & Hcs & _ & HF & _);
      [split; [done|done|done|split;
        [destruct Hqok; by split|change (queue p1) with (queue p); by rewrite He
        |destruct Hstat; by split|done|done]|done]
      |done|done|rewrite Hds; destruct Hr; by split|done|done|].
    destruct (parcels_of (p_config p) (piece_command ch data size g) (pieces data size) _ dgs sent HF)
      as (parcels & -> & Hks & Hpar).
    { rewrite Hcs. unfold cs, piece_commands. by rewrite Z.sub_0_r. }
    exists parcels, p'. split_and!; [|done|done| |].
    + unfold Peer_process_event. erewrite bind_run by (unfold updating; by rewrite record_send_connected).
      erewrite bind_run by reflexivity. cbn [pk_delivery pk_ordering pk_channel_id pk_payload Packet_new].
      erewrite bind_run; [exact Ef|]. erewrite bind_run by reflexivity. fold size.
      cbn zeta. rewrite Z.max_r by lia. rewrite <-E. unfold offset_at.
      by rewrite Z.mul_0_l, Z.min_l by apply zlen_nonneg.
    + transitivity (concat (SharedBytes_as_slice <$> chunks size data)); [|apply chunks_concat; lia].
      unfold chunks. by rewrite <-list_fmap_compose.
    + intros arrivals Harr Hroom.
      destruct (arrivals_simulated _ a (use_checksums (p_config p)) (piece_command ch data size g)
        (pieces data size) (took a (use_checksums (p_config p)) g w R)
        (pieces_simulated a _ ch data size g w (pieces data size) R Hg0 Hw HR)
        (receive_buffer_max_size (p_config p)) arrivals ltac:(lia) [] q r') as (q' & E' & _).
      * eapply Forall_impl; [exact Harr|]. intros x Hx. rewrite Forall_forall in Hpar. by apply Hpar.
      * split; [done|]. by rewrite app_nil_r.
      * done.
      * exists (news [] (numbers arrivals)), q'. rewrite once_run in E'.
        cbn [fst] in E'. rewrite <-list_fmap_compose in E'.
        split; [exact E'|]. split; [apply news_NoDup|].
        intros i. rewrite elem_of_news. split; [by intros [? _]|]. intros. split; [done|apply not_elem_of_nil].
Qed.

(** C9: Unsequenced delivery, end to end.  An unsequenced packet, within the limit of waiting data and
    of at most 255 pieces, leaves a connected peer with an empty queue cut into pieces that join to
    the packet's bytes, in datagrams.  The receiver is connected, has accepted earlier
    groups only, and its window of 1024 groups covers them all.  Whatever of these datagrams the network
    hands the receiver, reordered, dropped and duplicated at will and at any times, as far as its
    incoming limit lets them in, the receiver emits exactly the pieces that arrived and each of
    them once. *)
Theorem unsequenced_delivered_end_to_end p q ch data dest t r r' a g w R
  (Hp : idle_sender p) (Hfits : unsequenced_fits p ch data g)
  (Hq : ready a (use_checksums (p_config p)) q) (Hs : sees (p_unsequenced_state q) w R)
  (Hw : w <= g /\ g + pieces data (payload_budget p 6) <= w + 1024)
  (HR : forall i, i ∈ R -> i < g) :
  let size := payload_budget p 6 in
  exists (parcels : list Parcel) p',
    Peer_process_event (Packet_new dest data Unreliable Unsequenced ch) t p r =
      Some (Send <$> parcels.*1, p', r) /\
    queue p' = [] /\ concat parcels.*2 = seqZ 0 (pieces data size) /\
    concat (pk_payload ∘ piece a ch data size <$> seqZ 0 (pieces data size)) = data /\
    forall arrivals, Forall (fun x => x ∈ parcels) arrivals.*2 -> recv_room (zlen arrivals) q ->
      exists js q',
        receive_arrivals (datagrams arrivals) q r' =
          Some ((fun i => Emit (EvPacket (piece a ch data size i))) <$> js, q', r') /\
        NoDup js /\ forall i, i ∈ js <-> i ∈ numbers arrivals.
Proof. exact (unsequenced_delivery p q ch data dest t r r' a g w R Hp Hfits Hq Hs Hw HR). Qed.
End EndToEnd.

(* ------------------------------------------------------------------ *)
(** ** A concrete pair of peers                                         *)
(* ------------------------------------------------------------------ *)

Import Sample.

Definition datagrams_of (data : list Z) (o : OrderingGuarantee) : option nat :=
  action_count (Peer_process_event (Packet_new sample_addr data Unreliable o 0) 5 open_peer sample_rng).

Lemma long_datagrams : action_count
  (Peer_process_event (Packet_new sample_addr long_data Unreliable Unsequenced 0) 5 open_peer sample_rng)
  = Some 3%nat.
Proof. vm_compute. reflexivity. Qed.

Lemma long_data_pieces : unsequenced_fits open_peer 0 long_data 0 /\
  pieces long_data (payload_budget open_peer 6) <= 1024.
Proof.
  split; [|by vm_compute].
  split; [by vm_compute| |exact (sample_room long_data eq_refl)|by vm_compute|by vm_compute|by split].
  apply Forall_forall. intros x Hx%list_elem_of_In%repeat_spec. by subst.
Qed.

(** All the datagrams, backwards and then again: every piece arrives once. *)
Lemma unsequenced_delivered_end_to_end_witness :
  let size := payload_budget open_peer 6 in
  exists (parcels : list Parcel) p' js q',
    Peer_process_event (Packet_new sample_addr long_data Unreliable Unsequenced 0) 5 open_peer sample_rng
      = Some (Send <$> parcels.*1, p', sample_rng) /\
    receive_arrivals (datagrams ((9,.) <$> (rev parcels ++ parcels))) open_peer sample_rng =
      Some ((fun i => Emit (EvPacket (piece sample_addr 0 long_data size i))) <$> js, q', sample_rng).
Proof.
  destruct (unsequenced_delivered_end_to_end open_peer open_peer 0 long_data sample_addr 5
    sample_rng sample_rng sample_addr 0 0 [] open_peer_sends)
    as (parcels & p' & E & _ & _ & _ & Hall).
  - apply long_data_pieces.
  - exact open_peer_ready.
  - exact sees_new.
  - split; [done|apply long_data_pieces].
  - by intros i ?%not_elem_of_nil.
  - assert (length parcels = 3%nat) as Hl.
    { pose proof long_datagrams as E3. rewrite E in E3. injection E3 as E3.
      by rewrite !length_fmap in E3. }
    destruct (Hall ((9,.) <$> (rev parcels ++ parcels))) as (js & q' & E' & _).
    + rewrite <-list_fmap_compose. apply Forall_forall. intros x Hx.
      apply list_elem_of_fmap in Hx as (y & -> & Hy). revert Hy.
      rewrite elem_of_app, !list_elem_of_In, <-in_rev. cbn. tauto.
    + eapply recv_room_weaken; [|exact open_peer_room].
      unfold zlen. rewrite length_fmap, length_app, length_rev, Hl. lia.
    + exists parcels, p', js, q'. split; [exact E|exact E'].
Defined.

(** An unsequenced packet without bytes makes no piece: nothing is sent, where an unreliable one
    leaves in a datagram. *)
Example empty_unsequenced_packet_lost :
  datagrams_of [] Unsequenced = Some 0%nat /\ datagrams_of [] OrderNone = Some 1%nat.
Proof. vm_compute. split; reflexivity. Qed.
