(* ===== verification/Conversation.v ===== *)
(** Conversations: two connected peers over a network that loses nothing.  However long they
    talk, with acknowledgments, heartbeats and path probes in between, each hears exactly what
    the other said, in order. *)

From S2P Require Import Prelude Core Externs Buffers Packet Command Codec CodecFacts Framing.
From S2P Require Import SequenceBuffer Ack Bandwidth FragmentBuffer Pmtu PeerParts.
From S2P Require Import Peer PeerFacts Fragmenter FragmenterFacts PeerEncoder CommandProcessor.
From S2P Require Import Session PeerSession EncoderFacts ProcessorFacts Parcels Delivery.
From S2P Require Import Budget.

(* ------------------------------------------------------------------ *)
(** ** The path                                                         *)
(* ------------------------------------------------------------------ *)

(** The bounds within which both sides' estimates of the path stay. *)
Record path_bounds (c : Config) (lo hi : Z) : Prop := {
  pb_size : 0 <= receive_buffer_max_size c <= 1537;
  pb_lo : probe_overhead c < lo /\ lo <= receive_buffer_max_size c;
  pb_hi : lo <= hi <= 65535;
  pb_min : lo <= pmtu_min c <= hi;
  pb_fragment : lo <= fragment_size c <= hi;
  pb_max : pmtu_max c <= hi;
  pb_threshold : 0 <= pmtu_converge_threshold c
}.

Record path_ok (c : Config) (lo hi : Z) (m : PmtuDiscovery) : Prop := {
  po_config : pm_config m = c;
  po_low : lo <= pm_low m <= hi;
  po_high : pm_high m <= hi;
  po_fragment : lo <= pm_fragment_size m <= hi
}.

Section Control.
Context {X : Externs} {L : ByteOrderLaws X}.

(** A control command that fits a datagram of its own, with sizes within the bounds. *)
Definition polite (c : Config) (lo hi : Z) (cmd : ProtocolCommand) : Prop :=
  frame_ok cmd /\
  match cmd with
  | Acknowledge _ _ st => st = None
  | Ping _ | Pong _ => True
  | PMTUProbe size _ _ =>
      lo <= size <= hi /\ datagram_size c cmd <= receive_buffer_max_size c
  | PMTUReply size _ => lo <= size <= hi
  | _ => False
  end.
(** How many commands it is answered with, itself included. *)
Definition weight (cmd : ProtocolCommand) : Z :=
  match cmd with Ping _ | PMTUProbe _ _ _ => 2 | _ => 1 end.
Definition weights (cs : list ProtocolCommand) : Z := zsum weight cs.

Lemma weights_app cs ds : weights (cs ++ ds) = weights cs + weights ds.
Proof. apply zsum_app. Qed.
Lemma weights_length cs : zlen cs <= weights cs.
Proof.
  unfold weights. induction cs as [|c cs IH]; [done|]. rewrite zsum_cons, zlen_cons.
  assert (1 <= weight c) by (destruct c; simpl; lia). lia.
Qed.
End Control.

Section Path.
Context {X : Externs} {L : ByteOrderLaws X} (c : Config) (lo hi : Z).
Hypothesis Hb : path_bounds c lo hi.

Lemma path_new t : path_ok c lo hi (PmtuDiscovery_new c t).
Proof. destruct Hb. by split. Qed.

(** A datagram of an acknowledgment or the like is no longer than the lower bound. *)
Lemma polite_fits cmd : polite c lo hi cmd ->
  datagram_size c cmd <= if is_pmtu_probe (Some cmd) then receive_buffer_max_size c else lo.
Proof.
  intros [_ H]. destruct Hb as [? [Hlo _] _ _ _ _ _]. unfold probe_overhead in Hlo.
  assert (packet_overhead c + 2 + 9 <= lo) as Hov.
  { unfold packet_overhead. destruct (compression c), (use_checksums c); lia. }
  destruct cmd; try done; unfold datagram_size; simpl; try lia; [subst; simpl; lia|].
  apply H.
Qed.
Lemma polite_size cmd : polite c lo hi cmd -> command_data_size cmd = 0.
Proof. intros [_ H]. by destruct cmd. Qed.
Lemma polite_sizes cs : Forall (polite c lo hi) cs -> data_sizes cs = 0.
Proof.
  induction 1 as [|cmd cs Hc _ IH]; [done|].
  by rewrite data_sizes_cons, IH, (polite_size cmd Hc).
Qed.

Lemma probe_payload_fits target : target <= receive_buffer_max_size c ->
  packet_overhead c + 2 + 9 + probe_payload_len c target <= receive_buffer_max_size c /\
  1 <= probe_payload_len c target.
Proof.
  intros Ht. destruct Hb as [Hs [Hlo Hlo'] _ _ _ _ _]. unfold probe_payload_len.
  assert (packet_overhead c + 2 + 9 <= probe_overhead c).
  { unfold packet_overhead, probe_overhead. destruct (compression c), (use_checksums c); lia. }
  destruct (Z.ltb_spec (probe_overhead c) target); lia.
Qed.

(** Probing keeps the bounds, and the probe is polite. *)
Lemma handle_pmtu_path t rto r m : path_ok c lo hi m ->
  let x := PmtuDiscovery_handle_pmtu t rto r m in
  path_ok c lo hi x.1.2 /\ (forall cmd, x.1.1 = Some cmd -> polite c lo hi cmd).
Proof.
  intros [Hc Hl Hh Hf]. unfold PmtuDiscovery_handle_pmtu. rewrite Hc.
  destruct (negb _); [by split|].
  destruct (pm_outstanding m) as [[[size tok] sent]|].
  { destruct (_ <? _); [|by split]. split; [|done]. split; cbn; try done.
    destruct (0 <? size); lia. }
  cbv zeta. set (high := if _ <? pm_high m then _ else _).
  assert (high <= hi /\ high <= datagram_cap c) as [Hhi Hcap].
  { unfold high. destruct (Z.ltb_spec (datagram_cap c) (pm_high m)); lia. }
  destruct (Z.leb_spec (saturating_sub high (pm_low m)) (pmtu_converge_threshold c)) as [Hcv|Hcv].
  { split; [|done]. by split. }
  destruct (_ <? from_millis _); [split; [|done]; by split|].
  pose proof (pb_threshold _ _ _ Hb). pose proof (pb_hi _ _ _ Hb). pose proof (pb_lo _ _ _ Hb).
  assert (0 <= probe_overhead c) by (unfold probe_overhead; destruct (compression c), (use_checksums c); lia).
  unfold saturating_sub in Hcv. set (mid := (pm_low m + high) / 2).
  assert (pm_low m <= mid <= high) as Hm by (unfold mid; zmod).
  rewrite (as_u16_id mid) by (unfold u16_ok; lia). rewrite (Z.min_l mid) by lia.
  assert (mid <= receive_buffer_max_size c) as Hmid by (unfold datagram_cap in Hcap; lia).
  clearbody mid high. destruct (probe_payload_fits mid Hmid) as [Hpl Hpl1].
  destruct (random_u32 r) as [token r1] eqn:Et.
  destruct (fill_bytes (Z.to_nat (probe_payload_len c mid)) r1) as [payload r2] eqn:Ep.
  split; [by split|]. intros cmd [= <-].
  assert (zlen payload = probe_payload_len c mid /\ bytes_ok payload) as [Hpay Hby].
  { injection Ep as <- _. unfold zlen. rewrite length_fmap, length_seq. split; [lia|].
    apply Forall_fmap, Forall_forall. intros i _. unfold u8_ok. simpl. zmod. }
  assert (u32_ok token) by (injection Et as <- _; unfold u32_ok; change 4294967296 with (2 ^ 32); zmod).
  split; [|split; [lia|]].
  - apply frame_ok_small; [|simpl; change (Z.of_nat (length payload)) with (zlen payload);
      pose proof (pb_size _ _ _ Hb); pose proof (packet_overhead_min c); lia].
    split_and!; [unfold u16_ok; lia|done|].
    split; [split; [simpl; lia|done]|]. simpl. change (Z.of_nat (length payload)) with (zlen payload).
    pose proof (pb_size _ _ _ Hb). pose proof (packet_overhead_min c). lia.
  - unfold datagram_size. simpl. change (Z.of_nat (length payload)) with (zlen payload). lia.
Qed.
End Path.

(* ------------------------------------------------------------------ *)
(** ** Connected peers                                                  *)
(* ------------------------------------------------------------------ *)

Section Peers.
Context {X : Externs} {L : ByteOrderLaws X} (lo hi : Z).

(** A connected peer with the configuration [c] that knows the other side as [a]. *)
Record attentive (a : SocketAddr) (c : Config) (q : Peer) : Prop := {
  at_ready : ready a (use_checksums c) q;
  at_config : p_config q = c;
  at_unsent : ah_sent_packets (p_acknowledge_handler q) = ∅;
  at_rto : is_Some (Peer_rto q);
  at_path : path_ok c lo hi (p_pmtu q);
  at_queue : Forall (polite c lo hi) (queue q);
  at_next : u16_ok (p_next_unreliable_sequence q);
  at_local : u16_ok (AcknowledgmentHandler_local_sequence_num (p_acknowledge_handler q))
}.

(** All that [attentive] looks at besides the pools and the fragments. *)
Lemma attentive_like a c q q' : attentive a c q -> ready a (use_checksums c) q' ->
  p_config q' = p_config q ->
  p_acknowledge_handler q' = p_acknowledge_handler q -> path_ok c lo hi (p_pmtu q') ->
  Forall (polite c lo hi) (queue q') -> u16_ok (p_next_unreliable_sequence q') -> attentive a c q'.
Proof.
  intros [H1 H2 H4 H5 H6 H7 H8 H9] Hr Ec Ea Hp Hq Hn.
  split; rewrite ?Ea; [exact Hr|congruence|exact H4| |exact Hp|exact Hq|exact Hn|exact H9].
  unfold Peer_rto. by rewrite Ea.
Qed.

Lemma attentive_heard a c t q : attentive a c q -> attentive a c (set_last_heard t q).
Proof. intros H. eapply attentive_like; [exact H|apply ready_heard, H|done..|apply H|apply H|apply H]. Qed.
Lemma attentive_fragments a c m q : attentive a c q -> attentive a c (set_command_fragments m q).
Proof. intros H. eapply attentive_like; [exact H|apply ready_fragments, H|done..|apply H|apply H|apply H]. Qed.
Lemma attentive_books a c s b q : attentive a c q ->
  attentive a c (set_statistics s (set_bandwidth_throttle b q)).
Proof.
  intros H. eapply attentive_like; [exact H|apply ready_books, H|done|done|apply H|apply H|apply H].
Qed.

Lemma attentive_pushed a c cs q : attentive a c q -> Forall (polite c lo hi) cs -> attentive a c (pushed cs q).
Proof.
  intros H Hcs. pose proof (at_ready _ _ _ H) as [H1 H3 H4 H5 H6].
  eapply attentive_like; [exact H| |done|done|apply H| |apply H].
  - split; [done|done|done| |done]. apply queue_ok_pushed; [done|].
    rewrite (polite_sizes c lo hi cs Hcs). destruct H5. split; [lia|]. intros Hm. rewrite Z.add_0_r. auto.
  - rewrite queue_pushed. apply Forall_app. split; [apply H|done].
Qed.

Lemma attentive_acked a c s f t h q : attentive a c q ->
  AcknowledgmentHandler_process_incoming s s f t (p_acknowledge_handler q) = Some h ->
  attentive a c (set_acknowledge_handler h q).
Proof.
  intros [[R1 R3 R4 R5 R6] H2 H4 H5 H6 H7 H8 H9] E.
  destruct (process_incoming_unsent s s f t _ R6 H4) as (h' & E' & Es & Ec & El).
  rewrite E in E'. injection E' as <-.
  assert (ah_sequence_number h = ah_sequence_number (p_acknowledge_handler q)) as En.
  { unfold AcknowledgmentHandler_process_incoming in E. apply bind_Some in E as ([acc b] & _ & E).
    destruct (foldl _ _ _) as [[sent cc] f']. by injection E as <-. }
  split; try done.
  - split; [done|done|done| |cbn; lia]. by eapply queue_ok_like.
  - unfold Peer_rto, AcknowledgmentHandler_rto in *. cbn. by rewrite Ec.
  - unfold AcknowledgmentHandler_local_sequence_num in *. cbn. by rewrite En.
Qed.

Lemma ack_polite c cmd : is_ack cmd -> polite c lo hi cmd.
Proof.
  intros (s & f & -> & Hs & Hf). split; [|done]. apply frame_ok_small; [|simpl; lia].
  split_and!; [done|done|]. intros x Hx. discriminate Hx.
Qed.
Lemma acks_weight acks : Forall is_ack acks -> weights acks = zlen acks.
Proof.
  induction 1 as [|cmd acks (s & f & -> & _) _ IH]; [done|]. unfold weights in *.
  rewrite zsum_cons, zlen_cons, IH. simpl. lia.
Qed.

(** Taking a part of a message, or a polite command. *)
Lemma attentive_answered a c t seq n q q' : attentive a c q -> answered t seq n q q' ->
  attentive a c q' /\ weights (queue q') <= weights (queue q) + Z.of_nat n.
Proof.
  intros H (h & m & acks & -> & Hh & _ & Hacks & Hn). split.
  - apply attentive_pushed; [|by eapply Forall_impl; [exact Hacks|intros x; apply ack_polite]].
    apply attentive_fragments. pose proof (attentive_heard a c t q H) as H0.
    destruct Hh as [->|Hh]; [by destruct q|]. by eapply attentive_acked.
  - rewrite queue_pushed, weights_app, (acks_weight acks Hacks).
    change (queue (set_command_fragments _ _)) with (queue q). unfold zlen. lia.
Qed.

Lemma attentive_enqueue a c cmd q r : attentive a c q -> polite c lo hi cmd -> exists b,
  Peer_enqueue_command cmd q r = Some (b, pushed [cmd] q, r).
Proof.
  intros H Hc. pose proof (at_ready _ _ _ H) as [_ _ _ Hok _].
  apply enqueue_fits; [by apply queue_ok_nonneg|done|].
  rewrite (polite_size c lo hi cmd Hc). destruct Hok. split; [lia|].
  intros Hm. rewrite Z.add_0_r. auto.
Qed.

Lemma reply_path c t size tok m : path_bounds c lo hi -> path_ok c lo hi m -> lo <= size <= hi ->
  path_ok c lo hi (PmtuDiscovery_process_reply size tok t m).2.
Proof.
  intros Hb [H1 H2 H3 H4] Hs. unfold PmtuDiscovery_process_reply.
  destruct (pm_outstanding m) as [[[s tk] at_]|]; [|by split].
  destruct (tk =? tok); [|by split]. split; cbn; try done; lia.
Qed.

(** The command that answers a control command. *)
Definition reply (cmd : ProtocolCommand) : list ProtocolCommand :=
  match cmd with
  | Ping ts => [Pong ts]
  | PMTUProbe size tok _ => [PMTUReply size tok]
  | _ => []
  end.
Lemma reply_polite c c' cmd : 0 <= lo -> hi <= 65535 -> polite c' lo hi cmd -> Forall (polite c lo hi) (reply cmd).
Proof.
  intros H0 H1 [[Hok _] H]. destruct cmd; try done; try apply Forall_nil_2; apply Forall_singleton.
  - split; [|done]. apply frame_ok_small; [exact Hok|simpl; lia].
  - split; [|apply H]. apply frame_ok_small; [|simpl; lia]. destruct Hok as (? & ? & _). by split.
Qed.
Lemma reply_weight c cmd : polite c lo hi cmd -> weights (reply cmd) = weight cmd - 1.
Proof. intros [_ H]. by destruct cmd. Qed.

(** Processing a control command answers it and hands nothing on. *)
Lemma process_polite a c c' cmd t q r : path_bounds c lo hi -> attentive a c q -> polite c' lo hi cmd ->
  exists q', Peer_process_command (command_reown cmd) t q r = Some (Ok IncomingPackets_zero, q', r) /\
    attentive a c q' /\ queue q' = queue q ++ reply cmd /\
    p_command_fragments q' = p_command_fragments q /\ tallies q' = tallies q.
Proof.
  intros Hb H Hc. pose proof (attentive_heard a c t q H) as H0. set (q0 := set_last_heard t q) in *.
  pose proof (pb_lo _ _ _ Hb) as Hlo. pose proof (pb_hi _ _ _ Hb).
  assert (0 <= lo) as Hlo0.
  { unfold probe_overhead in Hlo. destruct (compression c), (use_checksums c); lia. }
  assert (forall cmd', Forall (polite c lo hi) [cmd'] ->
    exists b, Peer_enqueue_command cmd' q0 r = Some (b, pushed [cmd'] q0, r) /\
      attentive a c (pushed [cmd'] q0) /\ queue (pushed [cmd'] q0) = queue q ++ [cmd']) as Hpush.
  { intros cmd' Hc'. pose proof Hc' as Hc1. rewrite Forall_singleton in Hc1.
    destruct (attentive_enqueue a c cmd' q0 r H0 Hc1) as [b E]. exists b.
    split; [done|]. split; [by apply attentive_pushed|by rewrite queue_pushed]. }
  pose proof (reply_polite c c' cmd Hlo0 ltac:(lia) Hc) as Hre.
  unfold Peer_process_command. destruct cmd; destruct Hc as [Hok Hc]; try done;
    cbn [command_reown reply] in *; erewrite bind_run by reflexivity; fold q0.
  - destruct (acknowledge_ready a (use_checksums c) sequence sequence received_mask t q0 r (at_ready _ _ _ H0))
      as (h & E & _ & Eh).
    exists (set_acknowledge_handler h q0). erewrite bind_run by exact E. split; [done|].
    split; [by eapply attentive_acked|]. by rewrite app_nil_r.
  - destruct (Hpush (Pong timestamp) Hre) as (b & E & Ha & Eq).
    exists (pushed [Pong timestamp] q0). split; [|done].
    unfold Peer_enqueue_pong_command. by erewrite bind_run by by erewrite bind_run by exact E.
  - exists q0. by rewrite app_nil_r.
  - destruct (Hpush (PMTUReply size token) Hre) as (b & E & Ha & Eq).
    exists (pushed [PMTUReply size token] q0). split; [|done].
    unfold PmtuDiscovery_create_reply. by erewrite bind_run by exact E.
  - exists (set_pmtu (PmtuDiscovery_process_reply size token t (p_pmtu q0)).2 q0).
    split; [done|]. split; [|by rewrite app_nil_r].
    eapply attentive_like; [exact H0| |done|done| |apply H0|apply H0].
    + eapply ready_like; [apply H0|done..| |done]. eapply queue_ok_like; [apply H0|done..].
    + apply reply_path; [done|apply H0|done].
Qed.
End Peers.

(* ------------------------------------------------------------------ *)
(** ** What one side sends, received by the other                       *)
(* ------------------------------------------------------------------ *)

(** Control commands, then the parts of a message: the parts go to the assembler, and two bounds
    are kept on what the receiver has to answer, by weight from above and by number from below. *)
Definition mixed (ctl : list ProtocolCommand) (out : Packet) (n : Z) : Receiver (gset Z * (Z * Z)) :=
  fun s i =>
    match ctl !! Z.to_nat i with
    | Some cmd => ([], (s.1, (s.2.1 + weight cmd - 1, s.2.2 + zlen (reply cmd))))
    | None =>
        let x := assembler out n s.1 (i - zlen ctl) in (x.1, (x.2, (s.2.1 + zlen x.1, s.2.2)))
    end.
(** The number of commands that the given ones are answered with. *)
Definition replies (cs : list ProtocolCommand) : Z := zsum (fun cmd => zlen (reply cmd)) cs.

(** All the commands, in any order: one message, and no more answers than the weights say. *)
Lemma mixed_run ctl out n js : forall got w v, Forall (fun j => 0 <= j) js ->
  let parts := (fun j => j - zlen ctl) <$> filter (fun j => zlen ctl <= j) js in
  receiver_run (mixed ctl out n) (got, (w, v)) js =
    ((receiver_run (assembler out n) got parts).1,
     ((receiver_run (assembler out n) got parts).2,
      (w + zsum (fun j => match ctl !! Z.to_nat j with Some cmd => weight cmd - 1 | None => 0 end) js
         + zlen (receiver_run (assembler out n) got parts).1,
       v + zsum (fun j => match ctl !! Z.to_nat j with Some cmd => zlen (reply cmd) | None => 0 end) js))).
Proof.
  induction js as [|j js IH]; intros got w v Hjs; cbn zeta.
  - cbn. change (zlen []) with 0. by rewrite !Z.add_0_r.
  - apply Forall_cons in Hjs as [Hj Hjs]. cbn [receiver_run]. unfold mixed at 1 3 5. cbn [fst snd].
    destruct (ctl !! Z.to_nat j) as [cmd|] eqn:E.
    + apply lookup_lt_Some in E as Hl. rewrite filter_cons_False by (unfold zlen; lia).
      cbn [fst snd app]. rewrite IH by done. cbn [fst snd]. rewrite !zsum_cons, E. do 2 f_equal. f_equal; lia.
    + apply lookup_ge_None in E as Hl. rewrite filter_cons_True by (unfold zlen; lia).
      rewrite fmap_cons. cbn [receiver_run fst snd]. rewrite IH by done. cbn [fst snd].
      rewrite !zsum_cons, E, zlen_app. do 2 f_equal. f_equal; lia.
Qed.

Lemma filter_seqZ m n : 0 <= m -> 0 <= n ->
  (fun j => j - m) <$> filter (fun j => m <= j) (seqZ 0 (m + n)) = seqZ 0 n.
Proof.
  intros Hm Hn. rewrite seqZ_app, filter_app by lia. rewrite Z.add_0_l.
  assert (forall l, Forall (fun j => j < m) l -> filter (fun j => m <= j) l = []) as Hnone.
  { induction 1 as [|j l Hj _ IH]; [done|]. by rewrite filter_cons_False by lia. }
  assert (forall l, Forall (fun j => m <= j) l -> filter (fun j => m <= j) l = l) as Hall.
  { induction 1 as [|j l Hj _ IH]; [done|]. by rewrite filter_cons_True, IH by lia. }
  rewrite Hnone, Hall by (apply Forall_seqZ; lia). cbn [app].
  transitivity (fmap (M := list) (Z.add (- m)) (seqZ m n)).
  - apply list_fmap_ext. intros ? j _. lia.
  - rewrite fmap_add_seqZ. f_equal. lia.
Qed.

Lemma zsum_permuted {A} (f : A -> Z) l k : l ≡ₚ k -> zsum f l = zsum f k.
Proof. induction 1; rewrite ?zsum_cons; try lia; done. Qed.

Lemma zsum_fmap {A B} (f : B -> Z) (g : A -> B) (l : list A) : zsum f (g <$> l) = zsum (fun x => f (g x)) l.
Proof. induction l as [|x l IH]; [done|]. by rewrite fmap_cons, !zsum_cons, IH. Qed.

Lemma lookups_seqZ {A} (l : list A) k : 0 <= k ->
  fmap (M := list) (fun j => l !! Z.to_nat j) (seqZ 0 (zlen l + k)) = (Some <$> l) ++ replicate (Z.to_nat k) None.
Proof.
  intros Hk. apply list_eq. intros i. rewrite list_lookup_fmap. unfold zlen.
  destruct (decide (i < length l + Z.to_nat k)%nat) as [Hi|Hi].
  - rewrite lookup_seqZ_lt by lia. cbn [fmap option_fmap option_map]. rewrite Z.add_0_l, Nat2Z.id. destruct (decide (i < length l)%nat).
    + rewrite lookup_app_l by by rewrite length_fmap. rewrite list_lookup_fmap.
      by destruct (lookup_lt_is_Some_2 l i) as [x ->].
    + rewrite lookup_app_r by (rewrite length_fmap; lia). rewrite lookup_ge_None_2 by lia.
      rewrite length_fmap. symmetry. apply lookup_replicate. split; [done|lia].
  - rewrite lookup_seqZ_ge by lia. symmetry. apply lookup_ge_None.
    rewrite length_app, length_fmap, length_replicate. lia.
Qed.
Lemma zsum_lookup {A} (f : A -> Z) (l : list A) k : 0 <= k ->
  zsum (fun j => match l !! Z.to_nat j with Some x => f x | None => 0 end) (seqZ 0 (zlen l + k)) = zsum f l.
Proof.
  intros Hk. rewrite <-(zsum_fmap (fun o => match o with Some x => f x | None => 0 end)
    (fun j => l !! Z.to_nat j)), lookups_seqZ, zsum_app by done.
  assert (zsum (fun o : option A => match o with Some x => f x | None => 0 end) (replicate (Z.to_nat k) None) = 0) as ->.
  { induction (Z.to_nat k) as [|n IH]; [done|]. cbn [replicate]. by rewrite zsum_cons, IH. }
  rewrite zsum_fmap. apply Z.add_0_r.
Qed.

(** All of it, in any order: one message, and no more to answer than the weights say. *)
Lemma mixed_complete ctl out n w v js : 0 < n -> js ≡ₚ seqZ 0 (zlen ctl + n) ->
  receiver_run (mixed ctl out n) (∅, (w, v)) js =
    ([out], (∅, (w + weights ctl - zlen ctl + 1, v + replies ctl))).
Proof.
  intros Hn Hjs. pose proof (zlen_nonneg ctl). rewrite mixed_run.
  - rewrite assembler_complete.
    + cbn [fst snd]. rewrite !(zsum_permuted _ _ _ Hjs), !zsum_lookup by lia. do 3 f_equal.
      assert (zsum (fun x => weight x - 1) ctl = weights ctl - zlen ctl) as ->.
      { unfold weights. clear. induction ctl as [|x l IH]; [done|]. rewrite !zsum_cons, zlen_cons. lia. }
      change (zlen [out]) with 1. lia.
    + done.
    + rewrite Hjs. by rewrite filter_seqZ by lia.
  - rewrite Hjs. apply Forall_seqZ. lia.
Qed.
Lemma mixed_control ctl out n w v js : js ≡ₚ seqZ 0 (zlen ctl) ->
  receiver_run (mixed ctl out n) (∅, (w, v)) js = ([], (∅, (w + weights ctl - zlen ctl, v + replies ctl))).
Proof.
  intros Hjs. pose proof (zlen_nonneg ctl). rewrite mixed_run.
  - assert ((fun j => j - zlen ctl) <$> filter (fun j => zlen ctl <= j) js ≡ₚ []) as E.
    { pose proof (filter_seqZ (zlen ctl) 0 ltac:(lia) ltac:(lia)) as E. rewrite Z.add_0_r in E.
      by rewrite Hjs, E. }
    apply Permutation_nil_r in E. rewrite E. cbn [receiver_run fst snd].
    pose proof (zsum_lookup (fun x => weight x - 1) ctl 0 ltac:(lia)) as E0. rewrite Z.add_0_r in E0.
    pose proof (zsum_lookup (fun x => zlen (reply x)) ctl 0 ltac:(lia)) as E1. rewrite Z.add_0_r in E1.
    rewrite !(zsum_permuted _ _ _ Hjs), E0, E1. do 3 f_equal.
    assert (zsum (fun x => weight x - 1) ctl = weights ctl - zlen ctl) as ->.
    { unfold weights. clear. induction ctl as [|x l IH]; [done|]. rewrite !zsum_cons, zlen_cons. lia. }
    change (zlen []) with 0. lia.
  - rewrite Hjs. apply Forall_seqZ. lia.
Qed.

Section Mixed.
Context {X : Externs} {L : ByteOrderLaws X} (lo hi : Z).
(** The sender has the configuration [c'], the receiver [c]; the message is as in [Delivery]. *)
Context (c c' : Config) (d : DeliveryGuarantee) (a : SocketAddr) (budget size : Z) (data : list Z)
  (ch seq : Z) (ctl : list ProtocolCommand).
Hypothesis Hb : path_bounds c lo hi.
Hypothesis Hsize : 0 < size.
Hypothesis Hctl : Forall (polite c' lo hi) ctl.
#[local] Abbreviation parts_from := (part d budget size data ch seq).
#[local] Abbreviation n := (part_count budget size data).
#[local] Abbreviation out := (received d a data ch).

Definition mixed_command (i : Z) : ProtocolCommand :=
  match ctl !! Z.to_nat i with Some cmd => cmd | None => parts_from (i - zlen ctl) end.

Lemma mixed_commands k : 0 <= k -> ctl ++ (parts_from <$> seqZ 0 k) = mixed_command <$> seqZ 0 (zlen ctl + k).
Proof.
  intros Hk. pose proof (zlen_nonneg ctl). rewrite seqZ_app, fmap_app, Z.add_0_l by lia. f_equal.
  - apply list_eq. intros i. rewrite list_lookup_fmap.
    destruct (decide (i < length ctl)%nat) as [Hi|Hi].
    + rewrite lookup_seqZ_lt by (unfold zlen; lia). unfold mixed_command. cbn [fmap option_fmap option_map].
      rewrite Z.add_0_l, Nat2Z.id. by destruct (lookup_lt_is_Some_2 ctl i) as [x ->].
    + rewrite lookup_seqZ_ge by (unfold zlen; lia). by rewrite lookup_ge_None_2 by lia.
  - replace (seqZ (zlen ctl) k) with (fmap (M := list) (Z.add (zlen ctl)) (seqZ 0 k))
      by (rewrite fmap_add_seqZ; f_equal; lia).
    rewrite <-list_fmap_compose. apply Forall_fmap_ext, Forall_seqZ. intros j Hj. unfold mixed_command.
    cbn [compose]. rewrite lookup_ge_None_2 by (unfold zlen; lia). f_equal. lia.
Qed.

(** The receiver has the parts [got] of the message, and answers within the bounds queued. *)
Definition conversing (s : gset Z * (Z * Z)) (q : Peer) : Prop :=
  attentive lo hi a c q /\ awaiting a (use_checksums c) budget size data ch seq s.1 q /\
  (weights (queue q) <= s.2.1 /\ s.2.2 <= zlen (queue q)) /\
  (forall k, k <> seq \/ whole budget data = true -> p_command_fragments q !! k = None).

Lemma awaiting_like got q q' : awaiting a (use_checksums c) budget size data ch seq got q ->
  ready a (use_checksums c) q' -> p_command_fragments q' = p_command_fragments q ->
  awaiting a (use_checksums c) budget size data ch seq got q'.
Proof.
  intros [_ He] Hr E. split; [done|]. destruct (whole budget data); [done|].
  unfold entry in *. by rewrite E.
Qed.

Lemma mixed_simulated : simulates (mixed ctl out n) a (use_checksums c) mixed_command (zlen ctl + n) conversing.
Proof.
  split.
  - intros t [got [w v]] i q r Hi (Ha & Hw & [Hq Hv] & Hf). unfold mixed_command, mixed. cbn [fst snd] in *.
    destruct (ctl !! Z.to_nat i) as [cmd|] eqn:E.
    + pose proof (proj1 (Forall_forall _ _) Hctl cmd (list_elem_of_lookup_2 _ _ _ E)) as Hc.
      destruct (process_polite lo hi a c c' cmd t q r Hb Ha Hc) as (q' & Er & Ha' & Eq & Ef & Es).
      exists IncomingPackets_zero, q'. split; [done|]. split; [done|]. split; [|done]. cbn [fst snd].
      split; [done|]. split; [by eapply awaiting_like; [exact Hw|apply Ha'|done]|]. split; [|by rewrite Ef].
      cbn [fst snd]. rewrite Eq, weights_app, zlen_app, (reply_weight lo hi c' cmd Hc). lia.
    + apply lookup_ge_None in E. unfold zlen in Hi.
      destruct (part_received d a (use_checksums c) budget size data ch seq Hsize (i - zlen ctl) got t q r)
        as (pk & q' & Er & Hpk & Hw' & Hans & Hwhole); [unfold zlen; lia|done|].
      destruct (attentive_answered lo hi a c _ _ _ _ _ Ha Hans) as [Ha' Hwt].
      exists pk, q'. split; [done|]. split; [done|]. cbn [fst snd].
      split; [|by destruct Hans as (h & m & acks & -> & _)].
      split; [done|]. split; [done|]. cbn [fst snd]. split.
      { split; [unfold zlen in *; lia|]. destruct Hans as (h & m & acks & -> & _).
        rewrite queue_pushed, zlen_app. pose proof (zlen_nonneg acks).
        change (queue (set_command_fragments _ _)) with (queue q). lia. }
      intros k [Hk|Hk]; [|rewrite Hwhole by done; apply Hf; by right].
      destruct Hans as (h & m & acks & -> & _ & Hm & _).
      change (m !! k = None). rewrite Hm by done. apply Hf. by left.
  - intros s q st b (Ha & Hw & Hq & Hf). pose proof (attentive_books lo hi a c st b q Ha).
    split; [done|]. split; [|by split]. eapply awaiting_like; [exact Hw|by apply at_ready in H|done].
  - intros s q (Ha & _). apply Ha.
Qed.
End Mixed.

(* ------------------------------------------------------------------ *)
(** ** Hearing                                                          *)
(* ------------------------------------------------------------------ *)

Section Online.
Context {X : Externs} {L : ByteOrderLaws X} `{!CrcLaws X, !ZlibLaws X, !Lz4Laws X} (lo hi e : Z).

(** A connected peer without fragments of unfinished messages, whose current windows have room for
    [n] more datagrams in and out, and whose counters for [e] more than that. *)
Record online (a : SocketAddr) (c : Config) (n : Z) (q : Peer) : Prop := {
  ol_attentive : attentive lo hi a c q;
  ol_fragments : p_command_fragments q = ∅;
  ol_extra : 0 <= e;
  ol_received : counters_room (n + e) q;
  ol_sent : stats_room (n + e) 1537 q;
  ol_limits : limits q = (outgoing_bandwidth_limit c, incoming_bandwidth_limit c);
  ol_windows : windows n q
}.
(** What the configuration of a peer that converses has to satisfy. *)
Record conversable (c : Config) : Prop := {
  cv_path : path_bounds c lo hi;
  cv_compress : compresses c
}.


Lemma sent_room_kept n q q' : stats_room n 1537 q ->
  packets_sent (p_statistics q') = packets_sent (p_statistics q) /\
  bytes_sent (p_statistics q') = bytes_sent (p_statistics q) -> stats_room n 1537 q'.
Proof. intros [H1 H2] [E1 E2]. split; rewrite ?E1, ?E2; done. Qed.
Lemma stats_room_less n m size q : m <= n -> 0 <= size -> stats_room n size q -> stats_room m size q.
Proof. intros Hm Hs [H1 H2]. split; nia. Qed.

(** What [online] looks at besides what [attentive] does. *)
Lemma online_like a c n q q' : online a c n q -> attentive lo hi a c q' ->
  p_command_fragments q' = p_command_fragments q -> tallies q' = tallies q -> online a c n q'.
Proof.
  intros [Ha Hf He R [S1 S2] Hl Hw] Ha' Ef [= Es Eb]. split; [done|by rewrite Ef|done| | | |].
  - unfold counters_room. by rewrite Es.
  - split; by rewrite Es.
  - unfold limits. by rewrite Eb.
  - unfold windows, limits, outgoing, window_sent, window_received in *. by rewrite Eb.
Qed.
Lemma online_room a c n q : online a c n q -> recv_room n q.
Proof. intros [_ _ He R _ _ Hw]. eapply room_of; [|exact R|exact Hw]. lia. Qed.

(** What hearing [k] datagrams at [t] does to the window: it may be renewed, and has then seen only
    those. *)
Record rewound (t : Instant) (k : Z) (q q' : Peer) : Prop := {
  rw_start : renews t q q';
  rw_used n : used n q -> used (n + k) q';
  rw_anew : window_start q' <> window_start q -> used k q'
}.

Section Hear.
Context (c c' : Config) (d : DeliveryGuarantee) (a : SocketAddr) (budget size : Z) (data : list Z)
  (ch seq : Z) (ctl : list ProtocolCommand).
Hypothesis Hc : conversable c.
Hypothesis Hc' : receive_buffer_max_size c' <= 1537.
Hypothesis Hck : use_checksums c' = use_checksums c.
Hypothesis Hsize : 0 < size.
Hypothesis Hbudget : 0 <= budget.
Hypothesis Hctl : Forall (polite c' lo hi) ctl.
#[local] Abbreviation parts_from := (part d budget size data ch seq).
#[local] Abbreviation n := (part_count budget size data).
#[local] Abbreviation out := (received d a data ch).

(** The receiver of the control commands and the first [k] parts. *)
Lemma hear k m dgs sent arrived t q r : 0 <= k <= n -> online a c m q -> zlen dgs <= m ->
  Forall2 (carries c' (receive_buffer_max_size c')) dgs sent ->
  concat sent = ctl ++ (parts_from <$> seqZ 0 k) -> arrived ≡ₚ dgs ->
  exists js q', js ≡ₚ seqZ 0 (zlen ctl + k) /\
    let x := receiver_run (mixed ctl out n) (∅, (weights (queue q), zlen (queue q))) js in
    receive_datagrams arrived t q r = Some ((fun p => Emit (EvPacket p)) <$> x.1, q', r) /\
    conversing lo hi c a budget size data ch seq x.2 q' /\
    heard (zlen dgs) q q' /\ rewound t (zlen dgs) q q' /\
    p_last_heard q' = match js with [] => p_last_heard q | _ => t end.
Proof.
  intros Hk Hq Hm HF Hsent Harr. pose proof Hq as [Ha Hf _ _ _ _ _].
  rewrite (mixed_commands d budget size data ch seq ctl k) in Hsent by lia.
  destruct (parcels_of c' _ (zlen ctl + k) _ dgs sent HF Hsent) as (parcels & -> & Hks & Hpar).
  destruct (permuted_arrivals t arrived parcels Harr) as (arrivals & Hp & Ed).
  assert (zlen arrivals = zlen parcels.*1) as Hl.
  { unfold zlen. by rewrite length_fmap, <-(length_fmap snd arrivals), (Permutation_length Hp). }
  destruct (arrivals_simulated _ a (use_checksums c) _ (zlen ctl + n)
    (conversing lo hi c a budget size data ch seq)
    (mixed_simulated lo hi c c' d a budget size data ch seq ctl (cv_path c Hc) Hsize Hctl)
    (receive_buffer_max_size c') arrivals Hc' (∅, (weights (queue q), zlen (queue q))) q r)
    as (q' & E & HP & Hh & Hnow).
  - rewrite Hp. eapply Forall_impl; [exact Hpar|]. intros x [Hx1 Hx2]. rewrite <-Hck. split; [|done].
    eapply Forall_impl; [exact Hx1|]. cbv beta. lia.
  - split; [done|]. cbn [fst snd]. split; [|split; [done|by rewrite Hf]].
    split; [apply Ha|]. destruct (whole budget data); [done|]. split; [|apply empty_subseteq].
    unfold entry. by rewrite Hf.
  - rewrite Hl. eapply recv_room_weaken; [exact Hm|]. by eapply online_room.
  - exists (numbers arrivals), q'. split; [rewrite <-Hks; by apply numbers_permuted|].
    assert (Forall (fun x => x.1 = t) (datagrams arrivals)) as Hd.
    { rewrite <-Ed. apply Forall_fmap, Forall_forall. done. }
    apply Forall_fmap in Hd. destruct (Hnow t Hd) as [Ht Hren].
    rewrite receive_datagrams_arrivals, Ed, E, <-Hl. split; [done|]. split; [done|]. split; [done|].
    split; [|exact Ht]. split; [exact Hren|intros x; by apply heard_used|by apply heard_anew].
Qed.

Lemma conversing_online m j w v q q' : 0 <= j -> online a c (m + j) q ->
  conversing lo hi c a budget size data ch seq (∅, (w, v)) q' ->
  heard j q q' ->
  online a c m q' /\ weights (queue q') <= w /\ v <= zlen (queue q').
Proof.
  intros Hj [Ha Hf Hx Hr Hs Hl Hg] (Ha' & [_ He] & Hw & Hn) Hh. split; [|done].
  split; [done| |done| | | |].
  - apply map_empty. intros s. cbn [fst] in He. destruct (whole budget data) eqn:Hwh.
    + apply Hn. by right.
    + destruct (decide (s = seq)) as [->|Hs']; [|apply Hn; by left].
      destruct He as [He _]. unfold entry in He. destruct (p_command_fragments q' !! seq); [|done].
      by destruct He.
  - eapply heard_counters; [exact Hh|]. by replace (m + e + j) with (m + j + e) by lia.
  - eapply (stats_room_less (m + j + e)); [lia|lia|]. eapply sent_room_kept; [exact Hs|apply Hh].
  - by rewrite (heard_limits _ _ _ Hh).
  - by eapply (heard_windows m j).
Qed.

(** A message is heard once, control commands are not. *)
Lemma hear_message m dgs sent arrived t q r : online a c (m + zlen dgs) q -> 0 <= m ->
  Forall2 (carries c' (receive_buffer_max_size c')) dgs sent ->
  concat sent = ctl ++ message d budget size data ch seq -> arrived ≡ₚ dgs ->
  exists q', receive_datagrams arrived t q r = Some ([Emit (EvPacket out)], q', r) /\
    online a c m q' /\ weights (queue q') <= weights (queue q) + weights ctl - zlen ctl + 1 /\
    zlen (queue q) + replies ctl <= zlen (queue q') /\ rewound t (zlen dgs) q q' /\
    p_last_heard q' = t.
Proof.
  intros Hq Hm HF Hsent Harr. rewrite message_parts in Hsent.
  pose proof (part_count_pos budget size data Hsize Hbudget) as Hn.
  destruct (hear n (m + zlen dgs) dgs sent arrived t q r) as (js & q' & Hjs & E & HP & Hh & Hre & Ht);
    [lia|done|lia|done|done|done|].
  rewrite mixed_complete in E, HP by done. exists q'. split; [exact E|].
  destruct (conversing_online m (zlen dgs) _ _ q q' (zlen_nonneg dgs) Hq HP Hh) as (Ho & Hw & Hv).
  split; [done|]. split; [done|]. split; [done|]. split; [done|]. destruct js; [|done].
  apply Permutation_nil_l in Hjs. pose proof (zlen_nonneg ctl). rewrite seqZ_cons in Hjs by lia. done.
Qed.
Lemma hear_control m dgs sent arrived t q r : online a c (m + zlen dgs) q -> 0 <= m ->
  Forall2 (carries c' (receive_buffer_max_size c')) dgs sent -> concat sent = ctl -> arrived ≡ₚ dgs ->
  exists q', receive_datagrams arrived t q r = Some ([], q', r) /\
    online a c m q' /\ weights (queue q') <= weights (queue q) + weights ctl - zlen ctl /\
    zlen (queue q) + replies ctl <= zlen (queue q') /\ rewound t (zlen dgs) q q' /\
    p_last_heard q' = match ctl with [] => p_last_heard q | _ => t end.
Proof.
  intros Hq Hm HF Hsent Harr. pose proof (part_count_pos budget size data Hsize Hbudget) as Hn.
  destruct (hear 0 (m + zlen dgs) dgs sent arrived t q r) as (js & q' & Hjs & E & HP & Hh & Hre & Ht);
    [lia|done|lia|done|by rewrite app_nil_r|done|].
  rewrite Z.add_0_r in Hjs. rewrite mixed_control in E, HP by done. exists q'. split; [exact E|].
  destruct (conversing_online m (zlen dgs) _ _ q q' (zlen_nonneg dgs) Hq HP Hh) as (Ho & Hw & Hv).
  split; [done|]. split; [done|]. split; [done|]. split; [done|]. rewrite Ht.
  destruct ctl as [|x l], js as [|j js]; try done.
  - by apply Permutation_nil_r in Hjs.
  - apply Permutation_nil_l in Hjs. rewrite zlen_cons in Hjs. pose proof (zlen_nonneg l).
    rewrite seqZ_cons in Hjs by lia. done.
Qed.
End Hear.

(* ------------------------------------------------------------------ *)
(** ** Speaking                                                         *)
(* ------------------------------------------------------------------ *)

(** The payload budget of the smallest datagram the path may be reduced to. *)
Definition low_budget (c : Config) (header : Z) : Z :=
  saturating_sub (saturating_sub (saturating_sub lo (packet_overhead c)) 2) header.

(** A packet that every state of the path lets through. *)
Record sayable (c : Config) (d : DeliveryGuarantee) (ch : Z) (data : list Z) : Prop := {
  sy_channel : u8_ok ch;
  sy_bytes : bytes_ok data;
  sy_waiting : zlen data <= u64_max /\
               (0 < max_waiting_data c -> zlen data <= max_waiting_data c);
  sy_budget : 1 <= low_budget c (fragment_header d);
  sy_fragments : div_ceil (zlen data) (low_budget c (fragment_header d))
                 <= Z.min 255 (max_fragments c)
}.

Lemma div_ceil_mono n b b' : 0 <= n -> 1 <= b <= b' -> div_ceil n b' <= div_ceil n b.
Proof.
  intros Hn Hb. unfold div_ceil. apply Z.lt_succ_r, Z.div_lt_upper_bound; [lia|].
  pose proof (Z.mul_succ_div_gt (n + b - 1) b ltac:(lia)). nia.
Qed.

Lemma online_cap a c n p : conversable c -> online a c n p -> lo <= Peer_datagram_cap p /\ 1 <= Peer_datagram_cap p.
Proof.
  intros [[Hs Hlo _ _ _ _ _] _] [Ha _ _ _ _ _ _]. unfold Peer_datagram_cap, Peer_current_fragment_size,
    PmtuDiscovery_current_fragment_size.
  pose proof (po_fragment _ _ _ _ (at_path _ _ _ _ _ Ha)). rewrite (at_config _ _ _ _ _ Ha).
  unfold probe_overhead in Hlo. destruct (compression c), (use_checksums c); lia.
Qed.

Lemma online_waiting a c n p : online a c n p -> p_total_waiting_data p = 0.
Proof.
  intros [Ha _ _ _ _ _ _]. pose proof (at_ready _ _ _ _ _ Ha) as [_ _ _ [-> _ _] _].
  by apply (polite_sizes c lo hi), Ha.
Qed.
Lemma low_budget_least a c n p header : conversable c -> online a c n p ->
  low_budget c header <= payload_budget p header.
Proof.
  intros Hc Ho. destruct (online_cap a c n p Hc Ho) as [Hcap _].
  unfold low_budget, payload_budget, saturating_sub. rewrite (at_config _ _ _ _ _ (ol_attentive _ _ _ _ Ho)). lia.
Qed.
Lemma sayable_fits a c n p d ch data : conversable c -> online a c n p -> sayable c d ch data ->
  fits p ch data (fragment_header d).
Proof.
  intros Hc Ho [H1 H2 [H3 H3'] H4 H5]. pose proof (low_budget_least a c n p (fragment_header d) Hc Ho) as Hb.
  pose proof (online_waiting a c n p Ho) as Hw.
  split; [done|done| |lia|].
  - split; [rewrite Hw; lia|]. rewrite (at_config _ _ _ _ _ (ol_attentive _ _ _ _ Ho)), Hw. intros Hm. specialize (H3' Hm). lia.
  - rewrite (at_config _ _ _ _ _ (ol_attentive _ _ _ _ Ho)).
    pose proof (div_ceil_mono (zlen data) _ _ (zlen_nonneg data) (conj H4 Hb)). lia.
Qed.

(** The queue of a peer that converses can be sent. *)
Lemma polite_queue_fits a c n p : conversable c -> online a c n p -> Forall (fits_alone p) (queue p).
Proof.
  intros Hc Ho. pose proof (ol_attentive _ _ _ _ Ho) as Ha. destruct (online_cap a c n p Hc Ho) as [Hcap _].
  eapply Forall_impl; [apply (at_queue _ _ _ _ _ Ha)|]. intros cmd Hcmd.
  pose proof (polite_fits c lo hi (cv_path c Hc) cmd Hcmd) as Hf. unfold fits_alone.
  rewrite (at_config _ _ _ _ _ Ha). destruct (is_pmtu_probe (Some cmd)); lia.
Qed.

(** What sending [k] datagrams does to the window. *)
Definition spends (k : Z) (p p' : Peer) : Prop :=
  window_start p' = window_start p /\ forall n, used n p -> used (n + k) p'.

(** A flush leaves a peer online. *)
Lemma online_kept a c n k p p' : 0 <= n -> conversable c -> online a c (n + k) p -> kept p p' -> queue_ok p' ->
  Forall (polite c lo hi) (queue p') ->
  0 <= k -> counted k p p' (receive_buffer_max_size c) ->
  online a c n p' /\ spends k p p'.
Proof.
  intros Hn Hc [Ha Hf He Hr Hs Hl Hg] [Hcore Hconf Hcap Hlim] Hok Hq Hk Hct.
  unfold core in Hcore. injection Hcore as E1 E2 E3 E4 E5 E6 E7 E8 E9 E10 E11 E12.
  pose proof (pb_size _ _ _ (cv_path c Hc)) as Hsz.
  split.
  2: { split; [exact E12|]. intros m [U1 U2]. destruct Hct as [_ _ _ Hw]. specialize (Hw ltac:(lia)).
       unfold used. change (window_received p') with (bt_bytes_received_this_window (p_bandwidth_throttle p')).
       rewrite E11. fold (window_received p). nia. }
  split; [| |done| | | |].
  - eapply attentive_like; [exact Ha| |done|done|rewrite E9; apply Ha|done|rewrite E4; apply Ha].
    pose proof (at_ready _ _ _ _ _ Ha) as [R1 R3 R4 R5 R6].
    split; [congruence|congruence|by rewrite Hconf|done|by rewrite E6].
  - by rewrite E7.
  - destruct Hct as [_ _ [C1 C2] _]. unfold counters_room in *. rewrite C1, C2. lia.
  - destruct Hct as [C1 C2 _ _], Hs as [S1 S2]. split; rewrite ?C1; nia.
  - rewrite <-Hl. unfold limits. by rewrite Hlim, E10.
  - destruct Hg as [G1 G2]. split; [eapply (counted_outgoing n k); [done| |exact Hct|done|exact G1]; lia|].
    unfold limits, window_received in *. cbn [snd] in *. rewrite E10, E11. eapply spare_less; [|exact G2]. lia.
Qed.

(** Everything queued leaves in one flush. *)
Lemma flush_online a c n p msg t actions r : conversable c ->
  online a c (n + zlen (queue p) + zlen msg) p -> 0 <= n -> Forall frame_ok msg ->
  room (data_sizes msg) p -> Forall (fits_alone p) msg ->
  exists dgs sent p', Peer_flush t actions (pushed msg p) r = Some (actions ++ (Send <$> dgs), p', r) /\
    queue p' = [] /\ concat sent = queue p ++ msg /\ zlen dgs <= zlen (queue p) + zlen msg /\
    Forall2 (carries c (receive_buffer_max_size c)) dgs sent /\
    online a c (n + zlen (queue p) + zlen msg - zlen dgs) p' /\ spends (zlen dgs) p p'.
Proof.
  intros Hc Ho Hn Hmsg Hroom Hfit. pose proof (ol_attentive _ _ _ _ Ho) as Ha.
  pose proof (at_config _ _ _ _ _ Ha) as Hconf. pose proof (cv_path c Hc) as [Hsz _ _ _ _ _ _].
  pose proof (zlen_nonneg (queue p)). pose proof (zlen_nonneg msg).
  pose proof (at_ready _ _ _ _ _ Ha) as [R1 R3 R4 R5 R6].
  destruct (flush_all t actions (pushed msg p) r) as (dgs & sent & p' & E & Eq & Hok & Hsent & Hlen & HF & _ & Hk & Hct).
  - change (p_config (pushed msg p)) with (p_config p). rewrite Hconf, queue_pushed, zlen_app.
    split; [by apply queue_ok_pushed| | |change (p_config (pushed msg p)) with (p_config p); rewrite Hconf; apply Hc|done].
    + rewrite queue_pushed. apply Forall_app. split; [|done].
      eapply Forall_impl; [apply (at_queue _ _ _ _ _ Ha)|by intros x [Hx _]].
    + eapply (stats_room_weaken (n + zlen (queue p) + zlen msg) _ 1537); [lia|lia|].
      pose proof (ol_extra _ _ _ _ Ho) as Hx.
      destruct (stats_room_less (n + zlen (queue p) + zlen msg + e) (n + zlen (queue p) + zlen msg) 1537 p
        ltac:(lia) ltac:(lia) (ol_sent _ _ _ _ Ho)). by split.
  - apply (online_cap a c _ p Hc Ho).
  - change (outgoing (zlen (queue (pushed msg p))) p). rewrite queue_pushed, zlen_app.
    eapply spare_less; [|apply (ol_windows _ _ _ _ Ho)]. lia.
  - rewrite queue_pushed. apply Forall_app. split; [exact (polite_queue_fits a c _ p Hc Ho)|exact Hfit].
  - change (p_config (pushed msg p)) with (p_config p) in *. rewrite Hconf, ?queue_pushed, ?zlen_app in *.
    exists dgs, sent, p'. repeat (split; [done|]).
    eapply (online_kept a c _ (zlen dgs) p); [lia|done| | |done|rewrite Eq; constructor|apply zlen_nonneg|by destruct Hct; split].
    + by replace (_ - zlen dgs + zlen dgs) with (n + zlen (queue p) + zlen msg) by lia.
    + by destruct Hk; split.
Qed.

Lemma online_next a c n s p : u16_ok s -> online a c n p -> online a c n (set_next_unreliable_sequence s p).
Proof.
  intros Hs Ho. pose proof (ol_attentive _ _ _ _ Ho) as Ha. eapply online_like; [exact Ho| |done|done].
  eapply attentive_like; [exact Ha| |done|done|apply Ha|apply Ha|done].
  eapply ready_like; [apply Ha|done..| |done]. eapply queue_ok_like; [apply Ha|done..].
Qed.
Lemma online_sequence a c n d p : online a c n p -> u16_ok (message_sequence d p).
Proof. intros [Ha _ _ _ _ _ _]. destruct d; apply Ha. Qed.

(** The datagrams that a packet may need, at the smallest size the path may be reduced to. *)
Definition max_parts (c : Config) (d : DeliveryGuarantee) (data : list Z) : Z :=
  Z.max 1 (div_ceil (zlen data) (low_budget c (fragment_header d))).
Lemma max_parts_few c d ch data : sayable c d ch data -> 1 <= max_parts c d data <= 255.
Proof. intros [_ _ _ _ H]. unfold max_parts. lia. Qed.
Lemma sent_message_parts a c n d p ch data : conversable c -> online a c n p -> sayable c d ch data ->
  zlen (sent_message d p ch data) <= max_parts c d data.
Proof.
  intros Hc Ho Hs. pose proof (sy_budget _ _ _ _ Hs) as Hlow.
  pose proof (low_budget_least a c n p (fragment_header d) Hc Ho) as Hb.
  unfold sent_message. rewrite message_parts. unfold zlen at 1. rewrite length_fmap, length_seqZ.
  unfold part_count, fragment_count, max_parts.
  pose proof (div_ceil_mono (zlen data) _ _ (zlen_nonneg data) (conj Hlow Hb)).
  destruct (whole _ data); lia.
Qed.

(** The application's packet leaves with everything that was queued before it. *)
Lemma say a c n d ch data dest t p r : conversable c -> sayable c d ch data ->
  online a c (n + zlen (queue p) + max_parts c d data) p -> 0 <= n ->
  exists dgs sent p',
    Peer_process_event (Packet_new dest data d OrderNone ch) t p r = Some (Send <$> dgs, p', r) /\
    queue p' = [] /\ concat sent = queue p ++ sent_message d p ch data /\
    zlen dgs <= zlen (queue p) + max_parts c d data /\
    Forall2 (carries c (receive_buffer_max_size c)) dgs sent /\
    online a c (n + zlen (queue p) + max_parts c d data - zlen dgs) p' /\ spends (zlen dgs) p p'.
Proof.
  intros Hc Hsay Ho Hn. pose proof (ol_attentive _ _ _ _ Ho) as Ha.
  pose proof (sayable_fits a c _ p d ch data Hc Ho Hsay) as Hfits.
  pose proof (sent_message_parts a c _ d p ch data Hc Ho Hsay) as Hm.
  pose proof (online_sequence a c _ d p Ho) as Hseq.
  pose proof (cv_path c Hc) as [Hsz _ _ _ _ _ _]. pose proof (at_config _ _ _ _ _ Ha) as Hconf.
  pose proof (at_ready _ _ _ _ _ Ha) as [R1 R3 R4 R5 R6].
  destruct (sent_message_ok d p ch data Hseq Hfits) as (Hok & Hlen & Hds & Hpr & Hfit); [rewrite Hconf; lia|].
  destruct (process_event_message d p ch data dest t r R1 R5 Hfits) as (next & -> & Hnext).
  specialize (Hnext (at_next _ _ _ _ _ Ha)). pose proof (online_next a c _ next p Hnext Ho) as Ho1.
  set (p1 := set_next_unreliable_sequence next p) in *. set (msg := sent_message d p ch data) in *.
  set (most := max_parts c d data) in *. pose proof (zlen_nonneg msg).
  destruct (flush_online a c (n + most - zlen msg) p1 msg t [] r Hc)
    as (dgs & sent & p' & E & Eq & Hs & Hl & HF & Ho' & Hw).
  - replace (n + most - zlen msg + zlen (queue p1) + zlen msg) with (n + zlen (queue p) + most); [done|].
    change (queue p1) with (queue p). lia.
  - lia.
  - done.
  - rewrite Hds. by destruct (ft_room _ _ _ _ Hfits).
  - apply Forall_forall. intros cmd Hin. unfold fits_alone. rewrite Forall_forall in Hpr, Hfit.
    rewrite (Hpr cmd Hin). exact (Hfit cmd Hin).
  - change (queue p1) with (queue p) in *. exists dgs, sent, p'. repeat (split; [done|]).
    split; [lia|]. split; [done|]. split; [|exact Hw]. by replace (n + zlen (queue p) + most - zlen dgs)
      with (n + most - zlen msg + zlen (queue p) + zlen msg - zlen dgs) by lia.
Qed.

(** The answer to a time check. *)
Lemma enqueue_ping_online a c n ts p r : conversable c -> online a c n p -> exists p',
  Peer_enqueue_ping_command (as_u32 ts) p r = Some (tt, p', r) /\ online a c n p' /\
  queue p' = queue p ++ [Ping (as_u32 ts)] /\ p_bandwidth_throttle p' = p_bandwidth_throttle p.
Proof.
  intros Hc Ho. pose proof (ol_attentive _ _ _ _ Ho) as Ha.
  assert (polite c lo hi (Ping (as_u32 ts))) as Hping.
  { split; [|done]. apply frame_ok_small; [apply as_u32_ok|simpl; lia]. }
  destruct (attentive_enqueue lo hi a c _ p r Ha Hping) as [b E].
  exists (pushed [Ping (as_u32 ts)] p). split; [|split; [|split; [by rewrite queue_pushed|done]]].
  - unfold Peer_enqueue_ping_command. by erewrite bind_run by exact E.
  - eapply online_like; [exact Ho| |done|done]. apply attentive_pushed; [done|by constructor].
Qed.

Lemma handle_pmtu_online a c n t p r : conversable c -> online a c n p -> exists p' r',
  Peer_handle_pmtu t p r = Some (tt, p', r') /\ online a c n p' /\
  weights (queue p') <= weights (queue p) + 2 /\ p_bandwidth_throttle p' = p_bandwidth_throttle p.
Proof.
  intros Hc Ho. pose proof (ol_attentive _ _ _ _ Ho) as Ha. destruct (at_rto _ _ _ _ _ Ha) as [rto Hrto].
  pose proof (handle_pmtu_path c lo hi (cv_path c Hc) t rto r (p_pmtu p) (at_path _ _ _ _ _ Ha)) as [Hpath Hprobe].
  unfold Peer_handle_pmtu. erewrite bind_run by (unfold may_panic; by rewrite Hrto).
  erewrite bind_run by reflexivity. unfold drawing.
  destruct (PmtuDiscovery_handle_pmtu t rto r (p_pmtu p)) as [[probe m] r'] eqn:E. cbn [fst snd] in Hpath, Hprobe.
  erewrite bind_run by (rewrite E; reflexivity). cbv beta iota. erewrite bind_run by reflexivity.
  set (p1 := set_pmtu m p).
  assert (attentive lo hi a c p1) as Ha1.
  { eapply attentive_like; [exact Ha| |done|done|done|apply Ha|apply Ha].
    eapply ready_like; [apply Ha|done..| |done]. eapply queue_ok_like; [apply Ha|done..]. }
  destruct probe as [cmd|].
  - specialize (Hprobe cmd eq_refl). destruct (attentive_enqueue lo hi a c cmd p1 r' Ha1 Hprobe) as [b Ee].
    exists (pushed [cmd] p1), r'. split; [by erewrite bind_run by exact Ee|]. split.
    + eapply online_like; [exact Ho| |done|done]. apply attentive_pushed; [done|by constructor].
    + rewrite queue_pushed, weights_app. change (queue p1) with (queue p).
      split; [|done]. assert (weights [cmd] <= 2); [|lia].
      unfold weights. rewrite zsum_cons. destruct cmd; cbn; lia.
  - exists p1, r'. split; [done|]. split; [by eapply online_like|]. split; [|done].
    change (queue p1) with (queue p). lia.
Qed.

(** The peer has sent and heard nothing for the length of its heartbeat. *)
Definition ping_due (t : Instant) (p : Peer) : bool :=
  match heartbeat_interval (p_config p) with
  | Some h => (h <=? Peer_last_sent t p) && (h <=? Peer_last_heard t p)
  | None => false
  end.

Lemma replies_nonneg cs : 0 <= replies cs.
Proof. apply zsum_nonneg. intros x. apply zlen_nonneg. Qed.
Lemma replies_app cs ds : replies (cs ++ ds) = replies cs + replies ds.
Proof. apply zsum_app. Qed.
Lemma weights_replies cs : weights cs = zlen cs + replies cs /\ 2 * replies cs <= weights cs.
Proof.
  unfold weights, replies. induction cs as [|cmd cs [IH1 IH2]]; [done|]. rewrite !zsum_cons, zlen_cons.
  assert (weight cmd = 1 + zlen (reply cmd) /\ zlen (reply cmd) <= 1) as [H1 H2] by by destruct cmd.
  lia.
Qed.

(** A peer whose windows are looked at, and renewed if they are over. *)
Definition opened (t : Instant) (p : Peer) : Peer := (Peer_update_bandwidth_window t p).2.
Lemma opened_like t p : queue (opened t p) = queue p /\ ping_due t (opened t p) = ping_due t p /\
  p_last_heard (opened t p) = p_last_heard p /\ p_last_sent (opened t p) = p_last_sent p /\
  exists b, opened t p = set_bandwidth_throttle b p.
Proof. unfold opened. destruct (update_window_shape t p) as (b & -> & _). eauto 6. Qed.
Lemma opened_used t n p : used n p -> used (if window_over t p then 0 else n) (opened t p).
Proof.
  intros Hu. destruct (window_over t p) eqn:E; [by apply update_window_used|].
  rewrite <-(Z.add_0_r n). by eapply heard_used; [apply update_window_heard|].
Qed.
Lemma opened_start t p : window_start (opened t p) = if window_over t p then t else window_start p.
Proof. apply update_window_start. Qed.
Lemma online_opened a c n t p : online a c n p -> online a c n (opened t p).
Proof.
  pose proof (update_window_heard t p) as Hwin. fold (opened t p) in Hwin.
  intros [Ha Hf He Hr Hs Hl Hg]. destruct (opened_like t p) as (_ & _ & _ & _ & b & E). rewrite E in *.
  split; [|done|done|done|by destruct Hs| |].
  - replace (set_bandwidth_throttle b p) with (set_statistics (p_statistics p) (set_bandwidth_throttle b p))
      by by destruct p.
    by apply attentive_books.
  - by rewrite (heard_limits _ _ _ Hwin).
  - eapply (heard_windows n 0); [done|exact Hwin|by rewrite Z.add_0_r].
Qed.

(** The timer: everything queued leaves, perhaps with a ping; perhaps a probe is queued. *)
Lemma tick a c n clock t p r : conversable c -> online a c (n + zlen (queue p) + 1) (opened t p) -> 0 <= n ->
  exists dgs sent p' r',
    Peer_update clock t p r = Some (Send <$> dgs, p', r') /\
    Forall (polite c lo hi) (concat sent) /\ weights (concat sent) <= weights (queue p) + 2 /\
    zlen (queue p) <= zlen (concat sent) <= zlen (queue p) + 1 /\ zlen dgs <= zlen (concat sent) /\
    Forall2 (carries c (receive_buffer_max_size c)) dgs sent /\
    online a c (n + zlen (queue p) + 1 - zlen dgs) p' /\ weights (queue p') <= 2 /\
    (ping_due t p = true -> 1 <= replies (concat sent)) /\ spends (zlen dgs) (opened t p) p'.
Proof.
  intros Hc Ho0 Hn. unfold Peer_update.
  destruct (opened_like t p) as (Eq0 & Edue & _ & _ & b & E0). rewrite <-Eq0, <-Edue in *.
  erewrite bind_run by (unfold updating; rewrite (surjective_pairing (Peer_update_bandwidth_window t p)); reflexivity).
  fold (opened t p). set (p0 := opened t p) in *.
  erewrite bind_run by reflexivity.
  match goal with |- context [if ?b then _ else _] => set (idle := b) end.
  assert (idle = ping_due t p0) as Eidle.
  { unfold idle, Peer_is_established. by rewrite (rd_state _ _ _ (at_ready _ _ _ _ _ (ol_attentive _ _ _ _ Ho0))). }
  assert (exists p1 pings, (if idle then Peer_enqueue_ping_command (as_u32 (as_millis (duration_since clock t))) else mret tt) p0 r
    = Some (tt, p1, r) /\ online a c (n + zlen (queue p0) + 1) p1 /\ queue p1 = queue p0 ++ pings /\
    weights pings <= 2 /\ 0 <= zlen pings <= 1 /\ (idle = true -> replies pings = 1) /\
    p_bandwidth_throttle p1 = p_bandwidth_throttle p0)
    as (p1 & pings & E1 & Ho1 & Hq1 & Hw1 & Hl1 & Hre1 & Hst1).
  { destruct idle.
    - destruct (enqueue_ping_online a c _ (as_millis (duration_since clock t)) p0 r Hc Ho0) as (p1 & E & H1 & H2 & H3).
      exists p1, [Ping (as_u32 (as_millis (duration_since clock t)))]. done.
    - exists p0, []. rewrite app_nil_r. change (zlen []) with 0.
      split; [done|]. split; [done|]. split; [done|]. cbn. split; [lia|]. split; [lia|done]. }
  erewrite bind_run by exact E1.
  destruct (flush_online a c (n + 1 - zlen pings) p1 [] t [] r Hc)
    as (dgs & sent & p2 & E2 & Eq2 & Hs & Hl & HF & Ho2 & Hst2).
  - rewrite Hq1, zlen_app. change (zlen []) with 0.
    by replace (n + 1 - zlen pings + (zlen (queue p0) + zlen pings) + 0) with (n + zlen (queue p0) + 1) by lia.
  - lia.
  - constructor.
  - split; [rewrite (online_waiting a c _ p1 Ho1); vm_compute; discriminate|].
    intros Hm. rewrite (online_waiting a c _ p1 Ho1). cbn. lia.
  - constructor.
  - rewrite pushed_nil in E2. erewrite bind_run by exact E2. cbn [app].
    rewrite app_nil_r, Hq1 in Hs. rewrite Hq1, zlen_app in Hl, Ho2. change (zlen []) with 0 in Hl, Ho2.
    destruct (handle_pmtu_online a c _ t p2 r Hc Ho2) as (p3 & r3 & E3 & Ho3 & Hw3 & Hst3).
    erewrite bind_run by exact E3. exists dgs, sent, p3, r3. split; [done|].
    rewrite Eq2 in Hw3. rewrite Hs, zlen_app, weights_app. split; [|split; [lia|split; [lia|split; [lia|split; [done|]]]]].
    + rewrite <-Hq1. apply (ol_attentive _ _ _ _ Ho1).
    + replace (n + zlen (queue p0) + 1 - zlen dgs) with
        (n + 1 - zlen pings + (zlen (queue p0) + zlen pings) + 0 - zlen dgs) by lia.
      split; [done|]. split; [exact Hw3|]. split.
      * rewrite <-Eidle, replies_app. intros Hidle%Hre1. pose proof (replies_nonneg (queue p0)). lia.
      * unfold spends, used, window_start, window_sent, window_received in *. by rewrite Hst3, <-Hst1.
Qed.
End Online.

(** Room in the counters that the windows do not take can be had elsewhere; renewed windows bring
    room. *)
Lemma online_renewed {X : Externs} lo hi e e' a c n m p : 0 <= e' -> m + e' <= n + e -> windows m p ->
  online lo hi e a c n p -> online lo hi e' a c m p.
Proof.
  intros He' Hm Hw [H1 H2 H3 H4 H5 H6 H7]. split; [done|done|done| | |done|done].
  - eapply counters_less; [|exact H4]. lia.
  - eapply stats_room_less; [| |exact H5]; lia.
Qed.
Lemma online_trade {X : Externs} lo hi e e' a c n m p : 0 <= e' -> m <= n -> m + e' <= n + e ->
  online lo hi e a c n p -> online lo hi e' a c m p.
Proof.
  intros He' Hm Hn Ho. eapply online_renewed; [exact He'|exact Hn| |exact Ho].
  eapply windows_less; [exact Hm|]. apply (ol_windows _ _ _ _ _ _ _ Ho).
Qed.
Lemma online_less {X : Externs} lo hi e a c n m p : m <= n -> online lo hi e a c n p -> online lo hi e a c m p.
Proof.
  intros Hm Ho. eapply online_trade; [exact (ol_extra _ _ _ _ _ _ _ Ho)|exact Hm| |exact Ho]. lia.
Qed.

(* ------------------------------------------------------------------ *)
(** ** Conversations                                                    *)
(* ------------------------------------------------------------------ *)

(** A turn: the application of one side sends a packet, or the host updates the peer; the
    datagrams that leave reach the other side, in some order. *)
Inductive Side : Set := Alice | Bob.
Inductive Speech : Type :=
| Say (d : DeliveryGuarantee) (ch : Z) (data : list Z)
| Tick (clock : Instant).
Record Turn : Type := mkTurn {
  tn_side : Side;
  tn_speech : Speech;
  tn_time : Instant;
  tn_arrival : Instant;
  tn_order : list (list Z) -> list (list Z)
}.

Section Converse.
Context {X : Externs}.

Definition speak (s : Speech) (t : Instant) (p : Peer) (r : Rng) : option (Actions * Peer * Rng) :=
  match s with
  | Say d ch data => Peer_process_event (Packet_new (p_remote_address p) data d OrderNone ch) t p r
  | Tick clock => Peer_update clock t p r
  end.

(** One side speaks; what the other side's application gets. *)
Definition exchange (x : Turn) (speaker listener : Peer) (r : Rng)
  : option (list SocketEvent * Peer * Peer * Rng) :=
  '(acts, speaker, r) ← speak (tn_speech x) (tn_time x) speaker r;
  '(acts', listener, r) ← receive_datagrams (tn_order x (sends acts)) (tn_arrival x) listener r;
  Some (emits acts', speaker, listener, r).

(** Events with the side that gets them. *)
Definition told (side : Side) (evs : list SocketEvent) : list (Side * SocketEvent) :=
  (fun ev => (side, ev)) <$> evs.
Definition take_turn (x : Turn) (alice bob : Peer) (r : Rng)
  : option (list (Side * SocketEvent) * Peer * Peer * Rng) :=
  match tn_side x with
  | Alice => '(evs, alice, bob, r) ← exchange x alice bob r; Some (told Bob evs, alice, bob, r)
  | Bob => '(evs, bob, alice, r) ← exchange x bob alice r; Some (told Alice evs, alice, bob, r)
  end.
(** The turns one after the other. *)
Fixpoint converse (turns : list Turn) (alice bob : Peer) (r : Rng)
  : option (list (Side * SocketEvent) * Peer * Peer * Rng) :=
  match turns with
  | [] => Some ([], alice, bob, r)
  | x :: turns =>
      '(evs, alice, bob, r) ← take_turn x alice bob r;
      '(rest, alice, bob, r) ← converse turns alice bob r;
      Some (evs ++ rest, alice, bob, r)
  end.

(** The specification: what is said by one side is heard by the other, at once and as it is, with
    the address under which the listener knows the speaker. *)
Definition heard_of (from : SocketAddr) (s : Speech) : list SocketEvent :=
  match s with
  | Say d ch data => [EvPacket (Packet_new from data d OrderNone ch)]
  | Tick _ => []
  end.
Definition turn_heard (alice bob : SocketAddr) (x : Turn) : list (Side * SocketEvent) :=
  match tn_side x with
  | Alice => told Bob (heard_of alice (tn_speech x))
  | Bob => told Alice (heard_of bob (tn_speech x))
  end.
Definition faithful (alice bob : SocketAddr) (turns : list Turn) : list (Side * SocketEvent) :=
  concat (turn_heard alice bob <$> turns).

(** The datagrams a turn may cost, the answers to its own included. *)
Definition turn_cost (x : Turn) : Z :=
  match tn_speech x with Say _ _ _ => 256 | Tick _ => 4 end.

Context {L : ByteOrderLaws X} `{!CrcLaws X, !ZlibLaws X, !Lz4Laws X} (lo hi : Z).

Definition turn_ok (cA cB : Config) (x : Turn) : Prop :=
  (forall l, tn_order x l ≡ₚ l) /\
  match tn_speech x with
  | Say d ch data => sayable lo match tn_side x with Alice => cA | Bob => cB end d ch data
  | Tick _ => True
  end.

(** Two connected peers with room for [n] more datagrams, those they owe each other counted. *)
Record linked (aA aB : SocketAddr) (cA cB : Config) (n : Z) (alice bob : Peer) : Prop := {
  lk_alice : online lo hi 0 aB cA (n + weights (queue alice) + weights (queue bob)) alice;
  lk_bob : online lo hi 0 aA cB (n + weights (queue alice) + weights (queue bob)) bob
}.

(** One turn, seen from the speaker. *)
Lemma exchange_faithful aS aL cS cL n m x speaker listener r :
  conversable lo hi cS -> conversable lo hi cL -> use_checksums cS = use_checksums cL ->
  (forall l, tn_order x l ≡ₚ l) ->
  match tn_speech x with Say d ch data => sayable lo cS d ch data | Tick _ => True end ->
  0 <= n -> m = n + turn_cost x + weights (queue speaker) + weights (queue listener) ->
  online lo hi 0 aL cS m speaker -> online lo hi 0 aS cL m listener ->
  exists speaker' listener' r',
    exchange x speaker listener r = Some (heard_of aS (tn_speech x), speaker', listener', r') /\
    online lo hi 0 aL cS (n + weights (queue speaker') + weights (queue listener')) speaker' /\
    online lo hi 0 aS cL (n + weights (queue speaker') + weights (queue listener')) listener'.
Proof.
  intros HcS HcL Hck Hord Hok Hn -> HS HL. unfold exchange.
  pose proof (pb_size _ _ _ (cv_path _ _ _ HcS)) as Hsz.
  pose proof (weights_length (queue speaker)). pose proof (weights_length (queue listener)).
  pose proof (zlen_nonneg (queue speaker)). pose proof (zlen_nonneg (queue listener)).
  pose proof (ol_attentive _ _ _ _ _ _ _ HS) as HaS.
  destruct (tn_speech x) as [d ch data|clock] eqn:Ex; unfold turn_cost in *; rewrite Ex in *; cbn [speak heard_of].
  - destruct (say lo hi 0 aL cS (n + weights (queue speaker) - zlen (queue speaker) + weights (queue listener) + 1)
      d ch data (p_remote_address speaker) (tn_time x) speaker r HcS Hok)
      as (dgs & sent & speaker' & -> & Eq & Hs & Hl & HF & HS' & _); [|lia|].
    { pose proof (max_parts_few lo cS d ch data Hok). eapply online_less; [|exact HS]. lia. }
    pose proof (max_parts_few lo cS d ch data Hok).
    cbn [mbind option_bind]. rewrite sends_all. pose proof (zlen_nonneg dgs).
    pose proof (online_cap lo hi 0 aL cS _ speaker HcS HS) as [_ Hcap].
    pose proof (sayable_fits lo hi 0 aL cS _ speaker d ch data HcS HS Hok) as [_ _ _ Hbu _].
    pose proof (budgets_ordered d speaker).
    destruct (hear_message lo hi 0 cL cS d aS (payload_budget speaker (whole_header d))
      (payload_budget speaker (fragment_header d)) data ch (message_sequence d speaker) (queue speaker)
      HcL ltac:(lia) Hck ltac:(lia) ltac:(lia) (at_queue _ _ _ _ _ HaS)
      (n + weights (queue speaker) - zlen (queue speaker) + weights (queue listener) + 1)
      dgs sent (tn_order x dgs) (tn_arrival x) listener r)
      as (listener' & -> & HL' & Hw & _); [eapply online_less; [|exact HL]; lia|lia|done|exact Hs|apply Hord|].
    exists speaker', listener', r. split; [done|]. rewrite Eq. change (weights []) with 0.
    pose proof (weights_length (queue listener')). pose proof (zlen_nonneg (queue listener')).
    split; [|by eapply online_less; [|exact HL']; lia].
    eapply online_less; [|exact HS']. lia.
  - destruct (tick lo hi 0 aL cS (n + weights (queue speaker) - zlen (queue speaker) + weights (queue listener) + 3)
      clock (tn_time x) speaker r HcS)
      as (dgs & sent & speaker' & r' & -> & Hpol & Hw & Hlen & Hl & HF & HS' & HwS & _); [|lia|].
    { apply online_opened. eapply online_less; [|exact HS]. lia. }
    cbn [mbind option_bind]. rewrite sends_all. pose proof (zlen_nonneg dgs).
    pose proof (weights_length (concat sent)).
    destruct (hear_control lo hi 0 cL cS Reliable aS 0 1 [] 0 0 (concat sent)
      HcL ltac:(lia) Hck ltac:(lia) ltac:(lia) Hpol
      (n + weights (queue speaker) + weights (queue listener) + 4 - zlen (concat sent))
      dgs sent (tn_order x dgs) (tn_arrival x) listener r')
      as (listener' & -> & HL' & HwL & _); [eapply online_less; [|exact HL]; lia|lia|done|done|apply Hord|].
    exists speaker', listener', r'. split; [done|].
    pose proof (weights_length (queue speaker')). pose proof (zlen_nonneg (queue speaker')).
    split; [eapply online_less; [|exact HS']; lia|eapply online_less; [|exact HL']; lia].
Qed.

(** C4: Conversations of unordered packets.  Two connected peers without unfinished fragments and
    without packets in flight that wait for an acknowledgment, whose
    configurations agree on checksums, keep the datagram size of the path between two bounds and
    have compressors that fail on nothing, talk over a network that loses nothing.  The turns are packets of either side and timer runs, which send
    heartbeats, path probes and whatever answers are due, in any number and order and at any
    times; the datagrams of a turn reach the other side in any order.  The packets are reliable or
    unreliable and have no ordering; each is within the limit of waiting data and needs, at the
    smallest datagram size of the path, at most 255 and at most [max_fragments] fragments, so that
    it goes whole or in fragments.  As long as the counters and the current bandwidth windows have
    room, every such packet is heard by the other side when it is said, once, with its bytes,
    channel and guarantee, and nothing else is heard; nothing panics, and the two peers can go
    on. *)
Theorem conversation_faithful aA aB cA cB n turns alice bob r
  (HcA : conversable lo hi cA) (HcB : conversable lo hi cB)
  (Hck : use_checksums cA = use_checksums cB) (Hok : Forall (turn_ok cA cB) turns)
  (Hn : 0 <= n) (Hl : linked aA aB cA cB (n + zsum turn_cost turns) alice bob) :
  exists alice' bob' r',
    converse turns alice bob r = Some (faithful aA aB turns, alice', bob', r') /\
    linked aA aB cA cB n alice' bob'.
Proof.
  revert alice bob r Hl. induction Hok as [|x turns [Hord Hx] Hturns IH]; intros alice bob r Hl.
  { exists alice, bob, r. split; [done|]. cbn in Hl. by rewrite Z.add_0_r in Hl. }
  rewrite zsum_cons in Hl. destruct Hl as [HA HB]. unfold faithful. rewrite fmap_cons. cbn [converse concat].
  assert (0 <= zsum turn_cost turns) as Hpos.
  { apply zsum_nonneg. intros y. unfold turn_cost. destruct (tn_speech y); lia. }
  unfold take_turn, turn_heard. destruct (tn_side x).
  - destruct (exchange_faithful aA aB cA cB (n + zsum turn_cost turns) _ x alice bob r HcA HcB Hck Hord Hx
      ltac:(lia) eq_refl) as (alice1 & bob1 & r1 & E & HA1 & HB1);
      [eapply online_less; [|exact HA]; lia|eapply online_less; [|exact HB]; lia|].
    rewrite E. cbn [mbind option_bind].
    destruct (IH alice1 bob1 r1) as (alice' & bob' & r' & E' & Hl'); [by split|].
    rewrite E'. by exists alice', bob', r'.
  - destruct (exchange_faithful aB aA cB cA (n + zsum turn_cost turns) _ x bob alice r HcB HcA (eq_sym Hck) Hord Hx
      ltac:(lia) eq_refl) as (bob1 & alice1 & r1 & E & HB1 & HA1);
      [eapply online_less; [|exact HB]; lia|eapply online_less; [|exact HA]; lia|].
    rewrite E. cbn [mbind option_bind].
    destruct (IH alice1 bob1 r1) as (alice' & bob' & r' & E' & Hl').
    { split; (eapply online_less; [|eassumption]); lia. }
    rewrite E'. by exists alice', bob', r'.
Qed.
End Converse.

(* ------------------------------------------------------------------ *)
(** ** A concrete conversation                                          *)
(* ------------------------------------------------------------------ *)

Import Sample.

Lemma default_conversable : conversable 576 1400 Config_default.
Proof. split; [split; vm_compute; repeat split; discriminate|by apply compresses_none]. Qed.

Lemma open_peer_online n : n <= 1300 -> online 576 1400 0 sample_addr Config_default n open_peer.
Proof.
  intros Hn. split; [|done|done| | |done|].
  - split; [exact open_peer_ready|done|done| | |constructor| |].
    + vm_compute. by eexists.
    + apply (path_new Config_default). apply default_conversable.
    + by vm_compute.
    + by vm_compute.
  - eapply (counters_less 1300); [lia|]. vm_compute. repeat split; discriminate.
  - eapply (stats_room_less 1300); [lia|lia|]. split; vm_compute; split; discriminate.
  - eapply windows_less; [exact Hn|]. split; apply spare_check; by vm_compute.
Qed.

Lemma long_data_sayable d : sayable 576 Config_default d 0 long_data.
Proof.
  split; [by vm_compute| |split; [by vm_compute|intros _; by vm_compute]| |].
  - apply Forall_forall. intros x Hx%list_elem_of_In%repeat_spec. by subst.
  - by destruct d; vm_compute.
  - by destruct d; vm_compute.
Qed.

(** Alice says something, both run their timers ten seconds later, which sends the
    acknowledgment, a probe and its answer, and Bob answers. *)
Definition small_talk : list Turn :=
  [mkTurn Alice (Say Reliable 0 long_data) 5 6 (fun l => rev l);
   mkTurn Bob (Tick 0) (from_secs 10) (from_secs 10) id;
   mkTurn Alice (Tick 0) (from_secs 10) (from_secs 11) id;
   mkTurn Bob (Tick 0) (from_secs 11) (from_secs 11) id;
   mkTurn Bob (Say Unreliable 0 long_data) (from_secs 12) (from_secs 13) (fun l => rev l)].

Lemma conversation_faithful_witness :
  exists alice bob r, converse small_talk open_peer open_peer sample_rng =
    Some ([(Bob, EvPacket (Packet_new sample_addr long_data Reliable OrderNone 0));
           (Alice, EvPacket (Packet_new sample_addr long_data Unreliable OrderNone 0))], alice, bob, r).
Proof.
  destruct (conversation_faithful 576 1400 sample_addr sample_addr Config_default Config_default 0
    small_talk open_peer open_peer sample_rng default_conversable default_conversable eq_refl)
    as (alice & bob & r & E & _).
  - repeat (apply Forall_cons_2); [..|constructor]; (split; [|first [apply long_data_sayable|exact I]]);
      intros l; cbn; first [by rewrite <-Permutation_rev|done].
  - lia.
  - split; apply open_peer_online; vm_compute; discriminate.
  - exists alice, bob, r. exact E.
Defined.
