(* ===== verification/Dialogue.v ===== *)
(** Two hosts that talk to each other for as long as they like, each polling when it wants to:
    what the applications hear, and why a silent connection with heartbeats is kept. *)

From S2P Require Import Prelude Core Externs Packet Command Codec Framing SequenceBuffer Ack.
From S2P Require Import PeerParts Peer PeerFacts Fragmenter FragmenterFacts PeerEncoder.
From S2P Require Import CommandProcessor Session PeerSession EncoderFacts ProcessorFacts.
From S2P Require Import Parcels.
From S2P Require Import Delivery Budget SessionManager Sockets Host ManagerFacts PollFacts.
From S2P Require Import HostFacts.
From S2P Require Import HostSystem HostDelivery Conversation.

(* ------------------------------------------------------------------ *)
(** ** Datagrams in flight                                              *)
(* ------------------------------------------------------------------ *)

(** A packet as the application means it, for whatever address. *)
Record Message : Type := mkMessage {
  ms_delivery : DeliveryGuarantee;
  ms_channel : Z;
  ms_data : list Z
}.
Definition packet_to (a : SocketAddr) (x : Message) : Packet :=
  Packet_new a (ms_data x) (ms_delivery x) OrderNone (ms_channel x).
(** What the other side's application gets, with the address it knows the sender by. *)
Definition events_of (a : SocketAddr) (xs : list Message) : list SocketEvent :=
  (fun x => EvPacket (packet_to a x)) <$> xs.

Section Flight.
Context {X : Externs} {L : ByteOrderLaws X} `{!CrcLaws X, !ZlibLaws X, !Lz4Laws X} (lo hi : Z).

Lemma receive_datagrams_app l k t : forall q r, receive_datagrams (l ++ k) t q r =
  (a ← receive_datagrams l t; b ← receive_datagrams k t; mret (a ++ b)) q r.
Proof.
  unfold mbind, PeerM_bind, mret, PeerM_ret. induction l as [|dg l IH]; intros q r; cbn [app receive_datagrams].
  - unfold mret, PeerM_ret. by destruct (receive_datagrams k t q r) as [[[b q1] r1]|].
  - unfold mbind, PeerM_bind, mret, PeerM_ret.
    destruct (Peer_process_packet dg t q r) as [[[a1 q1] r1]|]; [|done]. rewrite IH.
    destruct (receive_datagrams l t q1 r1) as [[[a2 q2] r2]|]; [|done].
    destruct (receive_datagrams k t q2 r2) as [[[a3 q3] r3]|]; [|done]. by rewrite app_assoc.
Qed.

Lemma rewound_none t q : rewound t 0 q q.
Proof. split; [done| |done]. intros n. by rewrite Z.add_0_r. Qed.
Lemma rewound_trans t j k q q1 q2 : 0 <= j -> rewound t j q q1 -> rewound t k q1 q2 -> rewound t (j + k) q q2.
Proof.
  intros Hj [R1 U1 A1] [R2 U2 A2]. split; [by etrans|intros n Hn; rewrite Z.add_assoc; auto|]. intros Hne.
  destruct (decide (window_start q2 = window_start q1)) as [E|E]; [apply U2, A1; congruence|].
  eapply used_less; [|by apply A2]. lia.
Qed.

(** What becomes of datagrams whenever they reach a peer with the configuration [c] that knows
    the sender as [a]: it hands on [evs], queues answers of weight [w] at most and [k] of them at
    least, and notes the time if they are a sign of life. *)
Definition in_flight (a : SocketAddr) (c : Config) (evs : list SocketEvent) (w k : Z) (sign : bool)
  (dgs : list (list Z)) : Prop :=
  forall e m t q r, 0 <= m -> online lo hi e a c (m + zlen dgs) q -> exists q',
    receive_datagrams dgs t q r = Some (Emit <$> evs, q', r) /\ online lo hi e a c m q' /\
    weights (queue q') <= weights (queue q) + w /\ zlen (queue q) + k <= zlen (queue q') /\
    rewound t (zlen dgs) q q' /\ p_last_heard q' = if sign then t else p_last_heard q.

Lemma in_flight_nil a c : in_flight a c [] 0 0 false [].
Proof.
  intros e m t q r Hm Hq. change (zlen []) with 0 in *. rewrite Z.add_0_r in Hq.
  exists q. do 4 (split; [done || lia|]). split; [apply rewound_none|done].
Qed.
Lemma in_flight_app a c evs1 w1 k1 b1 l1 evs2 w2 k2 b2 l2 :
  in_flight a c evs1 w1 k1 b1 l1 -> in_flight a c evs2 w2 k2 b2 l2 ->
  in_flight a c (evs1 ++ evs2) (w1 + w2) (k1 + k2) (b1 || b2) (l1 ++ l2).
Proof.
  intros H1 H2 e m t q r Hm Hq. rewrite zlen_app in *. pose proof (zlen_nonneg l2). pose proof (zlen_nonneg l1).
  destruct (H1 e (m + zlen l2) t q r) as (q1 & E1 & Ho1 & Hw1 & Hk1 & Hr1 & Ht1); [lia| |].
  { by replace (m + zlen l2 + zlen l1) with (m + (zlen l1 + zlen l2)) by lia. }
  destruct (H2 e m t q1 r Hm Ho1) as (q2 & E2 & Ho2 & Hw2 & Hk2 & Hr2 & Ht2).
  exists q2. rewrite receive_datagrams_app. erewrite bind_run by exact E1. erewrite bind_run by exact E2.
  rewrite fmap_app. split; [done|]. split; [done|]. split; [lia|]. split; [lia|].
  split; [by eapply rewound_trans|]. rewrite Ht2, Ht1. by destruct b1, b2.
Qed.

(** What a sender's datagrams must be for any receiver's buffer. *)
Definition brief (c : Config) (dgs : list (list Z)) : Prop :=
  Forall (fun dg => zlen dg <= receive_buffer_max_size c) dgs.
Lemma carries_brief c dgs sent : Forall2 (carries c (receive_buffer_max_size c)) dgs sent -> brief c dgs.
Proof. induction 1 as [|dg cs dgs sent [H _] _ IH]; by constructor. Qed.

(** The applications' packets, one after the other. *)
Fixpoint process_events (evs : list Packet) (t : Instant) : PeerM Actions :=
  match evs with
  | [] => mret []
  | ev :: evs =>
      a ← Peer_process_event ev t;
      b ← process_events evs t;
      mret (a ++ b)
  end.

(** What both sides of a link need, the speaker's configuration first. *)
Record compatible (cS cL : Config) : Prop := {
  cp_speaker : conversable lo hi cS;
  cp_listener : conversable lo hi cL;
  cp_checksums : use_checksums cS = use_checksums cL;
  cp_buffer : receive_buffer_max_size cS = receive_buffer_max_size cL
}.
Lemma compatible_sym cS cL : compatible cS cL -> compatible cL cS.
Proof. intros [H1 H2 H3 H4]. by split. Qed.

Definition sayable_message (c : Config) (x : Message) : Prop :=
  sayable lo c (ms_delivery x) (ms_channel x) (ms_data x).
(** The datagrams that a message may need, and one for the acknowledgment. *)
Definition message_parts_bound (c : Config) (x : Message) : Z :=
  max_parts lo c (ms_delivery x) (ms_data x) + 1.
Definition messages_bound (c : Config) (xs : list Message) : Z := zsum (message_parts_bound c) xs.
Lemma messages_bound_nonneg c xs : 0 <= messages_bound c xs.
Proof. apply zsum_nonneg. intros x. unfold message_parts_bound, max_parts. lia. Qed.

Lemma event_calm ev t p r acts p' r' : p_state p = Connected ->
  Peer_process_event ev t p r = Some (acts, p', r') -> calm p p'.
Proof.
  intros Hst H%process_event_state. replace p with (Peer_record_send p).2; [done|].
  unfold Peer_record_send. by rewrite Hst.
Qed.
Lemma online_connected e a c n p : online lo hi e a c n p -> p_state p = Connected.
Proof. intros Ho. apply (rd_state _ _ _ (at_ready _ _ _ _ _ (ol_attentive _ _ _ _ _ _ _ Ho))). Qed.
Lemma spends_none p : spends 0 p p.
Proof. split; [done|]. intros n. by rewrite Z.add_0_r. Qed.
Lemma spends_trans j k p p1 p2 : spends j p p1 -> spends k p1 p2 -> spends (j + k) p p2.
Proof. intros [E1 U1] [E2 U2]. split; [congruence|]. intros n Hn. rewrite Z.add_assoc. auto. Qed.

Section Speak.
Context (aS aL : SocketAddr) (cS cL : Config) (Hc : compatible cS cL) (e : Z).

(** One packet. *)
Lemma say_flight x m t p r : sayable_message cS x -> online lo hi e aL cS m p ->
  zlen (queue p) + message_parts_bound cS x <= m -> exists dgs p',
    Peer_process_event (packet_to aL x) t p r = Some (Send <$> dgs, p', r) /\
    in_flight aS cL (events_of aS [x]) (replies (queue p) + 1) (replies (queue p)) true dgs /\
    brief cS dgs /\ online lo hi e aL cS (m - zlen dgs) p' /\ calm p p' /\ queue p' = [] /\
    spends (zlen dgs) p p' /\ zlen dgs + 1 <= zlen (queue p) + message_parts_bound cS x.
Proof.
  intros Hok Ho Hm. destruct Hc as [HcS HcL Hck _]. unfold message_parts_bound in *.
  set (most := max_parts lo cS (ms_delivery x) (ms_data x)) in *.
  pose proof (pb_size _ _ _ (cv_path _ _ _ HcS)) as Hsz.
  destruct (say lo hi e aL cS (m - zlen (queue p) - most) (ms_delivery x) (ms_channel x) (ms_data x) aL t p r HcS Hok)
    as (dgs & sent & p' & E & Eq & Hs & Hl & HF & Ho' & Hsp); [|lia|].
  { by replace (m - zlen (queue p) - most + zlen (queue p) + _) with m by (unfold most; lia). }
  pose proof (sayable_fits lo hi e aL cS _ p _ _ _ HcS Ho Hok) as [_ _ _ Hbu _].
  pose proof (budgets_ordered (ms_delivery x) p). destruct (weights_replies (queue p)) as [Hwr _].
  fold most in Hl, Ho'. exists dgs, p'. split; [exact E|].
  split; [|split; [by eapply carries_brief|split; [|split; [|split; [done|split; [done|lia]]]]]].
  - intros e' k u q r0 Hk Hq.
    destruct (hear_message lo hi e' cL cS (ms_delivery x) aS (payload_budget p (whole_header (ms_delivery x)))
      (payload_budget p (fragment_header (ms_delivery x))) (ms_data x) (ms_channel x)
      (message_sequence (ms_delivery x) p) (queue p) HcL ltac:(lia) Hck ltac:(lia) ltac:(lia)
      (at_queue _ _ _ _ _ (ol_attentive _ _ _ _ _ _ _ Ho)) k dgs sent dgs u q r0 Hq Hk HF Hs ltac:(done))
      as (q' & E' & Ho2 & Hw & Hr & Hre & Ht).
    exists q'. split; [exact E'|]. split; [done|]. split; [lia|]. split; [done|]. done.
  - by replace (m - zlen dgs) with (m - zlen (queue p) - most + zlen (queue p) + most - zlen dgs) by lia.
  - by eapply event_calm; [eapply online_connected|exact E].
Qed.

(** Any number of packets. *)
Lemma say_all_flight xs t : forall m p r, Forall (sayable_message cS) xs -> online lo hi e aL cS m p ->
  zlen (queue p) + messages_bound cS xs <= m -> exists dgs p' k,
    process_events (packet_to aL <$> xs) t p r = Some (Send <$> dgs, p', r) /\
    in_flight aS cL (events_of aS xs) (k + zlen xs) k (negb (bool_decide (xs = []))) dgs /\
    brief cS dgs /\ 0 <= k /\ online lo hi e aL cS (m - zlen dgs) p' /\ calm p p' /\
    spends (zlen dgs) p p' /\ k + replies (queue p') = replies (queue p) /\
    zlen dgs + zlen xs + zlen (queue p') <= zlen (queue p) + messages_bound cS xs /\
    (xs = [] -> p' = p).
Proof.
  induction xs as [|x xs IH]; intros m p r Hxs Ho Hm.
  - exists [], p, 0. split; [done|]. split; [apply in_flight_nil|]. split; [constructor|]. split; [lia|].
    change (zlen []) with 0. change (messages_bound cS []) with 0. rewrite Z.sub_0_r.
    split; [done|]. split; [done|]. split; [apply spends_none|]. split; [lia|]. split; [lia|done].
  - apply Forall_cons in Hxs as [Hx Hxs]. unfold messages_bound in *. rewrite zsum_cons in *.
    pose proof (messages_bound_nonneg cS xs). unfold messages_bound in *.
    destruct (say_flight x m t p r Hx Ho ltac:(lia)) as (d1 & p1 & E1 & F1 & B1 & O1 & C1 & Q1 & S1 & L1).
    destruct (IH (m - zlen d1) p1 r Hxs O1) as (d2 & p2 & k2 & E2 & F2 & B2 & K2 & O2 & C2 & S2 & R2 & L2 & _);
      [rewrite Q1; change (zlen []) with 0; lia|].
    rewrite Q1 in R2, L2. change (zlen []) with 0 in L2. change (replies []) with 0 in R2.
    pose proof (replies_nonneg (queue p)). pose proof (replies_nonneg (queue p2)).
    exists (d1 ++ d2), p2, (replies (queue p) + k2). rewrite fmap_cons. cbn [process_events].
    erewrite bind_run by exact E1. erewrite bind_run by exact E2. rewrite fmap_app, zlen_app, zlen_cons.
    split; [done|]. split; [|split; [by apply Forall_app|split; [lia|split; [|split; [by etrans|]]]]].
    + rewrite bool_decide_eq_false_2 by done.
      replace (replies (queue p) + k2 + (1 + zlen xs)) with (replies (queue p) + 1 + (k2 + zlen xs)) by lia.
      apply (in_flight_app aS cL [_] _ _ true d1 _ _ _ _ d2 F1 F2).
    + by replace (m - (zlen d1 + zlen d2)) with (m - zlen d1 - zlen d2) by lia.
    + split; [by eapply spends_trans|]. split; [lia|]. split; [lia|done].
Qed.

(** The timer. *)
Lemma tick_flight clock t m p r : online lo hi e aL cS m (opened t p) -> zlen (queue p) + 1 <= m ->
  exists dgs p' r' k b,
  Peer_update clock t p r = Some (Send <$> dgs, p', r') /\
  in_flight aS cL [] k k b dgs /\ brief cS dgs /\ 0 <= k <= replies (queue p) + 2 /\
  online lo hi e aL cS (m - zlen dgs) p' /\ calm p p' /\ spends (zlen dgs) (opened t p) p' /\
  weights (queue p') <= 2 /\ zlen dgs <= zlen (queue p) + 1 /\
  (queue p <> [] -> b = true) /\ (ping_due t p = true -> 1 <= k).
Proof.
  intros Ho Hm. destruct Hc as [HcS HcL Hck _]. pose proof (pb_size _ _ _ (cv_path _ _ _ HcS)) as Hsz.
  destruct (tick lo hi e aL cS (m - zlen (queue p) - 1) clock t p r HcS)
    as (dgs & sent & p' & r' & E & Hpol & Hw & Hlen & Hl & HF & Ho' & Hwq & Hdue & Hsp); [|lia|].
  { by replace (m - zlen (queue p) - 1 + zlen (queue p) + 1) with m by lia. }
  destruct (weights_replies (concat sent)) as [Hwr _]. destruct (weights_replies (queue p)) as [Hwp _].
  exists dgs, p', r', (replies (concat sent)), (match concat sent with [] => false | _ => true end).
  split; [exact E|]. split; [|split; [by eapply carries_brief|]].
  - intros e' k u q r0 Hk Hq.
    destruct (hear_control lo hi e' cL cS Reliable aS 0 1 [] 0 0 (concat sent) HcL ltac:(lia) Hck ltac:(lia)
      ltac:(lia) Hpol k dgs sent dgs u q r0 Hq Hk HF eq_refl ltac:(done)) as (q' & E' & Ho2 & Hw2 & Hr & Hre & Ht).
    exists q'. split; [exact E'|]. split; [done|]. split; [lia|]. split; [lia|]. split; [done|].
    rewrite Ht. by destruct (concat sent).
  - split; [split; [apply replies_nonneg|lia]|]. split; [|split; [by eapply update_calm|split; [done|split; [done|split; [lia|split; [|exact Hdue]]]]]].
    + by replace (m - zlen dgs) with (m - zlen (queue p) - 1 + zlen (queue p) + 1 - zlen dgs) by lia.
    + intros Hne. destruct (concat sent); [|done]. destruct (queue p); [done|].
      rewrite zlen_cons in Hlen. change (zlen []) with 0 in Hlen. pose proof (zlen_nonneg l). lia.
Qed.
End Speak.
End Flight.

(* ------------------------------------------------------------------ *)
(** ** A poll of a host with one session                                *)
(* ------------------------------------------------------------------ *)

(** The network a socket is on: the datagrams that wait at the socket, those that departed from it,
    and the network's own step, which takes the departed ones and brings others. *)
Class Network (U : Type) `{!UdpSocket U} := {
  waiting : U -> list (list Z * SocketAddr);
  departed : U -> list (list Z * SocketAddr);
  bring : list (list Z * SocketAddr) -> U -> U;
  recv_nothing len u : waiting u = [] ->
    exists e u', recv_from len u = (Err e, u') /\ waiting u' = [] /\ departed u' = departed u;
  recv_first len u dg a rest : waiting u = (dg, a) :: rest -> zlen dg <= len ->
    exists buffer u', recv_from len u = (Ok (zlen dg, a, buffer), u') /\
      take (length dg) buffer = dg /\ waiting u' = rest /\ departed u' = departed u;
  send_departs dg a u : waiting (send_to dg a u).2 = waiting u /\
    departed (send_to dg a u).2 = departed u ++ [(dg, a)];
  bring_waiting l u : waiting (bring l u) = l;
  bring_departed l u : departed (bring l u) = []
}.

Section Sockets.
Context {U : Type} `{!UdpSocket U, !Network U}.
Implicit Types s : SocketWithConditioner U.

Lemma receive_waiting len s dg a rest : waiting (sc_socket s) = (dg, a) :: rest -> zlen dg <= len ->
  exists s', receive_packet len s = (Ok (dg, a), s') /\ waiting (sc_socket s') = rest /\
    departed (sc_socket s') = departed (sc_socket s) /\ is_blocking_mode s' = is_blocking_mode s.
Proof.
  intros Hw Hl. destruct (recv_first len _ dg a rest Hw Hl) as (buffer & u' & E & Hb & H1 & H2).
  exists (mkSocketWithConditioner (sc_is_blocking_mode s) u').
  change (receive_packet len s) with (SocketWithConditioner_receive_packet len s).
  unfold SocketWithConditioner_receive_packet. rewrite E. cbn. unfold zlen. by rewrite Nat2Z.id, Hb.
Qed.
Lemma receive_none len s : waiting (sc_socket s) = [] ->
  exists e s', receive_packet len s = (Err e, s') /\ waiting (sc_socket s') = [] /\
    departed (sc_socket s') = departed (sc_socket s) /\ is_blocking_mode s' = is_blocking_mode s.
Proof.
  intros Hw. destruct (recv_nothing len _ Hw) as (e & u' & E & H1 & H2).
  exists e, (mkSocketWithConditioner (sc_is_blocking_mode s) u').
  change (receive_packet len s) with (SocketWithConditioner_receive_packet len s).
  unfold SocketWithConditioner_receive_packet. by rewrite E.
Qed.

(** A socket hands over what waits, and is then empty. *)
Lemma waiting_handed len a dgs : forall s, waiting (sc_socket s) = ((., a) <$> dgs) ->
  Forall (fun dg => zlen dg <= len) dgs -> is_blocking_mode s = false ->
  hands_over len a dgs s /\
  (let s' := emptied len (length dgs) s in
   waiting (sc_socket s') = [] /\ departed (sc_socket s') = departed (sc_socket s) /\
   is_blocking_mode s' = false).
Proof.
  induction dgs as [|dg dgs IH]; intros s Hw Hl Hb; cbn [hands_over length emptied].
  - destruct (receive_none len s Hw) as (e & s' & E & H1 & H2 & H3). split; [by exists e, s'|].
    rewrite E. cbn [snd]. by rewrite H3.
  - apply Forall_cons in Hl as [Hdg Hl].
    destruct (receive_waiting len s dg a _ Hw Hdg) as (s' & E & H1 & H2 & H3). rewrite Hb in H3.
    destruct (IH s' H1 Hl H3) as (IH1 & IH2 & IH3 & IH4). rewrite E. cbn [snd].
    split; [by exists s'|]. split; [done|]. by rewrite IH3.
Qed.

Lemma sent_departed l : forall s, waiting (sc_socket (send_all s l)) = waiting (sc_socket s) /\
  departed (sc_socket (send_all s l)) = departed (sc_socket s) ++ ((fun x => (x.2, x.1)) <$> l) /\
  is_blocking_mode (send_all s l) = is_blocking_mode s.
Proof.
  induction l as [|[a dg] l IH]; intros s; [by rewrite app_nil_r|].
  change (send_all s ((a, dg) :: l)) with (send_all (send_packet a dg s).2 l).
  destruct (IH (send_packet a dg s).2) as (-> & -> & ->).
  change (send_packet a dg s) with (SocketWithConditioner_send_packet a dg s).
  unfold SocketWithConditioner_send_packet. pose proof (send_departs dg a (sc_socket s)) as [H1 H2].
  destruct (send_to dg a (sc_socket s)) as [res u]. cbn in *. rewrite H1, H2, <-app_assoc. done.
Qed.
End Sockets.

Section Poll.
Context {X : Externs} {U C I : Type} `{!UdpSocket U, !Clock C, !Interceptor I}.
Context (clock : Instant).
#[local] Instance the_session : Session Peer Packet SocketEvent := Peer_Session clock.
#[local] Abbreviation HostManager := (HostManager U I).
Implicit Types (m : HostManager) (a : SocketAddr) (p q : Peer) (t : Instant) (r : Rng).

(** The session takes the applications' packets. *)
Lemma user_events_run a t evs : forall m u r p acts p' r', sm_sessions m !! a = Some p ->
  p_state p = Connected -> Forall (fun ev => pk_addr ev = a) evs ->
  process_events evs t p r = Some (acts, p', r') ->
  foldM (handle_user_event t) (m, u, r) evs =
    Some (stepped a p' (mg_socket (sm_messenger m)) acts m, u, r').
Proof.
  induction evs as [|ev evs IH]; intros m u r p acts p' r' Hp Hst Ha Hrun.
  - injection Hrun as <- <- <-. cbn [foldM]. by rewrite stepped_nil.
  - apply Forall_cons in Ha as [Ha Hevs]. cbn [process_events] in Hrun.
    apply bind_inv in Hrun as (acts1 & p1 & r1 & E1 & Hrun).
    apply bind_inv in Hrun as (acts2 & p2 & r2 & E2 & Hrun). injection Hrun as <- <- <-.
    pose proof (event_calm ev t p r acts1 p1 r1 Hst E1) as Hc.
    assert (p_state p1 = Connected) as Hst1 by (rewrite (cm_state _ _ Hc); exact Hst).
    cbn [foldM]. unfold handle_user_event at 2. change (event_address ev) with (pk_addr ev).
    rewrite Ha, Hp. change (process_event ev t p r) with (Peer_process_event ev t p r). rewrite E1.
    cbn [mbind option_bind]. change (is_established p) with (Peer_is_established p).
    unfold Peer_is_established. rewrite Hst. cbn [PeerState_is_established negb andb mbind option_bind].
    rewrite with_actions_stepped.
    rewrite (IH _ u r1 p1 acts2 p2 r2); [|by cbn; rewrite lookup_insert_eq|done|done|done].
    by rewrite stepped_twice.
Qed.

Lemma single_key (order : list SocketAddr -> list SocketAddr) {B} a (x : B) : (forall l, order l ≡ₚ l) ->
  order (map_to_list ({[a := x]} : gmap SocketAddr B)).*1 = [a].
Proof. intros Ho. rewrite map_to_list_singleton. cbn. by apply Permutation_singleton_r. Qed.

(** A poll of a manager with one connected session: the session takes its datagrams, then the
    applications' packets, then its timer runs; it stays, and all that it asked for is done. *)
Lemma poll_single order fuel t m r a q dgs acts1 q1 r1 acts2 q2 r2 acts3 q3 r3 :
  (forall l, order l ≡ₚ l) -> (length dgs < fuel)%nat -> sm_sessions m = {[a := q]} ->
  p_state q = Connected -> transparent (mg_interceptor (sm_messenger m)) ->
  hands_over (sm_receive_buffer m) a dgs (mg_socket (sm_messenger m)) ->
  receive_datagrams dgs t q r = Some (acts1, q1, r1) -> p_state q1 = Connected ->
  Forall (fun ev => pk_addr ev = a) (sm_user_events m) ->
  process_events (sm_user_events m) t q1 r1 = Some (acts2, q2, r2) ->
  Peer_update clock t q2 r2 = Some (acts3, q3, r3) -> Peer_should_drop t q3 = (false, []) ->
  let m' := stepped a q3 (emptied (sm_receive_buffer m) (length dgs) (mg_socket (sm_messenger m)))
              (acts1 ++ acts2 ++ acts3) (set_user_events [] m) in
  SessionManager_manual_poll order fuel t m r =
    Some (set_messenger (Messenger_flush (sm_messenger m')) m', r3).
Proof.
  intros Ho Hn Hs Hst Hi Hd E1 Hst1 Hev E2 E3 Hkeep m'. unfold SessionManager_manual_poll.
  assert (sm_sessions m !! a = Some q) as Hq by by rewrite Hs, lookup_singleton_eq.
  assert (@pending _ _ _ _ (Peer_SessionLaws clock) q = false) as Hp.
  { destruct (pending q) eqn:Ep; [|done].
    apply (@pending_unestablished _ _ _ _ (Peer_SessionLaws clock)) in Ep. cbn in Ep.
    unfold Peer_is_established in Ep. by rewrite Hst in Ep. }
  pose proof (@receive_loop_feed _ _ _ _ _ (Peer_Session clock) _ _ (Peer_SessionLaws clock) a t dgs
    fuel m (unestablished_session_count m) r q acts1 q1 r1 Hn Hq Hp Hi Hd) as R1.
  rewrite feed_peer in R1. specialize (R1 E1).
  change (Peer_Session clock) with the_session in R1. rewrite R1. cbn [mbind option_bind].
  set (k := emptied _ _ _) in *. unfold user_event_loop.
  erewrite (user_events_run a t _ _ _ r1 q1);
    [|by cbn; rewrite lookup_insert_eq|done|exact Hev|exact E2].
  cbn [mbind option_bind]. set (m2 := stepped a q2 _ _ _).
  assert (sm_sessions m2 = {[a := q2]}) as Hs2.
  { unfold m2, stepped. cbn. by rewrite Hs, insert_insert_eq, insert_singleton_eq. }
  unfold update_loop. cbn [fst]. rewrite Hs2, (single_key order a q2 Ho). cbn [foldM].
  unfold update_session. rewrite Hs2, lookup_singleton_eq.
  change (update t q2 r2) with (Peer_update clock t q2 r2). rewrite E3. cbn [mbind option_bind].
  rewrite <-Hs2, with_actions_stepped.
  replace (stepped a q3 (mg_socket (sm_messenger m2)) acts3 m2) with m'.
  2: { unfold m2. change (set_user_events [] (stepped a q1 k acts1 m))
         with (stepped a q1 k acts1 (set_user_events [] m)).
       by rewrite !stepped_twice. }
  assert (sm_sessions m' = {[a := q3]}) as Hs3.
  { unfold m', stepped. cbn. by rewrite Hs, insert_singleton_eq. }
  unfold drop_loop. cbn [fst]. rewrite Hs3, (single_key order a q3 Ho). cbn [foldM].
  unfold check_drop. rewrite Hs3, lookup_singleton_eq.
  change (should_drop t q3 r3) with (Some (Peer_should_drop t q3, q3, r3)). rewrite Hkeep.
  cbn [mbind option_bind foldM]. rewrite <-Hs3, with_actions_stepped, stepped_nil; [done|].
  by rewrite Hs3, lookup_singleton_eq.
Qed.
End Poll.

(* ------------------------------------------------------------------ *)
(** ** Rounds                                                           *)
(* ------------------------------------------------------------------ *)

(** A round of one side: its application sends some packets, polls the host and receives all
    events.  [rn_clock] is the reading behind [Instant::elapsed] and [rn_order] the order in which
    the hash map is iterated. *)
Record Round : Type := mkRound {
  rn_side : Side;
  rn_messages : list Message;
  rn_time : Instant;
  rn_clock : Instant;
  rn_order : list SocketAddr -> list SocketAddr
}.

Section Rounds.
Context {X : Externs} {U C I : Type} `{!UdpSocket U, !Network U, !Clock C, !Interceptor I}.
#[local] Abbreviation Host := (Host U C I).
Implicit Types (h : Host) (a : SocketAddr).

Definition host_socket h : U := sc_socket (mg_socket (sm_messenger (h_handler h))).
Definition on_socket (f : U -> U) h : Host :=
  let mg := sm_messenger (h_handler h) in
  let s := mg_socket mg in
  set_handler (set_messenger (mkMessenger (mg_config mg)
    (mkSocketWithConditioner (sc_is_blocking_mode s) (f (sc_socket s))) (mg_sent_events mg)
    (mg_pending_sends mg) (mg_pending_events mg) (mg_interceptor mg) (mg_send_pool mg)) (h_handler h)) h.

(** [while let Some(event) = host.recv()]: the events, and the host without them. *)
Fixpoint recv_all (n : nat) h : list SocketEvent * Host :=
  match n with
  | O => ([], h)
  | S n =>
      match Host_recv h with
      | (Some ev, h) => let x := recv_all n h in (ev :: x.1, x.2)
      | (None, h) => ([], h)
      end
  end.
Definition recv_events h : list SocketEvent * Host := recv_all (length (Host_get_event_receiver h)) h.
Definition send_packets a (xs : list Message) h : Host :=
  foldl (fun h x => Host_send (packet_to a x) h) h xs.

(** One side's round: [from] is the other side as this one knows it, [mail] what has come in
    from there.  The datagrams that depart for the other side are the result's second part. *)
Definition host_round (x : Round) from (mail : list (list Z)) h (r : Rng)
  : option (list SocketEvent * list (list Z) * Host * Rng) :=
  let h := on_socket (bring ((., from) <$> mail)) h in
  let h := send_packets from (rn_messages x) h in
  '(h, r) ← Host_manual_poll (rn_clock x) (rn_order x) (S (length mail)) (rn_time x) h r;
  let y := recv_events h in
  Some (y.1, (filter (fun d => d.2 = from) (departed (host_socket y.2))).*1, y.2, r).

(** Two hosts, and the datagrams under way to each of them. *)
Record System : Type := mkSystem {
  sy_alice : Host;
  sy_bob : Host;
  sy_to_alice : list (list Z);
  sy_to_bob : list (list Z)
}.
Definition system_round (alice bob : SocketAddr) (x : Round) (sys : System) (r : Rng)
  : option (list (Side * SocketEvent) * System * Rng) :=
  match rn_side x with
  | Alice =>
      '(evs, out, h, r) ← host_round x bob (sy_to_alice sys) (sy_alice sys) r;
      Some (told Alice evs, mkSystem h (sy_bob sys) [] (sy_to_bob sys ++ out), r)
  | Bob =>
      '(evs, out, h, r) ← host_round x alice (sy_to_bob sys) (sy_bob sys) r;
      Some (told Bob evs, mkSystem (sy_alice sys) h (sy_to_alice sys ++ out) [], r)
  end.
Fixpoint run_rounds (alice bob : SocketAddr) (rounds : list Round) (sys : System) (r : Rng)
  : option (list (Side * SocketEvent) * System * Rng) :=
  match rounds with
  | [] => Some ([], sys, r)
  | x :: rounds =>
      '(evs, sys, r) ← system_round alice bob x sys r;
      '(rest, sys, r) ← run_rounds alice bob rounds sys r;
      Some (evs ++ rest, sys, r)
  end.

(** The specification: two letter boxes.  Who polls gets all that was put in for him, and puts in
    what he has to say. *)
Fixpoint correspondence (alice bob : SocketAddr) (rounds : list Round) (for_alice for_bob : list Message)
  : list (Side * SocketEvent) :=
  match rounds with
  | [] => []
  | x :: rounds =>
      match rn_side x with
      | Alice => told Alice (events_of bob for_alice)
                 ++ correspondence alice bob rounds [] (for_bob ++ rn_messages x)
      | Bob => told Bob (events_of alice for_bob)
               ++ correspondence alice bob rounds (for_alice ++ rn_messages x) []
      end
  end.

(** A host whose only session is that of the peer [p] at [a], with nothing left to do. *)
Record seated a (p : Peer) h : Prop := {
  st_sessions : sm_sessions (h_handler h) = {[a := p]};
  st_buffer : sm_receive_buffer (h_handler h) = receive_buffer_max_size (p_config p);
  st_user : sm_user_events (h_handler h) = [];
  st_sends : mg_pending_sends (sm_messenger (h_handler h)) = [];
  st_pending : mg_pending_events (sm_messenger (h_handler h)) = [];
  st_events : mg_sent_events (sm_messenger (h_handler h)) = [];
  st_transparent : transparent (mg_interceptor (sm_messenger (h_handler h)));
  st_mode : sc_is_blocking_mode (mg_socket (sm_messenger (h_handler h))) = false
}.

Lemma recv_all_run n : forall h, (length (Host_get_event_receiver h) <= n)%nat ->
  let y := recv_all n h in
  y.1 = Host_get_event_receiver h /\ Host_get_event_receiver y.2 = [] /\
  y.2 = set_handler (set_messenger (mkMessenger (mg_config (sm_messenger (h_handler h)))
    (mg_socket (sm_messenger (h_handler h))) [] (mg_pending_sends (sm_messenger (h_handler h)))
    (mg_pending_events (sm_messenger (h_handler h))) (mg_interceptor (sm_messenger (h_handler h)))
    (mg_send_pool (sm_messenger (h_handler h)))) (h_handler h)) h.
Proof.
  unfold Host_get_event_receiver, SessionManager_event_receiver.
  induction n as [|n IH]; intros h Hn; cbn [recv_all].
  - destruct (mg_sent_events _) eqn:E; [|cbn in Hn; lia]. split; [done|]. split; [done|].
    by destruct h as [[? ? ? [? ? ? ? ? ? ?] ? ? ?] ?]; cbn in E; subst.
  - unfold Host_recv. destruct (mg_sent_events (sm_messenger (h_handler h))) as [|ev evs] eqn:E.
    + split; [done|]. split; [done|]. by destruct h as [[? ? ? [? ? ? ? ? ? ?] ? ? ?] ?]; cbn in E; subst.
    + cbn [length] in Hn. cbv zeta. match goal with |- context [recv_all n ?h'] => destruct (IH h') as (-> & E2 & E3) end.
      { cbn. lia. }
      cbn [fst snd]. split; [done|]. split; [exact E2|]. rewrite E3. by destruct h.
Qed.

Lemma send_packets_run a xs : forall h, send_packets a xs h =
  set_handler (set_user_events (sm_user_events (h_handler h) ++ (packet_to a <$> xs)) (h_handler h)) h.
Proof.
  unfold send_packets. induction xs as [|x xs IH]; intros h; cbn [foldl fmap list_fmap].
  - rewrite app_nil_r. by destruct h as [[] ?].
  - rewrite IH. unfold Host_send. cbn. by rewrite <-app_assoc.
Qed.

Lemma to_itself a dgs :
  (filter (fun d => d.2 = a) ((fun x => (x.2, x.1)) <$> ((a,.) <$> dgs : list (SocketAddr * list Z)))).*1 = dgs.
Proof.
  induction dgs as [|dg dgs IH]; [done|]. rewrite !fmap_cons, filter_cons_True by done.
  rewrite fmap_cons. by f_equal.
Qed.

(** A round, from what the peer does in it. *)
Lemma host_round_run x from mail h p r evs p1 r1 dgs2 p2 r2 dgs3 p3 r3 :
  (forall l, rn_order x l ≡ₚ l) -> seated from p h -> p_state p = Connected ->
  Forall (fun dg => zlen dg <= receive_buffer_max_size (p_config p)) mail ->
  receive_datagrams mail (rn_time x) p r = Some (Emit <$> evs, p1, r1) -> p_state p1 = Connected ->
  process_events (packet_to from <$> rn_messages x) (rn_time x) p1 r1 = Some (Send <$> dgs2, p2, r2) ->
  Peer_update (rn_clock x) (rn_time x) p2 r2 = Some (Send <$> dgs3, p3, r3) ->
  Peer_should_drop (rn_time x) p3 = (false, []) -> p_config p3 = p_config p ->
  exists h', host_round x from mail h r = Some (evs, dgs2 ++ dgs3, h', r3) /\ seated from p3 h'.
Proof.
  intros Ho [S1 S2 S3 S4 S5 S6 S7 S8] Hst Hm E1 Hst1 E2 E3 Hkeep Hconf. unfold host_round.
  rewrite send_packets_run. set (h0 := on_socket _ h).
  assert (sm_user_events (h_handler h0) = []) as -> by exact S3. cbn [app].
  set (k := mg_socket (sm_messenger (h_handler h0))).
  assert (waiting (sc_socket k) = ((., from) <$> mail)) as Hw by apply bring_waiting.
  assert (departed (sc_socket k) = []) as Hdep by apply bring_departed.
  destruct (waiting_handed (sm_receive_buffer (h_handler h0)) from mail k Hw) as (Hd & Hw' & Hdep' & Hb');
    [by change (sm_receive_buffer (h_handler h0)) with (sm_receive_buffer (h_handler h)); rewrite S2|exact S8|].
  rewrite Hdep in Hdep'.
  set (h1 := set_handler (set_user_events _ _) h0). unfold Host_manual_poll.
  pose proof (poll_single (rn_clock x) (rn_order x) (S (length mail)) (rn_time x) (h_handler h1) r from p mail
    (Emit <$> evs) p1 r1 (Send <$> dgs2) p2 r2 (Send <$> dgs3) p3 r3 Ho ltac:(lia) S1 Hst S7 Hd E1 Hst1) as R.
  cbv zeta in R. unfold host_session, the_session in *. rewrite R; clear R; [|by apply Forall_fmap, Forall_forall|exact E2|done|done].
  cbn [mbind option_bind]. set (m' := stepped _ _ _ _ _).
  pose proof (flush_run (sm_messenger m')) as Hf. cbv zeta in Hf.
  assert (mg_interceptor (sm_messenger m') = mg_interceptor (sm_messenger (h_handler h))) as Hint by done.
  rewrite Hint, intercepted_all in Hf by exact S7. destruct Hf as (F1 & F2 & F3 & F4 & F5 & F6 & _).
  set (h2 := set_handler _ _).
  destruct (recv_all_run (length (Host_get_event_receiver h2)) h2) as (Y1 & Y2 & Y3); [done|].
  assert (mg_pending_events (sm_messenger m') = evs) as Epe.
  { unfold m', stepped. cbn. change (mg_pending_events _) with (mg_pending_events (sm_messenger (h_handler h))).
    by rewrite S5, !emits_app, emits_all, !emits_sends, !app_nil_r. }
  assert (mg_pending_sends (sm_messenger m') = (from,.) <$> (dgs2 ++ dgs3)) as Eps.
  { unfold m', stepped. cbn. change (mg_pending_sends _) with (mg_pending_sends (sm_messenger (h_handler h))).
    by rewrite S4, !sends_app, sends_emits, !sends_all. }
  assert (mg_sent_events (sm_messenger m') = []) as Ese by exact S6.
  rewrite Epe, Ese in F3. rewrite Eps in F1.
  assert (Host_get_event_receiver h2 = evs) as Eev by exact F3.
  assert (host_socket (recv_events h2).2 = sc_socket (mg_socket (Messenger_flush (sm_messenger m')))) as Esock.
  { unfold recv_events. by rewrite Y3. }
  change (mg_socket (sm_messenger m')) with (emptied (sm_receive_buffer (h_handler h)) (length mail) k) in F1.
  change (sm_receive_buffer (h_handler h0)) with (sm_receive_buffer (h_handler h)) in *.
  destruct (sent_departed ((from,.) <$> (dgs2 ++ dgs3)) (emptied (sm_receive_buffer (h_handler h)) (length mail) k))
    as (D1 & D2 & D3). rewrite <-F1 in D1, D2, D3. rewrite Hdep' in D2. rewrite Hb' in D3.
  exists (recv_events h2).2. split.
  - unfold recv_events at 1. rewrite Y1, Eev, Esock, D2. cbn [app]. by rewrite to_itself.
  - assert (sm_sessions m' = {[from := p3]}) as Hs'.
    { unfold m', stepped. cbn. change (sm_sessions (h_handler h)) with (sm_sessions (h_handler h)).
      by rewrite S1, insert_singleton_eq. }
    unfold recv_events. rewrite Y3. split; cbn; [exact Hs'|by rewrite Hconf|done|exact F4|exact F5|done| |exact D3].
    change (transparent (mg_interceptor (Messenger_flush (sm_messenger m')))). rewrite F2. exact S7.
Qed.
End Rounds.

(* ------------------------------------------------------------------ *)
(** ** Seats                                                            *)
(* ------------------------------------------------------------------ *)

Section Seats.
Context {X : Externs} {L : ByteOrderLaws X} `{!CrcLaws X, !ZlibLaws X, !Lz4Laws X}.
Context {U C I : Type} `{!UdpSocket U, !Network U, !Clock C, !Interceptor I} (lo hi : Z).
#[local] Abbreviation Host := (Host U C I).
#[local] Abbreviation online := (online lo hi).
#[local] Abbreviation in_flight := (in_flight lo hi).

Lemma receive_datagrams_lives dgs t : moves lives (receive_datagrams dgs t).
Proof.
  induction dgs as [|dg dgs IH]; cbn [receive_datagrams]; [by apply (moves_ret lives)|].
  apply (moves_bind lives); [apply process_packet_lives|]. intros x.
  apply (moves_bind lives); [done|]. intros y. apply (moves_ret lives).
Qed.

(** One side of a link: its host and peer, the datagrams its current window has seen, the datagrams
    that are under way to it with the messages they carry, and the bounds on what they will do to
    the peer. *)
Record Seat : Type := mkSeat {
  se_host : Host;
  se_peer : Peer;
  se_used : Z;
  se_mail : list (list Z);
  se_messages : list Message;
  se_weight : Z;
  se_replies : Z;
  se_sign : bool
}.

Record seat_ok (from : SocketAddr) (c : Config) (n : Z) (s : Seat) : Prop := {
  so_seated : seated from (se_peer s) (se_host s);
  so_online : online n from c 0 (se_peer s);
  so_used : 0 <= se_used s /\ used (se_used s) (se_peer s);
  so_flight : in_flight from c (events_of from (se_messages s)) (se_weight s) (se_replies s)
                (se_sign s) (se_mail s);
  so_brief : brief c (se_mail s);
  so_weight : 0 <= se_replies s <= se_weight s /\ se_weight s <= se_replies s + zlen (se_messages s)
}.
(** The datagrams that are yet to come of what is queued and under way, counted twice where they
    have to leave before they arrive. *)
Definition charge (s : Seat) : Z :=
  2 * weights (queue (se_peer s)) + 2 * se_weight s + zlen (se_mail s).
Definition round_cost (c : Config) (x : Round) : Z := 2 * messages_bound lo c (rn_messages x) + 10.

(** When the peer of a seat that polls at [t] will last have heard from the other side. *)
Definition heard_at (t : Instant) (s : Seat) : Instant :=
  if se_sign s then t else p_last_heard (se_peer s).
(** The seat is not dropped at [t]. *)
Definition kept_at (c : Config) (t : Instant) (s : Seat) : Prop :=
  0 <= max_packets_in_flight c /\ duration_since t (heard_at t s) < idle_connection_timeout c.
(** The bandwidth limits let the seat have its round. *)
Definition affordable (c : Config) (x : Round) (s : Seat) : Prop :=
  allowed c (se_used s + charge s + round_cost c x).

Definition polled (h : Host) (p : Peer) (u : Z) : Seat := mkSeat h p u [] [] 0 0 false.
Definition posted (s : Seat) (out : list (list Z)) (xs : list Message) (w k : Z) (b : bool) : Seat :=
  mkSeat (se_host s) (se_peer s) (se_used s) (se_mail s ++ out) (se_messages s ++ xs) (se_weight s + w)
    (se_replies s + k) (se_sign s || b).

Lemma charge_nonneg from c n s : seat_ok from c n s -> 0 <= charge s.
Proof.
  intros [_ _ _ _ _ H]. unfold charge. pose proof (weights_length (queue (se_peer s))).
  pose proof (zlen_nonneg (queue (se_peer s))). pose proof (zlen_nonneg (se_mail s)). lia.
Qed.
Lemma round_cost_nonneg c x : 0 <= round_cost c x.
Proof. unfold round_cost. pose proof (messages_bound_nonneg lo c (rn_messages x)). lia. Qed.
Lemma seat_less from c n m s : 0 <= m -> m <= n -> seat_ok from c n s -> seat_ok from c m s.
Proof.
  intros H0 Hm [H1 H2 H3 H4 H5 H6]. split; try done. eapply (online_trade lo hi n m _ _ 0 0); [exact H0|done|lia|exact H2].
Qed.
Lemma seat_posted from c n s out xs w k b : seat_ok from c n s ->
  in_flight from c (events_of from xs) w k b out -> brief c out -> 0 <= k <= w -> w <= k + zlen xs ->
  seat_ok from c n (posted s out xs w k b).
Proof.
  intros [H1 H2 H3 H4 H5 H6] Hf Hb Hw Hk.
  split; cbn; [done|done|done| |by apply Forall_app|rewrite zlen_app; lia].
  unfold events_of. rewrite fmap_app. by apply in_flight_app.
Qed.

Lemma not_dropped c e t a n p : online e a c n p -> 0 <= max_packets_in_flight c ->
  duration_since t (p_last_heard p) < idle_connection_timeout c -> Peer_should_drop t p = (false, []).
Proof.
  intros Ho Hmax Ht. pose proof (ol_attentive _ _ _ _ _ _ _ Ho) as Ha. unfold Peer_should_drop.
  rewrite (online_connected _ _ _ _ _ _ _ Ho).
  rewrite bool_decide_eq_false_2 by discriminate.
  rewrite (at_config _ _ _ _ _ Ha). unfold Peer_packets_in_flight, Peer_last_heard, AcknowledgmentHandler_packets_in_flight.
  rewrite (at_unsent _ _ _ _ _ Ha), map_size_empty.
  change (as_u16 (Z.of_nat 0)) with 0. destruct (Z.ltb_spec (max_packets_in_flight c) 0); [lia|].
  destruct (Z.leb_spec (idle_connection_timeout c) (duration_since t (p_last_heard p))); [lia|]. done.
Qed.

(** The first part of a round: what is under way to the seat comes in. *)
Lemma seat_hears from c n m s t r : seat_ok from c n s -> zlen (se_mail s) <= m <= n ->
  allowed c (se_used s + m) -> exists p1,
    receive_datagrams (se_mail s) t (se_peer s) r = Some (Emit <$> events_of from (se_messages s), p1, r) /\
    online (n - m) from c (m - zlen (se_mail s)) p1 /\
    weights (queue p1) <= weights (queue (se_peer s)) + se_weight s /\
    zlen (queue (se_peer s)) + se_replies s <= zlen (queue p1) /\
    rewound t (zlen (se_mail s)) (se_peer s) p1 /\ p_last_heard p1 = heard_at t s.
Proof.
  intros [_ Ho [Hu Hus] Hf _ _] Hm Hal.
  apply (Hf (n - m) (m - zlen (se_mail s)) t (se_peer s) r); [lia|].
  eapply online_renewed; [| | |exact Ho]; [lia|lia|].
  eapply used_windows; [exact Hus|apply (ol_limits _ _ _ _ _ _ _ Ho)|].
  by replace (se_used s + (m - zlen (se_mail s) + zlen (se_mail s))) with (se_used s + m) by lia.
Qed.

(** The second part: the application's packets and the timer. *)
Lemma round_speaks from to c cL x e m p r : compatible lo hi c cL ->
  Forall (sayable_message lo c) (rn_messages x) -> online e from c m p ->
  zlen (queue p) + messages_bound lo c (rn_messages x) + 1 <= m ->
  exists d2 p2 d3 p3 r3 k b, let out := d2 ++ d3 in
    process_events (packet_to from <$> rn_messages x) (rn_time x) p r = Some (Send <$> d2, p2, r) /\
    Peer_update (rn_clock x) (rn_time x) p2 r = Some (Send <$> d3, p3, r3) /\
    in_flight to cL (events_of to (rn_messages x)) (k + zlen (rn_messages x)) k b out /\ brief c out /\
    0 <= k <= replies (queue p) + 2 /\ online e from c (m - zlen out) p3 /\ calm p p3 /\
    weights (queue p3) <= 2 /\ zlen out <= zlen (queue p) + messages_bound lo c (rn_messages x) + 1 /\
    k + zlen (rn_messages x) + zlen out <= weights (queue p) + messages_bound lo c (rn_messages x) + 3 /\
    (rn_messages x <> [] \/ queue p <> [] -> b = true) /\ (ping_due (rn_time x) p = true -> 1 <= k) /\
    window_start p3 = (if window_over (rn_time x) p then rn_time x else window_start p) /\
    (forall u, used u p -> used ((if window_over (rn_time x) p then 0 else u) + zlen out) p3).
Proof.
  intros Hcc Hsay Ho Hm. set (t := rn_time x) in *.
  destruct (say_all_flight lo hi to from c cL Hcc e (rn_messages x) t m p r Hsay Ho)
    as (d2 & p2 & k2 & E2 & F2 & B2 & K2 & O2 & C2 & [S2 U2] & R2 & L2 & N2); [lia|].
  pose proof (zlen_nonneg (rn_messages x)). pose proof (zlen_nonneg d2).
  assert (window_over t p2 = window_over t p) as Eov by (unfold window_over; by rewrite S2).
  destruct (tick_flight lo hi to from c cL Hcc e (rn_clock x) t (m - zlen d2) p2 r (online_opened _ _ _ _ _ _ _ _ O2))
    as (d3 & p3 & r3 & k3 & b3 & E3 & F3 & B3 & K3 & O3 & C3 & [S3 U3] & W3 & L3 & Q3 & D3); [lia|].
  destruct (weights_replies (queue p)) as [Hwr _]. pose proof (replies_nonneg (queue p2)).
  exists d2, p2, d3, p3, r3, (k2 + k3), (negb (bool_decide (rn_messages x = [])) || b3). cbv zeta.
  rewrite zlen_app. pose proof (zlen_nonneg (queue p2)). split; [done|]. split; [done|]. split; [|split; [by apply Forall_app|]].
  { pose proof (in_flight_app lo hi to cL _ _ _ _ _ _ _ _ _ _ F2 F3) as F. rewrite app_nil_r in F.
    by replace (k2 + k3 + zlen (rn_messages x)) with (k2 + zlen (rn_messages x) + k3) by lia. }
  split; [lia|]. split; [by rewrite Z.sub_add_distr|]. split; [by etrans|]. split; [done|].
  split; [lia|]. split; [lia|]. split; [|split; [|split]].
  - intros Hor. destruct (decide (rn_messages x = [])) as [Hnil|Hne]; [|by rewrite bool_decide_eq_false_2].
    destruct Hor as [Hor|Hor]; [done|]. rewrite Q3; [by destruct (bool_decide _)|]. by rewrite (N2 Hnil).
  - intros Hdue. enough (1 <= k3) by lia. apply D3. revert Hdue. unfold ping_due.
    rewrite (at_config _ _ _ _ _ (ol_attentive _ _ _ _ _ _ _ O2)), (at_config _ _ _ _ _ (ol_attentive _ _ _ _ _ _ _ Ho)).
    unfold Peer_last_sent, Peer_last_heard. by rewrite (cm_sent _ _ C2), (cm_heard _ _ C2).
  - by rewrite S3, opened_start, Eov, S2.
  - intros u Hu. eapply used_less; [|apply U3, opened_used, U2, Hu]. rewrite Eov. destruct (window_over t p); lia.
Qed.

(** A round of a seat: all that is under way to it is heard; what departs will be heard by the other
    side as the messages of the round. *)
Record departs (from to : SocketAddr) (c cL : Config) (x : Round) (s : Seat) (n : Z) (h' : Host)
  (p' : Peer) (out : list (list Z)) (w k : Z) (b : bool) : Prop := {
  dp_seat : seat_ok from c (n - zlen (se_mail s) - zlen out)
    (polled h' p' ((if window_over (rn_time x) (se_peer s) then 0 else se_used s) + charge s + round_cost c x));
  dp_flight : in_flight to cL (events_of to (rn_messages x)) w k b out;
  dp_brief : brief c out;
  dp_weight : 0 <= k <= w /\ w <= k + zlen (rn_messages x);
  dp_charge : 2 * weights (queue p') + 2 * w + 2 * zlen out
              <= 2 * weights (queue (se_peer s)) + 2 * se_weight s + round_cost c x;
  dp_queue : weights (queue p') <= 2;
  dp_answers : w <= weights (queue (se_peer s)) + zlen (se_messages s) + zlen (rn_messages x) + 2;
  dp_start : window_start p' = if window_over (rn_time x) (se_peer s) then rn_time x else window_start (se_peer s);
  dp_heard : p_last_heard p' = heard_at (rn_time x) s;
  dp_sent : p_last_sent p' = p_last_sent (se_peer s);
  dp_sign : rn_messages x <> [] \/ 0 < se_replies s -> b = true;
  dp_ping l : heartbeat_interval c = Some l ->
    l <= duration_since (rn_time x) (heard_at (rn_time x) s) ->
    l <= duration_since (rn_time x) (p_last_sent (se_peer s)) -> 1 <= k
}.

(** The window after the round: it began anew if it was over, and has seen no more than the round
    costs since. *)
Lemma round_window t mail out u p p1 p3 : 0 <= mail -> 0 <= out -> rewound t mail p p1 -> used u p ->
  window_start p3 = (if window_over t p1 then t else window_start p1) ->
  (forall n, used n p1 -> used ((if window_over t p1 then 0 else n) + out) p3) ->
  window_start p3 = (if window_over t p then t else window_start p) /\
  used ((if window_over t p then 0 else u) + mail + out) p3.
Proof.
  intros Hm Ho [R1 R2 R3] Hu Hst Hus. destruct (decide (window_start p1 = window_start p)) as [E|E].
  - assert (window_over t p1 = window_over t p) as Eo by (unfold window_over; by rewrite E).
    rewrite Eo in *. rewrite E in Hst. split; [exact Hst|]. eapply used_less; [|apply Hus, R2, Hu].
    destruct (window_over t p); lia.
  - destruct R1 as [R1|[R1 Et]]; [done|]. assert (window_over t p1 = false) as Eo.
    { unfold window_over. rewrite Et. unfold duration_since, saturating_sub. rewrite Z.sub_diag. by vm_compute. }
    rewrite Eo in *. rewrite R1. split; [congruence|]. eapply used_less; [|apply Hus, R3, E]. lia.
Qed.

Lemma seat_round from to c cL x s n r : compatible lo hi c cL -> (forall l, rn_order x l ≡ₚ l) ->
  Forall (sayable_message lo c) (rn_messages x) -> seat_ok from c n s ->
  charge s + round_cost c x <= n -> affordable c x s -> kept_at c (rn_time x) s ->
  exists out h' r' p' w k b,
    host_round x from (se_mail s) (se_host s) r = Some (events_of from (se_messages s), out, h', r') /\
    departs from to c cL x s n h' p' out w k b.
Proof.
  intros Hcc Hord Hsay Hs Hn Hal [Hmax Hkeep]. pose proof Hs as [Hseat Hon [Hu Hus] Hfl Hbr [Hre Hex]].
  pose proof (zlen_nonneg (se_mail s)). pose proof (messages_bound_nonneg lo c (rn_messages x)).
  destruct (weights_replies (queue (se_peer s))) as [Wq Rq]. pose proof (replies_nonneg (queue (se_peer s))).
  pose proof (zlen_nonneg (queue (se_peer s))). unfold affordable, charge, round_cost in *.
  destruct (seat_hears from c n (charge s + round_cost c x) s (rn_time x) r Hs) as (p1 & E1 & O1 & W1 & K1 & R1 & T1).
  { unfold charge, round_cost. lia. }
  { by rewrite Z.add_assoc. }
  unfold charge, round_cost in O1. destruct (weights_replies (queue p1)) as [Wp _].
  pose proof (replies_nonneg (queue p1)).
  destruct (round_speaks from to c cL x _ _ p1 r Hcc Hsay O1)
    as (d2 & p2 & d3 & p3 & r3 & k & b & E2 & E3 & F & B & K & O3 & C3 & W3 & L3 & A3 & Q3 & D3 & S3 & U3); [lia|].
  pose proof (zlen_nonneg (d2 ++ d3)). set (out := d2 ++ d3) in *.
  destruct (round_window (rn_time x) (zlen (se_mail s)) (zlen out) (se_used s) (se_peer s) p1 p3
    ltac:(lia) ltac:(lia) R1 Hus S3 U3) as [St Ut].
  assert (p_last_heard p3 = heard_at (rn_time x) s) as Hh by (rewrite (cm_heard _ _ C3); exact T1).
  assert (p_last_sent p3 = p_last_sent (se_peer s)) as Hsent.
  { rewrite (cm_sent _ _ C3). apply (receive_datagrams_lives _ _ _ _ _ _ _ E1). }
  pose proof (at_config _ _ _ _ _ (ol_attentive _ _ _ _ _ _ _ Hon)) as Hconf.
  pose proof (at_config _ _ _ _ _ (ol_attentive _ _ _ _ _ _ _ O1)) as Hconf1.
  pose proof (at_config _ _ _ _ _ (ol_attentive _ _ _ _ _ _ _ O3)) as Hconf3.
  destruct (host_round_run x from (se_mail s) (se_host s) (se_peer s) r _ p1 r d2 p2 r d3 p3 r3 Hord Hseat
    (online_connected _ _ _ _ _ _ _ Hon) ltac:(by rewrite Hconf) E1 (online_connected _ _ _ _ _ _ _ O1) E2 E3)
    as (h' & E & Hseat'); [eapply not_dropped; [exact O3|done|by rewrite Hh]|congruence|].
  exists out, h', r3, p3, (k + zlen (rn_messages x)), k, b. split; [exact E|].
  pose proof (zlen_nonneg (rn_messages x)).
  split; unfold charge, round_cost; try done; try lia.
  - split; cbn [polled se_host se_peer se_used se_mail se_messages se_weight se_replies se_sign];
      [done| | |apply in_flight_nil|constructor|change (zlen []) with 0; lia].
    + eapply online_trade; [| | |exact O3]; lia.
    + split; [destruct (window_over (rn_time x) (se_peer s)); lia|]. eapply used_less; [|exact Ut]. lia.
  - intros Hor. apply Q3. destruct Hor as [Hor|Hor]; [by left|right].
    intros Hq. rewrite Hq in K1. change (zlen []) with 0 in K1. lia.
  - intros l Hl Hd1 Hd2. apply D3. unfold ping_due. rewrite Hconf1, Hl. unfold Peer_last_sent, Peer_last_heard.
    rewrite <-(cm_sent _ _ C3), <-(cm_heard _ _ C3), Hh, Hsent.
    apply andb_true_intro. split; by apply Z.leb_le.
Qed.

(* ------------------------------------------------------------------ *)
(** ** Links                                                            *)
(* ------------------------------------------------------------------ *)

(** Two seats whose counters have room for [n] more datagrams besides those that are still to come. *)
Record in_touch (alice bob : SocketAddr) (cA cB : Config) (n : Z) (sA sB : Seat) : Prop := {
  it_alice : seat_ok bob cA (n + charge sA + charge sB) sA;
  it_bob : seat_ok alice cB (n + charge sA + charge sB) sB
}.
Definition system_of (sA sB : Seat) : System :=
  mkSystem (se_host sA) (se_host sB) (se_mail sA) (se_mail sB).

(** What a round of the seat [s] does to it and to the other one, [o]. *)
Record turned (c : Config) (x : Round) (s o s' o' : Seat) : Prop := {
  tu_clear : se_messages s' = [] /\ se_mail s' = [] /\ se_replies s' = 0 /\ se_sign s' = false /\ se_weight s' = 0;
  tu_messages : se_messages o' = se_messages o ++ rn_messages x;
  tu_heard : p_last_heard (se_peer s') = heard_at (rn_time x) s;
  tu_sent : p_last_sent (se_peer s') = p_last_sent (se_peer s);
  tu_other : se_peer o' = se_peer o /\ se_used o' = se_used o;
  tu_sign : se_sign o = true \/ rn_messages x <> [] \/ 0 < se_replies s -> se_sign o' = true;
  tu_replies : 0 <= se_replies o <= se_replies o';
  tu_ping l : heartbeat_interval c = Some l ->
    l <= duration_since (rn_time x) (p_last_heard (se_peer s')) ->
    l <= duration_since (rn_time x) (p_last_sent (se_peer s')) -> 1 <= se_replies o';
  tu_used : se_used s' = (if window_over (rn_time x) (se_peer s) then 0 else se_used s) + charge s + round_cost c x;
  tu_start : window_start (se_peer s') =
    if window_over (rn_time x) (se_peer s) then rn_time x else window_start (se_peer s);
  tu_queue : weights (queue (se_peer s')) <= 2;
  tu_weight : se_weight o' <= se_weight o + weights (queue (se_peer s)) + zlen (se_messages s)
                + zlen (rn_messages x) + 2;
  tu_mail : 2 * zlen (se_mail o') <= 2 * zlen (se_mail o) + 2 * weights (queue (se_peer s)) + 2 * se_weight s
              + round_cost c x
}.

Lemma link_round from to c cO x n s o r : compatible lo hi c cO -> (forall l, rn_order x l ≡ₚ l) ->
  Forall (sayable_message lo c) (rn_messages x) -> 0 <= n -> kept_at c (rn_time x) s -> affordable c x s ->
  seat_ok from c (n + round_cost c x + charge s + charge o) s ->
  seat_ok to cO (n + round_cost c x + charge s + charge o) o ->
  exists out s' o' r',
    host_round x from (se_mail s) (se_host s) r =
      Some (events_of from (se_messages s), out, se_host s', r') /\
    se_mail o' = se_mail o ++ out /\ se_host o' = se_host o /\ turned c x s o s' o' /\
    seat_ok from c (n + charge s' + charge o') s' /\ seat_ok to cO (n + charge s' + charge o') o'.
Proof.
  intros Hcc Hord Hsay Hn Hkept Haff Hs Ho. pose proof (charge_nonneg _ _ _ _ Ho) as Hch.
  destruct (seat_round from to c cO x s _ r Hcc Hord Hsay Hs ltac:(lia) Haff Hkept)
    as (out & h' & r' & p' & w & k & b & E & D). pose proof D as [D1 D2 D3 [D4 D4'] D5 D6 D7 D8 D9 D10 D11 D12].
  eexists out, (polled h' p' _), (posted o out (rn_messages x) w k b), r'.
  destruct (so_weight _ _ _ _ Ho) as [Hre Hex]. pose proof (zlen_nonneg out). pose proof (zlen_nonneg (se_mail s)).
  pose proof (weights_length (queue p')). pose proof (zlen_nonneg (queue p')).
  split; [exact E|]. split; [done|]. split; [done|]. split; [|split].
  - split; cbn; rewrite ?zlen_app; try done; try lia.
    + intros [-> | Hor]; [done|]. rewrite (D11 Hor). apply orb_true_r.
    + intros l Hl P1 P2. rewrite D9 in P1. rewrite D10 in P2. specialize (D12 l Hl P1 P2). lia.
  - eapply seat_less; [| |exact D1]; unfold charge in *; cbn; rewrite ?zlen_app; change (zlen []) with 0; lia.
  - eapply seat_less; [| |apply seat_posted; [exact Ho|exact D2| |exact D4|exact D4']].
    1,2: unfold charge in *; cbn; rewrite ?zlen_app; change (zlen []) with 0; lia.
    unfold brief. by rewrite <-(cp_buffer _ _ _ _ Hcc).
Qed.

Definition seat_of (side : Side) (sA sB : Seat) : Seat := match side with Alice => sA | Bob => sB end.
Definition other (side : Side) : Side := match side with Alice => Bob | Bob => Alice end.
Definition config_of (side : Side) (cA cB : Config) : Config :=
  match side with Alice => cA | Bob => cB end.

Definition round_ok (cA cB : Config) (x : Round) : Prop :=
  (forall l, rn_order x l ≡ₚ l) /\ Forall (sayable_message lo (config_of (rn_side x) cA cB)) (rn_messages x).

Lemma in_touch_round alice bob cA cB x n sA sB r rounds :
  compatible lo hi cA cB -> round_ok cA cB x -> 0 <= n ->
  kept_at (config_of (rn_side x) cA cB) (rn_time x) (seat_of (rn_side x) sA sB) ->
  affordable (config_of (rn_side x) cA cB) x (seat_of (rn_side x) sA sB) ->
  in_touch alice bob cA cB (n + round_cost (config_of (rn_side x) cA cB) x) sA sB ->
  exists evs sA' sB' r', system_round alice bob x (system_of sA sB) r = Some (evs, system_of sA' sB', r') /\
    in_touch alice bob cA cB n sA' sB' /\
    turned (config_of (rn_side x) cA cB) x (seat_of (rn_side x) sA sB) (seat_of (other (rn_side x)) sA sB)
      (seat_of (rn_side x) sA' sB') (seat_of (other (rn_side x)) sA' sB') /\
    correspondence alice bob (x :: rounds) (se_messages sA) (se_messages sB) =
      evs ++ correspondence alice bob rounds (se_messages sA') (se_messages sB').
Proof.
  intros Hc [Hord Hsay] Hn Hk Haf [HA HB]. unfold system_round. cbn [correspondence].
  destruct (rn_side x); cbn [seat_of other config_of] in *.
  - destruct (link_round bob alice cA cB x n sA sB r Hc Hord Hsay Hn Hk Haf HA HB)
      as (out & sA' & sB' & r' & E & Em & Eh & Ht & HA' & HB').
    exists (told Alice (events_of bob (se_messages sA))), sA', sB', r'. cbn [sy_to_alice sy_alice system_of].
    rewrite E. cbn [mbind option_bind]. pose proof (tu_clear _ _ _ _ _ _ Ht) as (T1 & T2 & _). pose proof (tu_messages _ _ _ _ _ _ Ht) as T3.
    unfold system_of. rewrite T1, T2, T3, Em, Eh. split; [done|]. split; [done|]. split; done.
  - rewrite (Z.add_shuffle0 (n + round_cost cB x)) in HA, HB.
    destruct (link_round alice bob cB cA x n sB sA r (compatible_sym _ _ _ _ Hc) Hord Hsay Hn Hk Haf HB HA)
      as (out & sB' & sA' & r' & E & Em & Eh & Ht & HB' & HA').
    exists (told Bob (events_of alice (se_messages sB))), sA', sB', r'. cbn [sy_to_bob sy_bob system_of].
    rewrite E. cbn [mbind option_bind]. pose proof (tu_clear _ _ _ _ _ _ Ht) as (T1 & T2 & _). pose proof (tu_messages _ _ _ _ _ _ Ht) as T3.
    unfold system_of. rewrite T1, T2, T3, Em, Eh. split; [done|].
    rewrite (Z.add_shuffle0 n) in HA', HB'. split; [done|]. split; done.
Qed.
End Seats.
