(* ===== verification/Correspondence.v ===== *)
(** Two hosts over a network that loses nothing and keeps the order: each application gets all the
    packets that the other sends, as long as these have no ordering and fit the fragment limits,
    at its next poll, for as long as the two are not silent for too long, or have
    heartbeats. *)

From S2P Require Import Prelude Core Externs Packet Framing Pmtu Buffers Bandwidth.
From S2P Require Import SequenceBuffer Ack PeerParts Peer PeerFacts Fragmenter FragmenterFacts.
From S2P Require Import PeerEncoder CommandProcessor Session PeerSession EncoderFacts.
From S2P Require Import Conversation.
From S2P Require Import SessionManager Sockets Host HostSystem Parcels Delivery HostDelivery.
From S2P Require Import Dialogue.

Section Theorems.
Context {X : Externs} {L : ByteOrderLaws X} `{!CrcLaws X, !ZlibLaws X, !Lz4Laws X}.
Context {U C I : Type} `{!UdpSocket U, !Network U, !Clock C, !Interceptor I} (lo hi : Z).
#[local] Abbreviation Host := (Host U C I).
#[local] Abbreviation Seat := (@Seat U C I).

(** What both configurations and the rounds have to satisfy. *)
Record talkative (cA cB : Config) (rounds : list Round) : Prop := {
  tk_compatible : compatible lo hi cA cB;
  tk_rounds : Forall (round_ok lo cA cB) rounds;
  tk_flight : 0 <= max_packets_in_flight cA /\ 0 <= max_packets_in_flight cB
}.

Lemma talkative_config cA cB rounds side : talkative cA cB rounds ->
  0 <= max_packets_in_flight (config_of side cA cB).
Proof. intros [_ _ [HA HB]]. by destruct side. Qed.
Lemma talkative_cons cA cB x rounds : talkative cA cB (x :: rounds) ->
  round_ok lo cA cB x /\ talkative cA cB rounds.
Proof. intros [H1 [H2 H3]%Forall_cons H4]. by split. Qed.
(** The datagrams that all the rounds may cost. *)
Definition total_cost (cA cB : Config) (rounds : list Round) : Z :=
  zsum (fun x => round_cost lo (config_of (rn_side x) cA cB) x) rounds.
Lemma total_cost_nonneg cA cB rounds : 0 <= total_cost cA cB rounds.
Proof. apply zsum_nonneg. intros x. apply round_cost_nonneg. Qed.

(* ------------------------------------------------------------------ *)
(** ** Within the bandwidth limits                                      *)
(* ------------------------------------------------------------------ *)

(** What is known of a side from the rounds alone: when its window of a second began and how many
    datagrams that has seen at most, and bounds on its queue and on what is under way to it: the
    answers it will cause, the datagrams, the messages. *)
Record Meter : Set := mkMeter {
  mt_start : Instant;
  mt_used : Z;
  mt_queue : Z;
  mt_weight : Z;
  mt_mail : Z;
  mt_messages : Z
}.
Definition poll_cost (c : Config) (x : Round) (M : Meter) : Z :=
  2 * mt_queue M + 2 * mt_weight M + mt_mail M + round_cost lo c x.
(** The side that polls, and the other one, afterwards. *)
Definition spent (c : Config) (x : Round) (M : Meter) : Meter :=
  let over := BANDWIDTH_WINDOW <=? duration_since (rn_time x) (mt_start M) in
  mkMeter (if over then rn_time x else mt_start M)
    ((if over then 0 else mt_used M) + poll_cost c x M) 2 0 0 0.
Definition owed (c : Config) (x : Round) (M O : Meter) : Meter :=
  mkMeter (mt_start O) (mt_used O) (mt_queue O)
    (mt_weight O + mt_queue M + mt_messages M + zlen (rn_messages x) + 2)
    (mt_mail O + mt_queue M + mt_weight M + messages_bound lo c (rn_messages x) + 5)
    (mt_messages O + zlen (rn_messages x)).
(** The limits of [c] let [n] datagrams through in a window. *)
Definition limits_allow (c : Config) (n : Z) : bool :=
  ((outgoing_bandwidth_limit c =? 0) || (n * 1537 <=? outgoing_bandwidth_limit c)) &&
  ((incoming_bandwidth_limit c =? 0) || (n * 1537 <=? incoming_bandwidth_limit c)).
(** In no window does a poll find the limits of its side used up. *)
Fixpoint within_limits (cA cB : Config) (rounds : list Round) (MA MB : Meter) : bool :=
  match rounds with
  | [] => true
  | x :: rounds =>
      match rn_side x with
      | Alice => limits_allow cA (mt_used MA + poll_cost cA x MA) &&
                 within_limits cA cB rounds (spent cA x MA) (owed cA x MA MB)
      | Bob => limits_allow cB (mt_used MB + poll_cost cB x MB) &&
               within_limits cA cB rounds (owed cB x MB MA) (spent cB x MB)
      end
  end.

(** The meter of a peer to which nothing is under way. *)
Definition meter_of (p : Peer) : Meter :=
  mkMeter (window_start p) (Z.max (window_sent p) (window_received p) / 1537 + 1) (weights (queue p)) 0 0 0.

Record metered (M : Meter) (s : Seat) : Prop := {
  me_start : mt_start M = window_start (se_peer s);
  me_used : se_used s <= mt_used M;
  me_queue : weights (queue (se_peer s)) <= mt_queue M;
  me_weight : se_weight s <= mt_weight M;
  me_mail : zlen (se_mail s) <= mt_mail M;
  me_messages : zlen (se_messages s) <= mt_messages M
}.

Lemma limits_allowed c n : limits_allow c n = true -> allowed c n.
Proof.
  unfold limits_allow, allowed, spare. intros [H1 H2]%andb_true_iff.
  apply orb_true_iff in H1, H2. rewrite !Z.eqb_eq, !Z.leb_le in H1, H2. rewrite !Z.add_0_l.
  assert (0 <= 0) by done. tauto.
Qed.
Lemma metered_affordable c x M s : metered M s -> limits_allow c (mt_used M + poll_cost c x M) = true ->
  affordable lo c x s.
Proof.
  intros [H1 H2 H3 H4 H5 H6] Hl%limits_allowed. eapply allowed_less; [|exact Hl].
  unfold charge, poll_cost. lia.
Qed.
Lemma metered_turned c x M O s o s' o' : turned lo c x s o s' o' -> metered M s -> metered O o ->
  metered (spent c x M) s' /\ metered (owed c x M O) o'.
Proof.
  intros [(T1 & T2 & _ & _ & T3) T4 _ _ [T5 T6] _ _ _ T7 T8 T9 T10 T11] [H1 H2 H3 H4 H5 H6] [O1 O2 O3 O4 O5 O6].
  unfold window_over in T7, T8. rewrite <-H1 in T7, T8.
  assert (charge s + round_cost lo c x <= poll_cost c x M) by (unfold charge, poll_cost; lia).
  unfold round_cost in T11. split; split; cbn [spent owed mt_start mt_used mt_queue mt_weight mt_mail mt_messages];
    rewrite ?T1, ?T2, ?T4, ?T5, ?zlen_app; try change (zlen []) with 0; try done; try lia.
  rewrite T7. destruct (_ <=? _); lia.
Qed.

(** The seats' meters let all the rounds to come have their way. *)
Definition flowing (cA cB : Config) (rounds : list Round) (sA sB : Seat) : Prop :=
  exists MA MB, within_limits cA cB rounds MA MB = true /\ metered MA sA /\ metered MB sB.
Lemma flowing_affordable cA cB x rounds sA sB : flowing cA cB (x :: rounds) sA sB ->
  affordable lo (config_of (rn_side x) cA cB) x (seat_of (rn_side x) sA sB).
Proof.
  intros (MA & MB & H & HA & HB). cbn [within_limits] in H.
  destruct (rn_side x); apply andb_true_iff in H as [H _]; by eapply metered_affordable.
Qed.
Lemma flowing_turn cA cB x rounds sA sB sA' sB' : flowing cA cB (x :: rounds) sA sB ->
  turned lo (config_of (rn_side x) cA cB) x (seat_of (rn_side x) sA sB) (seat_of (other (rn_side x)) sA sB)
    (seat_of (rn_side x) sA' sB') (seat_of (other (rn_side x)) sA' sB') ->
  flowing cA cB rounds sA' sB'.
Proof.
  intros (MA & MB & H & HA & HB) Ht. cbn [within_limits] in H.
  destruct (rn_side x); apply andb_true_iff in H as [_ H]; cbn [seat_of other config_of] in Ht.
  - destruct (metered_turned _ _ _ _ _ _ _ _ Ht HA HB) as [HA' HB']. by eexists _, _.
  - destruct (metered_turned _ _ _ _ _ _ _ _ Ht HB HA) as [HB' HA']. by eexists _, _.
Qed.

(* ------------------------------------------------------------------ *)
(** ** Rounds                                                           *)
(* ------------------------------------------------------------------ *)

(** Rounds go on for as long as no seat is to be dropped: [J] is what the rounds to come, the time
    of the last round and the seats have to satisfy for that. *)
Lemma rounds_run alice bob cA cB (J : list Round -> Instant -> Seat -> Seat -> Prop) n :
  (forall x rounds t sA sB, J (x :: rounds) t sA sB ->
    kept_at (config_of (rn_side x) cA cB) (rn_time x) (seat_of (rn_side x) sA sB)) ->
  (forall x rounds t sA sB sA' sB', J (x :: rounds) t sA sB ->
    turned lo (config_of (rn_side x) cA cB) x (seat_of (rn_side x) sA sB) (seat_of (other (rn_side x)) sA sB)
      (seat_of (rn_side x) sA' sB') (seat_of (other (rn_side x)) sA' sB') ->
    J rounds (rn_time x) sA' sB') ->
  0 <= n -> forall rounds t sA sB r, talkative cA cB rounds -> J rounds t sA sB ->
  flowing cA cB rounds sA sB -> in_touch lo hi alice bob cA cB (n + total_cost cA cB rounds) sA sB ->
  exists sA' sB' r', run_rounds alice bob rounds (system_of sA sB) r =
      Some (correspondence alice bob rounds (se_messages sA) (se_messages sB), system_of sA' sB', r') /\
    in_touch lo hi alice bob cA cB n sA' sB'.
Proof.
  intros Hkept Hturn Hn. induction rounds as [|x rounds IH]; intros t sA sB r Ht HJ Hfl Htouch.
  - exists sA, sB, r. split; [done|]. cbn in Htouch. by rewrite Z.add_0_r in Htouch.
  - unfold total_cost in Htouch. rewrite zsum_cons in Htouch. fold (total_cost cA cB rounds) in Htouch.
    pose proof (total_cost_nonneg cA cB rounds). apply talkative_cons in Ht as [Hx Ht].
    destruct (in_touch_round lo hi alice bob cA cB x (n + total_cost cA cB rounds) sA sB r rounds
      (tk_compatible _ _ _ Ht) Hx ltac:(lia) (Hkept _ _ _ _ _ HJ) (flowing_affordable _ _ _ _ _ _ Hfl))
      as (evs & sA1 & sB1 & r1 & E & Ht1 & Htu & ->).
    { by rewrite <-Z.add_assoc, (Z.add_comm (total_cost _ _ _)). }
    destruct (IH (rn_time x) sA1 sB1 r1 Ht (Hturn _ _ _ _ _ _ _ HJ Htu) (flowing_turn _ _ _ _ _ _ _ _ Hfl Htu) Ht1)
      as (sA' & sB' & r' & E' & Htouch').
    exists sA', sB', r'. cbn [run_rounds]. rewrite E. cbn [mbind option_bind]. by rewrite E'.
Qed.

(* ------------------------------------------------------------------ *)
(** ** Often enough                                                     *)
(* ------------------------------------------------------------------ *)

(** Nobody polls when he has not heard from the other side for his idle timeout: each side's time
    of the last sign of life, and whether another is under way to it, as the rounds tell. *)
Fixpoint lively (cA cB : Config) (rounds : list Round) (tA tB : Instant) (mA mB : bool) : Prop :=
  match rounds with
  | [] => True
  | x :: rounds =>
      let t := rn_time x in
      let speaks := negb (bool_decide (rn_messages x = [])) in
      match rn_side x with
      | Alice =>
          let tA := if mA then t else tA in
          tA <= t /\ duration_since t tA < idle_connection_timeout cA /\
          lively cA cB rounds tA tB false (mB || speaks)
      | Bob =>
          let tB := if mB then t else tB in
          tB <= t /\ duration_since t tB < idle_connection_timeout cB /\
          lively cA cB rounds tA tB (mA || speaks) false
      end
  end.

(** A seat has heard of the other side at [t] or later, with more to come if [m]. *)
Definition heard_since (t : Instant) (m : bool) (s : Seat) : Prop :=
  t <= p_last_heard (se_peer s) /\ (m = true -> se_sign s = true).

Lemma heard_kept c t t0 m s : 0 <= max_packets_in_flight c -> heard_since t0 m s ->
  let t1 := if m then t else t0 in t1 <= t -> duration_since t t1 < idle_connection_timeout c ->
  kept_at c t s /\ t1 <= heard_at t s.
Proof.
  intros Hmax [H1 H2] t1 Ht Hd. unfold kept_at, heard_at, duration_since, saturating_sub, t1 in *.
  destruct m; [rewrite H2 by done; lia|]. destruct (se_sign s); split; lia || (split; lia).
Qed.

(** The seats after a round, whichever side polled. *)
Lemma heard_turned c x t t' m s o s' o' : turned lo c x s o s' o' ->
  t <= heard_at (rn_time x) s -> heard_since t' m o ->
  heard_since t false s' /\ heard_since t' (m || negb (bool_decide (rn_messages x = []))) o'.
Proof.
  intros [_ _ T1 _ [T2 _] T3 _ _ _ _ _ _ _] Ht [H1 H2]. split; [split; [by rewrite T1|done]|].
  split; [by rewrite T2|]. intros Hm. apply T3. destruct m; [left; by apply H2|].
  right. left. intros Hnil. by rewrite Hnil in Hm.
Qed.

Definition lively_seats (cA cB : Config) (rounds : list Round) (_ : Instant) (sA sB : Seat) : Prop :=
  0 <= max_packets_in_flight cA /\ 0 <= max_packets_in_flight cB /\
  exists tA tB mA mB, lively cA cB rounds tA tB mA mB /\ heard_since tA mA sA /\ heard_since tB mB sB.

Lemma lively_kept cA cB x rounds t sA sB : lively_seats cA cB (x :: rounds) t sA sB ->
  kept_at (config_of (rn_side x) cA cB) (rn_time x) (seat_of (rn_side x) sA sB).
Proof.
  intros (HmA & HmB & tA & tB & mA & mB & Hl & HA & HB). cbn [lively] in Hl.
  destruct (rn_side x), Hl as (H1 & H2 & _); [by eapply (heard_kept cA)|by eapply (heard_kept cB)].
Qed.
Lemma lively_turn cA cB x rounds t sA sB sA' sB' : lively_seats cA cB (x :: rounds) t sA sB ->
  turned lo (config_of (rn_side x) cA cB) x (seat_of (rn_side x) sA sB) (seat_of (other (rn_side x)) sA sB)
    (seat_of (rn_side x) sA' sB') (seat_of (other (rn_side x)) sA' sB') ->
  lively_seats cA cB rounds (rn_time x) sA' sB'.
Proof.
  intros (HmA & HmB & tA & tB & mA & mB & Hl & HA & HB) Ht. split; [done|]. split; [done|].
  cbn [lively] in Hl. destruct (rn_side x); cbn [seat_of other config_of] in Ht; destruct Hl as (H1 & H2 & Hl).
  - destruct (heard_kept cA (rn_time x) tA mA sA HmA HA H1 H2) as [_ Hh].
    destruct (heard_turned _ _ _ tB mB _ _ _ _ Ht Hh HB) as [HA' HB']. by eexists _, _, _, _.
  - destruct (heard_kept cB (rn_time x) tB mB sB HmB HB H1 H2) as [_ Hh].
    destruct (heard_turned _ _ _ tA mA _ _ _ _ Ht Hh HA) as [HB' HA']. by eexists _, _, _, _.
Qed.

(* ------------------------------------------------------------------ *)
(** ** Heartbeats                                                       *)
(* ------------------------------------------------------------------ *)

(** The two sides poll in turns, at most [delta] apart. *)
Fixpoint taking_turns (delta : Duration) (side : Side) (t : Instant) (rounds : list Round) : Prop :=
  match rounds with
  | [] => True
  | x :: rounds =>
      rn_side x = side /\ t <= rn_time x <= t + delta /\ taking_turns delta (other side) (rn_time x) rounds
  end.
(** Heartbeats that leave time for a ping and its answer before the peer gives up. *)
Definition beats (delta : Duration) (c : Config) : Prop :=
  match heartbeat_interval c with
  | Some h => 0 < h /\ h + 2 * delta <= idle_connection_timeout c
  | None => False
  end.

(** Every side has heard within its heartbeat, or will hear at its next poll, or has asked. *)
Record beating (c c' : Config) (delta : Duration) (t : Instant) (s o : Seat) : Prop := {
  bt_past : p_last_heard (se_peer s) <= t /\ p_last_heard (se_peer o) <= t;
  bt_sent : p_last_sent (se_peer s) <= p_last_heard (se_peer s) /\
            p_last_sent (se_peer o) <= p_last_heard (se_peer o);
  bt_next h : heartbeat_interval c = Some h ->
    se_sign s = true \/ t < p_last_heard (se_peer s) + h + delta;
  bt_other h : heartbeat_interval c' = Some h -> 0 <= se_replies s /\
    (t < p_last_heard (se_peer o) + h \/ 0 < se_replies s)
}.

Lemma beating_kept c c' delta t s o now : beats delta c -> 0 <= max_packets_in_flight c ->
  t <= now <= t + delta -> beating c c' delta t s o -> kept_at c now s.
Proof.
  unfold beats. destruct (heartbeat_interval c) as [h|] eqn:Eh; [|done]. intros [Hh Hi] Hmax Ht [[P1 _] _ B _].
  split; [done|]. unfold heard_at, duration_since, saturating_sub.
  destruct (B h Eh) as [-> | Hn]; [lia|]. destruct (se_sign s); lia.
Qed.
Lemma beating_turned c c' delta t x s o s' o' : beats delta c -> beats delta c' ->
  t <= rn_time x <= t + delta -> turned lo c x s o s' o' -> beating c c' delta t s o ->
  beating c' c delta (rn_time x) o' s'.
Proof.
  unfold beats. destruct (heartbeat_interval c) as [h|] eqn:Eh; [|done].
  destruct (heartbeat_interval c') as [h'|] eqn:Eh'; [|done].
  intros [Hh _] [Hh' _] Ht [_ _ T1 T2 [T3 _] T4 T5 T6 _ _ _ _ _] [[P1 P2] [S1 S2] B1 B2].
  unfold heard_at in T1. assert (p_last_heard (se_peer s') <= rn_time x /\
    p_last_heard (se_peer s) <= p_last_heard (se_peer s')) as [Q1 Q2] by (rewrite T1; destruct (se_sign s); lia).
  split; rewrite ?T3, ?Eh, ?Eh'; [lia|rewrite T2; lia| |].
  - intros l [= <-]. destruct (B2 h' Eh') as [_ [Hr|Hr]]; [right; lia|]. left. apply T4. auto.
  - intros l [= <-]. split; [lia|].
    destruct (decide (rn_time x < p_last_heard (se_peer s') + h)) as [Hl|Hl]; [by left|]. right.
    enough (1 <= se_replies o') by lia. apply (T6 h Eh); unfold duration_since, saturating_sub; lia.
Qed.

Definition beating_seats (delta : Duration) (cA cB : Config) (rounds : list Round) (t : Instant)
  (sA sB : Seat) : Prop :=
  (0 <= max_packets_in_flight cA /\ 0 <= max_packets_in_flight cB) /\
  beats delta cA /\ beats delta cB /\
  exists side, taking_turns delta side t rounds /\
    beating (config_of side cA cB) (config_of (other side) cA cB) delta t
      (seat_of side sA sB) (seat_of (other side) sA sB).

Lemma beats_kept delta cA cB x rounds t sA sB : beating_seats delta cA cB (x :: rounds) t sA sB ->
  kept_at (config_of (rn_side x) cA cB) (rn_time x) (seat_of (rn_side x) sA sB).
Proof.
  intros ([HmA HmB] & HbA & HbB & side & (-> & Ht & _) & Hb).
  eapply beating_kept; [|destruct side; done|exact Ht|exact Hb]. by destruct side.
Qed.
Lemma beats_turn delta cA cB x rounds t sA sB sA' sB' : beating_seats delta cA cB (x :: rounds) t sA sB ->
  turned lo (config_of (rn_side x) cA cB) x (seat_of (rn_side x) sA sB) (seat_of (other (rn_side x)) sA sB)
    (seat_of (rn_side x) sA' sB') (seat_of (other (rn_side x)) sA' sB') ->
  beating_seats delta cA cB rounds (rn_time x) sA' sB'.
Proof.
  intros (Hm & HbA & HbB & side & (-> & Ht & Hrest) & Hb) Htu. split; [done|]. split; [done|].
  split; [done|]. exists (other side). split; [done|].
  assert (forall sd, beats delta (config_of sd cA cB)) as Hc by by intros [].
  pose proof (beating_turned _ _ delta t x _ _ _ _ (Hc side) (Hc (other side)) Ht Htu Hb) as H.
  by destruct side.
Qed.

(* ------------------------------------------------------------------ *)
(** ** Correspondence                                                   *)
(* ------------------------------------------------------------------ *)

(** Two hosts that each have the other as their only session, with nothing under way, and whose
    counters have room for [n] more datagrams. *)
Record paired (alice bob : SocketAddr) (cA cB : Config) (n : Z) (hA hB : Host) (pA pB : Peer) : Prop := {
  pd_alice : seated bob pA hA;
  pd_bob : seated alice pB hB;
  pd_online : online lo hi (n + 2 * weights (queue pA) + 2 * weights (queue pB)) bob cA 0 pA /\
              online lo hi (n + 2 * weights (queue pA) + 2 * weights (queue pB)) alice cB 0 pB
}.
(** The seat of a side after a poll. *)
Definition seat_from (h : Host) (p : Peer) : Seat := polled h p (mt_used (meter_of p)).
Lemma meter_used e a c p : online lo hi e a c 0 p ->
  0 <= mt_used (meter_of p) /\ used (mt_used (meter_of p)) p.
Proof.
  intros [_ _ _ _ _ _ [[H1 _] [H2 _]]]. unfold used. cbn [mt_used meter_of]. zmod.
Qed.
Lemma seat_from_metered h p : metered (meter_of p) (seat_from h p).
Proof. by split. Qed.
Lemma paired_in_touch alice bob cA cB n hA hB pA pB : paired alice bob cA cB n hA hB pA pB ->
  in_touch lo hi alice bob cA cB n (seat_from hA pA) (seat_from hB pB).
Proof.
  intros [HA HB [OA OB]]. assert (forall h p, charge (seat_from h p) = 2 * weights (queue p)) as Hch.
  { intros h p. unfold charge, seat_from. cbn [polled se_peer se_weight se_mail]. change (zlen []) with 0. lia. }
  split; rewrite !Hch; (split; cbn [seat_from polled se_host se_peer se_used se_mail se_messages se_weight se_replies];
    [done|done|by eapply meter_used|apply in_flight_nil|constructor|change (zlen []) with 0; lia]).
Qed.
Lemma paired_flowing cA cB rounds hA hB pA pB :
  within_limits cA cB rounds (meter_of pA) (meter_of pB) = true ->
  flowing cA cB rounds (seat_from hA pA) (seat_from hB pB).
Proof. intros H. exists (meter_of pA), (meter_of pB). split; [exact H|]. split; apply seat_from_metered. Qed.

(** What is left of two hosts after some rounds: both sessions are still there. *)
Definition still_paired (alice bob : SocketAddr) (sys : @System U C I) : Prop :=
  exists pA pB, seated bob pA (sy_alice sys) /\ seated alice pB (sy_bob sys) /\
    p_state pA = Connected /\ p_state pB = Connected.
Lemma in_touch_paired alice bob cA cB n sA sB : in_touch lo hi alice bob cA cB n sA sB ->
  still_paired alice bob (system_of sA sB).
Proof.
  intros [[H1 O1 _ _ _ _] [H2 O2 _ _ _ _]]. exists (se_peer sA), (se_peer sB).
  repeat (split; [done|]). split; by eapply online_connected.
Qed.

(** C1: Correspondence of unordered packets.  Two hosts have each other as their only session, both
    connected, with nothing under way, no unfinished fragments, no packets in flight that wait for
    an acknowledgment, transparent interceptors and non-blocking sockets; their
    configurations agree on checksums and on the receive buffer, of at most 1537 bytes, keep the
    datagram size of the path between two bounds, and have compressors that fail on nothing.  The
    network neither loses nor reorders datagrams.  In every round
    one application sends any number of packets and polls, at any time and in any order of the
    sides.  The packets are reliable or unreliable and have no ordering; each is within the limit
    of waiting data and needs, at the smallest datagram size of the path, at most 255 and at most
    [max_fragments] fragments.  (Others are not covered: the code holds ordered packets after the
    first back, [second_ordered_message_is_held], and cuts larger ones, [oversized_data_cut].)  As
    long as neither side polls when it has not been written to for its idle timeout, no window of
    a second uses up a bandwidth limit (which [within_limits] computes from the rounds), and the
    64-bit counters have room for all the rounds, every poll hands its application exactly the
    packets that the other side has sent since the last one, in order, once each, with their
    bytes, channel and guarantee: none is lost, doubled or made up, no connection is announced or
    dropped, and nothing panics; acknowledgments, heartbeats and path probes go on below. *)
Theorem hosts_correspond alice bob cA cB n rounds hA hB pA pB r
  (Hok : talkative cA cB rounds) (Hn : 0 <= n)
  (Hpaired : paired alice bob cA cB (n + total_cost cA cB rounds) hA hB pA pB)
  (Hlively : lively cA cB rounds (p_last_heard pA) (p_last_heard pB) false false)
  (Hlimits : within_limits cA cB rounds (meter_of pA) (meter_of pB) = true) :
  exists sys r', run_rounds alice bob rounds (mkSystem hA hB [] []) r =
      Some (correspondence alice bob rounds [] [], sys, r') /\ still_paired alice bob sys.
Proof.
  destruct (rounds_run alice bob cA cB (lively_seats cA cB) n
    (lively_kept cA cB) (lively_turn cA cB) Hn rounds 0 (seat_from hA pA) (seat_from hB pB) r Hok)
    as (sA & sB & r' & E & Ht).
  - split; [apply Hok|]. split; [apply Hok|]. exists (p_last_heard pA), (p_last_heard pB), false, false.
    split; [done|]. by split; split.
  - by apply paired_flowing.
  - by apply paired_in_touch.
  - exists (system_of sA sB), r'. split; [exact E|]. by eapply in_touch_paired.
Qed.

(** C5: Heartbeats.  Two paired hosts as in the correspondence theorem, each of which has heard the other at
    the start and not pinged it since, have heartbeats that leave
    time for a ping and its answer within the idle timeout, and poll in turns, often enough.  Then
    the connection is never given up, however long the applications are silent.  The packets that
    the applications do send, reliable or unreliable, without ordering, within the limit of
    waiting data and of at most 255 and at most [max_fragments] fragments at the smallest datagram
    size of the path, are handed over by the next poll of the other side, in order, once each and
    unchanged, and nothing else is.  The bandwidth limits have to last for a second at a time
    only, the 64-bit counters for all the rounds. *)
Theorem heartbeats_keep_alive alice bob cA cB n delta side t0 rounds hA hB pA pB r
  (Hok : talkative cA cB rounds) (Hn : 0 <= n)
  (Hbeats : beats delta cA /\ beats delta cB)
  (Hturns : taking_turns delta side t0 rounds)
  (Hpaired : paired alice bob cA cB (n + total_cost cA cB rounds) hA hB pA pB)
  (Hlimits : within_limits cA cB rounds (meter_of pA) (meter_of pB) = true)
  (HA : p_last_sent pA <= p_last_heard pA /\ p_last_heard pA = t0)
  (HB : p_last_sent pB <= p_last_heard pB /\ p_last_heard pB = t0)
  (Hdelta : 0 <= delta) :
  exists sys r', run_rounds alice bob rounds (mkSystem hA hB [] []) r =
      Some (correspondence alice bob rounds [] [], sys, r') /\ still_paired alice bob sys.
Proof.
  destruct (rounds_run alice bob cA cB (beating_seats delta cA cB) n
    (beats_kept delta cA cB) (beats_turn delta cA cB) Hn rounds t0 (seat_from hA pA) (seat_from hB pB) r Hok)
    as (sA & sB & r' & E & Ht).
  - split; [apply Hok|]. split; [apply Hbeats|]. split; [apply Hbeats|]. exists side. split; [done|].
    assert (forall c, beats delta c -> forall h, heartbeat_interval c = Some h -> 0 < h) as Hpos.
    { intros c Hc h E. unfold beats in Hc. rewrite E in Hc. lia. }
    destruct Hbeats as [HbA HbB].
    pose proof (Hpos _ HbA) as PA. pose proof (Hpos _ HbB) as PB.
    destruct side; cbn; (split; cbn; [lia|lia|intros h E; right|intros h E; split; [lia|left]]);
      first [specialize (PA h E); lia|specialize (PB h E); lia].
  - by apply paired_flowing.
  - by apply paired_in_touch.
  - exists (system_of sA sB), r'. split; [exact E|]. by eapply in_touch_paired.
Qed.
End Theorems.

(* ------------------------------------------------------------------ *)
(** ** A concrete pair                                                  *)
(* ------------------------------------------------------------------ *)

Import Loopback Sample.

#[export] Program Instance sock_Network : Network sock := {|
  waiting := sk_waiting;
  departed := sk_sent;
  bring l s := mkSock (sk_addr s) l []
|}.
Next Obligation. intros len u Hw. cbn. rewrite Hw. by eexists _, _. Qed.
Next Obligation.
  intros len u dg a rest Hw Hl. cbn. rewrite Hw. unfold zlen in Hl. rewrite take_ge by lia.
  eexists _, _. split; [reflexivity|]. by rewrite take_app_length.
Qed.
Next Obligation. done. Qed.
Next Obligation. done. Qed.
Next Obligation. done. Qed.

(** A peer in conversation and its host. *)
Definition peer_with (c : Config) : Peer :=
  set_pmtu (PmtuDiscovery_new c 0) (set_config c open_peer).
Definition host_with (c : Config) : Host sock SystemClock NoOpInterceptor :=
  mkHost (mkSessionManager {[ sample_addr := peer_with c ]} 1452 []
    (Messenger_new c (mkSocketWithConditioner false (mkSock sample_addr [] [])) [] (NoOp tt))
    (max_unestablished_connections c) {[ sa_ip sample_addr := 1 ]} 0) system.

(** The default configuration with heartbeats. *)
Definition beating_config : Config := Config_default <| heartbeat_interval := Some (from_secs 1) |>.

Lemma beating_conversable : conversable 576 1400 beating_config.
Proof. split; [split; vm_compute; repeat split; discriminate|by apply compresses_none]. Qed.
Lemma beating_compatible : compatible 576 1400 beating_config beating_config.
Proof. by split; try apply beating_conversable. Qed.

(** Its counters have room for 2^50 datagrams. *)
Lemma peer_with_online n : 0 <= n <= 2 ^ 50 ->
  online 576 1400 n sample_addr beating_config 0 (peer_with beating_config).
Proof.
  intros Hn. split; [|done|lia| | |done|].
  - split; [|done|done| | |constructor| |].
    + split; [done|done|done| |apply Nat.lt_0_succ]. by split.
    + vm_compute. by eexists.
    + apply (path_new beating_config). apply beating_conversable.
    + by vm_compute.
    + by vm_compute.
  - eapply (counters_less (2 ^ 50)); [lia|]. vm_compute. repeat split; discriminate.
  - eapply (stats_room_less (2 ^ 50)); [lia|lia|]. split; vm_compute; split; discriminate.
  - split; apply spare_check; by vm_compute.
Qed.

Lemma host_with_paired n : 0 <= n <= 2 ^ 50 ->
  paired 576 1400 sample_addr sample_addr beating_config beating_config n
    (host_with beating_config) (host_with beating_config) (peer_with beating_config) (peer_with beating_config).
Proof.
  intros Hn. assert (seated sample_addr (peer_with beating_config) (host_with beating_config)) as Hs.
  { by split. }
  split; [exact Hs|exact Hs|]. change (weights (queue (peer_with beating_config))) with 0.
  split; apply peer_with_online; lia.
Qed.

Lemma long_message_sayable d : sayable_message 576 beating_config (mkMessage d 0 long_data).
Proof.
  split; [by vm_compute| |split; [by vm_compute|intros _; by vm_compute]| |].
  - apply Forall_forall. intros x Hx%list_elem_of_In%repeat_spec. by subst.
  - by destruct d; vm_compute.
  - by destruct d; vm_compute.
Qed.

(** Alice sends a packet, which Bob gets when he polls; his answer reaches her at her next poll. *)
Definition letters : list Round :=
  [mkRound Alice [mkMessage Reliable 0 long_data] (from_secs 1) 0 identity;
   mkRound Bob [mkMessage Unreliable 0 long_data] (from_secs 2) 0 identity;
   mkRound Alice [] (from_secs 3) 0 identity].

Lemma letters_talkative : talkative 576 1400 beating_config beating_config letters.
Proof.
  split; [apply beating_compatible| |split; vm_compute; discriminate].
  repeat (apply Forall_cons_2); [..|constructor]; (split; [done|]);
    repeat (apply Forall_cons_2; [apply long_message_sayable|]); constructor.
Qed.

Lemma hosts_correspond_witness : exists sys r,
  run_rounds sample_addr sample_addr letters
    (mkSystem (host_with beating_config) (host_with beating_config) [] []) sample_rng =
  Some ([(Bob, EvPacket (Packet_new sample_addr long_data Reliable OrderNone 0));
         (Alice, EvPacket (Packet_new sample_addr long_data Unreliable OrderNone 0))], sys, r).
Proof.
  destruct (hosts_correspond 576 1400 sample_addr sample_addr beating_config beating_config 0 letters
    (host_with beating_config) (host_with beating_config) (peer_with beating_config)
    (peer_with beating_config) sample_rng letters_talkative) as (sys & r & E & _).
  - lia.
  - apply host_with_paired. split; vm_compute; discriminate.
  - vm_compute. repeat split; discriminate.
  - by vm_compute.
  - exists sys, r. exact E.
Defined.

(** Silence, in polls a second apart; ten minutes of it are more than the idle timeout and
    more than the bandwidth limits would allow if they were not renewed. *)
Fixpoint silence (n : nat) (side : Side) (t : Instant) : list Round :=
  match n with
  | O => []
  | S n => mkRound side [] t 0 identity :: silence n (other side) (t + from_secs 1)
  end.

Lemma silence_turns n : forall side t,
  taking_turns (from_secs 1) side t (silence n side (t + from_secs 1)).
Proof.
  assert (from_secs 1 = 1000000000) as E by by vm_compute.
  induction n as [|n IH]; intros side t; cbn [silence taking_turns]; [done|]. split; [done|].
  split; [cbn; rewrite E; lia|]. apply IH.
Qed.
Lemma silence_ok n : forall side t, Forall (round_ok 576 beating_config beating_config) (silence n side t).
Proof. induction n as [|n IH]; intros side t; constructor; [by split|apply IH]. Qed.
Lemma silence_heard n : forall side t,
  correspondence sample_addr sample_addr (silence n side t) [] [] = [].
Proof. induction n as [|n IH]; intros side t; [done|]. cbn. destruct side; apply IH. Qed.

Lemma heartbeats_keep_alive_witness : exists sys r,
  run_rounds sample_addr sample_addr (silence 600 Alice (from_secs 1))
    (mkSystem (host_with beating_config) (host_with beating_config) [] []) sample_rng = Some ([], sys, r) /\
  still_paired sample_addr sample_addr sys.
Proof.
  destruct (heartbeats_keep_alive 576 1400 sample_addr sample_addr beating_config beating_config 0
    (from_secs 1) Alice 0 (silence 600 Alice (from_secs 1)) (host_with beating_config)
    (host_with beating_config) (peer_with beating_config) (peer_with beating_config) sample_rng)
    as (sys & r & E & Hp).
  - split; [apply beating_compatible|apply silence_ok|split; vm_compute; discriminate].
  - lia.
  - split; split; vm_compute; first [reflexivity|discriminate].
  - exact (silence_turns 600 Alice 0).
  - apply host_with_paired. split; vm_compute; discriminate.
  - by vm_compute.
  - split; vm_compute; first [reflexivity|discriminate].
  - split; vm_compute; first [reflexivity|discriminate].
  - vm_compute. discriminate.
  - exists sys, r. rewrite silence_heard in E. split; [exact E|exact Hp].
Defined.
