(* ===== verification/EchoExample.v ===== *)
(** The example programs: the echo server [examples/server.rs] and its client
    [examples/client.rs], up to what they print, and the echo: everything a client says comes
    back to it. *)

From Stdlib Require Import Ascii String.
From S2P Require Import Prelude Core NetAddr Externs Packet Framing PeerParts Peer PeerFacts.
From S2P Require Import Fragmenter FragmenterFacts PeerEncoder Session PeerSession.
From S2P Require Import EncoderFacts.
From S2P Require Import SessionManager Sockets Host HostSystem HostDelivery Conversation.
From S2P Require Import Dialogue.
From S2P Require Import Correspondence.
Local Open Scope string_scope.
Local Open Scope list_scope.
Local Open Scope Z_scope.

(* ------------------------------------------------------------------ *)
(** ** Arguments                                                        *)
(* ------------------------------------------------------------------ *)

(** [str::parse] of an unsigned integer below [limit]. *)
Definition parse_uint (limit : Z) (s : string) : option Z :=
  let digits := match s with String "+" s' => s' | _ => s end in
  match read_digits_checked 10 limit 0 0 digits with
  | Some (n, k, EmptyString) => if k =? 0 then None else Some n
  | _ => None
  end.
Definition ok {E A} (r : result E A) : option A := match r with Ok a => Some a | Err _ => None end.

(** [args] are those of [env::args()], the program's name first. *)
Definition parse_bind_addr (args : list string) : option SocketAddr :=
  s ← args !! 1%nat; ok (SocketAddr_from_str s).

(** The client's arguments: [<server_addr> [count] [interval_ms]]. *)
Definition client_args (args : list string) : result string (SocketAddr * Z * Z) :=
  server_addr ← SocketAddr_from_str (default "127.0.0.1:9000" (args !! 1%nat));
  let count := default 5 (parse_uint (u64_max + 1) (default "5" (args !! 2%nat))) in
  let interval_ms := default 300 (parse_uint (u64_max + 1) (default "300" (args !! 3%nat))) in
  Ok (server_addr, count, interval_ms).

(* ------------------------------------------------------------------ *)
(** ** The server                                                       *)
(* ------------------------------------------------------------------ *)

(** The packet that goes back: same guarantees and channel. *)
Definition echo (pkt : Packet) : Packet :=
  Packet_new (pk_addr pkt) (pk_payload pkt) (pk_delivery pkt) (pk_ordering pkt) (pk_channel_id pkt).

Section Programs.
Context {X : Externs} {U C I : Type} `{!UdpSocket U, !Clock C, !Interceptor I}.
Context (iteration_order : list SocketAddr -> list SocketAddr).
#[local] Abbreviation Host := (Host U C I).
Implicit Types (h : Host) (r : Rng) (clk : SystemClock).

(** The body of the [while let Some(event) = host.recv()] loop; every event is printed as well. *)
Definition serve_event (event : SocketEvent) h : Host :=
  match event with
  | EvPacket pkt => Host_send (echo pkt) h
  | EvConnect _ | EvDisconnect _ | EvTimeout _ => h
  end.
(** The loop: the events in the order in which they are printed. *)
Fixpoint serve_pending (fuel : nat) h : list SocketEvent * Host :=
  match fuel with
  | O => ([], h)
  | S fuel =>
      match Host_recv h with
      | (Some event, h) => let x := serve_pending fuel (serve_event event h) in (event :: x.1, x.2)
      | (None, h) => ([], h)
      end
  end.

(** One round of the server's loop, at the reading [time] of the clock; [elapsed] is the later
    reading behind [Instant::elapsed].  [fuel] bounds the datagrams of the poll. *)
Definition server_round (fuel : nat) (time elapsed : Instant) h r
  : option (list SocketEvent * Host * Rng) :=
  '(h, r) ← Host_manual_poll elapsed iteration_order fuel time h r;
  let x := serve_pending (length (Host_get_event_receiver h)) h in
  Some (x.1, x.2, r).
(** The first [rounds] rounds; [clk] are the readings of the clock to come. *)
Fixpoint server_loop (rounds fuel : nat) clk h r : option (list SocketEvent * Host * Rng) :=
  match rounds with
  | O => Some ([], h, r)
  | S rounds =>
      let '(time, clk) := SystemClock_now clk in
      let '(elapsed, clk) := SystemClock_now clk in
      '(events, h, r) ← server_round fuel time elapsed h r;
      '(rest, h, r) ← server_loop rounds fuel clk h r;
      Some (events ++ rest, h, r)
  end.

(* ------------------------------------------------------------------ *)
(** ** The client                                                       *)
(* ------------------------------------------------------------------ *)

(** [format!("hello {} from {}", i, local).into_bytes()]. *)
Definition hello (i : Z) (local : SocketAddr) : list Z :=
  (fun a => Z.of_N (N_of_ascii a)) <$>
    list_ascii_of_string ("hello " +:+ pretty i +:+ " from " +:+ SocketAddr_to_string local).

(** The [while start.elapsed() < wait] loop, of at most [n] rounds. *)
Fixpoint client_wait (n fuel : nat) (start : Instant) (wait : Duration) clk h r
  : option (list SocketEvent * SystemClock * Host * Rng) :=
  match n with
  | O => None
  | S n =>
      let '(t, clk) := SystemClock_now clk in
      if duration_since t start <? wait then
        let '(time, clk) := SystemClock_now clk in
        let '(elapsed, clk) := SystemClock_now clk in
        '(h, r) ← Host_manual_poll elapsed iteration_order fuel time h r;
        let x := recv_events h in
        '(rest, clk, h, r) ← client_wait n fuel start wait clk x.2 r;
        Some (x.1 ++ rest, clk, h, r)
      else Some ([], clk, h, r)
  end.
(** The [for i in 0..count] loop, from [i] on. *)
Fixpoint client_loop (count : nat) (i : Z) (n fuel : nat) (server local : SocketAddr)
  (wait : Duration) clk h r : option (list SocketEvent * SystemClock * Host * Rng) :=
  match count with
  | O => Some ([], clk, h, r)
  | S count =>
      let h := Host_send (Packet_reliable_unordered server (hello i local)) h in
      let '(start, clk) := SystemClock_now clk in
      '(events, clk, h, r) ← client_wait n fuel start wait clk h r;
      '(rest, clk, h, r) ← client_loop count (i + 1) n fuel server local wait clk h r;
      Some (events ++ rest, clk, h, r)
  end.
End Programs.

Section Mains.
Context {X : Externs} {U I : Type} `{!UdpSocket U, !Interceptor I}.
Context (iteration_order : list SocketAddr -> list SocketAddr) (system : SystemClock).

(** What [main] fails with. *)
Inductive MainError : Type := BadAddress (e : string) | HostError (e : ErrorKind).

(** The server until it enters its loop: its host and the address it prints.  [None] is the panic of
    [unwrap]. *)
Definition server_start (args : list string) : option (result MainError (Host U SystemClock I * SocketAddr)) :=
  bind_addr ← match parse_bind_addr args with
              | Some a => Some a
              | None => ok (SocketAddr_from_str "127.0.0.1:9000")
              end;
  Some (map_err HostError (
    host ← bind_with_config system bind_addr Config_default;
    local ← Host_local_addr host;
    Ok (host, local))).
(** The server's first [rounds] rounds. *)
Definition server_main (args : list string) (rounds fuel : nat) (clk : SystemClock) (r : Rng)
  : option (result MainError (list SocketEvent)) :=
  started ← server_start args;
  match started with
  | Err e => Some (Err e)
  | Ok (host, _) => '(events, _, _) ← server_loop iteration_order rounds fuel clk host r; Some (Ok events)
  end.

(** The client: what it prints, if its waits take at most [n] rounds each. *)
Definition client_main (args : list string) (n fuel : nat) (clk : SystemClock) (r : Rng)
  : option (result MainError (list SocketEvent)) :=
  match map_err BadAddress (client_args args) with
  | Err e => Some (Err e)
  | Ok (server_addr, count, interval_ms) =>
      match (host ← bind_any system; local ← Host_local_addr host;
             Ok (host : Host U SystemClock I, local)) with
      | Err e => Some (Err (HostError e))
      | Ok (host, local) =>
          '(events, _, _, _) ← client_loop iteration_order (Z.to_nat count) 0 n fuel server_addr local
                                 (from_millis interval_ms) clk host r;
          Some (Ok events)
      end
  end.
End Mains.

(* ------------------------------------------------------------------ *)
(** ** Serving                                                          *)
(* ------------------------------------------------------------------ *)

(** The echoes of a list of events: the packets among them, each with its bytes, its guarantees and
    its channel, and with the address it came from as the one it goes to. *)
Definition echoes (events : list SocketEvent) : list Packet :=
  omap (fun event => match event with EvPacket pkt => Some pkt | _ => None end) events.
Lemma echo_same pkt : echo pkt = pkt.
Proof. by destruct pkt. Qed.

Section Serving.
Context {X : Externs} {U C I : Type} `{!UdpSocket U, !Clock C, !Interceptor I}.
#[local] Abbreviation Host := (Host U C I).
Implicit Types (h : Host).

(** [h] with more packets to send. *)
Definition queue_packets (pkts : list Packet) h : Host :=
  set_handler (set_user_events (sm_user_events (h_handler h) ++ pkts) (h_handler h)) h.

(** [h] with no event left to receive. *)
Definition without_events h : Host :=
  let mg := sm_messenger (h_handler h) in
  set_handler (set_messenger (mkMessenger (mg_config mg) (mg_socket mg) [] (mg_pending_sends mg)
    (mg_pending_events mg) (mg_interceptor mg) (mg_send_pool mg)) (h_handler h)) h.

Lemma queue_packets_nil h : queue_packets [] h = h.
Proof. unfold queue_packets. rewrite app_nil_r. by destruct h as [[] ?]. Qed.
Lemma queue_packets_app l k h : queue_packets k (queue_packets l h) = queue_packets (l ++ k) h.
Proof. unfold queue_packets. cbn. by rewrite app_assoc. Qed.
(** Receiving takes no notice of what is to be sent. *)
Lemma recv_queued pkts h : Host_recv (queue_packets pkts h) =
  ((Host_recv h).1, queue_packets pkts (Host_recv h).2).
Proof.
  unfold Host_recv, queue_packets. cbn. by destruct (mg_sent_events (sm_messenger (h_handler h))).
Qed.
Lemma serve_event_queues event h : serve_event event h = queue_packets (echoes [event]) h.
Proof.
  destruct event; cbn [serve_event]; [by rewrite echo_same|..]; by rewrite queue_packets_nil.
Qed.

Lemma serve_queued n : forall pkts h, serve_pending n (queue_packets pkts h) =
  ((recv_all n h).1, queue_packets (pkts ++ echoes (recv_all n h).1) (recv_all n h).2).
Proof.
  induction n as [|n IH]; intros pkts h; cbn [serve_pending recv_all]; [by rewrite app_nil_r|].
  rewrite recv_queued. destruct (Host_recv h) as [[event|] h1]; cbn [fst snd].
  - rewrite serve_event_queues, queue_packets_app, IH. cbn [fst snd].
    unfold echoes. by rewrite <-app_assoc, <-omap_app.
  - by rewrite app_nil_r.
Qed.

(** C33: Serving.  Given a round for each pending event, the loop over the events ends: it takes
    all that are pending, in order, and queues for each packet among them, in order and behind
    what the host had still to send, one packet with the same bytes, channel, delivery and
    ordering guarantee that goes back to the address it came from; connections, disconnects and
    timeouts queue nothing, and nothing else about the host changes. *)
Theorem serve_echoes n h (Hn : (length (Host_get_event_receiver h) <= n)%nat) :
  let x := serve_pending n h in
  x.1 = Host_get_event_receiver h /\ Host_get_event_receiver x.2 = [] /\
  x.2 = queue_packets (echoes (Host_get_event_receiver h)) (without_events h).
Proof.
  cbv zeta. pose proof (serve_queued n [] h) as E. rewrite queue_packets_nil in E. rewrite E. cbn [fst snd app].
  destruct (recv_all_run n h Hn) as (E1 & _ & E3). rewrite E1, E3. done.
Qed.

(** The echoes of what was received from one side are the messages for it. *)
Lemma echoes_of a xs : echoes (events_of a xs) = packet_to a <$> xs.
Proof. induction xs as [|x xs IH]; [done|]. cbn. f_equal. exact IH. Qed.
End Serving.

(* ------------------------------------------------------------------ *)
(** ** Waiting                                                          *)
(* ------------------------------------------------------------------ *)

(** The clock advances by [d] at least from reading to reading. *)
Definition advancing (d : Duration) (clk : SystemClock) : Prop := forall k, clk k + d <= clk (S k).

(** The client's loop over the time ends after as many rounds as fit the wait, unless a poll does
    not return. *)
Lemma client_wait_ends {X : Externs} {U C I : Type} `{!UdpSocket U, !Clock C, !Interceptor I}
  order d start wait fuel n : 0 < d -> forall clk (h : Host U C I) r,
  advancing d clk -> wait <= clk 0%nat - start + 3 * d * (Z.of_nat n - 1) -> (0 < n)%nat ->
  is_Some (client_wait order n fuel start wait clk h r) \/
  exists time elapsed (h' : Host U C I) r', Host_manual_poll elapsed order fuel time h' r' = None.
Proof.
  intros Hd. induction n as [|n IH]; intros clk h r Hclk Hw Hn; [lia|].
  cbn [client_wait]. unfold SystemClock_now. unfold duration_since, saturating_sub.
  destruct (Z.ltb_spec (Z.max 0 (clk 0%nat - start)) wait) as [Hlt|_]; [|by left].
  destruct (Host_manual_poll (clk 2%nat) order fuel (clk 1%nat) h r) as [[h1 r1]|] eqn:E;
    [|right; by eexists _, _, _, _].
  pose proof (Hclk 0%nat). pose proof (Hclk 1%nat). pose proof (Hclk 2%nat).
  destruct (IH (fun k => clk (S (S (S k)))) (recv_events h1).2 r1) as [[[[[evs clk1] h2] r2] E2]|Hp];
    [intros k; apply Hclk|lia|lia| |by right].
  left. cbn [mbind option_bind]. rewrite E2. by eexists.
Qed.

(** Addresses.  The address that the server prints can be given to the client, and to a server:
    both read it as the address it is, and the client falls back to five messages every 300ms. *)
Theorem printed_address_read prog a (Ha : SocketAddr_ok a) :
  parse_bind_addr [prog; SocketAddr_to_string a] = Some a /\
  client_args [prog; SocketAddr_to_string a] = Ok (a, 5, 300).
Proof.
  pose proof (socket_from_to_string a Ha) as E.
  split; [exact (f_equal ok E)|]. unfold client_args. cbn [lookup list_lookup default from_option id].
  rewrite E. reflexivity.
Qed.

Lemma printed_address_read_witness :
  parse_bind_addr ["server"; "[2001:db8::1]:7777"] =
    Some (mkSocketAddr (IpV6 (Ipv6Addr_new 8193 3512 0 0 0 0 0 1)) 7777).
Proof.
  destruct (printed_address_read "server" (mkSocketAddr (IpV6 (Ipv6Addr_new 8193 3512 0 0 0 0 0 1)) 7777))
    as [E _]; [split; vm_compute; split; (reflexivity || discriminate)|exact E].
Defined.

(* ------------------------------------------------------------------ *)
(** ** The echo                                                         *)
(* ------------------------------------------------------------------ *)

(** A client's round and the server's next one; the messages of the latter are not looked at. *)
Record EchoRound : Type := mkEchoRound { er_client : Round; er_server : Round }.

Section Echo.
Context {X : Externs} {U C I : Type} `{!UdpSocket U, !Network U, !Clock C, !Interceptor I}.
#[local] Abbreviation Host := (Host U C I).
Implicit Types (h : Host) (r : Rng).

(** The server's round on the network: [mail] has come in from [from]. *)
Definition server_turn (x : Round) (from : SocketAddr) (mail : list (list Z)) h r
  : option (list SocketEvent * list (list Z) * Host * Rng) :=
  let h := on_socket (bring ((., from) <$> mail)) h in
  '(events, h, r) ← server_round (rn_order x) (S (length mail)) (rn_time x) (rn_clock x) h r;
  Some (events, (filter (fun d => d.2 = from) (departed (host_socket h))).*1, h, r).

(** A client and the server in turns: what the client hears, the two hosts, and the datagrams under
    way to the client. *)
Fixpoint echo_run (client server : SocketAddr) (rounds : list EchoRound) (hC hS : Host)
  (mail : list (list Z)) r : option (list SocketEvent * Host * Host * list (list Z) * Rng) :=
  match rounds with
  | [] => Some ([], hC, hS, mail, r)
  | x :: rounds =>
      '(events, out, hC, r) ← host_round (er_client x) server mail hC r;
      '(_, mail, hS, r) ← server_turn (er_server x) client out hS r;
      '(rest, hC, hS, mail, r) ← echo_run client server rounds hC hS mail r;
      Some (events ++ rest, hC, hS, mail, r)
  end.

(** The server's round with its messages: what the client said in the round before. *)
Definition answer (pending : list Message) (x : EchoRound) : Round :=
  mkRound (rn_side (er_server x)) pending (rn_time (er_server x)) (rn_clock (er_server x))
    (rn_order (er_server x)).
Fixpoint answered_rounds (pending : list Message) (rounds : list EchoRound) : list Round :=
  match rounds with
  | [] => []
  | x :: rounds =>
      er_client x :: answer pending x :: answered_rounds (rn_messages (er_client x)) rounds
  end.
(** What the client hears: the echoes on their way, those the server has yet to send, and then all
    that it says, two rounds later. *)
Fixpoint echoed (server : SocketAddr) (coming pending : list Message) (rounds : list EchoRound)
  : list SocketEvent :=
  match rounds with
  | [] => []
  | x :: rounds => events_of server coming ++ echoed server pending (rn_messages (er_client x)) rounds
  end.

Lemma on_socket_queued (f : U -> U) pkts h : on_socket f (queue_packets pkts h) = queue_packets pkts (on_socket f h).
Proof. done. Qed.

(** The server's round is that of a host that sends the echoes it has queued, up to the echoes that it
    queues anew. *)
Lemma server_turn_run x from mail h r events out h' r' :
  host_round x from mail h r = Some (events, out, h', r') ->
  server_turn x from mail (queue_packets (packet_to from <$> rn_messages x) h) r =
    Some (events, out, queue_packets (echoes events) h', r').
Proof.
  unfold host_round, server_turn, server_round. rewrite send_packets_run.
  intros ([h1 r1] & E & H)%bind_Some. injection H as <- <- <- <-.
  rewrite on_socket_queued. unfold queue_packets at 1. rewrite E. cbn [mbind option_bind].
  pose proof (serve_queued (length (Host_get_event_receiver h1)) [] h1) as Es.
  rewrite queue_packets_nil in Es. rewrite Es. cbn [fst snd app]. done.
Qed.

Context {L : ByteOrderLaws X} `{!CrcLaws X, !ZlibLaws X, !Lz4Laws X} (lo hi : Z).
#[local] Abbreviation Seat := (@Seat U C I).

(** Neither side is silent for too long, and the bandwidth limits are not used up. *)
Definition going (cC cS : Config) (rounds : list Round) (t : Instant) (sC sS : Seat) : Prop :=
  lively_seats cC cS rounds t sC sS /\ flowing lo cC cS rounds sC sS.
Lemma going_turn cC cS x rounds t sC sS : going cC cS (x :: rounds) t sC sS ->
  kept_at (config_of (rn_side x) cC cS) (rn_time x) (seat_of (rn_side x) sC sS) /\
  affordable lo (config_of (rn_side x) cC cS) x (seat_of (rn_side x) sC sS) /\
  forall sC' sS', turned lo (config_of (rn_side x) cC cS) x (seat_of (rn_side x) sC sS)
      (seat_of (other (rn_side x)) sC sS) (seat_of (rn_side x) sC' sS') (seat_of (other (rn_side x)) sC' sS') ->
    going cC cS rounds (rn_time x) sC' sS'.
Proof.
  intros [Hl Hf]. split; [by eapply lively_kept|]. split; [by eapply flowing_affordable|].
  intros sC' sS' Ht. split; [by eapply lively_turn|by eapply flowing_turn].
Qed.

(** A client's round and the server's answer, from seat to seat. *)
Lemma echo_turns client server cC cS x pending n (sC sS : Seat) r t rounds :
  talkative lo hi cC cS (answered_rounds pending (x :: rounds)) ->
  rn_side (er_client x) = Alice -> rn_side (er_server x) = Bob -> 0 <= n ->
  going cC cS (answered_rounds pending (x :: rounds)) t sC sS ->
  in_touch lo hi client server cC cS
    (n + round_cost lo cS (answer pending x) + round_cost lo cC (er_client x)) sC sS ->
  se_messages sS = [] -> se_mail sS = [] ->
  exists out sC' sS' r1 r',
    host_round (er_client x) server (se_mail sC) (se_host sC) r =
      Some (events_of server (se_messages sC), out, se_host sC', r1) /\
    server_turn (er_server x) client out (queue_packets (packet_to client <$> pending) (se_host sS)) r1 =
      Some (events_of client (rn_messages (er_client x)), se_mail sC',
        queue_packets (packet_to client <$> rn_messages (er_client x)) (se_host sS'), r') /\
    in_touch lo hi client server cC cS n sC' sS' /\ se_messages sC' = pending /\
    se_messages sS' = [] /\ se_mail sS' = [] /\
    going cC cS (answered_rounds (rn_messages (er_client x)) rounds) (rn_time (er_server x)) sC' sS'.
Proof.
  intros Ht HsC HsS Hn Hl [HC HS] Hmsg Hmail. cbn [answered_rounds] in *.
  apply talkative_cons in Ht as [[Ho1 Hx1] Ht]. apply talkative_cons in Ht as [[Ho2 Hx2] Ht].
  pose proof (tk_compatible _ _ _ _ _ Ht) as Hc. set (y := answer pending x) in *.
  assert (rn_side y = Bob) as HsY by exact HsS. pose proof (round_cost_nonneg lo cS y).
  apply going_turn in Hl as (K1 & A1 & Hl). rewrite HsC in Hx1, K1, A1, Hl. rewrite HsY in Hx2.
  destruct (link_round lo hi server client cC cS (er_client x) (n + round_cost lo cS y) sC sS r Hc Ho1 Hx1
    ltac:(lia) K1 A1 HC HS) as (out & s1 & o1 & r1 & E1 & Em1 & Eh1 & T1 & S1 & O1).
  specialize (Hl s1 o1 T1). apply going_turn in Hl as (K2 & A2 & Hl). rewrite HsY in K2, A2, Hl.
  rewrite (Z.add_shuffle0 (n + round_cost lo cS y)) in S1, O1.
  destruct (link_round lo hi client server cS cC y n o1 s1 r1 (compatible_sym _ _ _ _ Hc) Ho2 Hx2 Hn K2 A2 O1 S1)
    as (out2 & s2 & o2 & r2 & E2 & Em2 & Eh2 & T2 & S2 & O2).
  destruct (tu_clear _ _ _ _ _ _ _ T1) as (C1 & C2 & _). destruct (tu_clear _ _ _ _ _ _ _ T2) as (C3 & C4 & _).
  pose proof (tu_messages _ _ _ _ _ _ _ T1) as M1. pose proof (tu_messages _ _ _ _ _ _ _ T2) as M2.
  rewrite Hmail in Em1. rewrite Hmsg in M1. rewrite C2 in Em2. rewrite C1 in M2. cbn [app] in *.
  apply server_turn_run in E2. rewrite M1, Em1, Eh1, echoes_of in E2.
  exists out, o2, s2, r1, r2. split; [by rewrite Eh2|]. split; [rewrite Em2; exact E2|].
  split; [split; by rewrite (Z.add_shuffle0 n)|]. split; [exact M2|]. split; [exact C3|]. split; [exact C4|].
  exact (Hl o2 s2 T2).
Qed.

Lemma echo_runs client server cC cS n rounds : 0 <= n ->
  Forall (fun x => rn_side (er_client x) = Alice /\ rn_side (er_server x) = Bob) rounds ->
  forall pending (sC sS : Seat) r t, talkative lo hi cC cS (answered_rounds pending rounds) ->
  going cC cS (answered_rounds pending rounds) t sC sS ->
  in_touch lo hi client server cC cS (n + total_cost lo cC cS (answered_rounds pending rounds)) sC sS ->
  se_messages sS = [] -> se_mail sS = [] ->
  exists hC hS mail r', echo_run client server rounds (se_host sC)
      (queue_packets (packet_to client <$> pending) (se_host sS)) (se_mail sC) r =
    Some (echoed server (se_messages sC) pending rounds, hC, hS, mail, r').
Proof.
  intros Hn Hs. induction Hs as [|x rounds [HsC HsS] _ IH]; intros pending sC sS r t Ht Hl Hi Hmsg Hmail.
  { by eexists _, _, _, _. }
  unfold total_cost in Hi. cbn [answered_rounds] in Hi. rewrite !zsum_cons in Hi.
  assert (rn_side (answer pending x) = Bob) as HsY by exact HsS. rewrite HsC, HsY in Hi.
  set (rest := answered_rounds (rn_messages (er_client x)) rounds) in *. fold (total_cost lo cC cS rest) in Hi.
  pose proof (total_cost_nonneg lo cC cS rest). cbn [config_of] in Hi.
  destruct (echo_turns client server cC cS x pending (n + total_cost lo cC cS rest) sC sS r t rounds Ht HsC HsS
    ltac:(lia) Hl) as (out & sC' & sS' & r1 & r2 & E1 & E2 & Hi' & Em & Hmsg' & Hmail' & Hl'); [|done|done|].
  { replace (n + total_cost lo cC cS rest + round_cost lo cS (answer pending x) + round_cost lo cC (er_client x))
      with (n + (round_cost lo cC (er_client x) + (round_cost lo cS (answer pending x) + total_cost lo cC cS rest)))
      by lia. exact Hi. }
  cbn [answered_rounds] in Ht. apply talkative_cons in Ht as [_ Ht]. apply talkative_cons in Ht as [_ Ht].
  destruct (IH (rn_messages (er_client x)) sC' sS' r2 _ Ht Hl' Hi' Hmsg' Hmail') as (hC & hS & mail & r' & E).
  exists hC, hS, mail, r'. cbn [echo_run echoed]. rewrite E1. cbn [mbind option_bind]. rewrite E2.
  cbn [mbind option_bind]. rewrite E, Em. done.
Qed.

(** After two more rounds all is back. *)
Lemma echoed_all server talk x y : forall coming pending,
  echoed server coming pending (talk ++ [x; y]) =
  events_of server (coming ++ pending ++ concat ((fun z => rn_messages (er_client z)) <$> talk)).
Proof.
  unfold events_of. induction talk as [|z talk IH]; intros coming pending; cbn [app echoed fmap list_fmap concat].
  - unfold events_of. by rewrite !app_nil_r, fmap_app.
  - rewrite IH. unfold events_of. by rewrite <-fmap_app.
Qed.

(** C6: The echo of unordered packets.  A client and the echo server, paired as in the correspondence
    theorem, take turns: the client sends packets and polls, the server goes through its loop
    once, at times at which neither has been silent past the other's idle timeout and no second
    uses up a bandwidth limit.  The packets are reliable or unreliable, without ordering, and fit
    both ways: within the limits of waiting data and, at the smallest datagram size of the path,
    at most 255 and at most [max_fragments] fragments.  Whatever of this kind the client says
    comes back to it two rounds later, from the server's address: every packet once, in order,
    with its bytes, channel and guarantee, and nothing else; so after two more rounds it has heard
    exactly all that it said. *)
Theorem echo_returns client server cC cS n rounds hC hS pC pS r
  (Hok : talkative lo hi cC cS (answered_rounds [] rounds))
  (Hsides : Forall (fun x => rn_side (er_client x) = Alice /\ rn_side (er_server x) = Bob) rounds)
  (Hn : 0 <= n)
  (Hpaired : paired lo hi client server cC cS (n + total_cost lo cC cS (answered_rounds [] rounds)) hC hS pC pS)
  (Hlively : lively cC cS (answered_rounds [] rounds) (p_last_heard pC) (p_last_heard pS) false false)
  (Hlimits : within_limits lo cC cS (answered_rounds [] rounds) (meter_of pC) (meter_of pS) = true) :
  (exists hC' hS' mail r', echo_run client server rounds hC hS [] r =
     Some (echoed server [] [] rounds, hC', hS', mail, r')) /\
  (forall talk x y, rounds = talk ++ [x; y] ->
     echoed server [] [] rounds =
     events_of server (concat ((fun z => rn_messages (er_client z)) <$> talk))).
Proof.
  split; [|intros talk x y ->; apply echoed_all].
  destruct (echo_runs client server cC cS n rounds Hn Hsides [] (seat_from hC pC) (seat_from hS pS) r 0 Hok)
    as (hC' & hS' & mail & r' & E).
  - split; [|by apply paired_flowing]. split; [apply Hok|]. split; [apply Hok|].
    exists (p_last_heard pC), (p_last_heard pS), false, false. split; [done|]. by split; split.
  - by apply paired_in_touch.
  - done.
  - done.
  - exists hC', hS', mail, r'. cbn [fmap list_fmap se_host seat_from polled se_mail se_messages] in E.
    by rewrite queue_packets_nil in E.
Qed.
End Echo.

(* ------------------------------------------------------------------ *)
(** ** A concrete echo                                                  *)
(* ------------------------------------------------------------------ *)

Import Loopback Sample.

(** The client says hello and then listens. *)
Definition listen (t : Z) (xs : list Message) : EchoRound :=
  mkEchoRound (mkRound Alice xs (from_secs t) 0 identity) (mkRound Bob [] (from_secs t) 0 identity).
Definition hellos : list EchoRound :=
  [listen 1 [mkMessage Reliable 0 (hello 0 sample_addr)]; listen 2 []; listen 3 []].

Lemma hello_sayable : sayable_message 576 beating_config (mkMessage Reliable 0 (hello 0 sample_addr)).
Proof.
  split; [by vm_compute| |split; [by vm_compute|intros _; by vm_compute]|by vm_compute|by vm_compute].
  apply Forall_forall. intros x (a & -> & _)%list_elem_of_fmap. unfold u8_ok.
  pose proof (N_ascii_bounded a). lia.
Qed.

Lemma echo_returns_witness : exists hC hS mail r,
  echo_run sample_addr sample_addr hellos (host_with beating_config) (host_with beating_config) [] sample_rng =
  Some ([EvPacket (Packet_reliable_unordered sample_addr (hello 0 sample_addr))], hC, hS, mail, r).
Proof.
  destruct (echo_returns 576 1400 sample_addr sample_addr beating_config beating_config 0 hellos
    (host_with beating_config) (host_with beating_config) (peer_with beating_config)
    (peer_with beating_config) sample_rng) as [(hC & hS & mail & r & E) _].
  - split; [apply beating_compatible| |split; vm_compute; discriminate].
    repeat (apply Forall_cons_2); [..|constructor]; (split; [done|]);
      repeat (apply Forall_cons_2; [apply hello_sayable|]); constructor.
  - repeat constructor.
  - lia.
  - apply host_with_paired. split; vm_compute; discriminate.
  - vm_compute. repeat split; discriminate.
  - by vm_compute.
  - exists hC, hS, mail, r. exact E.
Defined.

Lemma serve_echoes_witness :
  let h := set_handler (set_messenger (mkMessenger Config_default (mkSocketWithConditioner false (mkSock sample_addr [] []))
    [EvConnect sample_addr; EvPacket (Packet_new sample_addr [1; 2] Unreliable Unsequenced 3)] [] [] (NoOp tt)
    (mg_send_pool (sm_messenger (h_handler (host_with Config_default)))))
    (h_handler (host_with Config_default))) (host_with Config_default) in
  sm_user_events (h_handler (serve_pending 2 h).2) = [Packet_new sample_addr [1; 2] Unreliable Unsequenced 3].
Proof.
  intros h. destruct (serve_echoes 2 h) as (_ & _ & ->); [cbn; lia|reflexivity].
Defined.
