(* ===== verification/Testing.v ===== *)
(** Running the unit tests of the repository on the model: a test is a computation that panics
    when an assertion fails, as it does in Rust, and passes when it returns. *)

From S2P Require Import Prelude Core NetAddr Externs Buffers Packet Command PeerParts Peer.
From S2P Require Import PeerEncoder CommandProcessor.

Definition Test : Type := option unit.

(** [assert!], [assert_eq!] and [unwrap()]. *)
Definition assert (b : bool) : option unit := if b then Some tt else None.
Definition assert_eq {A} `{!EqDecision A} (x y : A) : option unit := assert (bool_decide (x = y)).
Definition unwrap {E A} (r : result E A) : option A :=
  match r with Ok a => Some a | Err _ => None end.
Definition is_some {A} (o : option A) : bool := match o with Some _ => true | None => false end.
Definition is_none {A} (o : option A) : bool := negb (is_some o).
Definition is_err {E A} (r : result E A) : bool := negb (is_ok r).

(** A byte string literal [b"..."]. *)
Definition b (s : string) : list Z :=
  (fun a => Z.of_N (Ascii.N_of_ascii a)) <$> String.list_ascii_of_string s.
(** [vec![x; n]]. *)
Definition vec (x n : Z) : list Z := replicate (Z.to_nat n) x.

(** [for _ in 0..n { ... }]. *)
Fixpoint repeat_times {S} (n : nat) (f : S -> option S) (s : S) : option S :=
  match n with O => Some s | Datatypes.S n => s ← f s; repeat_times n f s end.

(** The tests of a file by name, and those that fail. *)
Definition failures (tests : list (string * Test)) : list string :=
  omap (fun t => match t.2 with Some _ => None | None => Some t.1 end) tests.

(** A call of a method of a peer.  The random numbers are the same ones in every call; no test
    depends on them. *)
Definition test_rng : Rng := fun n => Z.of_nat n.
Definition run {A} (m : PeerM A) (p : Peer) : option (A * Peer) :=
  '(a, p, _) ← m p test_rng; Some (a, p).

(** A reading of the clock when the test starts. *)
Definition start_time : Instant := 1000000000000.

(* ------------------------------------------------------------------ *)
(** ** Peers under test                                                 *)
(* ------------------------------------------------------------------ *)

(** The address [127.0.0.1:port]. *)
Definition loopback (port : Z) : SocketAddr := mkSocketAddr (IpV4 (Ipv4Addr_new 127 0 0 1)) port.

(** The helpers of the test modules of [bitfold-peer/src/peer]: each has its own copy of
    [get_fake_addr] and [create_virtual_connection]. *)
Definition get_fake_addr : SocketAddr := loopback 0.
Definition new_peer (config : Config) (time : Instant) : Peer :=
  (Peer_new get_fake_addr config time test_rng).1.
Definition create_virtual_connection : Peer := new_peer Config_default start_time.

(** The calls the tests make, with the [unwrap()] that follows them. *)
Definition enqueue (command : ProtocolCommand) (peer : Peer) : option Peer :=
  '(_, peer) ← run (Peer_enqueue_command command) peer; Some peer.
Definition drain (peer : Peer) : option (list ProtocolCommand * Peer) := run Peer_drain_commands peer.

Section Calls.
Context {X : Externs}.

(** [peer.process_command(&command, time).unwrap().into_iter().collect()]. *)
Definition process (command : ProtocolCommand) (time : Instant) (peer : Peer)
  : option (list Packet * Peer) :=
  '(result, peer) ← run (Peer_process_command command time) peer;
  packets ← unwrap result;
  Some ((ZeroOrMore_collect packets).*1, peer).
(** The same for [process_command_packet]. *)
Definition process_bytes (bytes : list Z) (time : Instant) (peer : Peer)
  : option (list Packet * Peer) :=
  '(result, peer) ← run (Peer_process_command_packet bytes time) peer;
  packets ← unwrap result;
  Some ((ZeroOrMore_collect packets).*1, peer).
(** [peer.encode_queued_commands().unwrap()]. *)
Definition encode (peer : Peer) : option (list Z * Peer) :=
  '(result, peer) ← run (Peer_encode_queued_commands start_time) peer;
  bytes ← unwrap result;
  Some (bytes, peer).
End Calls.
