(* ===== verification/ProtocolTests.v ===== *)
(** The unit tests of [bitfold-protocol]: [checksum.rs], [compression.rs], the codec's
    [tests.rs], [command.rs], [channel.rs], [bandwidth.rs], [congestion.rs] and
    [acknowledgment.rs].  A [sleep] of the source is a later reading of the clock. *)

From S2P Require Import Prelude Float32 Core Externs Buffers Packet Command Codec Framing.
From S2P Require Import Congestion Ack Bandwidth Channel Testing.
Import Externs.Sample.

(* ------------------------------------------------------------------ *)
(** ** [command_codec/checksum.rs]                                      *)
(* ------------------------------------------------------------------ *)

Definition test_checksum_append_and_validate : Test :=
  let data := b "Hello, world!" in
  let with_checksum := append_checksum data in
  assert_eq (zlen with_checksum) (zlen data + 4);;
  validated ← unwrap (validate_and_strip_checksum with_checksum);
  assert_eq validated data.

Definition test_checksum_validation_fails_on_corruption : Test :=
  let data := b "Hello, world!" in
  let with_checksum := append_checksum data in
  let len := length with_checksum in
  let with_checksum := alter (fun x => Z.lxor x 255) (len - 1)%nat with_checksum in
  assert (is_err (validate_and_strip_checksum with_checksum)).

Definition test_checksum_validation_rejects_short_data : Test :=
  let data := b "Hi" in
  assert (is_err (validate_and_strip_checksum data)).

Definition test_checksum_with_empty_data : Test :=
  let data := b "" in
  let with_checksum := append_checksum data in
  assert_eq (zlen with_checksum) 4;;
  validated ← unwrap (validate_and_strip_checksum with_checksum);
  assert_eq validated data.

Definition test_append_checksum_in_place : Test :=
  let data := b "Test data" in
  let buffer := data in
  let buffer := append_checksum_in_place buffer in
  assert_eq (zlen buffer) (zlen data + 4);;
  validated ← unwrap (validate_and_strip_checksum buffer);
  assert_eq validated data.

Example checksum_tests_pass : failures [
  ("test_checksum_append_and_validate", test_checksum_append_and_validate);
  ("test_checksum_validation_fails_on_corruption", test_checksum_validation_fails_on_corruption);
  ("test_checksum_validation_rejects_short_data", test_checksum_validation_rejects_short_data);
  ("test_checksum_with_empty_data", test_checksum_with_empty_data);
  ("test_append_checksum_in_place", test_append_checksum_in_place)]%string = [].
Proof. vm_compute. reflexivity. Qed.

(* ------------------------------------------------------------------ *)
(** ** [command_codec/compression.rs]                                   *)
(* ------------------------------------------------------------------ *)

Definition test_compression_none : Test :=
  let data := b "Test data that will not be compressed" in
  compressed ← unwrap (compress data CompNone 10);
  marker ← compressed !! 0%nat;
  assert_eq marker 0;;
  assert_eq (drop 1 compressed) data;;
  decompressed ← unwrap (decompress compressed);
  assert_eq decompressed data.

Definition test_compression_zlib : Test :=
  let data := b "Test data that should compress well because it has lots of repetition repetition repetition" in
  compressed ← unwrap (compress data CompZlib 10);
  marker ← compressed !! 0%nat;
  assert_eq marker 1;;
  assert (zlen compressed <? zlen data + 1);;
  decompressed ← unwrap (decompress compressed);
  assert_eq decompressed data.

Definition test_compression_lz4 : Test :=
  let data := b "Test data that should compress well because it has lots of repetition repetition repetition" in
  compressed ← unwrap (compress data CompLz4 10);
  marker ← compressed !! 0%nat;
  assert_eq marker 2;;
  assert (zlen compressed <? zlen data + 5);;
  decompressed ← unwrap (decompress compressed);
  assert_eq decompressed data.

Definition test_compression_below_threshold : Test :=
  let data := b "tiny" in
  compressed ← unwrap (compress data CompZlib 100);
  marker ← compressed !! 0%nat;
  assert_eq marker 0;;
  assert_eq (drop 1 compressed) data.

Definition test_compression_ineffective : Test :=
  let data := b "a1b2c3d4e5f6g7h8i9j0" in
  compressed ← unwrap (compress data CompZlib 5);
  marker ← compressed !! 0%nat;
  if marker =? 0 then assert_eq (drop 1 compressed) data else Some tt.

Definition test_decompression_unknown_algorithm : Test :=
  let data := [99; 1; 2; 3] in
  assert (is_err (decompress data)).

(** [Vec::with_capacity] is an empty vector. *)
Definition test_compress_with_buffer_reuse : Test :=
  let data := b "Test data for buffer reuse" in
  let buffer := [] in
  compressed ← unwrap (compress_with_buffer data CompNone 10 buffer);
  marker ← compressed !! 0%nat;
  assert_eq marker 0;;
  assert_eq (drop 1 compressed) data.

Example compression_tests_pass : failures [
  ("test_compression_none", test_compression_none);
  ("test_compression_zlib", test_compression_zlib);
  ("test_compression_lz4", test_compression_lz4);
  ("test_compression_below_threshold", test_compression_below_threshold);
  ("test_compression_ineffective", test_compression_ineffective);
  ("test_decompression_unknown_algorithm", test_decompression_unknown_algorithm);
  ("test_compress_with_buffer_reuse", test_compress_with_buffer_reuse)]%string = [].
Proof. vm_compute. reflexivity. Qed.

(* ------------------------------------------------------------------ *)
(** ** [command_codec/tests.rs]                                         *)
(* ------------------------------------------------------------------ *)

Definition test_encode_decode_send_reliable : Test :=
  let cmd := SendReliable 0 42 true (SharedBytes_from_vec [1; 2; 3; 4]) in
  encoded ← unwrap (encode_command cmd);
  let cursor := Cursor_new encoded in
  '(decoded, cursor) ← unwrap (decode_command cursor);
  assert_eq cmd decoded.

Definition test_encode_decode_acknowledge : Test :=
  let cmd := Acknowledge 100 4294901760 (Some 12345) in
  encoded ← unwrap (encode_command cmd);
  let cursor := Cursor_new encoded in
  '(decoded, cursor) ← unwrap (decode_command cursor);
  assert_eq cmd decoded.

Definition test_encode_decode_packet : Test :=
  let packet := CommandPacket_new start_time in
  let packet := CommandPacket_add_command packet (Ping 1000) in
  let packet := CommandPacket_add_command packet
                  (SendUnreliable 0 (SharedBytes_from_vec [5; 6; 7])) in
  let packet := CommandPacket_add_command packet (Acknowledge 10 255 None) in
  encoded ← unwrap (encode_packet packet);
  decoded ← unwrap (decode_packet encoded start_time);
  assert_eq (length (commands packet)) (length (commands decoded));;
  foldM (fun _ '(orig, dec) => assert_eq orig dec) tt (zip (commands packet) (commands decoded)).

Definition test_encode_packet_into_matches_encode_packet : Test :=
  let packet := CommandPacket_new start_time in
  let packet := CommandPacket_add_command packet (Ping 123) in
  let packet := CommandPacket_add_command packet (Pong 456) in
  let packet := CommandPacket_add_command packet (Disconnect 42) in
  encoded_vec ← unwrap (encode_packet packet);
  into_buf ← unwrap (encode_packet_into [] packet);
  assert_eq encoded_vec into_buf.

Example codec_tests_pass : failures [
  ("test_encode_decode_send_reliable", test_encode_decode_send_reliable);
  ("test_encode_decode_acknowledge", test_encode_decode_acknowledge);
  ("test_encode_decode_packet", test_encode_decode_packet);
  ("test_encode_packet_into_matches_encode_packet",
     test_encode_packet_into_matches_encode_packet)]%string = [].
Proof. vm_compute. reflexivity. Qed.

(* ------------------------------------------------------------------ *)
(** ** [command.rs]                                                     *)
(* ------------------------------------------------------------------ *)

Definition test_command_types : Test :=
  let cmd := SendReliable 0 1 true (SharedBytes_from_vec [1; 2; 3]) in
  assert_eq (command_type cmd) 1;;
  assert (is_reliable cmd);;
  assert_eq (command_channel_id cmd) (Some 0).

Definition test_command_packet_aggregation : Test :=
  let packet := CommandPacket_new start_time in
  assert (CommandPacket_is_empty packet);;
  let packet := CommandPacket_add_command packet (Ping 100) in
  let packet := CommandPacket_add_command packet
                  (SendUnreliable 0 (SharedBytes_from_vec [1; 2; 3])) in
  assert_eq (CommandPacket_len packet) 2;;
  assert (negb (CommandPacket_is_empty packet)).

(* ------------------------------------------------------------------ *)
(** ** [channel.rs]                                                     *)
(* ------------------------------------------------------------------ *)

(** [match ordering { Ordered(_) => (), _ => panic!(...) }]. *)
Definition expect_ordered (o : OrderingGuarantee) : Test :=
  match o with Ordered _ => Some tt | _ => None end.
Definition expect_sequenced (o : OrderingGuarantee) : Test :=
  match o with Sequenced _ => Some tt | _ => None end.

Definition test_channel_creation : Test :=
  let ch := Channel_unreliable 0 in
  assert_eq (Channel_id ch) 0;;
  assert_eq (Channel_delivery ch) Unreliable;;
  assert_eq (Channel_ordering ch) OrderNone;;
  let ch := Channel_reliable_ordered 1 in
  assert_eq (Channel_id ch) 1;;
  assert_eq (Channel_delivery ch) Reliable;;
  expect_ordered (Channel_ordering ch).

Definition test_channel_manager : Test :=
  let manager := ChannelManager_new 4 in
  assert_eq (ChannelManager_channel_count manager) 4;;
  ch0 ← ChannelManager_get_channel 0 manager;
  assert_eq (Channel_id ch0) 0;;
  ch3 ← ChannelManager_get_channel 3 manager;
  assert_eq (Channel_id ch3) 3;;
  assert (is_none (ChannelManager_get_channel 4 manager)).

Definition test_channel_presets : Test :=
  let unreliable := Channel_unreliable 0 in
  assert_eq (Channel_delivery unreliable) Unreliable;;
  assert_eq (Channel_ordering unreliable) OrderNone;;
  let sequenced := Channel_unreliable_sequenced 1 in
  assert_eq (Channel_delivery sequenced) Unreliable;;
  expect_sequenced (Channel_ordering sequenced);;
  let reliable := Channel_reliable_unordered 2 in
  assert_eq (Channel_delivery reliable) Reliable;;
  assert_eq (Channel_ordering reliable) OrderNone;;
  let ordered := Channel_reliable_ordered 3 in
  assert_eq (Channel_delivery ordered) Reliable;;
  expect_ordered (Channel_ordering ordered).

Definition test_default_channels : Test :=
  let manager := ChannelManager_default_channels in
  assert_eq (ChannelManager_channel_count manager) 1;;
  ch ← ChannelManager_get_channel 0 manager;
  assert_eq (Channel_delivery ch) Reliable;;
  expect_ordered (Channel_ordering ch).

(* ------------------------------------------------------------------ *)
(** ** [bandwidth.rs]                                                   *)
(* ------------------------------------------------------------------ *)

Definition test_unlimited_bandwidth : Test :=
  let bw := BandwidthManager_unlimited start_time in
  can_send ← BandwidthManager_can_send_outgoing 1000000 bw;
  assert can_send;;
  can_receive ← BandwidthManager_can_receive_incoming 1000000 bw;
  assert can_receive;;
  assert (f32_eqb (BandwidthManager_outgoing_utilization bw) f32_zero);;
  assert (f32_eqb (BandwidthManager_incoming_utilization bw) f32_zero).

Definition test_utilization : Test :=
  let bw := BandwidthManager_new 1000 2000 (from_secs 1) start_time in
  bw ← BandwidthManager_record_sent 500 bw;
  assert (f32_eqb (BandwidthManager_outgoing_utilization bw) (f32_lit 1 2));;
  bw ← BandwidthManager_record_received 1000 bw;
  assert (f32_eqb (BandwidthManager_incoming_utilization bw) (f32_lit 1 2)).

Definition test_outgoing_bandwidth_limit : Test :=
  let bw := BandwidthManager_new 1000 0 (from_secs 1) start_time in
  can_send ← BandwidthManager_can_send_outgoing 500 bw;
  assert can_send;;
  bw ← BandwidthManager_record_sent 500 bw;
  can_send ← BandwidthManager_can_send_outgoing 500 bw;
  assert can_send;;
  bw ← BandwidthManager_record_sent 500 bw;
  can_send ← BandwidthManager_can_send_outgoing 100 bw;
  assert (negb can_send).

Definition test_bandwidth_window_reset : Test :=
  let bw := BandwidthManager_new 1000 0 (from_millis 10) start_time in
  bw ← BandwidthManager_record_sent 1000 bw;
  can_send ← BandwidthManager_can_send_outgoing 100 bw;
  assert (negb can_send);;
  let now := start_time + from_millis 15 in
  let bw := BandwidthManager_update_window now bw in
  can_send ← BandwidthManager_can_send_outgoing 500 bw;
  assert can_send.

Example protocol_tests_pass : failures [
  ("test_command_types", test_command_types);
  ("test_command_packet_aggregation", test_command_packet_aggregation);
  ("test_channel_creation", test_channel_creation);
  ("test_channel_manager", test_channel_manager);
  ("test_channel_presets", test_channel_presets);
  ("test_default_channels", test_default_channels);
  ("test_unlimited_bandwidth", test_unlimited_bandwidth);
  ("test_utilization", test_utilization);
  ("test_outgoing_bandwidth_limit", test_outgoing_bandwidth_limit);
  ("test_bandwidth_window_reset", test_bandwidth_window_reset)]%string = [].
Proof. vm_compute. reflexivity. Qed.

(* ------------------------------------------------------------------ *)
(** ** [congestion.rs]                                                  *)
(* ------------------------------------------------------------------ *)

Definition test_rtt_update : Test :=
  let cc := CongestionControl_default start_time in
  let cc := CongestionControl_update_rtt (from_millis 100) cc in
  assert (from_millis 50 <? CongestionControl_rtt cc);;
  let cc := CongestionControl_update_rtt (from_millis 100) cc in
  assert (CongestionControl_rtt cc <? from_millis 100).

Definition test_rto_calculation : Test :=
  let cc := CongestionControl_default start_time in
  let cc := CongestionControl_update_rtt (from_millis 100) cc in
  rto ← CongestionControl_rto cc;
  assert (CongestionControl_rtt cc <? rto).

Definition test_loss_rate : Test :=
  let cc := CongestionControl_default start_time in
  assert (f32_eqb (CongestionControl_loss_rate cc) f32_zero);;
  cc ← CongestionControl_record_sent cc;
  cc ← CongestionControl_record_sent cc;
  cc ← CongestionControl_record_loss cc;
  assert (f32_ltb (f32_abs (f32_sub (CongestionControl_loss_rate cc) (f32_lit 1 2)))
                  (f32_lit 1 100)).

Definition test_throttle_increases_with_loss : Test :=
  let cc := CongestionControl_default start_time in
  cc ← repeat_times 100 CongestionControl_record_sent cc;
  cc ← repeat_times 10 CongestionControl_record_loss cc;
  let later := start_time + from_millis 1100 in
  '(updated, cc) ← CongestionControl_update_throttle later cc;
  assert updated;;
  assert (f32_gtb (CongestionControl_throttle cc) f32_zero).

Definition test_advanced_throttling_enabled : Test :=
  let cc := CongestionControl_default start_time in
  assert (negb (CongestionControl_is_advanced_throttling_enabled cc));;
  let cc := CongestionControl_enable_advanced_throttling 32 2 2 5000 cc in
  assert (CongestionControl_is_advanced_throttling_enabled cc);;
  assert_eq (CongestionControl_throttle_scale cc) 32;;
  assert_eq (CongestionControl_packet_throttle cc) 32.

Definition test_advanced_throttle_decreases_with_loss : Test :=
  let cc := CongestionControl_default start_time in
  let cc := CongestionControl_enable_advanced_throttling 32 2 2 100 cc in
  let initial_throttle := CongestionControl_packet_throttle cc in
  assert_eq initial_throttle 32;;
  cc ← repeat_times 100 CongestionControl_record_sent cc;
  cc ← repeat_times 2 CongestionControl_record_loss cc;
  let later := start_time + from_millis 150 in
  '(updated, cc) ← CongestionControl_update_throttle later cc;
  assert updated;;
  assert (CongestionControl_packet_throttle cc <? initial_throttle);;
  assert (f32_gtb (CongestionControl_throttle cc) f32_zero).

Definition test_advanced_throttle_increases_with_good_conditions : Test :=
  let cc := CongestionControl_default start_time in
  let cc := CongestionControl_enable_advanced_throttling 32 2 2 100 cc in
  cc ← repeat_times 100 CongestionControl_record_sent cc;
  cc ← repeat_times 2 CongestionControl_record_loss cc;
  let now := start_time + from_millis 150 in
  '(_, cc) ← CongestionControl_update_throttle now cc;
  let throttled_value := CongestionControl_packet_throttle cc in
  assert (throttled_value <? 32);;
  cc ← repeat_times 1000 CongestionControl_record_sent cc;
  let now := now + from_millis 150 in
  '(_, cc) ← CongestionControl_update_throttle now cc;
  assert (throttled_value <? CongestionControl_packet_throttle cc).

Definition test_advanced_throttle_respects_scale : Test :=
  let cc := CongestionControl_default start_time in
  let cc := CongestionControl_enable_advanced_throttling 64 5 5 100 cc in
  assert_eq (CongestionControl_throttle_scale cc) 64;;
  assert_eq (CongestionControl_packet_throttle cc) 64;;
  '(cc, _) ← repeat_times 20 (fun '(cc, now) =>
    cc ← repeat_times 100 CongestionControl_record_sent cc;
    cc ← repeat_times 5 CongestionControl_record_loss cc;
    let now := now + from_millis 150 in
    '(_, cc) ← CongestionControl_update_throttle now cc;
    Some (cc, now)) (cc, start_time);
  assert (CongestionControl_packet_throttle cc <=? 64);;
  assert (f32_gtb (CongestionControl_throttle cc) (f32_lit 1 2)).

Definition test_configure_throttle_dynamically : Test :=
  let cc := CongestionControl_default start_time in
  let cc := CongestionControl_enable_advanced_throttling 32 2 2 5000 cc in
  let cc := CongestionControl_configure_throttle 1000 5 3 cc in
  cc ← repeat_times 50 CongestionControl_record_sent cc;
  cc ← CongestionControl_record_loss cc;
  let now := start_time + from_millis 1100 in
  '(updated, cc) ← CongestionControl_update_throttle now cc;
  assert updated.

Example congestion_tests_pass : failures [
  ("test_rtt_update", test_rtt_update);
  ("test_rto_calculation", test_rto_calculation);
  ("test_loss_rate", test_loss_rate);
  ("test_throttle_increases_with_loss", test_throttle_increases_with_loss);
  ("test_advanced_throttling_enabled", test_advanced_throttling_enabled);
  ("test_advanced_throttle_decreases_with_loss", test_advanced_throttle_decreases_with_loss);
  ("test_advanced_throttle_increases_with_good_conditions",
     test_advanced_throttle_increases_with_good_conditions);
  ("test_advanced_throttle_respects_scale", test_advanced_throttle_respects_scale);
  ("test_configure_throttle_dynamically", test_configure_throttle_dynamically)]%string = [].
Proof. vm_compute. reflexivity. Qed.

(* ------------------------------------------------------------------ *)
(** ** [acknowledgment.rs]                                              *)
(* ------------------------------------------------------------------ *)

(** [handler.process_outgoing(PacketType::Packet, payload, OrderingGuarantee::None, None, now)]. *)
Definition send_payload (payload : list Z) (now : Instant)
  : AcknowledgmentHandler -> option AcknowledgmentHandler :=
  AcknowledgmentHandler_process_outgoing TypePacket payload OrderNone None now.

Definition test_rtt_tracking_on_ack : Test :=
  let handler := AcknowledgmentHandler_new start_time in
  let now := start_time in
  handler ← send_payload (b "test payload") now handler;
  let seq := wrapping_sub16 (AcknowledgmentHandler_local_sequence_num handler) 1 in
  let later := now + from_millis 50 in
  handler ← AcknowledgmentHandler_process_incoming 0 seq 0 later handler;
  let rtt := AcknowledgmentHandler_rtt handler in
  assert ((45 <=? as_millis rtt) && (as_millis rtt <=? 100)).

Definition test_packet_loss_tracking : Test :=
  let handler := AcknowledgmentHandler_new start_time in
  let now := start_time in
  handler ← repeat_times 10 (send_payload (b "test") now) handler;
  assert_eq (AcknowledgmentHandler_packets_in_flight handler) 10;;
  assert (f32_eqb (AcknowledgmentHandler_loss_rate handler) f32_zero);;
  let initial_loss_rate := AcknowledgmentHandler_loss_rate handler in
  assert (f32_ltb initial_loss_rate (f32_lit 1 100)).

Definition test_congestion_metrics_api : Test :=
  let handler := AcknowledgmentHandler_new start_time in
  assert (40 <=? as_millis (AcknowledgmentHandler_rtt handler));;
  rto ← AcknowledgmentHandler_rto handler;
  assert (AcknowledgmentHandler_rtt handler <? rto);;
  assert (f32_eqb (AcknowledgmentHandler_loss_rate handler) f32_zero);;
  assert (f32_eqb (AcknowledgmentHandler_throttle handler) f32_zero).

Definition test_throttle_update : Test :=
  let handler := AcknowledgmentHandler_new start_time in
  let now := start_time in
  handler ← repeat_times 100 (send_payload (b "test") now) handler;
  let later := now + from_millis 1100 in
  '(updated, handler) ← AcknowledgmentHandler_update_throttle later handler;
  assert updated.

Definition test_dropped_packets_only_behind_ack : Test :=
  let handler := AcknowledgmentHandler_new start_time in
  let now := start_time in
  handler ← repeat_times 10 (send_payload (b "test") now) handler;
  handler ← AcknowledgmentHandler_process_incoming 0 5 63 now handler;
  '(dropped, handler) ← AcknowledgmentHandler_dropped_packets handler;
  assert_eq (zlen dropped) 0;;
  handler ← AcknowledgmentHandler_process_incoming 0 50 0 now handler;
  '(dropped, handler) ← AcknowledgmentHandler_dropped_packets handler;
  assert_eq (zlen dropped) 4.

Definition test_dropped_packets_wraparound : Test :=
  let handler := AcknowledgmentHandler_new start_time in
  let now := start_time in
  handler ← repeat_times (Z.to_nat 65530) (send_payload (b "x") now) handler;
  handler ← AcknowledgmentHandler_process_incoming 0 65520 4294967295 now handler;
  '(_, handler) ← AcknowledgmentHandler_dropped_packets handler;
  handler ← repeat_times 12 (send_payload (b "test") now) handler;
  handler ← AcknowledgmentHandler_process_incoming 0 5 63 now handler;
  '(dropped, handler) ← AcknowledgmentHandler_dropped_packets handler;
  assert_eq (zlen dropped) 0.

Definition test_dropped_packets_window_edge : Test :=
  let handler := AcknowledgmentHandler_new start_time in
  let now := start_time in
  handler ← send_payload (b "test") now handler;
  handler ← AcknowledgmentHandler_process_incoming 0 32 0 now handler;
  '(dropped, handler) ← AcknowledgmentHandler_dropped_packets handler;
  assert_eq (zlen dropped) 0;;
  handler ← AcknowledgmentHandler_process_incoming 0 33 0 now handler;
  '(dropped, handler) ← AcknowledgmentHandler_dropped_packets handler;
  assert_eq (zlen dropped) 1.

Example acknowledgment_tests_pass : failures [
  ("test_rtt_tracking_on_ack", test_rtt_tracking_on_ack);
  ("test_packet_loss_tracking", test_packet_loss_tracking);
  ("test_congestion_metrics_api", test_congestion_metrics_api);
  ("test_throttle_update", test_throttle_update);
  ("test_dropped_packets_only_behind_ack", test_dropped_packets_only_behind_ack);
  ("test_dropped_packets_window_edge", test_dropped_packets_window_edge)]%string = [].
Proof. vm_compute. reflexivity. Qed.

(** 65530 packets in flight take the kernel a while. *)
Example wraparound_test_passes :
  failures [("test_dropped_packets_wraparound", test_dropped_packets_wraparound)]%string = [].
Proof. vm_compute. reflexivity. Qed.
