(* ===== verification/CoreTests.v ===== *)
(** The unit tests of [bitfold-core]: [interceptor.rs], [packet_pool.rs] and [utilities.rs]. *)

From S2P Require Import Prelude Core NetAddr Buffers SessionManager Sockets Testing.

(* ------------------------------------------------------------------ *)
(** ** [interceptor.rs]                                                 *)
(* ------------------------------------------------------------------ *)

Record CountingInterceptor : Set := mkCountingInterceptor { ci_received : Z; ci_sent : Z }.
Definition CountingInterceptor_on_receive (_addr : SocketAddr) (_data : list Z)
  (i : CountingInterceptor) : (bool * list Z) * CountingInterceptor :=
  ((true, _data), mkCountingInterceptor (ci_received i + 1) (ci_sent i)).
Definition CountingInterceptor_on_send (_addr : SocketAddr) (_data : list Z)
  (i : CountingInterceptor) : (bool * list Z) * CountingInterceptor :=
  ((true, _data), mkCountingInterceptor (ci_received i) (ci_sent i + 1)).
#[export] Instance CountingInterceptor_Interceptor : Interceptor CountingInterceptor := {|
  on_receive := CountingInterceptor_on_receive;
  on_send := CountingInterceptor_on_send
|}.

Definition test_counting_interceptor : Test :=
  let interceptor := mkCountingInterceptor 0 0 in
  let addr := loopback 8080 in
  let data := [1; 2; 3] in
  let '((keep, data), interceptor) := on_receive addr data interceptor in
  assert keep;;
  assert_eq (ci_received interceptor) 1;;
  let '((keep, data), interceptor) := on_send addr data interceptor in
  assert keep;;
  assert_eq (ci_sent interceptor) 1.

Inductive DroppingInterceptor : Set := mkDroppingInterceptor.
Definition DroppingInterceptor_on_receive (_addr : SocketAddr) (_data : list Z)
  (i : DroppingInterceptor) : (bool * list Z) * DroppingInterceptor := ((false, _data), i).
Definition DroppingInterceptor_on_send (_addr : SocketAddr) (_data : list Z)
  (i : DroppingInterceptor) : (bool * list Z) * DroppingInterceptor := ((false, _data), i).
#[export] Instance DroppingInterceptor_Interceptor : Interceptor DroppingInterceptor := {|
  on_receive := DroppingInterceptor_on_receive;
  on_send := DroppingInterceptor_on_send
|}.

Definition test_dropping_interceptor : Test :=
  let interceptor := mkDroppingInterceptor in
  let addr := loopback 8080 in
  let data := [1; 2; 3] in
  let '((keep, data), interceptor) := on_receive addr data interceptor in
  assert (negb keep);;
  let '((keep, data), interceptor) := on_send addr data interceptor in
  assert (negb keep).

Inductive ModifyingInterceptor : Set := mkModifyingInterceptor.
Definition ModifyingInterceptor_on_receive (_addr : SocketAddr) (data : list Z)
  (i : ModifyingInterceptor) : (bool * list Z) * ModifyingInterceptor :=
  ((true, (fun byte => Z.lxor byte 85) <$> data), i).
Definition ModifyingInterceptor_on_send (_addr : SocketAddr) (data : list Z)
  (i : ModifyingInterceptor) : (bool * list Z) * ModifyingInterceptor :=
  ((true, (fun byte => Z.lxor byte 85) <$> data), i).
#[export] Instance ModifyingInterceptor_Interceptor : Interceptor ModifyingInterceptor := {|
  on_receive := ModifyingInterceptor_on_receive;
  on_send := ModifyingInterceptor_on_send
|}.

Definition test_modifying_interceptor : Test :=
  let interceptor := mkModifyingInterceptor in
  let addr := loopback 8080 in
  let data := [170; 187; 204] in
  let original := data in
  let '((keep, data), interceptor) := on_send addr data interceptor in
  assert keep;;
  assert (bool_decide (data <> original));;
  let '((keep, data), interceptor) := on_receive addr data interceptor in
  assert keep;;
  assert_eq data original.

Definition test_noop_interceptor : Test :=
  let interceptor : NoOpInterceptor := tt in
  let addr := loopback 8080 in
  let data := [1; 2; 3] in
  let original := data in
  let '((keep, data), interceptor) := on_receive addr data interceptor in
  assert keep;;
  assert_eq data original;;
  let '((keep, data), interceptor) := on_send addr data interceptor in
  assert keep;;
  assert_eq data original.

Example interceptor_tests_pass : failures [
  ("test_counting_interceptor", test_counting_interceptor);
  ("test_dropping_interceptor", test_dropping_interceptor);
  ("test_modifying_interceptor", test_modifying_interceptor);
  ("test_noop_interceptor", test_noop_interceptor)]%string = [].
Proof. vm_compute. reflexivity. Qed.

(* ------------------------------------------------------------------ *)
(** ** [packet_pool.rs]                                                 *)
(* ------------------------------------------------------------------ *)

Definition test_pooled_packet_basic : Test :=
  let data := [1; 2; 3; 4; 5] in
  let packet := PooledPacket_new data in
  assert_eq (PooledPacket_len packet) 5;;
  slice ← PooledPacket_as_slice packet;
  assert_eq slice [1; 2; 3; 4; 5];;
  assert (negb (PooledPacket_is_empty packet)).

Definition test_pooled_packet_slice : Test :=
  let data := [1; 2; 3; 4; 5] in
  let packet := PooledPacket_from_arc data 1 3 in
  assert_eq (PooledPacket_len packet) 3;;
  slice ← PooledPacket_as_slice packet;
  assert_eq slice [2; 3; 4].

(** That a buffer from an empty pool has the requested capacity is [Vec::with_capacity]. *)
Definition test_allocator_basic : Test :=
  let allocator := PacketAllocator_new 100 10 in
  let '(buf1, allocator) := PacketAllocator_allocate allocator in
  assert_eq (PacketAllocator_available allocator) 0;;
  let allocator := PacketAllocator_deallocate allocator buf1 in
  assert_eq (PacketAllocator_available allocator) 1;;
  let '(buf2, allocator) := PacketAllocator_allocate allocator in
  assert_eq (PacketAllocator_available allocator) 0.

Definition test_allocator_max_pool_size : Test :=
  let allocator := PacketAllocator_new 100 2 in
  allocator ← repeat_times 5 (fun a => Some (PacketAllocator_deallocate a [])) allocator;
  assert_eq (PacketAllocator_available allocator) 2.

(** The capacity of a buffer is passed where it is released; a new [Vec] has none. *)
Definition test_compression_pool_basic : Test :=
  let pool := CompressionBufferPool_new 1024 10 in
  let '(buf1, pool) := CompressionBufferPool_acquire pool in
  assert_eq (CompressionBufferPool_available pool) 0;;
  let pool := CompressionBufferPool_release pool buf1 0 in
  assert_eq (CompressionBufferPool_available pool) 1;;
  let '(buf2, pool) := CompressionBufferPool_acquire pool in
  assert_eq (CompressionBufferPool_available pool) 0.

Definition test_compression_pool_size_limit : Test :=
  let pool := CompressionBufferPool_new 1024 5 in
  let large_buf := vec 0 2048 in
  let pool := CompressionBufferPool_release pool large_buf 2048 in
  assert_eq (CompressionBufferPool_available pool) 0;;
  let small_buf := vec 0 256 in
  let pool := CompressionBufferPool_release pool small_buf 512 in
  assert_eq (CompressionBufferPool_available pool) 1.

Definition test_compression_pool_max_pool_size : Test :=
  let pool := CompressionBufferPool_new 1024 3 in
  pool ← repeat_times 5 (fun p => Some (CompressionBufferPool_release p [] 0)) pool;
  assert_eq (CompressionBufferPool_available pool) 3.

Definition test_compression_pool_clear : Test :=
  let pool := CompressionBufferPool_default in
  pool ← repeat_times 5 (fun p => Some (CompressionBufferPool_release p [] 0)) pool;
  assert_eq (CompressionBufferPool_available pool) 5;;
  let pool := CompressionBufferPool_clear pool in
  assert_eq (CompressionBufferPool_available pool) 0.

Example packet_pool_tests_pass : failures [
  ("test_pooled_packet_basic", test_pooled_packet_basic);
  ("test_pooled_packet_slice", test_pooled_packet_slice);
  ("test_allocator_basic", test_allocator_basic);
  ("test_allocator_max_pool_size", test_allocator_max_pool_size);
  ("test_compression_pool_basic", test_compression_pool_basic);
  ("test_compression_pool_size_limit", test_compression_pool_size_limit);
  ("test_compression_pool_max_pool_size", test_compression_pool_max_pool_size);
  ("test_compression_pool_clear", test_compression_pool_clear)]%string = [].
Proof. vm_compute. reflexivity. Qed.

(* ------------------------------------------------------------------ *)
(** ** [utilities.rs]                                                   *)
(* ------------------------------------------------------------------ *)

(** A resolver that knows one name, and the addresses that need no lookup. *)
#[local] Instance test_resolver : ToSocketAddrs string := {|
  to_socket_addrs s :=
    if bool_decide (s = "localhost:8080"%string) then Ok [loopback 8080]
    else if bool_decide (s = "127.0.0.1:8080"%string) then Ok [loopback 8080]
    else Err (mkIoError OtherIo "failed to lookup address information")
|}.

Definition test_parse_ipv4 : Test :=
  addr ← unwrap (parse_ip "192.168.1.1" 8080);
  assert_eq (sa_ip addr) (IpV4 (Ipv4Addr_new 192 168 1 1));;
  assert_eq (sa_port addr) 8080.

Definition test_parse_ipv6 : Test :=
  addr ← unwrap (parse_ip "::1" 8080);
  assert_eq (sa_ip addr) (IpV6 (Ipv6Addr_new 0 0 0 0 0 0 0 1));;
  assert_eq (sa_port addr) 8080.

Definition test_parse_invalid_ip : Test :=
  let result := parse_ip "not-an-ip" 8080 in
  assert (is_err result).

Definition test_format_ipv4 : Test :=
  let addr := mkSocketAddr (IpV4 (Ipv4Addr_new 127 0 0 1)) 8080 in
  let ip_str := format_ip addr in
  assert_eq ip_str "127.0.0.1"%string.

Definition test_format_ipv6 : Test :=
  let addr := mkSocketAddr (IpV6 (Ipv6Addr_new 0 0 0 0 0 0 0 1)) 8080 in
  let ip_str := format_ip addr in
  assert_eq ip_str "::1"%string.

Definition test_format_ip_addr : Test :=
  let ip := IpV4 (Ipv4Addr_new 192 168 1 1) in
  let ip_str := format_ip_addr ip in
  assert_eq ip_str "192.168.1.1"%string.

Definition test_resolve_localhost : Test :=
  addr ← unwrap (resolve_host "localhost" 8080);
  assert_eq (sa_port addr) 8080;;
  assert (bool_decide (sa_ip addr = IpV4 (Ipv4Addr_new 127 0 0 1))
          || bool_decide (sa_ip addr = IpV6 (Ipv6Addr_new 0 0 0 0 0 0 0 1))).

Definition test_resolve_with_ip_string : Test :=
  addr ← unwrap (resolve_host "127.0.0.1" 8080);
  assert_eq (sa_ip addr) (IpV4 (Ipv4Addr_new 127 0 0 1));;
  assert_eq (sa_port addr) 8080.

Definition test_resolve_invalid_host : Test :=
  let result := resolve_host "this-hostname-should-not-exist-12345.invalid" 8080 in
  assert (is_err result).

Example utilities_tests_pass : failures [
  ("test_parse_ipv4", test_parse_ipv4);
  ("test_parse_ipv6", test_parse_ipv6);
  ("test_parse_invalid_ip", test_parse_invalid_ip);
  ("test_format_ipv4", test_format_ipv4);
  ("test_format_ipv6", test_format_ipv6);
  ("test_format_ip_addr", test_format_ip_addr);
  ("test_resolve_localhost", test_resolve_localhost);
  ("test_resolve_with_ip_string", test_resolve_with_ip_string);
  ("test_resolve_invalid_host", test_resolve_invalid_host)]%string = [].
Proof. vm_compute. reflexivity. Qed.
