(* ===== verification/PeerPartsTests.v ===== *)
(** The unit tests of the parts of a peer: [flow_control.rs], [pmtu_discovery.rs],
    [unsequenced.rs], [bandwidth_throttle.rs], [fragment_buffer.rs], [command_queue.rs] and
    [statistics.rs] of [bitfold-peer/src]. *)

From S2P Require Import Prelude Float32 Core Buffers Command FlowControl Pmtu Unsequenced.
From S2P Require Import Bandwidth FragmentBuffer PeerParts Testing.

(* ------------------------------------------------------------------ *)
(** ** [flow_control.rs]                                                *)
(* ------------------------------------------------------------------ *)

Definition test_window_flow_control_enabled : Test :=
  let config := Config_default in
  let config := config <| use_window_flow_control := true |> in
  let config := config <| initial_window_size := 100 |> in
  let flow_control := FlowControl_new config in
  assert_eq (FlowControl_window_size flow_control) 100;;
  assert_eq (FlowControl_reliable_data_in_transit flow_control) 0;;
  can_send ← FlowControl_can_send_reliable config 0 flow_control;
  assert can_send.

Definition test_window_flow_control_tracks_in_transit_data : Test :=
  let config := Config_default in
  let config := config <| use_window_flow_control := true |> in
  let config := config <| initial_window_size := 10 |> in
  let config := config <| fragment_size := 1024 |> in
  let flow_control := FlowControl_new config in
  can_send ← FlowControl_can_send_reliable config 0 flow_control;
  assert can_send;;
  let flow_control := FlowControl_record_reliable_data_sent (5 * 1024) flow_control in
  assert_eq (FlowControl_reliable_data_in_transit flow_control) (5 * 1024);;
  can_send ← FlowControl_can_send_reliable config 0 flow_control;
  assert can_send;;
  let flow_control := FlowControl_record_reliable_data_sent (6 * 1024) flow_control in
  assert_eq (FlowControl_reliable_data_in_transit flow_control) (11 * 1024);;
  can_send ← FlowControl_can_send_reliable config 0 flow_control;
  assert (negb can_send);;
  let flow_control := FlowControl_record_reliable_data_acked (3 * 1024) flow_control in
  assert_eq (FlowControl_reliable_data_in_transit flow_control) (8 * 1024);;
  can_send ← FlowControl_can_send_reliable config 0 flow_control;
  assert can_send.

Definition test_window_size_negotiation : Test :=
  let config := Config_default in
  let config := config <| use_window_flow_control := true |> in
  let config := config <| initial_window_size := 1000 |> in
  let config := config <| min_window_size := 64 |> in
  let config := config <| max_window_size := 2048 |> in
  let flow_control := FlowControl_new config in
  assert_eq (FlowControl_window_size flow_control) 1000;;
  flow_control ← FlowControl_set_window_size config 512 flow_control;
  assert_eq (FlowControl_window_size flow_control) 512;;
  flow_control ← FlowControl_set_window_size config 3000 flow_control;
  assert_eq (FlowControl_window_size flow_control) 2048;;
  flow_control ← FlowControl_set_window_size config 32 flow_control;
  assert_eq (FlowControl_window_size flow_control) 64.

Definition test_window_adjustment_increases_on_good_conditions : Test :=
  let config := Config_default in
  let config := config <| use_window_flow_control := true |> in
  let config := config <| initial_window_size := 100 |> in
  let config := config <| max_window_size := 200 |> in
  let flow_control := FlowControl_new config in
  let initial_window := FlowControl_window_size flow_control in
  let loss_rate := f32_zero in
  let rtt_ms := 50 in
  flow_control ← FlowControl_adjust_window_size config loss_rate rtt_ms flow_control;
  assert (initial_window <? FlowControl_window_size flow_control).

Definition test_window_adjustment_decreases_on_poor_conditions : Test :=
  let config := Config_default in
  let config := config <| use_window_flow_control := true |> in
  let config := config <| initial_window_size := 200 |> in
  let config := config <| min_window_size := 64 |> in
  let flow_control := FlowControl_new config in
  let initial_window := FlowControl_window_size flow_control in
  let loss_rate := f32_lit 1 10 in
  let rtt_ms := 100 in
  flow_control ← FlowControl_adjust_window_size config loss_rate rtt_ms flow_control;
  assert (FlowControl_window_size flow_control <? initial_window).

Definition test_window_flow_control_respects_min_max : Test :=
  let config := Config_default in
  let config := config <| use_window_flow_control := true |> in
  let config := config <| initial_window_size := 100 |> in
  let config := config <| min_window_size := 64 |> in
  let config := config <| max_window_size := 128 |> in
  let flow_control := FlowControl_new config in
  flow_control ← repeat_times 50 (FlowControl_adjust_window_size config f32_zero 50) flow_control;
  assert (FlowControl_window_size flow_control <=? 128);;
  flow_control ← repeat_times 50 (FlowControl_adjust_window_size config (f32_lit 1 10) 600)
                   flow_control;
  assert (64 <=? FlowControl_window_size flow_control).

Definition test_window_flow_control_disabled_uses_packet_limit : Test :=
  let config := Config_default in
  let config := config <| use_window_flow_control := false |> in
  let config := config <| max_packets_in_flight := 10 |> in
  let flow_control := FlowControl_new config in
  can_send ← FlowControl_can_send_reliable config 0 flow_control;
  assert can_send;;
  can_send ← FlowControl_can_send_reliable config 10 flow_control;
  assert (negb can_send);;
  can_send ← FlowControl_can_send_reliable config 9 flow_control;
  assert can_send.

Definition test_record_data_sent_saturating : Test :=
  let config := Config_default in
  let flow_control := FlowControl_new config in
  let flow_control := FlowControl_record_reliable_data_sent u32_max flow_control in
  assert_eq (FlowControl_reliable_data_in_transit flow_control) u32_max;;
  let flow_control := FlowControl_record_reliable_data_sent 1000 flow_control in
  assert_eq (FlowControl_reliable_data_in_transit flow_control) u32_max.

Definition test_record_data_acked_saturating : Test :=
  let config := Config_default in
  let flow_control := FlowControl_new config in
  let flow_control := FlowControl_record_reliable_data_sent 1000 flow_control in
  let flow_control := FlowControl_record_reliable_data_acked 2000 flow_control in
  assert_eq (FlowControl_reliable_data_in_transit flow_control) 0.

Definition test_default_initialization : Test :=
  let flow_control := FlowControl_default in
  let default_config := Config_default in
  assert_eq (FlowControl_window_size flow_control) (initial_window_size default_config);;
  assert_eq (FlowControl_reliable_data_in_transit flow_control) 0.

Example flow_control_tests_pass : failures [
  ("test_window_flow_control_enabled", test_window_flow_control_enabled);
  ("test_window_flow_control_tracks_in_transit_data",
     test_window_flow_control_tracks_in_transit_data);
  ("test_window_size_negotiation", test_window_size_negotiation);
  ("test_window_adjustment_increases_on_good_conditions",
     test_window_adjustment_increases_on_good_conditions);
  ("test_window_adjustment_decreases_on_poor_conditions",
     test_window_adjustment_decreases_on_poor_conditions);
  ("test_window_flow_control_respects_min_max", test_window_flow_control_respects_min_max);
  ("test_window_flow_control_disabled_uses_packet_limit",
     test_window_flow_control_disabled_uses_packet_limit);
  ("test_record_data_sent_saturating", test_record_data_sent_saturating);
  ("test_record_data_acked_saturating", test_record_data_acked_saturating);
  ("test_default_initialization", test_default_initialization)]%string = [].
Proof. vm_compute. reflexivity. Qed.

(* ------------------------------------------------------------------ *)
(** ** [pmtu_discovery.rs]                                              *)
(* ------------------------------------------------------------------ *)

Definition test_pmtu_discovery_probe_reply : Test :=
  let config := Config_default in
  let config := config <| use_pmtu_discovery := true |> in
  let config := config <| pmtu_min := 576 |> in
  let config := config <| pmtu_max := 1400 |> in
  let config := config <| pmtu_interval_ms := 100 |> in
  let pmtu := PmtuDiscovery_new config start_time in
  assert_eq (PmtuDiscovery_current_fragment_size pmtu) (fragment_size config);;
  let time := start_time + from_millis 150 in
  let rto := from_millis 200 in
  let '(probe_cmd, pmtu, _) := PmtuDiscovery_handle_pmtu time rto test_rng pmtu in
  assert (is_some probe_cmd);;
  assert (PmtuDiscovery_has_outstanding_probe pmtu);;
  match pm_outstanding pmtu with
  | Some outstanding =>
      let '(size, token, _) := outstanding in
      let '(success, pmtu) := PmtuDiscovery_process_reply size token time pmtu in
      assert success;;
      assert_eq (PmtuDiscovery_current_fragment_size pmtu) size;;
      assert (negb (PmtuDiscovery_has_outstanding_probe pmtu))
  | None => Some tt
  end.

Definition test_pmtu_discovery_timeout : Test :=
  let config := Config_default in
  let config := config <| use_pmtu_discovery := true |> in
  let config := config <| pmtu_min := 576 |> in
  let config := config <| pmtu_max := 1400 |> in
  let config := config <| pmtu_interval_ms := 100 |> in
  let pmtu := PmtuDiscovery_new config start_time in
  let time := start_time + from_millis 150 in
  let rto := from_millis 200 in
  let '(probe_cmd, pmtu, rng) := PmtuDiscovery_handle_pmtu time rto test_rng pmtu in
  assert (is_some probe_cmd);;
  let high_before := PmtuDiscovery_high_bound pmtu in
  let time := time + from_secs 2 in
  let '(result, pmtu, _) := PmtuDiscovery_handle_pmtu time rto rng pmtu in
  assert (negb (PmtuDiscovery_has_outstanding_probe pmtu));;
  assert (PmtuDiscovery_high_bound pmtu <? high_before);;
  assert (is_none result).

Definition test_pmtu_discovery_enabled_by_default : Test :=
  let config := Config_default in
  assert (use_pmtu_discovery config);;
  let creation_time := start_time in
  let pmtu := PmtuDiscovery_new config creation_time in
  let probe_time := creation_time + from_millis (pmtu_interval_ms config + 100) in
  let rto := from_millis 200 in
  let '(probe, pmtu, _) := PmtuDiscovery_handle_pmtu probe_time rto test_rng pmtu in
  assert (is_some probe).

Definition test_pmtu_discovery_can_be_disabled : Test :=
  let config := Config_default in
  let config := config <| use_pmtu_discovery := false |> in
  assert (negb (use_pmtu_discovery config));;
  let pmtu := PmtuDiscovery_new config start_time in
  let time := start_time in
  let rto := from_millis 200 in
  let '(probe, pmtu, _) := PmtuDiscovery_handle_pmtu time rto test_rng pmtu in
  assert (is_none probe).

Definition test_pmtu_discovery_convergence : Test :=
  let config := Config_default in
  let config := config <| use_pmtu_discovery := true |> in
  let config := config <| pmtu_min := 1200 |> in
  let config := config <| pmtu_max := 1232 |> in
  let config := config <| pmtu_converge_threshold := 64 |> in
  let pmtu := PmtuDiscovery_new config start_time in
  let time := start_time in
  let rto := from_millis 200 in
  let '(probe, pmtu, _) := PmtuDiscovery_handle_pmtu time rto test_rng pmtu in
  assert (is_none probe);;
  assert_eq (PmtuDiscovery_current_fragment_size pmtu) (pmtu_min config).

Definition test_pmtu_invalid_reply_token : Test :=
  let config := Config_default in
  let config := config <| use_pmtu_discovery := true |> in
  let pmtu := PmtuDiscovery_new config start_time in
  let time := start_time + from_millis (pmtu_interval_ms config + 100) in
  let rto := from_millis 200 in
  let '(_, pmtu, _) := PmtuDiscovery_handle_pmtu time rto test_rng pmtu in
  let wrong_token := 99999 in
  let '(success, pmtu) := PmtuDiscovery_process_reply 1000 wrong_token time pmtu in
  assert (negb success);;
  assert (PmtuDiscovery_has_outstanding_probe pmtu).

Definition test_pmtu_create_reply : Test :=
  let size := 1200 in
  let token := 12345 in
  let reply := PmtuDiscovery_create_reply size token in
  match reply with
  | PMTUReply s t => assert_eq s size;; assert_eq t token
  | _ => None
  end.

Example pmtu_tests_pass : failures [
  ("test_pmtu_discovery_probe_reply", test_pmtu_discovery_probe_reply);
  ("test_pmtu_discovery_timeout", test_pmtu_discovery_timeout);
  ("test_pmtu_discovery_enabled_by_default", test_pmtu_discovery_enabled_by_default);
  ("test_pmtu_discovery_can_be_disabled", test_pmtu_discovery_can_be_disabled);
  ("test_pmtu_discovery_convergence", test_pmtu_discovery_convergence);
  ("test_pmtu_invalid_reply_token", test_pmtu_invalid_reply_token);
  ("test_pmtu_create_reply", test_pmtu_create_reply)]%string = [].
Proof. vm_compute. reflexivity. Qed.

(* ------------------------------------------------------------------ *)
(** ** [unsequenced.rs]                                                 *)
(* ------------------------------------------------------------------ *)

(** [assert!(!state.is_duplicate(group)); state.mark_received(group);]. *)
Definition fresh_then_mark (group : Z) (state : UnsequencedState) : option UnsequencedState :=
  assert (negb (UnsequencedState_is_duplicate group state));;
  Some (UnsequencedState_mark_received group state).

Definition test_unsequenced_window_sliding : Test :=
  let state := UnsequencedState_new in
  state ← fresh_then_mark 0 state;
  assert (UnsequencedState_is_duplicate 0 state);;
  state ← fresh_then_mark 1500 state;
  assert (UnsequencedState_is_duplicate 0 state).

Definition test_unsequenced_window_wrapping : Test :=
  let state := UnsequencedState_new in
  state ← foldM (fun state i => let group := 65000 + i in fresh_then_mark group state)
            state (seqZ 0 3);
  state ← fresh_then_mark 65500 state;
  state ← fresh_then_mark 10 state;
  assert (UnsequencedState_is_duplicate 65002 state).

Definition test_unsequenced_basic_duplicate_detection : Test :=
  let state := UnsequencedState_new in
  state ← fresh_then_mark 5 state;
  assert (UnsequencedState_is_duplicate 5 state);;
  state ← fresh_then_mark 10 state;
  assert (UnsequencedState_is_duplicate 5 state);;
  assert (UnsequencedState_is_duplicate 10 state).

Definition test_unsequenced_window_boundaries : Test :=
  let state := UnsequencedState_new in
  let state := UnsequencedState_mark_received 100 state in
  state ← fresh_then_mark 1123 state;
  assert (UnsequencedState_is_duplicate 1123 state);;
  state ← fresh_then_mark 1124 state;
  assert (UnsequencedState_is_duplicate 100 state).

Definition test_next_outgoing_group : Test :=
  let state := UnsequencedState_new in
  let '(group, state) := UnsequencedState_next_outgoing_group state in
  assert_eq group 0;;
  let '(group, state) := UnsequencedState_next_outgoing_group state in
  assert_eq group 1;;
  let '(group, state) := UnsequencedState_next_outgoing_group state in
  assert_eq group 2;;
  let state := mkUnsequencedState (us_incoming_unsequenced_group state)
                 (us_unsequenced_window state) 65535 in
  let '(group, state) := UnsequencedState_next_outgoing_group state in
  assert_eq group 65535;;
  let '(group, state) := UnsequencedState_next_outgoing_group state in
  assert_eq group 0.

Definition test_getters : Test :=
  let state := UnsequencedState_new in
  assert_eq (UnsequencedState_incoming_group state) 0;;
  assert_eq (UnsequencedState_outgoing_group state) 0;;
  let state := UnsequencedState_mark_received 100 state in
  assert_eq (UnsequencedState_incoming_group state) 0;;
  let state := UnsequencedState_mark_received 1500 state in
  assert (0 <? UnsequencedState_incoming_group state);;
  let '(_, state) := UnsequencedState_next_outgoing_group state in
  assert_eq (UnsequencedState_outgoing_group state) 1.

Definition test_empty_window : Test :=
  let state := UnsequencedState_new in
  assert (negb (UnsequencedState_is_duplicate 0 state));;
  assert (negb (UnsequencedState_is_duplicate 100 state));;
  assert (negb (UnsequencedState_is_duplicate 65535 state)).

Definition test_complete_window_reset : Test :=
  let state := UnsequencedState_new in
  let state := UnsequencedState_mark_received 0 state in
  let state := UnsequencedState_mark_received 1 state in
  let state := UnsequencedState_mark_received 2 state in
  let state := UnsequencedState_mark_received 2000 state in
  assert (UnsequencedState_is_duplicate 0 state);;
  assert (UnsequencedState_is_duplicate 1 state);;
  assert (UnsequencedState_is_duplicate 2 state);;
  state ← fresh_then_mark 2001 state;
  assert (UnsequencedState_is_duplicate 2001 state).

Example unsequenced_tests_pass : failures [
  ("test_unsequenced_window_sliding", test_unsequenced_window_sliding);
  ("test_unsequenced_window_wrapping", test_unsequenced_window_wrapping);
  ("test_unsequenced_basic_duplicate_detection", test_unsequenced_basic_duplicate_detection);
  ("test_unsequenced_window_boundaries", test_unsequenced_window_boundaries);
  ("test_next_outgoing_group", test_next_outgoing_group);
  ("test_getters", test_getters);
  ("test_empty_window", test_empty_window);
  ("test_complete_window_reset", test_complete_window_reset)]%string = [].
Proof. vm_compute. reflexivity. Qed.

(* ------------------------------------------------------------------ *)
(** ** [bandwidth_throttle.rs]                                          *)
(* ------------------------------------------------------------------ *)

Definition test_bandwidth_unlimited_by_default : Test :=
  let time := start_time in
  let throttle := BandwidthThrottle_new 0 0 time in
  assert (BandwidthThrottle_can_send_within_bandwidth throttle);;
  let throttle := BandwidthThrottle_record_bytes_sent 1000000 throttle in
  assert (BandwidthThrottle_can_send_within_bandwidth throttle);;
  assert (f32_eqb (BandwidthThrottle_bandwidth_utilization throttle) f32_zero).

Definition test_bandwidth_throttling_when_limited : Test :=
  let time := start_time in
  let throttle := BandwidthThrottle_new 1000 0 time in
  assert (BandwidthThrottle_can_send_within_bandwidth throttle);;
  assert (f32_eqb (BandwidthThrottle_bandwidth_utilization throttle) f32_zero);;
  let throttle := BandwidthThrottle_record_bytes_sent 500 throttle in
  assert (BandwidthThrottle_can_send_within_bandwidth throttle);;
  assert (f32_eqb (BandwidthThrottle_bandwidth_utilization throttle) (f32_lit 1 2));;
  let throttle := BandwidthThrottle_record_bytes_sent 500 throttle in
  assert (negb (BandwidthThrottle_can_send_within_bandwidth throttle));;
  assert (f32_eqb (BandwidthThrottle_bandwidth_utilization throttle) f32_one);;
  let throttle := BandwidthThrottle_record_bytes_sent 100 throttle in
  assert (negb (BandwidthThrottle_can_send_within_bandwidth throttle));;
  assert (f32_gtb (BandwidthThrottle_bandwidth_utilization throttle) f32_one);;
  let time_plus_1sec := time + from_secs 1 in
  let '(_, throttle) := BandwidthThrottle_update_bandwidth_window time_plus_1sec throttle in
  assert (BandwidthThrottle_can_send_within_bandwidth throttle);;
  assert (f32_eqb (BandwidthThrottle_bandwidth_utilization throttle) f32_zero).

Definition test_bandwidth_limit_updates : Test :=
  let time := start_time in
  let throttle := BandwidthThrottle_new 0 0 time in
  assert_eq (BandwidthThrottle_outgoing_bandwidth_limit throttle) 0;;
  assert_eq (BandwidthThrottle_incoming_bandwidth_limit throttle) 0;;
  let throttle := BandwidthThrottle_set_incoming_bandwidth_limit 1234 throttle in
  let throttle := BandwidthThrottle_set_outgoing_bandwidth_limit 5678 throttle in
  assert_eq (BandwidthThrottle_incoming_bandwidth_limit throttle) 1234;;
  assert_eq (BandwidthThrottle_outgoing_bandwidth_limit throttle) 5678.

Definition test_incoming_bandwidth_throttling : Test :=
  let time := start_time in
  let throttle := BandwidthThrottle_new 0 2000 time in
  assert (BandwidthThrottle_can_receive_within_bandwidth throttle);;
  assert (f32_eqb (BandwidthThrottle_incoming_bandwidth_utilization throttle) f32_zero);;
  let throttle := BandwidthThrottle_record_bytes_received 1000 throttle in
  assert (BandwidthThrottle_can_receive_within_bandwidth throttle);;
  assert (f32_eqb (BandwidthThrottle_incoming_bandwidth_utilization throttle) (f32_lit 1 2));;
  let throttle := BandwidthThrottle_record_bytes_received 1000 throttle in
  assert (negb (BandwidthThrottle_can_receive_within_bandwidth throttle));;
  assert (f32_eqb (BandwidthThrottle_incoming_bandwidth_utilization throttle) f32_one);;
  let time_plus_1sec := time + from_secs 1 in
  let '(_, throttle) := BandwidthThrottle_update_bandwidth_window time_plus_1sec throttle in
  assert (BandwidthThrottle_can_receive_within_bandwidth throttle);;
  assert (f32_eqb (BandwidthThrottle_incoming_bandwidth_utilization throttle) f32_zero).

Definition test_bytes_tracking : Test :=
  let time := start_time in
  let throttle := BandwidthThrottle_new 1000 2000 time in
  assert_eq (BandwidthThrottle_bytes_sent_this_window throttle) 0;;
  assert_eq (BandwidthThrottle_bytes_received_this_window throttle) 0;;
  let throttle := BandwidthThrottle_record_bytes_sent 100 throttle in
  let throttle := BandwidthThrottle_record_bytes_received 200 throttle in
  assert_eq (BandwidthThrottle_bytes_sent_this_window throttle) 100;;
  assert_eq (BandwidthThrottle_bytes_received_this_window throttle) 200;;
  let time_plus_1sec := time + from_secs 1 in
  let '(_, throttle) := BandwidthThrottle_update_bandwidth_window time_plus_1sec throttle in
  assert_eq (BandwidthThrottle_bytes_sent_this_window throttle) 0;;
  assert_eq (BandwidthThrottle_bytes_received_this_window throttle) 0.

Definition test_saturating_addition : Test :=
  let time := start_time in
  let throttle := BandwidthThrottle_new 1000 2000 time in
  let throttle := BandwidthThrottle_record_bytes_sent u32_max throttle in
  let throttle := BandwidthThrottle_record_bytes_sent 100 throttle in
  assert_eq (BandwidthThrottle_bytes_sent_this_window throttle) u32_max;;
  let throttle := BandwidthThrottle_record_bytes_received u32_max throttle in
  let throttle := BandwidthThrottle_record_bytes_received 100 throttle in
  assert_eq (BandwidthThrottle_bytes_received_this_window throttle) u32_max.

Example bandwidth_throttle_tests_pass : failures [
  ("test_bandwidth_unlimited_by_default", test_bandwidth_unlimited_by_default);
  ("test_bandwidth_throttling_when_limited", test_bandwidth_throttling_when_limited);
  ("test_bandwidth_limit_updates", test_bandwidth_limit_updates);
  ("test_incoming_bandwidth_throttling", test_incoming_bandwidth_throttling);
  ("test_bytes_tracking", test_bytes_tracking);
  ("test_saturating_addition", test_saturating_addition)]%string = [].
Proof. vm_compute. reflexivity. Qed.

(* ------------------------------------------------------------------ *)
(** ** [fragment_buffer.rs]                                             *)
(* ------------------------------------------------------------------ *)

Definition test_fragment_buffer_creation : Test :=
  let buffer := CommandFragmentBuffer_new 0 3 true start_time in
  assert_eq (CommandFragmentBuffer_channel_id buffer) 0;;
  assert_eq (CommandFragmentBuffer_is_ordered buffer) true;;
  assert (negb (CommandFragmentBuffer_is_complete buffer)).

Definition test_fragment_buffer_add_and_complete : Test :=
  let buffer := CommandFragmentBuffer_new 1 3 false start_time in
  let buffer := CommandFragmentBuffer_add_fragment 0 [1; 2; 3] buffer in
  assert (negb (CommandFragmentBuffer_is_complete buffer));;
  let buffer := CommandFragmentBuffer_add_fragment 1 [4; 5; 6] buffer in
  assert (negb (CommandFragmentBuffer_is_complete buffer));;
  let buffer := CommandFragmentBuffer_add_fragment 2 [7; 8; 9] buffer in
  assert (CommandFragmentBuffer_is_complete buffer).

Definition test_fragment_buffer_reassemble : Test :=
  let buffer := CommandFragmentBuffer_new 0 3 true start_time in
  let buffer := CommandFragmentBuffer_add_fragment 0 [1; 2; 3] buffer in
  let buffer := CommandFragmentBuffer_add_fragment 1 [4; 5; 6] buffer in
  let buffer := CommandFragmentBuffer_add_fragment 2 [7; 8; 9] buffer in
  result ← CommandFragmentBuffer_reassemble buffer;
  assert_eq result [1; 2; 3; 4; 5; 6; 7; 8; 9].

Definition test_fragment_buffer_reassemble_incomplete : Test :=
  let buffer := CommandFragmentBuffer_new 0 3 true start_time in
  let buffer := CommandFragmentBuffer_add_fragment 0 [1; 2; 3] buffer in
  let buffer := CommandFragmentBuffer_add_fragment 1 [4; 5; 6] buffer in
  assert (is_none (CommandFragmentBuffer_reassemble buffer)).

Definition test_cleanup_stale_fragments : Test :=
  let fragments : gmap Z CommandFragmentBuffer := ∅ in
  let buffer := CommandFragmentBuffer_new 0 3 true start_time in
  let fragments := <[100 := buffer]> fragments in
  let fragments := cleanup_stale_fragments fragments start_time in
  assert_eq (size fragments) 1%nat;;
  let later := start_time + from_secs 6 in
  let fragments := cleanup_stale_fragments fragments later in
  assert_eq (size fragments) 0%nat.

Definition test_cleanup_multiple_stale_fragments : Test :=
  let fragments : gmap Z CommandFragmentBuffer := ∅ in
  let fragments := foldl (fun fragments seq =>
    let buffer := CommandFragmentBuffer_new 0 2 true start_time in
    <[seq := buffer]> fragments) fragments (seqZ 0 5) in
  assert_eq (size fragments) 5%nat;;
  let later := start_time + from_secs 6 in
  let fragments := cleanup_stale_fragments fragments later in
  assert_eq (size fragments) 0%nat.

Definition test_cleanup_mixed_fresh_and_stale_fragments : Test :=
  let fragments : gmap Z CommandFragmentBuffer := ∅ in
  let old_buffer := CommandFragmentBuffer_new 0 3 true start_time in
  let fragments := <[100 := old_buffer]> fragments in
  let later := start_time + from_secs 6 in
  let new_buffer := CommandFragmentBuffer_new 1 3 false later in
  let fragments := <[200 := new_buffer]> fragments in
  let fragments := cleanup_stale_fragments fragments later in
  assert_eq (size fragments) 1%nat;;
  assert (is_some (fragments !! 200));;
  assert (is_none (fragments !! 100)).

Example fragment_buffer_tests_pass : failures [
  ("test_fragment_buffer_creation", test_fragment_buffer_creation);
  ("test_fragment_buffer_add_and_complete", test_fragment_buffer_add_and_complete);
  ("test_fragment_buffer_reassemble", test_fragment_buffer_reassemble);
  ("test_fragment_buffer_reassemble_incomplete", test_fragment_buffer_reassemble_incomplete);
  ("test_cleanup_stale_fragments", test_cleanup_stale_fragments);
  ("test_cleanup_multiple_stale_fragments", test_cleanup_multiple_stale_fragments);
  ("test_cleanup_mixed_fresh_and_stale_fragments",
     test_cleanup_mixed_fresh_and_stale_fragments)]%string = [].
Proof. vm_compute. reflexivity. Qed.

(* ------------------------------------------------------------------ *)
(** ** [command_queue.rs]                                               *)
(* ------------------------------------------------------------------ *)

Definition test_queue_basic_operations : Test :=
  let queue := CommandQueue_new 3 in
  assert (CommandQueue_is_empty queue);;
  assert_eq (CommandQueue_len queue) 0;;
  let '(_, queue) := CommandQueue_enqueue (Ping 100) queue in
  assert_eq (CommandQueue_len queue) 1;;
  assert (negb (CommandQueue_is_empty queue)).

Definition test_queue_max_size_trigger : Test :=
  let queue := CommandQueue_new 2 in
  let '(flush, queue) := CommandQueue_enqueue (Ping 100) queue in
  assert (negb flush);;
  let '(flush, queue) := CommandQueue_enqueue (Ping 200) queue in
  assert flush;;
  assert_eq (CommandQueue_len queue) 2.

Definition test_queue_drain : Test :=
  let queue := CommandQueue_new 10 in
  let '(_, queue) := CommandQueue_enqueue (Ping 100) queue in
  let '(_, queue) := CommandQueue_enqueue (Disconnect 0) queue in
  let '(commands, queue) := CommandQueue_drain queue in
  assert_eq (zlen commands) 2;;
  assert (CommandQueue_is_empty queue).

Definition test_queue_command_aggregation : Test :=
  let queue := CommandQueue_new 10 in
  let '(_, queue) := CommandQueue_enqueue
                       (SendReliable 0 1 true (SharedBytes_from_Vec [1; 2; 3])) queue in
  let '(_, queue) := CommandQueue_enqueue (Acknowledge 5 255 (Some 1000)) queue in
  let '(_, queue) := CommandQueue_enqueue (Ping 2000) queue in
  assert_eq (CommandQueue_len queue) 3;;
  let '(commands, queue) := CommandQueue_drain queue in
  assert_eq (zlen commands) 3;;
  assert (CommandQueue_is_empty queue).

Definition test_queue_iter : Test :=
  let queue := CommandQueue_new 10 in
  let '(_, queue) := CommandQueue_enqueue (Ping 100) queue in
  let '(_, queue) := CommandQueue_enqueue (Pong 200) queue in
  let count := length (CommandQueue_iter queue) in
  assert_eq count 2%nat;;
  assert_eq (CommandQueue_len queue) 2.

(* ------------------------------------------------------------------ *)
(** ** [statistics.rs]                                                  *)
(* ------------------------------------------------------------------ *)

Definition test_statistics_initialized_to_zero : Test :=
  let stats := PeerStatistics_default in
  assert_eq (packets_sent stats) 0;;
  assert_eq (packets_received stats) 0;;
  assert_eq (packets_lost stats) 0;;
  assert_eq (bytes_sent stats) 0;;
  assert_eq (bytes_received stats) 0;;
  assert (f32_eqb (PeerStatistics_packet_loss_rate stats) f32_zero).

(** The assignments to the fields of [stats] make one record. *)
Definition test_statistics_packet_loss_rate : Test :=
  let stats := mkPeerStatistics 100 0 10 0 0 in
  let loss_rate := PeerStatistics_packet_loss_rate stats in
  assert (f32_ltb (f32_abs (f32_sub loss_rate (f32_lit 1 10))) (f32_lit 1 1000)).

Definition test_statistics_packet_loss_rate_no_packets_sent : Test :=
  let stats := PeerStatistics_default in
  assert (f32_eqb (PeerStatistics_packet_loss_rate stats) f32_zero).

Definition test_statistics_reset : Test :=
  let stats := mkPeerStatistics 100 90 10 10000 9000 in
  let stats := PeerStatistics_reset stats in
  assert_eq (packets_sent stats) 0;;
  assert_eq (packets_received stats) 0;;
  assert_eq (packets_lost stats) 0;;
  assert_eq (bytes_sent stats) 0;;
  assert_eq (bytes_received stats) 0.

Definition test_statistics_track_packet_loss : Test :=
  let stats := mkPeerStatistics 0 0 5 0 0 in
  assert_eq (packets_lost stats) 5.

Example queue_and_statistics_tests_pass : failures [
  ("test_queue_basic_operations", test_queue_basic_operations);
  ("test_queue_max_size_trigger", test_queue_max_size_trigger);
  ("test_queue_drain", test_queue_drain);
  ("test_queue_command_aggregation", test_queue_command_aggregation);
  ("test_queue_iter", test_queue_iter);
  ("test_statistics_initialized_to_zero", test_statistics_initialized_to_zero);
  ("test_statistics_packet_loss_rate", test_statistics_packet_loss_rate);
  ("test_statistics_packet_loss_rate_no_packets_sent",
     test_statistics_packet_loss_rate_no_packets_sent);
  ("test_statistics_reset", test_statistics_reset);
  ("test_statistics_track_packet_loss", test_statistics_track_packet_loss)]%string = [].
Proof. vm_compute. reflexivity. Qed.
