(* ===== verification/PeerTests.v ===== *)
(** The unit tests of [mod.rs] and [encoder.rs] of [bitfold-peer/src/peer].  A test of [mod.rs]
    that has the name of one of another file is prefixed with [peer_]. *)

From S2P Require Import Prelude Float32 Core Externs Buffers Packet Command FlowControl Pmtu.
From S2P Require Import Congestion Ack PeerParts Peer PeerEncoder CommandProcessor Testing.
Import Externs.Sample.

(* ------------------------------------------------------------------ *)
(** ** [peer/mod.rs]                                                    *)
(* ------------------------------------------------------------------ *)

(** [peer.acknowledge_handler.congestion_mut().record(...)]. *)
Definition record (f : CongestionControl -> option CongestionControl) (peer : Peer) : option Peer :=
  let handler := p_acknowledge_handler peer in
  c ← f (ah_congestion handler);
  Some (set_acknowledge_handler (AcknowledgmentHandler_congestion_mut (fun _ => c) handler) peer).
(** [peer.adjust_window_size()]. *)
Definition adjust_window (peer : Peer) : option Peer :=
  '(_, peer) ← run Peer_adjust_window_size peer; Some peer.

Definition peer_test_window_adjustment_decreases_on_poor_conditions : Test :=
  let config := Config_default in
  let config := config <| use_window_flow_control := true |> in
  let config := config <| initial_window_size := 200 |> in
  let config := config <| min_window_size := 64 |> in
  let peer := new_peer config start_time in
  let initial_window := Peer_window_size peer in
  peer ← repeat_times 100 (record CongestionControl_record_sent) peer;
  peer ← repeat_times 10 (record CongestionControl_record_loss) peer;
  peer ← adjust_window peer;
  assert (Peer_window_size peer <? initial_window).

Definition peer_test_window_flow_control_respects_min_max : Test :=
  let config := Config_default in
  let config := config <| use_window_flow_control := true |> in
  let config := config <| initial_window_size := 100 |> in
  let config := config <| min_window_size := 64 |> in
  let config := config <| max_window_size := 128 |> in
  let peer := new_peer config start_time in
  peer ← repeat_times 50 adjust_window peer;
  assert (Peer_window_size peer <=? 128);;
  peer ← repeat_times 50 (fun peer =>
    peer ← repeat_times 100 (record CongestionControl_record_sent) peer;
    peer ← repeat_times 10 (record CongestionControl_record_loss) peer;
    adjust_window peer) peer;
  assert (64 <=? Peer_window_size peer).

(** [peer.handle_pmtu(time)]. *)
Definition handle_pmtu (time : Instant) (peer : Peer) : option Peer :=
  '(_, peer) ← run (Peer_handle_pmtu time) peer; Some peer.

Definition peer_test_pmtu_discovery_probe_reply : Test :=
  let config := Config_default in
  let config := config <| use_pmtu_discovery := true |> in
  let config := config <| pmtu_min := 576 |> in
  let config := config <| pmtu_max := 1400 |> in
  let config := config <| pmtu_interval_ms := 100 |> in
  let peer := new_peer config start_time in
  assert_eq (Peer_current_fragment_size peer) (fragment_size config);;
  let time := start_time + from_millis 150 in
  peer ← handle_pmtu time peer;
  assert (Peer_has_queued_commands peer);;
  '(encoded, peer) ← encode peer;
  assert (bool_decide (encoded <> []));;
  assert (PmtuDiscovery_has_outstanding_probe (p_pmtu peer));;
  match pm_outstanding (p_pmtu peer) with
  | Some (size, token, _) =>
      let reply := PMTUReply size token in
      '(_, peer) ← process reply time peer;
      assert_eq (Peer_current_fragment_size peer) size
  | None => Some tt
  end.

Definition peer_test_pmtu_discovery_timeout : Test :=
  let config := Config_default in
  let config := config <| use_pmtu_discovery := true |> in
  let config := config <| pmtu_min := 576 |> in
  let config := config <| pmtu_max := 1400 |> in
  let config := config <| pmtu_interval_ms := 100 |> in
  let peer := new_peer config start_time in
  let time := start_time + from_millis 150 in
  peer ← handle_pmtu time peer;
  assert (Peer_has_queued_commands peer);;
  '(_, peer) ← encode peer;
  let high_before := PmtuDiscovery_high_bound (p_pmtu peer) in
  let time := time + from_secs 2 in
  peer ← handle_pmtu time peer;
  assert (negb (PmtuDiscovery_has_outstanding_probe (p_pmtu peer)));;
  assert (PmtuDiscovery_high_bound (p_pmtu peer) <? high_before).

Definition peer_test_pmtu_discovery_enabled_by_default : Test :=
  let config := Config_default in
  assert (use_pmtu_discovery config);;
  let creation_time := start_time in
  let peer := new_peer config creation_time in
  let peer := set_state Connected peer in
  let probe_time := creation_time + from_millis (pmtu_interval_ms config + 100) in
  peer ← handle_pmtu probe_time peer;
  assert (Peer_has_queued_commands peer).

Example peer_tests_pass : failures [
  ("test_window_adjustment_decreases_on_poor_conditions",
     peer_test_window_adjustment_decreases_on_poor_conditions);
  ("test_window_flow_control_respects_min_max", peer_test_window_flow_control_respects_min_max);
  ("test_pmtu_discovery_probe_reply", peer_test_pmtu_discovery_probe_reply);
  ("test_pmtu_discovery_timeout", peer_test_pmtu_discovery_timeout);
  ("test_pmtu_discovery_enabled_by_default",
     peer_test_pmtu_discovery_enabled_by_default)]%string = [].
Proof. vm_compute. reflexivity. Qed.

(* ------------------------------------------------------------------ *)
(** ** [peer/encoder.rs]                                                *)
(* ------------------------------------------------------------------ *)

Definition test_encode_decode_command_packet : Test :=
  let peer := create_virtual_connection in
  peer ← enqueue (Ping 100) peer;
  peer ← enqueue (SendUnreliable 0 (SharedBytes_from_Vec [1; 2; 3])) peer;
  '(_, peer) ← run (Peer_enqueue_ack_command (Some 5000)) peer;
  assert_eq (Peer_queued_commands_count peer) 3;;
  '(bytes, peer) ← encode peer;
  assert (bool_decide (bytes <> []));;
  assert (negb (Peer_has_queued_commands peer));;
  let peer2 := create_virtual_connection in
  '(packets, peer2) ← process_bytes bytes start_time peer2;
  assert_eq (zlen packets) 1;;
  assert (Peer_has_queued_commands peer2).

Definition test_checksum_enabled_end_to_end : Test :=
  let config := Config_default in
  let config := config <| use_checksums := true |> in
  let peer := new_peer config start_time in
  let time := start_time in
  peer ← enqueue (Ping 1234) peer;
  '(encoded, peer) ← encode peer;
  assert (10 <? zlen encoded);;
  '(result, peer) ← run (Peer_process_command_packet encoded time) peer;
  assert (is_ok result).

Definition test_checksum_detects_corruption_in_peer : Test :=
  let config := Config_default in
  let config := config <| use_checksums := true |> in
  let peer := new_peer config start_time in
  let time := start_time in
  peer ← enqueue (SendUnreliable 0 (SharedBytes_from_Vec [1; 2; 3; 4; 5])) peer;
  '(encoded, peer) ← encode peer;
  let encoded := if 5 <? zlen encoded then <[0%nat := 99]> encoded else encoded in
  '(result, peer) ← run (Peer_process_command_packet encoded time) peer;
  assert (is_err result).

Definition test_checksum_disabled_backward_compatibility : Test :=
  let config := Config_default in
  let config := config <| use_checksums := false |> in
  let peer1 := new_peer config start_time in
  let peer2 := new_peer config start_time in
  let time := start_time in
  peer1 ← enqueue (Ping 5678) peer1;
  '(encoded, peer1) ← encode peer1;
  '(result, peer2) ← run (Peer_process_command_packet encoded time) peer2;
  assert (is_ok result).

Definition test_compression_zlib_end_to_end : Test :=
  let config := Config_default in
  let config := config <| compression := CompZlib |> in
  let config := config <| compression_threshold := 10 |> in
  let peer1 := new_peer config start_time in
  let peer2 := new_peer config start_time in
  let time := start_time in
  peer1 ← enqueue (SendUnreliable 0 (SharedBytes_from_Vec (vec 42 300))) peer1;
  '(encoded, peer1) ← encode peer1;
  assert (zlen encoded <? 100);;
  '(result, peer2) ← run (Peer_process_command_packet encoded time) peer2;
  assert (is_ok result).

Definition test_compression_lz4_end_to_end : Test :=
  let config := Config_default in
  let config := config <| compression := CompLz4 |> in
  let config := config <| compression_threshold := 10 |> in
  let peer1 := new_peer config start_time in
  let peer2 := new_peer config start_time in
  let time := start_time in
  peer1 ← enqueue (SendUnreliable 0 (SharedBytes_from_Vec (vec 99 300))) peer1;
  '(encoded, peer1) ← encode peer1;
  assert (zlen encoded <? 100);;
  '(result, peer2) ← run (Peer_process_command_packet encoded time) peer2;
  assert (is_ok result).

Definition test_compression_disabled_by_default : Test :=
  let config := Config_default in
  let peer1 := new_peer config start_time in
  let peer2 := new_peer config start_time in
  let time := start_time in
  peer1 ← enqueue (Ping 1234) peer1;
  '(encoded, peer1) ← encode peer1;
  first ← encoded !! 0%nat;
  assert_eq first 0;;
  '(result, peer2) ← run (Peer_process_command_packet encoded time) peer2;
  assert (is_ok result).

Definition test_statistics_with_compression : Test :=
  let config := Config_default in
  let config := config <| compression := CompLz4 |> in
  let config := config <| compression_threshold := 10 |> in
  let peer := new_peer config start_time in
  peer ← enqueue (SendReliable 0 0 true (SharedBytes_from_Vec (vec 1 100))) peer;
  '(encoded, peer) ← encode peer;
  assert_eq (bytes_sent (Peer_statistics peer)) (zlen encoded);;
  assert (bytes_sent (Peer_statistics peer) <? 100).

Definition test_statistics_with_checksums : Test :=
  let config := Config_default in
  let config := config <| use_checksums := true |> in
  let peer := new_peer config start_time in
  peer ← enqueue (SendReliable 0 0 true (SharedBytes_from_Vec [1; 2; 3])) peer;
  '(encoded, peer) ← encode peer;
  assert_eq (bytes_sent (Peer_statistics peer)) (zlen encoded);;
  assert (4 <=? zlen encoded).

Definition test_mtu_boundary_calculation : Test :=
  let config := Config_default in
  let config := config <| use_checksums := false |> in
  let config := config <| compression := CompNone |> in
  let peer := new_peer config start_time in
  let max_payload_for_mtu := 1429 in
  peer ← enqueue (SendReliable 0 0 true (SharedBytes_from_Vec (vec 42 max_payload_for_mtu))) peer;
  '(result, peer) ← run (Peer_encode_queued_commands_bounded 1440 start_time) peer;
  encoded ← unwrap result;
  bytes ← encoded;
  assert_eq (zlen bytes) 1440;;
  assert (negb (Peer_has_queued_commands peer)).

Definition test_mtu_boundary_too_large : Test :=
  let config := Config_default in
  let config := config <| use_checksums := false |> in
  let config := config <| compression := CompNone |> in
  let peer := new_peer config start_time in
  let too_large_payload := 1430 in
  peer ← enqueue (SendReliable 0 0 true (SharedBytes_from_Vec (vec 42 too_large_payload))) peer;
  '(result, peer) ← run (Peer_encode_queued_commands_bounded 1440 start_time) peer;
  encoded ← unwrap result;
  assert (is_none encoded);;
  assert (Peer_has_queued_commands peer).

Example encoder_tests_pass : failures [
  ("test_encode_decode_command_packet", test_encode_decode_command_packet);
  ("test_checksum_enabled_end_to_end", test_checksum_enabled_end_to_end);
  ("test_checksum_detects_corruption_in_peer", test_checksum_detects_corruption_in_peer);
  ("test_checksum_disabled_backward_compatibility", test_checksum_disabled_backward_compatibility);
  ("test_compression_zlib_end_to_end", test_compression_zlib_end_to_end);
  ("test_compression_lz4_end_to_end", test_compression_lz4_end_to_end);
  ("test_compression_disabled_by_default", test_compression_disabled_by_default);
  ("test_statistics_with_compression", test_statistics_with_compression);
  ("test_statistics_with_checksums", test_statistics_with_checksums);
  ("test_mtu_boundary_calculation", test_mtu_boundary_calculation);
  ("test_mtu_boundary_too_large", test_mtu_boundary_too_large)]%string = [].
Proof. vm_compute. reflexivity. Qed.
