(* ===== verification/ProcessorTests.v ===== *)
(** The unit tests of [command_processor.rs] and [fragmenter.rs] of [bitfold-peer/src/peer]. *)

From S2P Require Import Prelude Core Externs Buffers Packet Command PeerParts Peer.
From S2P Require Import Fragmenter PeerEncoder CommandProcessor Testing.
Import Externs.Sample.

(* ------------------------------------------------------------------ *)
(** ** [peer/command_processor.rs]                                      *)
(* ------------------------------------------------------------------ *)

Definition test_command_queue_integration : Test :=
  let peer := create_virtual_connection in
  assert (negb (Peer_has_queued_commands peer));;
  assert_eq (Peer_queued_commands_count peer) 0;;
  peer ← enqueue (Ping 1000) peer;
  assert (Peer_has_queued_commands peer);;
  assert_eq (Peer_queued_commands_count peer) 1;;
  peer ← enqueue (SendReliable 0 0 true (SharedBytes_from_Vec [1; 2; 3])) peer;
  assert_eq (Peer_queued_commands_count peer) 2;;
  '(commands, peer) ← drain peer;
  assert_eq (zlen commands) 2;;
  assert (negb (Peer_has_queued_commands peer)).

Definition test_process_command_reliable_data : Test :=
  let peer := create_virtual_connection in
  let time := start_time in
  let command := SendReliable 0 0 true (SharedBytes_from_Vec [1; 2; 3; 4]) in
  '(packets, peer) ← process command time peer;
  assert_eq (zlen packets) 1;;
  packet ← packets !! 0%nat;
  assert_eq (Packet_payload packet) [1; 2; 3; 4].

Definition test_process_command_unreliable_data : Test :=
  let peer := create_virtual_connection in
  let time := start_time in
  let command := SendUnreliable 0 (SharedBytes_from_Vec [5; 6; 7]) in
  '(packets, peer) ← process command time peer;
  assert_eq (zlen packets) 1;;
  packet ← packets !! 0%nat;
  assert_eq (Packet_payload packet) [5; 6; 7].

Definition test_automatic_pong_response : Test :=
  let peer := create_virtual_connection in
  let time := start_time in
  assert (negb (Peer_has_queued_commands peer));;
  let ping := Ping 12345 in
  '(_, peer) ← process ping time peer;
  assert (Peer_has_queued_commands peer);;
  assert_eq (Peer_queued_commands_count peer) 1;;
  '(commands, peer) ← drain peer;
  assert_eq (zlen commands) 1;;
  match commands !! 0%nat with
  | Some (Pong timestamp) => assert_eq timestamp 12345
  | _ => None
  end.

Definition test_automatic_ack_response : Test :=
  let peer := create_virtual_connection in
  let time := start_time in
  assert (negb (Peer_has_queued_commands peer));;
  let reliable := SendReliable 0 0 true (SharedBytes_from_Vec [1; 2; 3; 4]) in
  '(result, peer) ← process reliable time peer;
  assert_eq (zlen result) 1;;
  assert (Peer_has_queued_commands peer);;
  '(commands, peer) ← drain peer;
  assert_eq (zlen commands) 1;;
  match commands !! 0%nat with
  | Some (Acknowledge _ _ _) => Some tt
  | _ => None
  end.

Definition test_round_trip_ping_pong : Test :=
  let peer1 := create_virtual_connection in
  let peer2 := create_virtual_connection in
  let time := start_time in
  '(_, peer1) ← run (Peer_enqueue_ping_command 1000) peer1;
  '(bytes, peer1) ← encode peer1;
  '(_, peer2) ← process_bytes bytes time peer2;
  assert (Peer_has_queued_commands peer2);;
  '(pong_bytes, peer2) ← encode peer2;
  '(_, peer1) ← process_bytes pong_bytes time peer1;
  assert (negb (Peer_has_queued_commands peer1)).

Definition test_round_trip_reliable_with_ack : Test :=
  let peer1 := create_virtual_connection in
  let peer2 := create_virtual_connection in
  let time := start_time in
  peer1 ← enqueue (SendReliable 0 0 true (SharedBytes_from_Vec [1; 2; 3; 4; 5])) peer1;
  '(bytes, peer1) ← encode peer1;
  '(packets, peer2) ← process_bytes bytes time peer2;
  assert_eq (zlen packets) 1;;
  packet ← packets !! 0%nat;
  assert_eq (Packet_payload packet) [1; 2; 3; 4; 5];;
  assert (Peer_has_queued_commands peer2);;
  '(ack_bytes, peer2) ← encode peer2;
  '(result, peer1) ← process_bytes ack_bytes time peer1;
  assert_eq (zlen result) 0.

Definition test_bandwidth_limit_command_updates_config : Test :=
  let start := start_time in
  let cfg := Config_default in
  let peer := new_peer cfg start in
  assert_eq (incoming_bandwidth_limit (Peer_get_config peer)) 2097152;;
  assert_eq (outgoing_bandwidth_limit (Peer_get_config peer)) 2097152;;
  '(_, peer) ← process (BandwidthLimit 1234 5678) start peer;
  assert_eq (incoming_bandwidth_limit (Peer_get_config peer)) 1234;;
  assert_eq (outgoing_bandwidth_limit (Peer_get_config peer)) 5678.

Definition test_multi_channel_packets : Test :=
  let peer := create_virtual_connection in
  let time := start_time in
  let cmd_ch0 := SendReliable 0 0 true (SharedBytes_from_Vec [0; 1; 2]) in
  let cmd_ch1 := SendReliable 1 0 true (SharedBytes_from_Vec [10; 11; 12]) in
  let cmd_ch5 := SendUnreliable 5 (SharedBytes_from_Vec [50; 51; 52]) in
  '(packets0, peer) ← process cmd_ch0 time peer;
  '(packets1, peer) ← process cmd_ch1 time peer;
  '(packets5, peer) ← process cmd_ch5 time peer;
  assert_eq (zlen packets0) 1;;
  packet ← packets0 !! 0%nat;
  assert_eq (Packet_channel_id packet) 0;;
  assert_eq (Packet_payload packet) [0; 1; 2];;
  assert_eq (zlen packets1) 1;;
  packet ← packets1 !! 0%nat;
  assert_eq (Packet_channel_id packet) 1;;
  assert_eq (Packet_payload packet) [10; 11; 12];;
  assert_eq (zlen packets5) 1;;
  packet ← packets5 !! 0%nat;
  assert_eq (Packet_channel_id packet) 5;;
  assert_eq (Packet_payload packet) [50; 51; 52].

Definition test_per_channel_ordering : Test :=
  let peer := create_virtual_connection in
  let time := start_time in
  let cmd2 := SendReliable 0 2 true (SharedBytes_from_Vec [20; 21; 22]) in
  let cmd0 := SendReliable 0 0 true (SharedBytes_from_Vec [0; 1; 2]) in
  let cmd1 := SendReliable 0 1 true (SharedBytes_from_Vec [10; 11; 12]) in
  '(result2, peer) ← process cmd2 time peer;
  assert_eq (zlen result2) 0;;
  '(result0, peer) ← process cmd0 time peer;
  assert_eq (zlen result0) 1;;
  '(packets, peer) ← process cmd1 time peer;
  assert_eq (zlen packets) 2;;
  packet ← packets !! 0%nat;
  assert_eq (Packet_payload packet) [10; 11; 12];;
  packet ← packets !! 1%nat;
  assert_eq (Packet_payload packet) [20; 21; 22].

Definition test_reliable_unordered_delivery : Test :=
  let peer := create_virtual_connection in
  let time := start_time in
  let cmd2 := SendReliable 0 2 false (SharedBytes_from_Vec [20; 21; 22]) in
  let cmd0 := SendReliable 0 0 false (SharedBytes_from_Vec [0; 1; 2]) in
  let cmd1 := SendReliable 0 1 false (SharedBytes_from_Vec [10; 11; 12]) in
  '(v2, peer) ← process cmd2 time peer;
  assert_eq (zlen v2) 1;;
  packet ← v2 !! 0%nat;
  assert_eq (Packet_payload packet) [20; 21; 22];;
  '(v0, peer) ← process cmd0 time peer;
  assert_eq (zlen v0) 1;;
  packet ← v0 !! 0%nat;
  assert_eq (Packet_payload packet) [0; 1; 2];;
  '(v1, peer) ← process cmd1 time peer;
  assert_eq (zlen v1) 1;;
  packet ← v1 !! 0%nat;
  assert_eq (Packet_payload packet) [10; 11; 12].

Definition test_per_channel_sequencing : Test :=
  let peer := create_virtual_connection in
  let time := start_time in
  let cmd0 := SendUnreliableSequenced 0 0 (SharedBytes_from_Vec [0; 1; 2]) in
  let cmd2 := SendUnreliableSequenced 0 2 (SharedBytes_from_Vec [20; 21; 22]) in
  let cmd1 := SendUnreliableSequenced 0 1 (SharedBytes_from_Vec [10; 11; 12]) in
  '(result0, peer) ← process cmd0 time peer;
  assert_eq (zlen result0) 1;;
  '(result2, peer) ← process cmd2 time peer;
  assert_eq (zlen result2) 1;;
  '(result1, peer) ← process cmd1 time peer;
  assert_eq (zlen result1) 0.

Definition test_independent_channel_ordering : Test :=
  let peer := create_virtual_connection in
  let time := start_time in
  let ch0_cmd1 := SendReliable 0 1 true (SharedBytes_from_Vec [0; 1]) in
  let ch1_cmd1 := SendReliable 1 1 true (SharedBytes_from_Vec [1; 1]) in
  let ch0_cmd0 := SendReliable 0 0 true (SharedBytes_from_Vec [0; 0]) in
  let ch1_cmd0 := SendReliable 1 0 true (SharedBytes_from_Vec [1; 0]) in
  '(result, peer) ← process ch0_cmd1 time peer;
  assert_eq (zlen result) 0;;
  '(result, peer) ← process ch1_cmd1 time peer;
  assert_eq (zlen result) 0;;
  '(packets, peer) ← process ch0_cmd0 time peer;
  assert_eq (zlen packets) 2;;
  packet ← packets !! 0%nat;
  assert_eq (Packet_channel_id packet) 0;;
  '(packets, peer) ← process ch1_cmd0 time peer;
  assert_eq (zlen packets) 2;;
  packet ← packets !! 0%nat;
  assert_eq (Packet_channel_id packet) 1.

Definition test_unsequenced_packets_basic : Test :=
  let peer := create_virtual_connection in
  let time := start_time in
  let cmd1 := SendUnsequenced 0 0 (SharedBytes_from_Vec [1; 2; 3]) in
  let cmd2 := SendUnsequenced 0 1 (SharedBytes_from_Vec [4; 5; 6]) in
  '(result1, peer) ← process cmd1 time peer;
  '(result2, peer) ← process cmd2 time peer;
  assert_eq (zlen result1) 1;;
  assert_eq (zlen result2) 1.

Definition test_unsequenced_packets_prevent_duplicates : Test :=
  let peer := create_virtual_connection in
  let time := start_time in
  let cmd := SendUnsequenced 0 5 (SharedBytes_from_Vec [1; 2; 3]) in
  '(result1, peer) ← process cmd time peer;
  assert_eq (zlen result1) 1;;
  '(result2, peer) ← process cmd time peer;
  assert_eq (zlen result2) 0.

Definition test_unsequenced_packets_allow_out_of_order : Test :=
  let peer := create_virtual_connection in
  let time := start_time in
  let cmd10 := SendUnsequenced 0 10 (SharedBytes_from_Vec [10]) in
  let cmd5 := SendUnsequenced 0 5 (SharedBytes_from_Vec [5]) in
  let cmd15 := SendUnsequenced 0 15 (SharedBytes_from_Vec [15]) in
  '(result10, peer) ← process cmd10 time peer;
  '(result5, peer) ← process cmd5 time peer;
  '(result15, peer) ← process cmd15 time peer;
  assert_eq (zlen result10) 1;;
  assert_eq (zlen result5) 1;;
  assert_eq (zlen result15) 1.

(** [unsequenced.rs] has a test of this name too. *)
Definition peer_test_unsequenced_window_sliding : Test :=
  let peer := create_virtual_connection in
  let time := start_time in
  let cmd0 := SendUnsequenced 0 0 (SharedBytes_from_Vec [0]) in
  '(result0, peer) ← process cmd0 time peer;
  assert_eq (zlen result0) 1;;
  let cmd1500 := SendUnsequenced 0 1500 (SharedBytes_from_Vec [1]) in
  '(result1500, peer) ← process cmd1500 time peer;
  assert_eq (zlen result1500) 1;;
  '(result0_again, peer) ← process cmd0 time peer;
  assert_eq (zlen result0_again) 0.

Example command_processor_tests_pass : failures [
  ("test_command_queue_integration", test_command_queue_integration);
  ("test_process_command_reliable_data", test_process_command_reliable_data);
  ("test_process_command_unreliable_data", test_process_command_unreliable_data);
  ("test_automatic_pong_response", test_automatic_pong_response);
  ("test_automatic_ack_response", test_automatic_ack_response);
  ("test_round_trip_ping_pong", test_round_trip_ping_pong);
  ("test_round_trip_reliable_with_ack", test_round_trip_reliable_with_ack);
  ("test_bandwidth_limit_command_updates_config", test_bandwidth_limit_command_updates_config);
  ("test_multi_channel_packets", test_multi_channel_packets);
  ("test_per_channel_ordering", test_per_channel_ordering);
  ("test_reliable_unordered_delivery", test_reliable_unordered_delivery);
  ("test_per_channel_sequencing", test_per_channel_sequencing);
  ("test_independent_channel_ordering", test_independent_channel_ordering);
  ("test_unsequenced_packets_basic", test_unsequenced_packets_basic);
  ("test_unsequenced_packets_prevent_duplicates", test_unsequenced_packets_prevent_duplicates);
  ("test_unsequenced_packets_allow_out_of_order", test_unsequenced_packets_allow_out_of_order);
  ("test_unsequenced_window_sliding", peer_test_unsequenced_window_sliding)]%string = [].
Proof. vm_compute. reflexivity. Qed.

(* ------------------------------------------------------------------ *)
(** ** [peer/fragmenter.rs]                                             *)
(* ------------------------------------------------------------------ *)

(** [matches!(cmd, ProtocolCommand::SendFragment { .. })] and its likes. *)
Definition is_send_fragment (cmd : ProtocolCommand) : bool :=
  match cmd with SendFragment _ _ _ _ _ _ => true | _ => false end.
Definition is_send_unreliable_fragment (cmd : ProtocolCommand) : bool :=
  match cmd with SendUnreliableFragment _ _ _ _ _ => true | _ => false end.
Definition is_acknowledge (cmd : ProtocolCommand) : bool :=
  match cmd with Acknowledge _ _ _ => true | _ => false end.

Definition test_enqueue_reliable_data_with_fragmentation : Test :=
  let peer := create_virtual_connection in
  let large_data := vec 42 3000 in
  '(_sequence, peer) ← run (Peer_enqueue_reliable_data 0 large_data true) peer;
  assert (Peer_has_queued_commands peer);;
  let count := Peer_queued_commands_count peer in
  assert (3 <=? count);;
  '(commands, peer) ← drain peer;
  foldM (fun _ cmd => assert (is_send_fragment cmd)) tt commands.

Definition test_fragment_reassembly : Test :=
  let peer := create_virtual_connection in
  let time := start_time in
  let fragment1 := [1; 2; 3] in
  let fragment2 := [4; 5; 6] in
  let fragment3 := [7; 8; 9] in
  let cmd1 := SendFragment 0 0 true 0 3 (SharedBytes_from_Arc fragment1) in
  let cmd2 := SendFragment 0 0 true 1 3 (SharedBytes_from_Arc fragment2) in
  let cmd3 := SendFragment 0 0 true 2 3 (SharedBytes_from_Arc fragment3) in
  '(result1, peer) ← process cmd1 time peer;
  assert_eq (zlen result1) 0;;
  '(result2, peer) ← process cmd2 time peer;
  assert_eq (zlen result2) 0;;
  '(packets, peer) ← process cmd3 time peer;
  assert_eq (zlen packets) 1;;
  packet ← packets !! 0%nat;
  assert_eq (Packet_payload packet) [1; 2; 3; 4; 5; 6; 7; 8; 9];;
  assert (Peer_has_queued_commands peer).

Definition test_round_trip_large_data_with_fragmentation : Test :=
  let peer1 := create_virtual_connection in
  let peer2 := create_virtual_connection in
  let time := start_time in
  let large_data := vec 99 2500 in
  '(_, peer1) ← run (Peer_enqueue_reliable_data 0 large_data true) peer1;
  '(bytes, peer1) ← encode peer1;
  '(packets, peer2) ← process_bytes bytes time peer2;
  assert_eq (zlen packets) 1;;
  packet ← packets !! 0%nat;
  assert_eq (Packet_payload packet) large_data;;
  assert (Peer_has_queued_commands peer2).

Definition test_fragment_out_of_order_delivery : Test :=
  let peer := create_virtual_connection in
  let time := start_time in
  let cmd2 := SendFragment 0 0 true 1 3 (SharedBytes_from_Vec [20; 21; 22]) in
  let cmd0 := SendFragment 0 0 true 0 3 (SharedBytes_from_Vec [10; 11; 12]) in
  let cmd1 := SendFragment 0 0 true 2 3 (SharedBytes_from_Vec [30; 31; 32]) in
  '(_, peer) ← process cmd2 time peer;
  '(_, peer) ← process cmd0 time peer;
  '(packets, peer) ← process cmd1 time peer;
  assert_eq (zlen packets) 1;;
  packet ← packets !! 0%nat;
  assert_eq (Packet_payload packet) [10; 11; 12; 20; 21; 22; 30; 31; 32].

Definition test_enqueue_unreliable_data_with_fragmentation : Test :=
  let peer := create_virtual_connection in
  let large_data := vec 99 3000 in
  '(_sequence, peer) ← run (Peer_enqueue_unreliable_data 0 large_data) peer;
  assert (Peer_has_queued_commands peer);;
  let count := Peer_queued_commands_count peer in
  assert (3 <=? count);;
  '(commands, peer) ← drain peer;
  foldM (fun _ cmd => assert (is_send_unreliable_fragment cmd)) tt commands.

Definition test_unreliable_fragment_reassembly : Test :=
  let config := Config_default in
  let peer := new_peer config start_time in
  let fragment1 := [1; 2; 3] in
  let fragment2 := [4; 5; 6] in
  let fragment3 := [7; 8; 9] in
  let cmd1 := SendUnreliableFragment 0 1 0 3 (SharedBytes_from_Vec fragment1) in
  let cmd2 := SendUnreliableFragment 0 1 1 3 (SharedBytes_from_Vec fragment2) in
  let cmd3 := SendUnreliableFragment 0 1 2 3 (SharedBytes_from_Vec fragment3) in
  let time := start_time in
  '(result1, peer) ← process cmd1 time peer;
  assert_eq (zlen result1) 0;;
  '(result2, peer) ← process cmd2 time peer;
  assert_eq (zlen result2) 0;;
  '(packets, peer) ← process cmd3 time peer;
  assert_eq (zlen packets) 1;;
  packet ← packets !! 0%nat;
  assert_eq (Packet_channel_id packet) 0;;
  assert_eq (Packet_payload packet) [1; 2; 3; 4; 5; 6; 7; 8; 9];;
  assert_eq (Packet_delivery_guarantee packet) Unreliable.

Definition test_unreliable_fragment_out_of_order_delivery : Test :=
  let config := Config_default in
  let peer := new_peer config start_time in
  let time := start_time in
  let cmd2 := SendUnreliableFragment 0 5 1 3 (SharedBytes_from_Vec [20; 21; 22]) in
  let cmd0 := SendUnreliableFragment 0 5 0 3 (SharedBytes_from_Vec [10; 11; 12]) in
  let cmd1 := SendUnreliableFragment 0 5 2 3 (SharedBytes_from_Vec [30; 31; 32]) in
  '(result1, peer) ← process cmd2 time peer;
  assert_eq (zlen result1) 0;;
  '(result2, peer) ← process cmd0 time peer;
  assert_eq (zlen result2) 0;;
  '(packets, peer) ← process cmd1 time peer;
  assert_eq (zlen packets) 1;;
  packet ← packets !! 0%nat;
  assert_eq (Packet_payload packet) [10; 11; 12; 20; 21; 22; 30; 31; 32].

Definition test_round_trip_unreliable_large_data_with_fragmentation : Test :=
  let config := Config_default in
  let peer1 := new_peer config start_time in
  let peer2 := new_peer config start_time in
  let time := start_time in
  let large_data := vec 123 2500 in
  '(_, peer1) ← run (Peer_enqueue_unreliable_data 0 large_data) peer1;
  '(bytes, peer1) ← encode peer1;
  '(packets, peer2) ← process_bytes bytes time peer2;
  assert_eq (zlen packets) 1;;
  packet ← packets !! 0%nat;
  assert_eq (Packet_payload packet) large_data;;
  assert_eq (Packet_delivery_guarantee packet) Unreliable.

Definition test_unreliable_fragments_no_ack_sent : Test :=
  let config := Config_default in
  let peer1 := new_peer config start_time in
  let peer2 := new_peer config start_time in
  let time := start_time in
  '(_, peer1) ← run (Peer_enqueue_unreliable_data 0 (vec 55 2000)) peer1;
  '(bytes, peer1) ← encode peer1;
  '(_, peer2) ← process_bytes bytes time peer2;
  if negb (Peer_has_queued_commands peer2) then Some tt
  else
    '(commands, peer2) ← drain peer2;
    assert (negb (existsb is_acknowledge commands)).

(** [peer.command_fragments.len()]. *)
Definition fragment_buffers (peer : Peer) : nat := size (p_command_fragments peer).

Definition test_stale_fragment_cleanup : Test :=
  let config := Config_default in
  let peer := new_peer config start_time in
  let fragment1 := [1; 2; 3] in
  let cmd := SendFragment 0 100 true 0 3 (SharedBytes_from_Vec fragment1) in
  '(result, peer) ← process cmd start_time peer;
  assert_eq (zlen result) 0;;
  assert_eq (fragment_buffers peer) 1%nat;;
  let peer := Peer_cleanup_stale_fragments start_time peer in
  assert_eq (fragment_buffers peer) 1%nat;;
  let later := start_time + from_secs 6 in
  let peer := Peer_cleanup_stale_fragments later peer in
  assert_eq (fragment_buffers peer) 0%nat.

Definition test_complete_fragments_not_cleaned : Test :=
  let config := Config_default in
  let peer := new_peer config start_time in
  peer ← foldM (fun peer frag_id =>
    let fragment_data := [frag_id; frag_id + 1; frag_id + 2] in
    let cmd := SendFragment 0 200 false frag_id 3 (SharedBytes_from_Vec fragment_data) in
    '(_, peer) ← process cmd start_time peer;
    Some peer) peer (seqZ 0 3);
  assert_eq (fragment_buffers peer) 0%nat;;
  let later := start_time + from_secs 10 in
  let peer := Peer_cleanup_stale_fragments later peer in
  assert_eq (fragment_buffers peer) 0%nat.

Definition test_multiple_stale_fragments_cleanup : Test :=
  let config := Config_default in
  let peer := new_peer config start_time in
  peer ← foldM (fun peer seq =>
    let cmd := SendFragment 0 seq true 0 2 (SharedBytes_from_Vec [as_u8 seq]) in
    '(_, peer) ← process cmd start_time peer;
    Some peer) peer (seqZ 0 5);
  assert_eq (fragment_buffers peer) 5%nat;;
  let later := start_time + from_secs 6 in
  let peer := Peer_cleanup_stale_fragments later peer in
  assert_eq (fragment_buffers peer) 0%nat.

Example fragmenter_tests_pass : failures [
  ("test_enqueue_reliable_data_with_fragmentation", test_enqueue_reliable_data_with_fragmentation);
  ("test_fragment_reassembly", test_fragment_reassembly);
  ("test_round_trip_large_data_with_fragmentation", test_round_trip_large_data_with_fragmentation);
  ("test_fragment_out_of_order_delivery", test_fragment_out_of_order_delivery);
  ("test_enqueue_unreliable_data_with_fragmentation",
     test_enqueue_unreliable_data_with_fragmentation);
  ("test_unreliable_fragment_reassembly", test_unreliable_fragment_reassembly);
  ("test_unreliable_fragment_out_of_order_delivery",
     test_unreliable_fragment_out_of_order_delivery);
  ("test_round_trip_unreliable_large_data_with_fragmentation",
     test_round_trip_unreliable_large_data_with_fragmentation);
  ("test_unreliable_fragments_no_ack_sent", test_unreliable_fragments_no_ack_sent);
  ("test_stale_fragment_cleanup", test_stale_fragment_cleanup);
  ("test_complete_fragments_not_cleaned", test_complete_fragments_not_cleaned);
  ("test_multiple_stale_fragments_cleanup", test_multiple_stale_fragments_cleanup)]%string = [].
Proof. vm_compute. reflexivity. Qed.
