(* ===== verification/HostTests.v ===== *)
(** The unit tests of [bitfold-host]: [peer_session.rs] and [socket.rs].  The hosts run over the
    sockets of [HostSystem.Loopback], whose datagrams the tests carry from one host to another
    where the program relies on the network; the system gives each bound socket a port. *)

From S2P Require Import Prelude Core Externs Buffers Packet Command Framing Codec PeerParts.
From S2P Require Import Peer.
From S2P Require Import Fragmenter PeerEncoder CommandProcessor Session PeerSession.
From S2P Require Import SessionManager Sockets Host HostSystem Testing.
Import Externs.Sample HostSystem.Loopback.

(* ------------------------------------------------------------------ *)
(** ** [peer_session.rs]                                                *)
(* ------------------------------------------------------------------ *)

Definition is_ping (bytes : list Z) : bool :=
  match CommandDecoder_decompress bytes with
  | Ok decompressed =>
      match decode_packet decompressed start_time with
      | Ok packet =>
          existsb (fun cmd => match cmd with Ping _ => true | _ => false end) (commands packet)
      | Err _ => false
      end
  | Err _ => false
  end.

Definition heartbeat_not_sent_when_recent_inbound : Test :=
  let cfg := Config_default in
  let cfg := cfg <| heartbeat_interval := Some (from_millis 50) |> in
  let start := start_time in
  let conn := new_peer cfg start in
  '(_, conn) ← run (updating Peer_record_send) conn;
  '(_, conn) ← run (updating Peer_record_recv) conn;
  let conn := set_last_sent (start - from_millis 55) conn in
  let conn := set_last_heard (start - from_millis 10) conn in
  '(actions, conn) ← run (Peer_update start start) conn;
  assert (forallb (fun a : Action SocketEvent =>
    match a with Send bytes => negb (is_ping bytes) | _ => true end) actions).

Definition heartbeat_sent_when_bi_idle : Test :=
  let cfg := Config_default in
  let cfg := cfg <| heartbeat_interval := Some (from_millis 50) |> in
  let cfg := cfg <| use_checksums := false |> in
  let cfg := cfg <| use_connection_handshake := false |> in
  let start := start_time in
  let conn := new_peer cfg start in
  '(_, conn) ← run (updating Peer_record_send) conn;
  '(_, conn) ← run (updating Peer_record_recv) conn;
  let conn := set_last_sent (start - from_millis 60) conn in
  let conn := set_last_heard (start - from_millis 60) conn in
  '(actions, conn) ← run (Peer_update start start) conn;
  assert (existsb (fun a : Action SocketEvent =>
    match a with Send bytes => is_ping bytes | _ => false end) actions).

Definition is_packet_event (a : Action SocketEvent) : bool :=
  match a with Emit (EvPacket _) => true | _ => false end.

Definition incoming_bandwidth_limit_drops_excess_packets : Test :=
  let start := start_time in
  let client_cfg := Config_default in
  let client := new_peer client_cfg start in
  '(_, client) ← run (Peer_enqueue_unreliable_data 0 [1; 2; 3; 4; 5; 6; 7; 8]) client;
  '(encoded, client) ← encode client;
  let server_cfg := Config_default in
  let server_cfg := server_cfg <| incoming_bandwidth_limit := as_u32 (@zlen Z encoded) |> in
  let server := new_peer server_cfg start in
  '(actions1, server) ← run (Peer_process_packet encoded start) server;
  assert (existsb is_packet_event actions1);;
  '(actions2, server) ← run (Peer_process_packet encoded start) server;
  assert (forallb (fun a => negb (is_packet_event a)) actions2).

Example peer_session_tests_pass : failures [
  ("heartbeat_not_sent_when_recent_inbound", heartbeat_not_sent_when_recent_inbound);
  ("heartbeat_sent_when_bi_idle", heartbeat_sent_when_bi_idle);
  ("incoming_bandwidth_limit_drops_excess_packets",
     incoming_bandwidth_limit_drops_excess_packets)]%string = [].
Proof. vm_compute. reflexivity. Qed.

(* ------------------------------------------------------------------ *)
(** ** Hosts under test                                                 *)
(* ------------------------------------------------------------------ *)

(** The sockets of a system that gives the next bound socket the port [port]. *)
Definition loopback_on (port : Z) : UdpSocket sock := {|
  udp_bind _ := Ok (mkSock (loopback port) [] []);
  try_clone := mret tt;
  set_recv_buffer_size _ := mret tt;
  set_send_buffer_size _ := mret tt;
  set_ttl _ := mret tt;
  set_broadcast _ := mret tt;
  set_nonblocking _ := mret tt;
  send_to := send_to;
  recv_from := recv_from;
  udp_local_addr := udp_local_addr
|}.

Definition TestHost (I : Type) : Type := Host sock SystemClock I.

(** [Host::bind_any_with_config(config).unwrap()], with the default interceptor. *)
Definition open_host (port : Z) (config : Config) : option (TestHost NoOpInterceptor) :=
  unwrap (bind_any_with_config (UdpSocket0 := loopback_on port) system config).

Section TestHosts.
Context {I J : Type} `{!Interceptor I, !Interceptor J}.

(** [host.manual_poll(now)]. *)
Definition manual_poll (now : Instant) (host : TestHost I) : option (TestHost I) :=
  fst <$> Host_manual_poll start_time identity 100 now host test_rng.

Definition host_socket (host : TestHost I) : sock := sc_socket (SessionManager_socket (h_handler host)).
Definition set_host_socket (s : sock) (host : TestHost I) : TestHost I :=
  let m := h_handler host in
  let mg := sm_messenger m in
  set_handler (set_messenger (mkMessenger (mg_config mg)
    (mkSocketWithConditioner (sc_is_blocking_mode (mg_socket mg)) s) (mg_sent_events mg)
    (mg_pending_sends mg) (mg_pending_events mg) (mg_interceptor mg) (mg_send_pool mg)) m) host.
End TestHosts.

(** The network carries to the second host the datagrams that the first has sent it. *)
Definition carry {I J} (from : TestHost I) (to : TestHost J) : TestHost J :=
  let dst := host_socket to in
  let arriving := filter (fun d : list Z * SocketAddr => d.2 = sk_addr dst)
                    (sk_sent (host_socket from)) in
  set_host_socket (mkSock (sk_addr dst)
    (sk_waiting dst ++ ((fun d => (d.1, sk_addr (host_socket from))) <$> arriving))
    (sk_sent dst)) to.

Definition host_addr {I} (host : TestHost I) : option SocketAddr := unwrap (Host_local_addr host).

(* ------------------------------------------------------------------ *)
(** ** [socket.rs]                                                      *)
(* ------------------------------------------------------------------ *)

(** A broadcast always succeeds, so its [unwrap()] never panics. *)
Definition test_broadcast_to_no_connections : Test :=
  host ← open_host 5000 Config_default;
  let '(count, host) := Host_broadcast_reliable start_time identity 0 [1; 2; 3] host in
  assert_eq count 0.

(** [host.send(Packet::new(addr, data, DeliveryGuarantee::Reliable, None, 0)).unwrap()]. *)
Definition send_reliable {I} (addr : SocketAddr) (data : list Z) (host : TestHost I) : TestHost I :=
  Host_send (Packet_new addr data Reliable OrderNone 0) host.
Definition send_unreliable {I} (addr : SocketAddr) (data : list Z) (host : TestHost I) : TestHost I :=
  Host_send (Packet_new addr data Unreliable OrderNone 0) host.

Definition test_broadcast_sends_to_all_established_connections : Test :=
  let config := Config_default in
  let config := config <| blocking_mode := false |> in
  server ← open_host 5000 config;
  server_addr ← host_addr server;
  client1 ← open_host 5001 config;
  client2 ← open_host 5002 config;
  client3 ← open_host 5003 config;
  let client1 := send_reliable server_addr [1] client1 in
  let client2 := send_reliable server_addr [2] client2 in
  let client3 := send_reliable server_addr [3] client3 in
  let now := start_time in
  client1 ← manual_poll now client1;
  client2 ← manual_poll now client2;
  client3 ← manual_poll now client3;
  server ← manual_poll now (carry client3 (carry client2 (carry client1 server)));
  server ← manual_poll (now + from_millis 10) server;
  let established_count := Host_established_connections_count start_time server in
  assert (0 <? established_count);;
  let broadcast_data := [10; 20; 30] in
  let '(count, server) := Host_broadcast_reliable start_time identity 0 broadcast_data server in
  assert_eq count established_count.

Definition test_broadcast_reliable_convenience : Test :=
  host ← open_host 5000 Config_default;
  let '(count, host) := Host_broadcast_reliable start_time identity 0 [1; 2; 3] host in
  assert_eq count 0.

Definition test_broadcast_unreliable_convenience : Test :=
  host ← open_host 5000 Config_default;
  let '(count, host) := Host_broadcast_unreliable start_time identity 0 [1; 2; 3] host in
  assert_eq count 0.

Definition test_broadcast_with_different_delivery_guarantees : Test :=
  host ← open_host 5000 Config_default;
  let '(count1, host) :=
    Host_broadcast start_time identity 0 [1; 2; 3] Reliable (Ordered None) host in
  assert_eq count1 0;;
  let '(count2, host) := Host_broadcast start_time identity 1 [4; 5; 6] Unreliable OrderNone host in
  assert_eq count2 0.

Definition test_established_connections_count : Test :=
  host ← open_host 5000 Config_default;
  assert_eq (Host_established_connections_count start_time host) 0.

Definition test_duplicate_peers_unlimited_by_default : Test :=
  let config := Config_default in
  let config := config <| blocking_mode := false |> in
  server ← open_host 5000 config;
  server_addr ← host_addr server;
  clients ← foldM (fun clients i =>
    client ← open_host (5001 + i) config;
    let client := send_reliable server_addr [1] client in
    Some (clients ++ [client])) [] (seqZ 0 5);
  let now := start_time in
  clients ← mapM (manual_poll now) clients;
  server ← manual_poll now (foldl (fun server client => carry client server) server clients);
  server ← manual_poll (now + from_millis 10) server;
  assert (0 <? sessions_count (h_handler server)).

Definition test_duplicate_peer_tracking : Test :=
  let config := Config_default in
  let config := config <| max_duplicate_peers := 3 |> in
  let config := config <| blocking_mode := false |> in
  server ← open_host 5000 config;
  let addr1 := loopback 5001 in
  let addr2 := loopback 5002 in
  let addr3 := loopback 5003 in
  assert_eq (duplicate_peer_count addr1 (h_handler server)) 0;;
  assert_eq (duplicate_peer_count addr2 (h_handler server)) 0;;
  assert_eq (duplicate_peer_count addr3 (h_handler server)) 0.

Definition test_config_default_max_duplicate_peers : Test :=
  let config := Config_default in
  assert_eq (max_duplicate_peers config) 0.

Definition test_config_custom_max_duplicate_peers : Test :=
  let config := Config_default in
  let config := config <| max_duplicate_peers := 5 |> in
  assert_eq (max_duplicate_peers config) 5.

Definition test_socket_options_default : Test :=
  let config := Config_default in
  assert_eq (socket_recv_buffer_size config) None;;
  assert_eq (socket_send_buffer_size config) None;;
  assert_eq (socket_ttl config) None;;
  assert_eq (socket_broadcast config) false.

Definition test_socket_options_custom : Test :=
  let config := Config_default in
  let config := config <| socket_recv_buffer_size := Some 65536 |> in
  let config := config <| socket_send_buffer_size := Some 32768 |> in
  let config := config <| socket_ttl := Some 64 |> in
  let config := config <| socket_broadcast := true |> in
  assert_eq (socket_recv_buffer_size config) (Some 65536);;
  assert_eq (socket_send_buffer_size config) (Some 32768);;
  assert_eq (socket_ttl config) (Some 64);;
  assert_eq (socket_broadcast config) true.

(** [Host::bind_any_with_config(config)]. *)
Definition bind_test_host (config : Config) : result ErrorKind (TestHost NoOpInterceptor) :=
  bind_any_with_config (UdpSocket0 := loopback_on 5000) system config.

Definition test_socket_options_applied : Test :=
  let config := Config_default in
  let config := config <| blocking_mode := false |> in
  let config := config <| socket_recv_buffer_size := Some 131072 |> in
  let config := config <| socket_send_buffer_size := Some 65536 |> in
  let config := config <| socket_ttl := Some 128 |> in
  let host := bind_test_host config in
  assert (is_ok host).

Definition test_socket_broadcast_option : Test :=
  let config := Config_default in
  let config := config <| blocking_mode := false |> in
  let config := config <| socket_broadcast := true |> in
  let host := bind_test_host config in
  assert (is_ok host).

Definition test_socket_options_none_uses_defaults : Test :=
  let config := Config_default in
  let config := config <| blocking_mode := false |> in
  let config := config <| socket_recv_buffer_size := (None : option Z) |> in
  let config := config <| socket_send_buffer_size := (None : option Z) |> in
  let config := config <| socket_ttl := (None : option Z) |> in
  let config := config <| socket_broadcast := false |> in
  let host := bind_test_host config in
  assert (is_ok host).

Example socket_tests_pass : failures [
  ("test_broadcast_to_no_connections", test_broadcast_to_no_connections);
  ("test_broadcast_sends_to_all_established_connections",
     test_broadcast_sends_to_all_established_connections);
  ("test_broadcast_reliable_convenience", test_broadcast_reliable_convenience);
  ("test_broadcast_unreliable_convenience", test_broadcast_unreliable_convenience);
  ("test_broadcast_with_different_delivery_guarantees",
     test_broadcast_with_different_delivery_guarantees);
  ("test_established_connections_count", test_established_connections_count);
  ("test_duplicate_peers_unlimited_by_default", test_duplicate_peers_unlimited_by_default);
  ("test_duplicate_peer_tracking", test_duplicate_peer_tracking);
  ("test_config_default_max_duplicate_peers", test_config_default_max_duplicate_peers);
  ("test_config_custom_max_duplicate_peers", test_config_custom_max_duplicate_peers);
  ("test_socket_options_default", test_socket_options_default);
  ("test_socket_options_custom", test_socket_options_custom);
  ("test_socket_options_applied", test_socket_options_applied);
  ("test_socket_broadcast_option", test_socket_broadcast_option);
  ("test_socket_options_none_uses_defaults", test_socket_options_none_uses_defaults)]%string = [].
Proof. vm_compute. reflexivity. Qed.

(* ------------------------------------------------------------------ *)
(** ** [socket.rs]: interceptors                                        *)
(* ------------------------------------------------------------------ *)

(** The counters are shared with the copy that the test keeps ([Arc<Mutex<usize>>]): it reads
    those of the interceptor in the host. *)
Record SharedCounters : Set := mkSharedCounters { sh_received : Z; sh_sent : Z }.
Definition SharedCounters_new : SharedCounters := mkSharedCounters 0 0.
Definition SharedCounters_on_receive (_addr : SocketAddr) (_data : list Z) (i : SharedCounters)
  : (bool * list Z) * SharedCounters :=
  ((true, _data), mkSharedCounters (sh_received i + 1) (sh_sent i)).
Definition SharedCounters_on_send (_addr : SocketAddr) (_data : list Z) (i : SharedCounters)
  : (bool * list Z) * SharedCounters :=
  ((true, _data), mkSharedCounters (sh_received i) (sh_sent i + 1)).
#[local] Instance SharedCounters_Interceptor : Interceptor SharedCounters := {|
  on_receive := SharedCounters_on_receive;
  on_send := SharedCounters_on_send
|}.
Definition received_count (host : TestHost SharedCounters) : Z :=
  match mg_interceptor (sm_messenger (h_handler host)) with
  | Custom i => sh_received i
  | NoOp _ => 0
  end.

(** [Host::bind_with_interceptor("127.0.0.1:0", config, Box::new(interceptor))]. *)
Definition bind_intercepted {I} (port : Z) (config : Config) (interceptor : I)
  : result ErrorKind (TestHost I) :=
  bind_with_interceptor (UdpSocket0 := loopback_on port) system (loopback 0) config interceptor.

Definition test_interceptor_creation : Test :=
  let config := Config_default in
  let interceptor := SharedCounters_new in
  let host := bind_intercepted 5000 config interceptor in
  assert (is_ok host).

(** [for i in 0..10 { server.manual_poll(now + i ms); if count > 0 { break; } }]. *)
Fixpoint poll_until_received (rounds : nat) (i : Z) (now : Instant) (server : TestHost SharedCounters)
  : option (TestHost SharedCounters) :=
  match rounds with
  | O => Some server
  | S rounds =>
      server ← manual_poll (now + from_millis i) server;
      if 0 <? received_count server then Some server
      else poll_until_received rounds (i + 1) now server
  end.

Definition test_interceptor_counts_packets : Test :=
  let config := Config_default in
  let config := config <| blocking_mode := false |> in
  let counter := SharedCounters_new in
  server ← unwrap (bind_intercepted 5000 config counter);
  server_addr ← host_addr server;
  client ← open_host 5001 config;
  let client := send_unreliable server_addr [1; 2; 3] client in
  let now := start_time in
  client ← manual_poll now client;
  server ← poll_until_received 10 0 now (carry client server);
  assert (0 <? received_count server).

Inductive DropAll : Set := mkDropAll.
Definition DropAll_on_receive (_addr : SocketAddr) (_data : list Z) (i : DropAll)
  : (bool * list Z) * DropAll := ((false, _data), i).
Definition DropAll_on_send (_addr : SocketAddr) (_data : list Z) (i : DropAll)
  : (bool * list Z) * DropAll := ((false, _data), i).
#[local] Instance DropAll_Interceptor : Interceptor DropAll := {|
  on_receive := DropAll_on_receive;
  on_send := DropAll_on_send
|}.

Definition test_interceptor_can_drop_packets : Test :=
  let config := Config_default in
  let config := config <| blocking_mode := false |> in
  server ← unwrap (bind_intercepted 5000 config mkDropAll);
  server_addr ← host_addr server;
  client ← open_host 5001 config;
  let client := send_unreliable server_addr [1; 2; 3] client in
  let now := start_time in
  client ← manual_poll now client;
  server ← manual_poll now (carry client server);
  let '(event, server) := Host_recv server in
  assert (is_none event).

Inductive XorInterceptor : Set := mkXorInterceptor.
Definition XorInterceptor_on_receive (_addr : SocketAddr) (data : list Z) (i : XorInterceptor)
  : (bool * list Z) * XorInterceptor := ((true, (fun byte => Z.lxor byte 85) <$> data), i).
Definition XorInterceptor_on_send (_addr : SocketAddr) (data : list Z) (i : XorInterceptor)
  : (bool * list Z) * XorInterceptor := ((true, (fun byte => Z.lxor byte 85) <$> data), i).
#[local] Instance XorInterceptor_Interceptor : Interceptor XorInterceptor := {|
  on_receive := XorInterceptor_on_receive;
  on_send := XorInterceptor_on_send
|}.

(** The source asserts only that nothing panics. *)
Definition test_interceptor_can_modify_packets : Test :=
  let config := Config_default in
  let config := config <| blocking_mode := false |> in
  server ← unwrap (bind_intercepted 5000 config mkXorInterceptor);
  server_addr ← host_addr server;
  client ← unwrap (bind_intercepted 5001 config mkXorInterceptor);
  let client := send_unreliable server_addr [170; 187; 204] client in
  let now := start_time in
  client ← manual_poll now client;
  server ← manual_poll now (carry client server);
  server ← manual_poll (now + from_millis 10) server;
  assert true.

Example interceptor_host_tests_pass : failures [
  ("test_interceptor_creation", test_interceptor_creation);
  ("test_interceptor_counts_packets", test_interceptor_counts_packets);
  ("test_interceptor_can_drop_packets", test_interceptor_can_drop_packets);
  ("test_interceptor_can_modify_packets", test_interceptor_can_modify_packets)]%string = [].
Proof. vm_compute. reflexivity. Qed.
