(* ===== verification/IntegrationTests.v ===== *)
(** The integration tests of the repository, [tests/integration.rs]: peers that are driven through
    the interface of the facade crate.  Each definition has the name of its test, prefixed with
    [integration_], for tests of the same name stand in the unit tests of the parts. *)

From S2P Require Import Prelude Float32 Core Buffers Packet Command PeerParts Peer Testing.
Import Externs.Sample.

(** [peer.statistics_mut().packets_sent = n] and the like. *)
Definition set_packets_sent (n : Z) (s : PeerStatistics) : PeerStatistics :=
  mkPeerStatistics n (packets_received s) (packets_lost s) (bytes_sent s) (bytes_received s).
Definition set_packets_lost (n : Z) (s : PeerStatistics) : PeerStatistics :=
  mkPeerStatistics (packets_sent s) (packets_received s) n (bytes_sent s) (bytes_received s).

(* ------------------------------------------------------------------ *)
(** ** Windows and limits                                              *)
(* ------------------------------------------------------------------ *)

Definition integration_test_unsequenced_window_wrapping : Test :=
  let peer := create_virtual_connection in
  let time := start_time in
  peer ← foldM (fun peer i =>
    let cmd := SendUnsequenced 0 (65000 + i) (SharedBytes_from_Vec [as_u8 i]) in
    '(result, peer) ← process cmd time peer;
    assert_eq (zlen result) 1;;
    Some peer) peer (seqZ 0 3);
  let cmd65500 := SendUnsequenced 0 65500 (SharedBytes_from_Vec [1]) in
  '(result1, peer) ← process cmd65500 time peer;
  assert_eq (zlen result1) 1;;
  let cmd10 := SendUnsequenced 0 10 (SharedBytes_from_Vec [2]) in
  '(result2, peer) ← process cmd10 time peer;
  assert_eq (zlen result2) 1;;
  let cmd65002 := SendUnsequenced 0 65002 (SharedBytes_from_Vec [3]) in
  '(result3, peer) ← process cmd65002 time peer;
  assert_eq (zlen result3) 0.

Definition integration_test_unsequenced_per_channel : Test :=
  let peer := create_virtual_connection in
  let time := start_time in
  let cmd_ch0 := SendUnsequenced 0 5 (SharedBytes_from_Vec [0]) in
  let cmd_ch1 := SendUnsequenced 1 5 (SharedBytes_from_Vec [1]) in
  '(result0, peer) ← process cmd_ch0 time peer;
  '(result1, peer) ← process cmd_ch1 time peer;
  assert_eq (zlen result0) 1;;
  assert_eq (zlen result1) 0.

Definition integration_test_unsequenced_end_to_end : Test :=
  let config := Config_default in
  let peer1 := new_peer config start_time in
  let peer2 := new_peer config start_time in
  let time := start_time in
  peer1 ← foldM (fun peer1 i =>
    '(group, peer1) ← run Peer_next_unsequenced_group peer1;
    enqueue (SendUnsequenced 0 group (SharedBytes_from_Vec [i])) peer1) peer1 (seqZ 0 5);
  '(encoded, peer1) ← encode peer1;
  '(packets, peer2) ← process_bytes encoded time peer2;
  assert_eq (zlen packets) 5;;
  foldM (fun _ pkt => assert_eq (pk_ordering pkt) Unsequenced) tt packets;;
  '(result2, peer2) ← process_bytes encoded time peer2;
  assert_eq (zlen result2) 0.

Definition integration_test_waiting_data_limit_drops_excess : Test :=
  let config := Config_default in
  let config := config <| max_waiting_data := 1000 |> in
  let peer := new_peer config start_time in
  peer ← enqueue (SendReliable 0 1 true (SharedBytes_from_Vec (vec 1 500))) peer;
  assert_eq (Peer_queued_commands_count peer) 1;;
  peer ← enqueue (SendReliable 0 2 true (SharedBytes_from_Vec (vec 2 500))) peer;
  assert_eq (Peer_queued_commands_count peer) 2;;
  peer ← enqueue (SendReliable 0 3 true (SharedBytes_from_Vec (vec 3 100))) peer;
  assert_eq (Peer_queued_commands_count peer) 2.

Definition integration_test_waiting_data_unlimited_when_zero : Test :=
  let config := Config_default in
  let config := config <| max_waiting_data := 0 |> in
  let peer := new_peer config start_time in
  peer ← foldM (fun peer i =>
    enqueue (SendReliable 0 i true (SharedBytes_from_Arc (vec (as_u8 i) 10000))) peer) peer (seqZ 0 100);
  assert_eq (Peer_queued_commands_count peer) 100.

Definition integration_test_waiting_data_resets_on_drain : Test :=
  let config := Config_default in
  let config := config <| max_waiting_data := 1000 |> in
  let peer := new_peer config start_time in
  peer ← enqueue (SendReliable 0 1 true (SharedBytes_from_Arc (vec 1 1000))) peer;
  assert_eq (Peer_queued_commands_count peer) 1;;
  peer ← enqueue (SendReliable 0 2 true (SharedBytes_from_Arc (vec 2 100))) peer;
  assert_eq (Peer_queued_commands_count peer) 1;;
  '(_, peer) ← drain peer;
  peer ← enqueue (SendReliable 0 3 true (SharedBytes_from_Arc (vec 3 1000))) peer;
  assert_eq (Peer_queued_commands_count peer) 1.

Definition integration_test_waiting_data_control_commands_not_counted : Test :=
  let config := Config_default in
  let config := config <| max_waiting_data := 100 |> in
  let peer := new_peer config start_time in
  peer ← enqueue (Ping 1) peer;
  peer ← enqueue (Pong 2) peer;
  peer ← enqueue (Disconnect 0) peer;
  peer ← enqueue (Acknowledge 1 255 None) peer;
  assert_eq (Peer_queued_commands_count peer) 4;;
  peer ← enqueue (SendReliable 0 1 true (SharedBytes_from_Arc (vec 1 100))) peer;
  assert_eq (Peer_queued_commands_count peer) 5.

Definition integration_test_window_flow_control_enabled : Test :=
  let config := Config_default in
  let config := config <| use_window_flow_control := true |> in
  let config := config <| initial_window_size := 100 |> in
  let peer := new_peer config start_time in
  assert_eq (Peer_window_size peer) 100;;
  assert_eq (Peer_reliable_data_in_transit peer) 0;;
  can_send ← Peer_can_send_reliable peer;
  assert can_send.

Definition integration_test_window_flow_control_tracks_in_transit_data : Test :=
  let config := Config_default in
  let config := config <| use_window_flow_control := true |> in
  let config := config <| initial_window_size := 10 |> in
  let config := config <| fragment_size := 1024 |> in
  let peer := new_peer config start_time in
  can_send ← Peer_can_send_reliable peer;
  assert can_send;;
  let peer := Peer_record_reliable_data_sent (5 * 1024) peer in
  assert_eq (Peer_reliable_data_in_transit peer) (5 * 1024);;
  can_send ← Peer_can_send_reliable peer;
  assert can_send;;
  let peer := Peer_record_reliable_data_sent (6 * 1024) peer in
  assert_eq (Peer_reliable_data_in_transit peer) (11 * 1024);;
  can_send ← Peer_can_send_reliable peer;
  assert (negb can_send);;
  let peer := Peer_record_reliable_data_acked (3 * 1024) peer in
  assert_eq (Peer_reliable_data_in_transit peer) (8 * 1024);;
  can_send ← Peer_can_send_reliable peer;
  assert can_send.

Definition integration_test_window_size_negotiation : Test :=
  let config := Config_default in
  let config := config <| use_window_flow_control := true |> in
  let config := config <| initial_window_size := 1000 |> in
  let config := config <| min_window_size := 64 |> in
  let config := config <| max_window_size := 2048 |> in
  let peer := new_peer config start_time in
  assert_eq (Peer_window_size peer) 1000;;
  '(_, peer) ← run (Peer_set_window_size 512) peer;
  assert_eq (Peer_window_size peer) 512;;
  '(_, peer) ← run (Peer_set_window_size 3000) peer;
  assert_eq (Peer_window_size peer) 2048;;
  '(_, peer) ← run (Peer_set_window_size 32) peer;
  assert_eq (Peer_window_size peer) 64.

Definition integration_test_window_adjustment_increases_on_good_conditions : Test :=
  let config := Config_default in
  let config := config <| use_window_flow_control := true |> in
  let config := config <| initial_window_size := 100 |> in
  let config := config <| max_window_size := 200 |> in
  let peer := new_peer config start_time in
  let initial_window := Peer_window_size peer in
  '(_, peer) ← run Peer_adjust_window_size peer;
  assert (initial_window <? Peer_window_size peer).

Definition integration_test_window_flow_control_disabled_uses_packet_limit : Test :=
  let config := Config_default in
  let config := config <| use_window_flow_control := false |> in
  let config := config <| max_packets_in_flight := 10 |> in
  let peer := new_peer config start_time in
  can_send ← Peer_can_send_reliable peer;
  assert can_send;;
  assert_eq (Peer_packets_in_flight peer) 0.

Example integration_tests_pass : failures [
  ("test_unsequenced_window_wrapping", integration_test_unsequenced_window_wrapping);
  ("test_unsequenced_per_channel", integration_test_unsequenced_per_channel);
  ("test_unsequenced_end_to_end", integration_test_unsequenced_end_to_end);
  ("test_waiting_data_limit_drops_excess", integration_test_waiting_data_limit_drops_excess);
  ("test_waiting_data_unlimited_when_zero", integration_test_waiting_data_unlimited_when_zero);
  ("test_waiting_data_resets_on_drain", integration_test_waiting_data_resets_on_drain);
  ("test_waiting_data_control_commands_not_counted",
     integration_test_waiting_data_control_commands_not_counted);
  ("test_window_flow_control_enabled", integration_test_window_flow_control_enabled);
  ("test_window_flow_control_tracks_in_transit_data",
     integration_test_window_flow_control_tracks_in_transit_data);
  ("test_window_size_negotiation", integration_test_window_size_negotiation);
  ("test_window_adjustment_increases_on_good_conditions",
     integration_test_window_adjustment_increases_on_good_conditions);
  ("test_window_flow_control_disabled_uses_packet_limit",
     integration_test_window_flow_control_disabled_uses_packet_limit)]%string = [].
Proof. vm_compute. reflexivity. Qed.

(* ------------------------------------------------------------------ *)
(** ** Statistics                                                      *)
(* ------------------------------------------------------------------ *)

Definition integration_test_statistics_initialized_to_zero : Test :=
  let config := Config_default in
  let peer := new_peer config start_time in
  let stats := Peer_statistics peer in
  assert_eq (packets_sent stats) 0;;
  assert_eq (packets_received stats) 0;;
  assert_eq (packets_lost stats) 0;;
  assert_eq (bytes_sent stats) 0;;
  assert_eq (bytes_received stats) 0;;
  assert (f32_eqb (PeerStatistics_packet_loss_rate stats) f32_zero).

Definition integration_test_statistics_track_packets_sent : Test :=
  let config := Config_default in
  let peer := new_peer config start_time in
  peer ← enqueue (SendReliable 0 0 true (SharedBytes_from_Vec [1; 2; 3])) peer;
  '(_, peer) ← encode peer;
  assert_eq (packets_sent (Peer_statistics peer)) 1;;
  assert (0 <? bytes_sent (Peer_statistics peer)).

Definition integration_test_statistics_track_packets_received : Test :=
  let config := Config_default in
  let peer1 := new_peer config start_time in
  let peer2 := new_peer config start_time in
  peer1 ← enqueue (SendReliable 0 0 true (SharedBytes_from_Vec [1; 2; 3; 4; 5])) peer1;
  '(encoded, peer1) ← encode peer1;
  '(_, peer2) ← process_bytes encoded start_time peer2;
  assert_eq (packets_received (Peer_statistics peer2)) 1;;
  assert_eq (bytes_received (Peer_statistics peer2)) (zlen encoded).

Definition integration_test_statistics_track_multiple_packets : Test :=
  let config := Config_default in
  let peer := new_peer config start_time in
  peer ← foldM (fun peer i =>
    peer ← enqueue (SendReliable 0 i true (SharedBytes_from_Vec [1; 2; 3])) peer;
    '(_, peer) ← encode peer;
    Some peer) peer (seqZ 0 5);
  assert_eq (packets_sent (Peer_statistics peer)) 5;;
  assert (0 <? bytes_sent (Peer_statistics peer)).

Definition integration_test_statistics_track_packet_loss : Test :=
  let config := Config_default in
  let peer := new_peer config start_time in
  let peer := Peer_statistics_mut (set_packets_lost 5) peer in
  assert_eq (packets_lost (Peer_statistics peer)) 5.

Definition integration_test_statistics_packet_loss_rate : Test :=
  let config := Config_default in
  let peer := new_peer config start_time in
  let peer := Peer_statistics_mut (set_packets_sent 100) peer in
  let peer := Peer_statistics_mut (set_packets_lost 10) peer in
  let loss_rate := PeerStatistics_packet_loss_rate (Peer_statistics peer) in
  assert (f32_ltb (f32_abs (f32_sub loss_rate (f32_lit 1 10))) (f32_lit 1 1000)).

Definition integration_test_statistics_bytes_sent_includes_overhead : Test :=
  let config := Config_default in
  let peer := new_peer config start_time in
  peer ← enqueue (SendReliable 0 0 true (SharedBytes_from_Vec [1; 2; 3])) peer;
  '(encoded, peer) ← encode peer;
  assert_eq (bytes_sent (Peer_statistics peer)) (zlen encoded);;
  assert (3 <? bytes_sent (Peer_statistics peer)).

Definition integration_test_statistics_reset : Test :=
  let config := Config_default in
  let peer := new_peer config start_time in
  peer ← enqueue (SendReliable 0 0 true (SharedBytes_from_Vec [1; 2; 3])) peer;
  '(_, peer) ← encode peer;
  assert (0 <? packets_sent (Peer_statistics peer));;
  assert (0 <? bytes_sent (Peer_statistics peer));;
  let peer := Peer_statistics_mut PeerStatistics_reset peer in
  assert_eq (packets_sent (Peer_statistics peer)) 0;;
  assert_eq (packets_received (Peer_statistics peer)) 0;;
  assert_eq (packets_lost (Peer_statistics peer)) 0;;
  assert_eq (bytes_sent (Peer_statistics peer)) 0;;
  assert_eq (bytes_received (Peer_statistics peer)) 0.

Example integration_statistics_tests_pass : failures [
  ("test_statistics_initialized_to_zero", integration_test_statistics_initialized_to_zero);
  ("test_statistics_track_packets_sent", integration_test_statistics_track_packets_sent);
  ("test_statistics_track_packets_received", integration_test_statistics_track_packets_received);
  ("test_statistics_track_multiple_packets", integration_test_statistics_track_multiple_packets);
  ("test_statistics_track_packet_loss", integration_test_statistics_track_packet_loss);
  ("test_statistics_packet_loss_rate", integration_test_statistics_packet_loss_rate);
  ("test_statistics_bytes_sent_includes_overhead",
     integration_test_statistics_bytes_sent_includes_overhead);
  ("test_statistics_reset", integration_test_statistics_reset)]%string = [].
Proof. vm_compute. reflexivity. Qed.

(* ------------------------------------------------------------------ *)
(** ** Path MTU discovery                                              *)
(* ------------------------------------------------------------------ *)

Definition integration_test_pmtu_discovery_can_be_disabled : Test :=
  let config := Config_default in
  let config := config <| use_pmtu_discovery := false |> in
  assert (negb (use_pmtu_discovery config));;
  let peer := new_peer config start_time in
  let time := start_time in
  '(_, peer) ← run (Peer_handle_pmtu time) peer;
  assert (negb (Peer_has_queued_commands peer)).

Definition integration_test_pmtu_discovery_convergence : Test :=
  let config := Config_default in
  let config := config <| use_pmtu_discovery := true |> in
  let config := config <| pmtu_min := 1200 |> in
  let config := config <| pmtu_max := 1232 |> in
  let config := config <| pmtu_converge_threshold := 64 |> in
  let peer := new_peer config start_time in
  let time := start_time in
  '(_, peer) ← run (Peer_handle_pmtu time) peer;
  assert_eq (Peer_current_fragment_size peer) (pmtu_min config).

Example integration_pmtu_tests_pass : failures [
  ("test_pmtu_discovery_can_be_disabled", integration_test_pmtu_discovery_can_be_disabled);
  ("test_pmtu_discovery_convergence", integration_test_pmtu_discovery_convergence)]%string = [].
Proof. vm_compute. reflexivity. Qed.
